(** * Demand-paged virtual memory simulator: model and verified properties

    Shallow embedding of the C++ simulators under
    [virtual_memory_simulate/]:

    - [page_swapping_simulate.cpp]: [SwapSpace], [Disk], [RAM], [MMU] and
      [VirtualMemorySystem] (LRU eviction, swap, file write-back);
    - [mmap.cpp]: the bitmap-only [RAM] allocator and the [MMU] without
      eviction;
    - [allocvm_and_loadvm_sim.cpp]: [Disk] (as [FileDisk]),
      [PhysicalMemory] and [PageTableManager] ([walkpgdir], [mappages],
      [allocuvm], [loaduvm]).

    Conventions.
    - [uint32_t] / [uint64_t] / [size_t] values are [N] with the wrap-around
      written out ([wrap32], [wrap64]).
    - [std::vector<T>] is [list T], indexed with stdpp's lookup [!!] and
      updated in place with [<[i:=x]>]; [memcpy] into a vector is
      [memcpy_into], which agrees with stdpp's [list_inserts].
    - [std::unordered_map<vpn_t, PageMetadata>] is [gmap N PageMetadata].
      Its nodes have stable addresses, so a [PageMetadata*] stored in
      [frame_to_page] is modelled by the key of the node it points to
      ([None] is [nullptr]); dereferencing a pointer whose node has been
      erased is undefined behaviour.
    - A function whose C++ execution can hit undefined behaviour returns
      [option]: [None] stands for undefined behaviour, never for an error
      the program reports.
    - The contents of an automatic array that is declared without an
      initialiser ([char buffer[PAGE_SIZE];]) are unspecified; the functions
      that declare one take those contents as the parameter [uninit]. *)

From Stdlib Require Import NArith ZArith Lia.
From Stdlib.Strings Require Import Byte.
From stdpp Require Import base option list strings gmap.

Local Open Scope N_scope.

(** ** Configuration constants and fixed-width arithmetic *)

Definition PAGE_SIZE : N := 4096.
Definition RAM_SIZE : N := 8 * PAGE_SIZE.
Definition DISK_SIZE : N := 64 * PAGE_SIZE.
Definition SWAP_SIZE : N := 32 * PAGE_SIZE.

Definition wrap32 (x : N) : N := x mod 2 ^ 32.
Definition wrap64 (x : N) : N := x mod 2 ^ 64.

(** [(pfn_t)-1] and [(swap_slot_t)-1]: the "nothing found" sentinel. *)
Definition NO_PAGE : N := 4294967295.
Definition UINT64_MAX : N := 18446744073709551615.

(** The page of bytes a [memcpy (dst, src, PAGE_SIZE)] reads from a buffer. *)
Definition page_of (buffer : list byte) : list byte :=
  take (N.to_nat PAGE_SIZE) buffer.

(** [memcpy (buffer, &v[offset], PAGE_SIZE)]. *)
Definition load_page (v : list byte) (offset : N) : list byte :=
  take (N.to_nat PAGE_SIZE) (drop (N.to_nat offset) v).

(** [memcpy (&v[offset], data, data.size())] for a destination range that
    lies inside the vector [v]; bytes that would fall past its end are
    dropped (the callers check the range first, or treat the overrun as
    undefined behaviour). *)
Definition memcpy_into (v : list byte) (offset : nat) (data : list byte) : list byte :=
  take offset v ++ take (length v - offset) data ++ drop (offset + length data) v.

(** [memcpy (&v[offset], buffer, PAGE_SIZE)]. *)
Definition store_page (v : list byte) (offset : N) (buffer : list byte) : list byte :=
  memcpy_into v (N.to_nat offset) (page_of buffer).

(** First-fit scan [for (i = 0; i < v.size(); i++) if (!v[i]) ...]. *)
Definition first_free (v : list bool) : option nat :=
  fst <$> list_find (λ b : bool, b = false) v.

(** ** Page metadata *)

Record PageMetadata := mkPageMetadata {
  present : bool;
  dirty : bool;
  accessed : bool;
  file_backed : bool;
  swapped : bool;
  physical_page : N;
  disk_page : N;
  swap_slot : N;
  last_access : N;
  virtual_page : N
}.

(** The default constructor [PageMetadata()]. *)
Definition PageMetadata_new : PageMetadata :=
  mkPageMetadata false false false false false 0 0 0 0 0.

Definition set_present (b : bool) (p : PageMetadata) : PageMetadata :=
  mkPageMetadata b (dirty p) (accessed p) (file_backed p) (swapped p)
    (physical_page p) (disk_page p) (swap_slot p) (last_access p) (virtual_page p).
Definition set_dirty (b : bool) (p : PageMetadata) : PageMetadata :=
  mkPageMetadata (present p) b (accessed p) (file_backed p) (swapped p)
    (physical_page p) (disk_page p) (swap_slot p) (last_access p) (virtual_page p).
Definition set_accessed (b : bool) (p : PageMetadata) : PageMetadata :=
  mkPageMetadata (present p) (dirty p) b (file_backed p) (swapped p)
    (physical_page p) (disk_page p) (swap_slot p) (last_access p) (virtual_page p).
Definition set_file_backed (b : bool) (p : PageMetadata) : PageMetadata :=
  mkPageMetadata (present p) (dirty p) (accessed p) b (swapped p)
    (physical_page p) (disk_page p) (swap_slot p) (last_access p) (virtual_page p).
Definition set_swapped (b : bool) (p : PageMetadata) : PageMetadata :=
  mkPageMetadata (present p) (dirty p) (accessed p) (file_backed p) b
    (physical_page p) (disk_page p) (swap_slot p) (last_access p) (virtual_page p).
Definition set_physical_page (n : N) (p : PageMetadata) : PageMetadata :=
  mkPageMetadata (present p) (dirty p) (accessed p) (file_backed p) (swapped p)
    n (disk_page p) (swap_slot p) (last_access p) (virtual_page p).
Definition set_disk_page (n : N) (p : PageMetadata) : PageMetadata :=
  mkPageMetadata (present p) (dirty p) (accessed p) (file_backed p) (swapped p)
    (physical_page p) n (swap_slot p) (last_access p) (virtual_page p).
Definition set_swap_slot (n : N) (p : PageMetadata) : PageMetadata :=
  mkPageMetadata (present p) (dirty p) (accessed p) (file_backed p) (swapped p)
    (physical_page p) (disk_page p) n (last_access p) (virtual_page p).
Definition set_last_access (n : N) (p : PageMetadata) : PageMetadata :=
  mkPageMetadata (present p) (dirty p) (accessed p) (file_backed p) (swapped p)
    (physical_page p) (disk_page p) (swap_slot p) n (virtual_page p).
Definition set_virtual_page (n : N) (p : PageMetadata) : PageMetadata :=
  mkPageMetadata (present p) (dirty p) (accessed p) (file_backed p) (swapped p)
    (physical_page p) (disk_page p) (swap_slot p) (last_access p) n.

(** ** [class SwapSpace] *)

Module SwapSpace.

Record t := mk {
  swap_storage : list byte;
  allocated_slots : list bool
}.

Definition init : t :=
  mk (replicate (N.to_nat SWAP_SIZE) x00)
     (replicate (N.to_nat (SWAP_SIZE / PAGE_SIZE)) false).

Definition size (s : t) : N := N.of_nat (length (allocated_slots s)).

Definition allocate_slot (s : t) : N * t :=
  match first_free (allocated_slots s) with
  | Some i => (wrap32 (N.of_nat i),
               mk (swap_storage s) (<[i := true]> (allocated_slots s)))
  | None => (NO_PAGE, s)
  end.

Definition free_slot (s : t) (slot : N) : t :=
  if slot <? size s
  then mk (swap_storage s) (<[N.to_nat slot := false]> (allocated_slots s))
  else s.

Definition write_page (s : t) (slot : N) (data : list byte) : t :=
  if slot <? size s
  then mk (store_page (swap_storage s) (slot * PAGE_SIZE) data) (allocated_slots s)
  else s.

(** Returns the new contents of [buffer]. *)
Definition read_page (s : t) (slot : N) (buffer : list byte) : list byte :=
  if slot <? size s
  then load_page (swap_storage s) (slot * PAGE_SIZE)
  else buffer.

End SwapSpace.

(** ** [class Disk] *)

Module Disk.

Record t := mk { storage : list byte }.

Definition init : t := mk (replicate (N.to_nat DISK_SIZE) x00).

Definition read_page (d : t) (page_num : N) (buffer : list byte) : list byte :=
  let offset := page_num * PAGE_SIZE in
  if offset + PAGE_SIZE <=? DISK_SIZE
  then load_page (storage d) offset
  else buffer.

Definition write_page (d : t) (page_num : N) (buffer : list byte) : t :=
  let offset := page_num * PAGE_SIZE in
  if offset + PAGE_SIZE <=? DISK_SIZE
  then mk (store_page (storage d) offset buffer)
  else d.

(** [write_file]: the file is laid out from disk page 0; the last page
    copies only the remaining bytes. *)
Fixpoint write_file_loop (n : nat) (i : N) (st data : list byte) : list byte :=
  match n with
  | O => st
  | S n' =>
      if i * PAGE_SIZE <? DISK_SIZE
      then write_file_loop n' (i + 1)
             (memcpy_into st (N.to_nat (i * PAGE_SIZE))
                (take (N.to_nat PAGE_SIZE) (drop (N.to_nat (i * PAGE_SIZE)) data)))
             data
      else st
  end.

Definition write_file (d : t) (data : list byte) : t :=
  let size := N.of_nat (length data) in
  let pages_needed := wrap64 (size + PAGE_SIZE - 1) / PAGE_SIZE in
  mk (write_file_loop (N.to_nat pages_needed) 0 (storage d) data).

End Disk.

(** ** [class RAM] of [page_swapping_simulate.cpp] *)

Module RAM.

Record t := mk {
  memory : list byte;
  frame_to_page : list (option N);
  allocated : list bool
}.

Definition init : t :=
  mk (replicate (N.to_nat RAM_SIZE) x00)
     (replicate (N.to_nat (RAM_SIZE / PAGE_SIZE)) None)
     (replicate (N.to_nat (RAM_SIZE / PAGE_SIZE)) false).

Definition size (r : t) : N := N.of_nat (length (allocated r)).

Definition allocate_page (r : t) (page_meta : option N) : N * t :=
  match first_free (allocated r) with
  | Some i => (wrap32 (N.of_nat i),
               mk (memory r) (<[i := page_meta]> (frame_to_page r))
                  (<[i := true]> (allocated r)))
  | None => (NO_PAGE, r)
  end.

Definition free_page (r : t) (page_num : N) : t :=
  if page_num <? size r
  then mk (memory r) (<[N.to_nat page_num := None]> (frame_to_page r))
          (<[N.to_nat page_num := false]> (allocated r))
  else r.

(** [char*] into [memory] as an offset; [None] is [nullptr]. *)
Definition get_page_ptr (r : t) (page_num : N) : option N :=
  if page_num <? size r then Some (page_num * PAGE_SIZE) else None.

Definition read_page (r : t) (page_num : N) (buffer : list byte) : list byte :=
  match get_page_ptr r page_num with
  | Some page_ptr => load_page (memory r) page_ptr
  | None => buffer
  end.

Definition write_page (r : t) (page_num : N) (buffer : list byte) : t :=
  match get_page_ptr r page_num with
  | Some page_ptr =>
      mk (store_page (memory r) page_ptr buffer) (frame_to_page r) (allocated r)
  | None => r
  end.

Definition get_page_metadata (r : t) (frame_num : N) : option N :=
  if frame_num <? N.of_nat (length (frame_to_page r))
  then default None (frame_to_page r !! N.to_nat frame_num)
  else None.

(** The body of the scan loop of [find_lru_page] at index [i].  [heap] is
    the page table whose nodes the stored pointers refer to. *)
Definition lru_step (heap : gmap N PageMetadata) (r : t) (i : nat)
    (acc : N * N) : option (N * N) :=
  match allocated r !! i, frame_to_page r !! i with
  | Some true, Some (Some p) =>
      meta ← heap !! p;
      if last_access meta <? acc.1
      then Some (last_access meta, wrap32 (N.of_nat i))
      else Some acc
  | Some _, Some _ => Some acc
  | _, _ => None
  end.

Fixpoint lru_loop (heap : gmap N PageMetadata) (r : t) (idx : list nat)
    (acc : N * N) : option (N * N) :=
  match idx with
  | [] => Some acc
  | i :: idx' => acc' ← lru_step heap r i acc; lru_loop heap r idx' acc'
  end.

Definition find_lru_page (heap : gmap N PageMetadata) (r : t) : option N :=
  snd <$> lru_loop heap r (seq 0 (length (frame_to_page r))) (UINT64_MAX, NO_PAGE).

Definition get_free_frames (r : t) : N :=
  N.of_nat (length (filter (λ b : bool, b = false) (allocated r))).

End RAM.

(** ** [class RAM] of [mmap.cpp]: a bare bitmap, no back references *)

Module MmapSim.

Record RAM := mkRAM {
  memory : list byte;
  allocated : list bool
}.

Definition RAM_init : RAM :=
  mkRAM (replicate (N.to_nat (16 * PAGE_SIZE)) x00) (replicate 16 false).

Definition allocate_page (r : RAM) : N * RAM :=
  match first_free (allocated r) with
  | Some i => (wrap32 (N.of_nat i), mkRAM (memory r) (<[i := true]> (allocated r)))
  | None => (NO_PAGE, r)
  end.

Definition free_page (r : RAM) (page_num : N) : RAM :=
  if page_num <? N.of_nat (length (allocated r))
  then mkRAM (memory r) (<[N.to_nat page_num := false]> (allocated r))
  else r.

End MmapSim.

(** ** [class MMU] of [mmap.cpp]: demand paging without eviction

    The RAM of [mmap.cpp] has 16 frames and keeps no back references; its
    disk is the [Disk] class above, line for line.  [handle_page_fault]
    reaches the entry through [page_table[virtual_page]], which inserts a
    default-constructed entry when the page has none. *)

Module MmapMMU.

Record PageTableEntry := mkPageTableEntry {
  physical_page : N;
  present : bool;
  dirty : bool;
  file_backed : bool;
  disk_page : N
}.

Definition PageTableEntry_new : PageTableEntry :=
  mkPageTableEntry 0 false false false 0.

Definition get_page_ptr (r : MmapSim.RAM) (page_num : N) : option N :=
  if page_num <? N.of_nat (length (MmapSim.allocated r))
  then Some (page_num * PAGE_SIZE) else None.

Definition read_page (r : MmapSim.RAM) (page_num : N) (buffer : list byte) : list byte :=
  match get_page_ptr r page_num with
  | Some page_ptr => load_page (MmapSim.memory r) page_ptr
  | None => buffer
  end.

Definition write_page (r : MmapSim.RAM) (page_num : N) (buffer : list byte)
    : MmapSim.RAM :=
  match get_page_ptr r page_num with
  | Some page_ptr =>
      MmapSim.mkRAM (store_page (MmapSim.memory r) page_ptr buffer) (MmapSim.allocated r)
  | None => r
  end.

Record t := mk {
  page_table : gmap N PageTableEntry;
  ram : MmapSim.RAM;
  disk : Disk.t;
  next_disk_page : N
}.

Definition init : t := mk ∅ MmapSim.RAM_init Disk.init 0.

Section WithUninit.

Variable uninit : list byte.

Definition handle_page_fault (m : t) (virtual_page : N) : bool * t :=
  let pte := default PageTableEntry_new (page_table m !! virtual_page) in
  let pt0 := <[virtual_page := pte]> (page_table m) in
  let '(phys_page, r1) := MmapSim.allocate_page (ram m) in
  if phys_page =? NO_PAGE then (false, mk pt0 r1 (disk m) (next_disk_page m))
  else
    let buffer :=
      if file_backed pte then Disk.read_page (disk m) (disk_page pte) uninit
      else replicate (N.to_nat PAGE_SIZE) x00 in
    let r2 := write_page r1 phys_page buffer in
    let pte' := mkPageTableEntry phys_page true (dirty pte) (file_backed pte)
                  (disk_page pte) in
    (true, mk (<[virtual_page := pte']> pt0) r2 (disk m) (next_disk_page m)).

(** [None] in the result is [nullptr]; [nullptr + page_offset] with a
    non-zero offset is undefined. *)
Definition translate_address (m : t) (virtual_addr : N) : option (option N * t) :=
  let virtual_page := wrap32 (virtual_addr / PAGE_SIZE) in
  let page_offset := virtual_addr mod PAGE_SIZE in
  match page_table m !! virtual_page with
  | None => Some (None, m)
  | Some pte =>
      let '(ok, m1) :=
        if present pte then (true, m) else handle_page_fault m virtual_page in
      if negb ok then Some (None, m1)
      else
        pte1 ← page_table m1 !! virtual_page;
        match get_page_ptr (ram m1) (physical_page pte1) with
        | Some phys_addr => Some (Some (phys_addr + page_offset), m1)
        | None => if page_offset =? 0 then Some (None, m1) else None
        end
  end.

Definition map_page (start_page : N) (fb : bool) (disk_start : N) (i : N) (m : t) : t :=
  let virtual_page := wrap32 (start_page + i) in
  let pte := mkPageTableEntry 0 false false fb
               (if fb then wrap32 (disk_start + i) else 0) in
  mk (<[virtual_page := pte]> (page_table m)) (ram m) (disk m) (next_disk_page m).

Fixpoint map_pages_loop (n : nat) (i : N) (start_page : N) (fb : bool)
    (disk_start : N) (m : t) : t :=
  match n with
  | O => m
  | S n' => map_pages_loop n' (i + 1) start_page fb disk_start
              (map_page start_page fb disk_start i m)
  end.

Definition map_pages (m : t) (start_page num_pages : N) (fb : bool) (disk_start : N)
    : bool * t :=
  (true, map_pages_loop (N.to_nat num_pages) 0 start_page fb disk_start m).

Definition unmap_page (m : t) (virtual_page : N) : t :=
  match page_table m !! virtual_page with
  | None => m
  | Some pte =>
      let '(r, d) :=
        if present pte then
          let d :=
            if dirty pte && file_backed pte then
              Disk.write_page (disk m) (disk_page pte)
                (read_page (ram m) (physical_page pte) uninit)
            else disk m in
          (MmapSim.free_page (ram m) (physical_page pte), d)
        else (ram m, disk m) in
      mk (delete virtual_page (page_table m)) r d (next_disk_page m)
  end.

Fixpoint unmap_pages_loop (n : nat) (i : N) (start_page : N) (m : t) : t :=
  match n with
  | O => m
  | S n' => unmap_pages_loop n' (i + 1) start_page (unmap_page m (wrap32 (start_page + i)))
  end.

Definition unmap_pages (m : t) (start_page num_pages : N) : bool * t :=
  (true, unmap_pages_loop (N.to_nat num_pages) 0 start_page m).

(** [write_memory]: [memcpy] through the translated pointer; writing past
    the end of [RAM::memory] is undefined. *)
Definition write_memory (m : t) (addr : N) (data : list byte) : option t :=
  '(phys_addr, m1) ← translate_address m addr;
  match phys_addr with
  | Some pa =>
      let r := ram m1 in
      if pa + N.of_nat (length data) <=? N.of_nat (length (MmapSim.memory r)) then
        Some (mk (page_table m1)
                 (MmapSim.mkRAM (memcpy_into (MmapSim.memory r) (N.to_nat pa) data)
                    (MmapSim.allocated r))
                 (disk m1) (next_disk_page m1))
      else None
  | None => Some m1
  end.

End WithUninit.

(** Operations of the simulator: the public methods of [MMU], a write
    through [VirtualMemorySystem::write_memory], and [create_file]. *)
Inductive op :=
  | OpMap (start_page num_pages : N) (file_backed : bool) (disk_start : N)
  | OpUnmap (start_page num_pages : N)
  | OpTranslate (virtual_addr : N)
  | OpFault (virtual_page : N)
  | OpWrite (addr : N) (data : list byte)
  | OpCreateFile (content : list byte).

Definition step (uninit : list byte) (m : t) (o : op) : option t :=
  match o with
  | OpMap start_page num_pages fb disk_start =>
      Some (map_pages m start_page num_pages fb disk_start).2
  | OpUnmap start_page num_pages => Some (unmap_pages uninit m start_page num_pages).2
  | OpTranslate virtual_addr => snd <$> translate_address uninit m virtual_addr
  | OpFault virtual_page => Some (handle_page_fault uninit m virtual_page).2
  | OpWrite addr data => write_memory uninit m addr data
  | OpCreateFile content =>
      Some (mk (page_table m) (ram m) (Disk.write_file (disk m) content)
               (next_disk_page m))
  end.

Fixpoint run (uninit : list byte) (ops : list op) (m : t) : option t :=
  match ops with
  | [] => Some m
  | o :: ops' => m' ← step uninit m o; run uninit ops' m'
  end.

Definition is_create_file (o : op) : bool :=
  match o with OpCreateFile _ => true | _ => false end.

End MmapMMU.

(** ** [class MMU]

    The MMU holds references to the [RAM], [Disk] and [SwapSpace] objects
    owned by the enclosing [VirtualMemorySystem]; nothing else mutates them
    between MMU calls, so they are fields of the MMU state here. *)

Module MMU.

Record t := mk {
  page_table : gmap N PageMetadata;
  ram : RAM.t;
  disk : Disk.t;
  swap_space : SwapSpace.t;
  next_disk_page : N;
  current_time : N
}.

Definition init : t := mk ∅ RAM.init Disk.init SwapSpace.init 0 0.

Definition with_page_table (pt : gmap N PageMetadata) (m : t) : t :=
  mk pt (ram m) (disk m) (swap_space m) (next_disk_page m) (current_time m).
Definition with_ram (r : RAM.t) (m : t) : t :=
  mk (page_table m) r (disk m) (swap_space m) (next_disk_page m) (current_time m).
Definition with_disk (d : Disk.t) (m : t) : t :=
  mk (page_table m) (ram m) d (swap_space m) (next_disk_page m) (current_time m).
Definition with_swap_space (s : SwapSpace.t) (m : t) : t :=
  mk (page_table m) (ram m) (disk m) s (next_disk_page m) (current_time m).
Definition with_current_time (c : N) (m : t) : t :=
  mk (page_table m) (ram m) (disk m) (swap_space m) (next_disk_page m) c.

(** A write [p->field = ...] through a pointer (or reference) to the node
    of key [p]. *)
Definition update_meta (p : N) (f : PageMetadata → PageMetadata) (m : t) : t :=
  with_page_table (alter f p (page_table m)) m.

(** [victim_meta->swap_slot = swap_space.allocate_slot();
     victim_meta->swapped = true;]  The result of [allocate_slot] is stored
    unchecked.  Returns the slot now held in [victim_meta->swap_slot]. *)
Definition assign_swap_slot (victim : N) (m : t) : N * t :=
  let '(slot, sw) := SwapSpace.allocate_slot (swap_space m) in
  (slot, update_meta victim (λ p, set_swapped true (set_swap_slot slot p))
           (with_swap_space sw m)).

Section WithUninit.

(** Contents of an uninitialised [char buffer[PAGE_SIZE]]. *)
Variable uninit : list byte.

(** The write-back statement of [evict_page]
    ([if (victim_meta->dirty) ... else if (!file_backed && !swapped) ...]);
    [victim] is the pointer [victim_meta] and [victim_meta] the node it
    points to on entry. *)
Definition write_back (m : t) (victim victim_frame : N) (victim_meta : PageMetadata) : t :=
  if dirty victim_meta then
    let buffer := RAM.read_page (ram m) victim_frame uninit in
    if file_backed victim_meta then
      with_disk (Disk.write_page (disk m) (disk_page victim_meta) buffer) m
    else
      let '(slot, m') :=
        if swapped victim_meta then (swap_slot victim_meta, m)
        else assign_swap_slot victim m in
      with_swap_space (SwapSpace.write_page (swap_space m') slot buffer) m'
  else if negb (file_backed victim_meta) && negb (swapped victim_meta) then
    let '(slot, m') := assign_swap_slot victim m in
    let buffer := RAM.read_page (ram m') victim_frame uninit in
    with_swap_space (SwapSpace.write_page (swap_space m') slot buffer) m'
  else m.

Definition evict_page (m : t) : option (N * t) :=
  victim_frame ← RAM.find_lru_page (page_table m) (ram m);
  if victim_frame =? NO_PAGE then Some (NO_PAGE, m) else
  match RAM.get_page_metadata (ram m) victim_frame with
  | None => Some (NO_PAGE, m)
  | Some victim =>
      victim_meta ← page_table m !! victim;
      let m1 := write_back m victim victim_frame victim_meta in
      let m2 :=
        update_meta victim
          (λ p, set_physical_page 0 (set_dirty false (set_present false p))) m1 in
      Some (victim_frame, with_ram (RAM.free_page (ram m2) victim_frame) m2)
  end.

(** The frame-acquisition prefix of [handle_page_fault]: [None] in the
    result stands for the early [return false]. *)
Definition acquire_frame (m : t) (virtual_page : N) : option (option N * t) :=
  let '(phys_page, r1) := RAM.allocate_page (ram m) (Some virtual_page) in
  let m1 := with_ram r1 m in
  if phys_page =? NO_PAGE then
    '(victim, m2) ← evict_page m1;
    if victim =? NO_PAGE then Some (None, m2)
    else
      let r3 := RAM.free_page (ram m2) victim in
      let '(phys_page', r4) := RAM.allocate_page r3 (Some virtual_page) in
      Some (Some phys_page', with_ram r4 m2)
  else Some (Some phys_page, m1).

(** The "load page content" part of [handle_page_fault]: the buffer that
    is copied into the frame, and the state after the swap slot (if any)
    has been released. *)
Definition load_content (m : t) (virtual_page : N) (pte : PageMetadata) : list byte * t :=
  if swapped pte then
    (SwapSpace.read_page (swap_space m) (swap_slot pte) uninit,
     update_meta virtual_page (set_swapped false)
       (with_swap_space (SwapSpace.free_slot (swap_space m) (swap_slot pte)) m))
  else if file_backed pte then
    (Disk.read_page (disk m) (disk_page pte) uninit, m)
  else
    (replicate (N.to_nat PAGE_SIZE) x00, m).

Definition handle_page_fault (m : t) (virtual_page : N) : option (bool * t) :=
  match page_table m !! virtual_page with
  | None => Some (false, m)
  | Some _ =>
      '(got, m2) ← acquire_frame m virtual_page;
      match got with
      | None => Some (false, m2)
      | Some phys_page =>
          pte ← page_table m2 !! virtual_page;
          let '(buffer, m3) := load_content m2 virtual_page pte in
          let m4 := with_ram (RAM.write_page (ram m3) phys_page buffer) m3 in
          let now := wrap64 (current_time m4 + 1) in
          Some (true,
                update_meta virtual_page
                  (λ p, set_last_access now
                          (set_present true (set_physical_page phys_page p)))
                  (with_current_time now m4))
      end
  end.

(** The returned [char*] is an offset into [RAM::memory]; [None] is
    [nullptr].  [nullptr + page_offset] with a non-zero offset is undefined. *)
Definition translate_address (m : t) (virtual_addr : N) (write_access : bool)
    : option (option N * t) :=
  let virtual_page := wrap32 (virtual_addr / PAGE_SIZE) in
  let page_offset := virtual_addr mod PAGE_SIZE in
  match page_table m !! virtual_page with
  | None => Some (None, m)
  | Some pte =>
      '(ok, m1) ← (if present pte then Some (true, m)
                   else handle_page_fault m virtual_page);
      if negb ok then Some (None, m1)
      else
        let now := wrap64 (current_time m1 + 1) in
        let m2 :=
          update_meta virtual_page
            (λ p, let p' := set_accessed true (set_last_access now p) in
                  if write_access then set_dirty true p' else p')
            (with_current_time now m1) in
        pte2 ← page_table m2 !! virtual_page;
        match RAM.get_page_ptr (ram m2) (physical_page pte2) with
        | Some phys_addr => Some (Some (phys_addr + page_offset), m2)
        | None => if page_offset =? 0 then Some (None, m2) else None
        end
  end.

(** One iteration of the loop of [map_pages]: [page_table[virtual_page] = pte]
    assigns over an existing node as well as creating a new one. *)
Definition map_page (start_page : N) (file_backed : bool) (disk_start : N)
    (i : N) (m : t) : t :=
  let virtual_page := wrap32 (start_page + i) in
  let pte := set_virtual_page virtual_page (set_file_backed file_backed PageMetadata_new) in
  let pte := if file_backed then set_disk_page (wrap32 (disk_start + i)) pte else pte in
  with_page_table (<[virtual_page := pte]> (page_table m)) m.

Fixpoint map_pages_loop (n : nat) (i : N) (start_page : N) (file_backed : bool)
    (disk_start : N) (m : t) : t :=
  match n with
  | O => m
  | S n' =>
      map_pages_loop n' (i + 1) start_page file_backed disk_start
        (map_page start_page file_backed disk_start i m)
  end.

Definition map_pages (m : t) (start_page num_pages : N) (file_backed : bool)
    (disk_start : N) : bool * t :=
  (true, map_pages_loop (N.to_nat num_pages) 0 start_page file_backed disk_start m).

(** One iteration of the loop of [unmap_pages]. *)
Definition unmap_page (m : t) (virtual_page : N) : t :=
  match page_table m !! virtual_page with
  | None => m
  | Some pte =>
      let m1 :=
        if present pte then
          let m' :=
            if dirty pte && file_backed pte then
              let buffer := RAM.read_page (ram m) (physical_page pte) uninit in
              with_disk (Disk.write_page (disk m) (disk_page pte) buffer) m
            else m in
          with_ram (RAM.free_page (ram m') (physical_page pte)) m'
        else m in
      let m2 :=
        if swapped pte then
          with_swap_space (SwapSpace.free_slot (swap_space m1) (swap_slot pte)) m1
        else m1 in
      with_page_table (delete virtual_page (page_table m2)) m2
  end.

Fixpoint unmap_pages_loop (n : nat) (i : N) (start_page : N) (m : t) : t :=
  match n with
  | O => m
  | S n' => unmap_pages_loop n' (i + 1) start_page (unmap_page m (wrap32 (start_page + i)))
  end.

Definition unmap_pages (m : t) (start_page num_pages : N) : bool * t :=
  (true, unmap_pages_loop (N.to_nat num_pages) 0 start_page m).

End WithUninit.
End MMU.

(** ** [class VirtualMemorySystem] *)

Module VirtualMemorySystem.

Record t := mk {
  mmu : MMU.t;
  next_virtual_addr : N
}.

Definition init : t := mk MMU.init 268435456.

Definition pages_needed (length : N) : N := wrap64 (length + PAGE_SIZE - 1) / PAGE_SIZE.

(** [off_t offset] divided by the unsigned [PAGE_SIZE] is converted to
    [size_t] first. *)
Definition disk_start_of (offset : Z) : N :=
  wrap32 (Z.to_N (offset mod 2 ^ 64) / PAGE_SIZE).

(** [addr], [prot] and [flags] are ignored by the source and dropped here.
    The result is the returned [void*] as an address. *)
Definition mmap (s : t) (length : N) (fd : Z) (offset : Z) : N * t :=
  let virtual_addr := next_virtual_addr s in
  let start_page := wrap32 (virtual_addr / PAGE_SIZE) in
  let file_backed := negb (fd =? -1)%Z in
  let disk_start := if file_backed then disk_start_of offset else 0 in
  let '(ok, m) := MMU.map_pages (mmu s) start_page (pages_needed length) file_backed disk_start in
  if ok then (virtual_addr, mk m (wrap64 (next_virtual_addr s + pages_needed length * PAGE_SIZE)))
  else (0, mk m (next_virtual_addr s)).

Section WithUninit.

Variable uninit : list byte.

Definition munmap (s : t) (addr length : N) : Z * t :=
  let start_page := wrap32 (addr / PAGE_SIZE) in
  let '(ok, m) := MMU.unmap_pages uninit (mmu s) start_page (pages_needed length) in
  ((if ok then 0 else -1)%Z, mk m (next_virtual_addr s)).

(** [memcpy (phys_addr, data, size)] into [RAM::memory]; writing past the
    end of the vector is undefined. *)
Definition write_memory (s : t) (addr : N) (data : list byte) : option t :=
  '(phys_addr, m) ← MMU.translate_address uninit (mmu s) addr true;
  match phys_addr with
  | Some pa =>
      let r := MMU.ram m in
      if pa + N.of_nat (length data) <=? N.of_nat (length (RAM.memory r)) then
        Some (mk (MMU.with_ram
                    (RAM.mk (memcpy_into (RAM.memory r) (N.to_nat pa) data)
                            (RAM.frame_to_page r) (RAM.allocated r)) m)
                 (next_virtual_addr s))
      else None
  | None => Some (mk m (next_virtual_addr s))
  end.

(** Returns the bytes copied into the caller's buffer, [None] when the
    translation failed ("Read failed"). *)
Definition read_memory (s : t) (addr : N) (size : N) : option (option (list byte) * t) :=
  '(phys_addr, m) ← MMU.translate_address uninit (mmu s) addr false;
  match phys_addr with
  | Some pa =>
      let r := MMU.ram m in
      if pa + size <=? N.of_nat (length (RAM.memory r)) then
        Some (Some (take (N.to_nat size) (drop (N.to_nat pa) (RAM.memory r))),
              mk m (next_virtual_addr s))
      else None
  | None => Some (None, mk m (next_virtual_addr s))
  end.

End WithUninit.

Definition create_file (s : t) (content : list byte) : t :=
  mk (MMU.with_disk (Disk.write_file (MMU.disk (mmu s)) content) (mmu s))
     (next_virtual_addr s).

End VirtualMemorySystem.

(** ** [PhysicalMemory] and [PageTableManager] of [allocvm_and_loadvm_sim.cpp]

    All addresses and entries are [uint32_t]; a page is a vector of
    [PAGE_SIZE] bytes ([uint8_t], values below 256). *)

Module FileDisk.

(** [class Disk] of this file: named files, each a vector of bytes. *)
Definition t := gmap string (list N).

Definition create_file (d : t) (filename : string) (data : list N) : t :=
  <[filename := data]> d.

(** The [int] a [uint32_t] converts to. *)
Definition to_int (x : N) : Z :=
  if x <? 2 ^ 31 then Z.of_N x else (Z.of_N x - 2 ^ 32)%Z.

(** Returns the status and the new contents of [buffer].  The sum
    [offset + size] of the range check is computed in [uint32_t]; when it
    wraps, the check can pass for a range that lies outside the file, and
    the [memcpy] then reads past the end of the vector, which is undefined
    ([None]). *)
Definition read_file (d : t) (filename : string) (buffer : list N) (offset size : N)
    : option (Z * list N) :=
  match d !! filename with
  | None => Some ((-1)%Z, buffer)
  | Some file =>
      if N.of_nat (length file) <? wrap32 (offset + size) then Some ((-1)%Z, buffer)
      else if offset + size <=? N.of_nat (length file) then
        Some (to_int size,
              take (N.to_nat size) (drop (N.to_nat offset) file)
              ++ drop (N.to_nat size) buffer)
      else None
  end.

Definition file_exists (d : t) (filename : string) : bool :=
  bool_decide (is_Some (d !! filename)).

Definition file_size (d : t) (filename : string) : N :=
  match d !! filename with
  | None => 0
  | Some file => N.of_nat (length file)
  end.

End FileDisk.

Module PhysicalMemory.

Record t := mk {
  pages : gmap N (list N);
  next_free_page : N
}.

Definition init : t := mk ∅ 1048576.

(** [phys_addr & ~PAGE_MASK] and [phys_addr & PAGE_MASK]. *)
Definition page_base (phys_addr : N) : N := N.land phys_addr 4294963200.
Definition page_off (phys_addr : N) : N := N.land phys_addr 4095.

Definition kalloc (pm : t) : N * t :=
  let page_addr := next_free_page pm in
  (page_addr,
   mk (<[page_addr := replicate (N.to_nat PAGE_SIZE) 0]> (pages pm))
      (wrap32 (next_free_page pm + PAGE_SIZE))).

(** [pages[page_addr][offset]]: every stored page has [PAGE_SIZE] bytes and
    [offset < PAGE_SIZE], so the index is always in range. *)
Definition read_byte (pm : t) (phys_addr : N) : N :=
  match pages pm !! page_base phys_addr with
  | None => 0
  | Some pg => default 0 (pg !! N.to_nat (page_off phys_addr))
  end.

Definition write_byte (pm : t) (phys_addr value : N) : t :=
  match pages pm !! page_base phys_addr with
  | None => pm
  | Some pg =>
      mk (<[page_base phys_addr := <[N.to_nat (page_off phys_addr) := value]> pg]> (pages pm))
         (next_free_page pm)
  end.

Definition write_uint32 (pm : t) (phys_addr value : N) : t :=
  foldl (λ pm' i, write_byte pm' (wrap32 (phys_addr + i))
                    (N.land (N.shiftr value (i * 8)) 255))
        pm [0; 1; 2; 3].

Definition read_uint32 (pm : t) (phys_addr : N) : N :=
  foldl (λ value i, N.lor value
                      (wrap32 (N.shiftl (read_byte pm (wrap32 (phys_addr + i))) (i * 8))))
        0 [0; 1; 2; 3].

Definition kfree (pm : t) (page_addr : N) : t :=
  match pages pm !! page_addr with
  | Some _ => mk (delete page_addr (pages pm)) (next_free_page pm)
  | None => pm
  end.

(** [phys_addr + i] is computed in [size_t] and converted to [uint32_t]
    at the call of [write_byte] or [read_byte]. *)
Fixpoint write_block_loop (pm : t) (phys_addr i : N) (data : list N) : t :=
  match data with
  | [] => pm
  | b :: data' =>
      write_block_loop (write_byte pm (wrap32 (phys_addr + i)) b) phys_addr (i + 1) data'
  end.

Definition write_block (pm : t) (phys_addr : N) (data : list N) : t :=
  write_block_loop pm phys_addr 0 data.

Definition read_block (pm : t) (phys_addr : N) (size : nat) : list N :=
  map (λ i, read_byte pm (wrap32 (phys_addr + N.of_nat i))) (seq 0 size).

End PhysicalMemory.

Module PageTableManager.

Definition PTE_PRESENT : N := 1.
Definition PTE_WRITE : N := 2.
Definition PTE_USER : N := 4.

Definition PDX (va : N) : N := N.land (N.shiftr va 22) 1023.
Definition PTX (va : N) : N := N.land (N.shiftr va 12) 1023.
Definition PTE_ADDR (pte : N) : N := N.land pte 4294963200.
Definition PGROUNDDOWN (sz : N) : N := N.land sz 4294963200.

Record t := mk {
  phys_mem : PhysicalMemory.t;
  page_directory_phys : N
}.

(** The constructor: the page directory is the first page [kalloc] returns. *)
Definition init : t :=
  let '(pd, pm) := PhysicalMemory.kalloc PhysicalMemory.init in mk pm pd.

(** The page-table entry the two-level walk reaches for [va], when the
    directory entry is present (a read-only walk, as [walkpgdir (va, false)]). *)
Definition lookup_pte (s : t) (va : N) : option N :=
  let pde_addr := wrap32 (page_directory_phys s + PDX va * 4) in
  let pde := PhysicalMemory.read_uint32 (phys_mem s) pde_addr in
  if N.land pde PTE_PRESENT =? 0 then None
  else Some (PhysicalMemory.read_uint32 (phys_mem s)
               (wrap32 (PTE_ADDR pde + PTX va * 4))).

(** The body of the [for (;;)] loop of [mappages] up to the remap check and
    the store of the new entry: [inl] is the early [return -1]. *)
Definition mappages_body (s : t) (a pa perm : N) : t + t :=
  let dir_index := PDX a in
  let table_index := PTX a in
  let pde_addr := wrap32 (page_directory_phys s + dir_index * 4) in
  let pde := PhysicalMemory.read_uint32 (phys_mem s) pde_addr in
  let '(page_table_phys, pm1) :=
    if N.land pde PTE_PRESENT =? 0 then
      let '(ptp, pm') := PhysicalMemory.kalloc (phys_mem s) in
      (ptp, PhysicalMemory.write_uint32 pm' pde_addr
              (N.lor (N.lor (N.lor ptp PTE_PRESENT) PTE_WRITE) PTE_USER))
    else (PTE_ADDR pde, phys_mem s) in
  let pte_addr := wrap32 (page_table_phys + table_index * 4) in
  let pte := PhysicalMemory.read_uint32 pm1 pte_addr in
  if negb (N.land pte PTE_PRESENT =? 0) then inl (mk pm1 (page_directory_phys s))
  else
    inr (mk (PhysicalMemory.write_uint32 pm1 pte_addr (N.lor (N.lor pa perm) PTE_PRESENT))
            (page_directory_phys s)).

(** The loop itself; [fuel] bounds the number of iterations and [None] means
    the bound was too small. *)
Fixpoint mappages_loop (fuel : nat) (s : t) (a last pa perm : N) : option (Z * t) :=
  match fuel with
  | O => None
  | S fuel' =>
      match mappages_body s a pa perm with
      | inl s' => Some ((-1)%Z, s')
      | inr s' =>
          if a =? last then Some (0%Z, s')
          else mappages_loop fuel' s' (wrap32 (a + PAGE_SIZE)) last
                 (wrap32 (pa + PAGE_SIZE)) perm
      end
  end.

(** [a] reaches [last] after [(last - a) / PAGE_SIZE] increments modulo
    [2^32], both being page aligned. *)
Definition mappages (s : t) (va size pa perm : N) : option (Z * t) :=
  let a := PGROUNDDOWN va in
  let last := PGROUNDDOWN (wrap32 (va + size + 4294967295)) in
  mappages_loop (S (N.to_nat (wrap32 (last + 4294967296 - a) / PAGE_SIZE)))
    s a last pa perm.

Definition PGROUNDUP (sz : N) : N := N.land (wrap32 (sz + PAGE_SIZE - 1)) 4294963200.

Definition KERNBASE : N := 2147483648.

(** [(uint32_t)(a) - KERNBASE], modulo [2^32]. *)
Definition V2P (a : N) : N := wrap32 (a + 4294967296 - KERNBASE).

(** [walkpgdir] returns the address of a static variable that holds a copy
    of the entry; the result here is that copy ([None] is [nullptr]). *)
Definition walkpgdir (s : t) (virtual_addr : N) (alloc : bool) : option N * t :=
  let dir_index := PDX virtual_addr in
  let table_index := PTX virtual_addr in
  let pde_addr := wrap32 (page_directory_phys s + dir_index * 4) in
  let pde := PhysicalMemory.read_uint32 (phys_mem s) pde_addr in
  if N.land pde PTE_PRESENT =? 0 then
    if negb alloc then (None, s)
    else
      let '(ptp, pm') := PhysicalMemory.kalloc (phys_mem s) in
      let pm1 := PhysicalMemory.write_uint32 pm' pde_addr
                   (N.lor (N.lor (N.lor ptp PTE_PRESENT) PTE_WRITE) PTE_USER) in
      (Some (PhysicalMemory.read_uint32 pm1 (wrap32 (ptp + table_index * 4))),
       mk pm1 (page_directory_phys s))
  else
    (Some (PhysicalMemory.read_uint32 (phys_mem s)
             (wrap32 (PTE_ADDR pde + table_index * 4))), s).

(** The loop of [allocuvm]; [fuel] bounds the number of iterations, and
    [None] means that the bound was too small or that [mappages] ran out
    of its own. *)
Fixpoint allocuvm_loop (fuel : nat) (s : t) (a newsz : N) : option (N * t) :=
  match fuel with
  | O => None
  | S fuel' =>
      if a <? newsz then
        let '(mem, pm1) := PhysicalMemory.kalloc (phys_mem s) in
        if mem =? 0 then Some (0, mk pm1 (page_directory_phys s))
        else
          '(r, s1) ← mappages (mk pm1 (page_directory_phys s)) a PAGE_SIZE (V2P mem)
                       (N.lor PTE_WRITE PTE_USER);
          if (r <? 0)%Z
          then Some (0, mk (PhysicalMemory.kfree (phys_mem s1) mem) (page_directory_phys s1))
          else allocuvm_loop fuel' s1 (wrap32 (a + PAGE_SIZE)) newsz
      else Some (newsz, s)
  end.

(** Without wrap-around of [a] the loop runs at most
    [newsz / PAGE_SIZE + 1] times. *)
Definition allocuvm (s : t) (oldsz newsz : N) : option (N * t) :=
  if newsz <? oldsz then Some (oldsz, s)
  else allocuvm_loop (S (S (N.to_nat (newsz / PAGE_SIZE)))) s (PGROUNDUP oldsz) newsz.

(** One iteration of the loop of [loaduvm] at offset [i]: [inl] is the
    early [return -1]; [None] is undefined behaviour inside [read_file].
    [buffer] is the [uint8_t buffer[PAGE_SIZE]] of the function, which is
    declared once, without an initialiser, and reused by every
    iteration. *)
Definition loaduvm_body (s : t) (disk : FileDisk.t) (filename : string)
    (buffer : list N) (va offset sz i : N) : option (Z + t * list N) :=
  let dir_index := PDX (wrap32 (va + i)) in
  let table_index := PTX (wrap32 (va + i)) in
  let pde_addr := wrap32 (page_directory_phys s + dir_index * 4) in
  let pde := PhysicalMemory.read_uint32 (phys_mem s) pde_addr in
  if N.land pde PTE_PRESENT =? 0 then Some (inl (-1)%Z)
  else
    let page_table_phys := PTE_ADDR pde in
    let pte_addr := wrap32 (page_table_phys + table_index * 4) in
    let pte := PhysicalMemory.read_uint32 (phys_mem s) pte_addr in
    if N.land pte PTE_PRESENT =? 0 then Some (inl (-1)%Z)
    else
      let pa := PTE_ADDR pte in
      let n := if sz - i <? PAGE_SIZE then sz - i else PAGE_SIZE in
      '(r, buffer') ← FileDisk.read_file disk filename buffer (wrap32 (offset + i)) n;
      if negb (r =? FileDisk.to_int n)%Z then Some (inl (-1)%Z)
      else
        Some (inr (mk (PhysicalMemory.write_block (phys_mem s) pa
                         (take (N.to_nat n) buffer'))
                      (page_directory_phys s),
                   buffer')).

Fixpoint loaduvm_loop (fuel : nat) (s : t) (disk : FileDisk.t) (filename : string)
    (buffer : list N) (va offset sz i : N) : option (Z * t) :=
  match fuel with
  | O => None
  | S fuel' =>
      if i <? sz then
        r ← loaduvm_body s disk filename buffer va offset sz i;
        match r with
        | inl code => Some (code, s)
        | inr (s', buffer') =>
            loaduvm_loop fuel' s' disk filename buffer' va offset sz
              (wrap32 (i + PAGE_SIZE))
        end
      else Some (0%Z, s)
  end.

(** Without wrap-around of [i] the loop runs at most [sz / PAGE_SIZE + 1]
    times. *)
Definition loaduvm (s : t) (disk : FileDisk.t) (filename : string) (buffer : list N)
    (va offset sz : N) : option (Z * t) :=
  loaduvm_loop (S (S (N.to_nat (sz / PAGE_SIZE)))) s disk filename buffer va offset sz 0.

End PageTableManager.

(** ** The store contract of the specification, for comparison

    Stated from the words of the specification (section 4.2):
    [read_page (id) -> bytes[4096]], [write_page (id, bytes[4096])], where
    "out-of-range access fails with StoreBoundsError". *)

Module StoreContract.

Inductive error := StoreBoundsError.

Definition read_page (store : list byte) (id : N) : error + list byte :=
  if (id + 1) * PAGE_SIZE <=? N.of_nat (length store)
  then inr (load_page store (id * PAGE_SIZE))
  else inl StoreBoundsError.

Definition write_page (store : list byte) (id : N) (data : list byte)
    : error + list byte :=
  if (id + 1) * PAGE_SIZE <=? N.of_nat (length store)
  then inr (store_page store (id * PAGE_SIZE) data)
  else inl StoreBoundsError.

End StoreContract.

(** ** Operation sequences on the MMU *)

Inductive op :=
  | OpMap (start_page num_pages : N) (file_backed : bool) (disk_start : N)
  | OpUnmap (start_page num_pages : N)
  | OpTranslate (virtual_addr : N) (write_access : bool)
  | OpFault (virtual_page : N)
  | OpEvict
  | OpPoke (phys_addr : N) (data : list byte)
  | OpCreateFile (content : list byte).

(** [OpPoke] is a [memcpy] through a pointer obtained from
    [translate_address], inside [RAM::memory]. *)
Definition poke (m : MMU.t) (phys_addr : N) (data : list byte) : option MMU.t :=
  let r := MMU.ram m in
  if phys_addr + N.of_nat (length data) <=? N.of_nat (length (RAM.memory r))
  then Some (MMU.with_ram
               (RAM.mk (memcpy_into (RAM.memory r) (N.to_nat phys_addr) data)
                       (RAM.frame_to_page r) (RAM.allocated r)) m)
  else None.

Definition step (uninit : list byte) (m : MMU.t) (o : op) : option MMU.t :=
  match o with
  | OpMap start_page num_pages file_backed disk_start =>
      Some (MMU.map_pages m start_page num_pages file_backed disk_start).2
  | OpUnmap start_page num_pages =>
      Some (MMU.unmap_pages uninit m start_page num_pages).2
  | OpTranslate virtual_addr write_access =>
      snd <$> MMU.translate_address uninit m virtual_addr write_access
  | OpFault virtual_page => snd <$> MMU.handle_page_fault uninit m virtual_page
  | OpEvict => snd <$> MMU.evict_page uninit m
  | OpPoke phys_addr data => poke m phys_addr data
  | OpCreateFile content =>
      Some (MMU.with_disk (Disk.write_file (MMU.disk m) content) m)
  end.

Fixpoint run (uninit : list byte) (ops : list op) (m : MMU.t) : option MMU.t :=
  match ops with
  | [] => Some m
  | o :: ops' => m' ← step uninit m o; run uninit ops' m'
  end.

(** States the MMU can be in after a sequence of operations whose behaviour
    is defined, starting from the freshly constructed system. *)
Definition reachable (uninit : list byte) (m : MMU.t) : Prop :=
  ∃ ops, run uninit ops MMU.init = Some m.

(** ** State predicates *)

(** Two distinct present entries never hold the same frame number. *)
Definition frames_unique (m : MMU.t) : Prop :=
  ∀ v1 v2 p1 p2,
    MMU.page_table m !! v1 = Some p1 → MMU.page_table m !! v2 = Some p2 →
    present p1 = true → present p2 = true →
    physical_page p1 = physical_page p2 → v1 = v2.

(** Frame ownership, on the components it reads: every present entry holds
    an allocated frame whose back reference points at that entry. *)
Definition owns (pt : gmap N PageMetadata) (r : RAM.t) : Prop :=
  ∀ v pte, pt !! v = Some pte → present pte = true →
    RAM.allocated r !! N.to_nat (physical_page pte) = Some true ∧
    RAM.frame_to_page r !! N.to_nat (physical_page pte) = Some (Some v).

Definition frames_owned (m : MMU.t) : Prop :=
  length (RAM.frame_to_page (MMU.ram m)) = length (RAM.allocated (MMU.ram m)) ∧
  RAM.size (MMU.ram m) < 2 ^ 32 ∧
  owns (MMU.page_table m) (MMU.ram m).

(** The fields of an entry that frame ownership and the LRU order read, and
    the two of them that ownership alone reads. *)
Definition core (pte : PageMetadata) : bool * N * N :=
  (present pte, physical_page pte, last_access pte).

Definition frame_of (pte : PageMetadata) : bool * N :=
  (present pte, physical_page pte).

(** Frame [i] is allocated to an entry whose [last_access] is [ts]. *)
Definition resident_at (heap : gmap N PageMetadata) (r : RAM.t) (i : nat) (ts : N) : Prop :=
  RAM.allocated r !! i = Some true ∧
  ∃ p meta, RAM.frame_to_page r !! i = Some (Some p) ∧
            heap !! p = Some meta ∧ last_access meta = ts.

(** What the scan has established after the frames below [a]. *)
Definition lru_scanned (heap : gmap N PageMetadata) (r : RAM.t) (a : nat)
    (acc : N * N) : Prop :=
  (acc.2 = NO_PAGE ∧ acc.1 = UINT64_MAX ∧
   ∀ j tj, (j < a)%nat → resident_at heap r j tj → UINT64_MAX ≤ tj) ∨
  (∃ i, acc.2 = N.of_nat i ∧ (i < a)%nat ∧ acc.1 < UINT64_MAX ∧
        resident_at heap r i acc.1 ∧
        ∀ j tj, (j < a)%nat → resident_at heap r j tj →
                acc.1 ≤ tj ∧ ((j < i)%nat → acc.1 < tj)).

(** ** Sample inputs *)

(** Ten anonymous pages mapped at virtual page 16, each written once in
    order (the ninth and tenth writes evict), the first page read again,
    and the first two pages unmapped. *)
Definition pressure_ops : list op :=
  OpMap 16 10 false 0
  :: map (λ k, OpTranslate ((16 + N.of_nat k) * PAGE_SIZE) true) (seq 0 10)
  ++ [OpTranslate (16 * PAGE_SIZE) false; OpUnmap 16 2].

Definition sample_page : list byte := replicate (N.to_nat PAGE_SIZE) "x"%byte.

(** A RAM whose eight frames were all handed out through
    [allocate_page ()] with its default [nullptr] argument: nothing can be
    allocated and no frame has an entry to evict. *)
Definition exhausted_ram : RAM.t :=
  Nat.iter 8 (λ r, (RAM.allocate_page r None).2) RAM.init.

Definition out_of_memory_state : MMU.t :=
  (MMU.map_pages (MMU.with_ram exhausted_ram MMU.init) 7 1 false 0).2.

(** Whether a fault attempt reported failure. *)
Definition fault_failed (r : option (bool * MMU.t)) : bool :=
  match r with Some (false, _) => true | _ => false end.

(** Whether a computation's behaviour was defined. *)
Definition defined {A : Type} (x : option A) : bool :=
  match x with Some _ => true | None => false end.

(** Reduce the projections of an updated MMU state, and nothing else. *)
Ltac mmu_proj :=
  cbn [MMU.ram MMU.page_table MMU.disk MMU.swap_space MMU.current_time
       MMU.next_disk_page MMU.update_meta MMU.with_page_table MMU.with_ram
       MMU.with_disk MMU.with_swap_space MMU.with_current_time] in *.

(** Ten anonymous pages mapped at virtual page 16 and the first eight of
    them written in order: every frame is in use, frame [k] by page
    [16 + k]. *)
Definition lru_ops : list op :=
  OpMap 16 10 false 0
  :: map (λ k, OpTranslate ((16 + N.of_nat k) * PAGE_SIZE) true) (seq 0 8).

Definition lru_state : MMU.t := default MMU.init (run sample_page lru_ops MMU.init).

(** One anonymous page mapped at virtual page 5 and written once: its entry
    is present and dirty, in frame 0. *)
Definition mapped_state : MMU.t :=
  default MMU.init
    (run sample_page [OpMap 5 1 false 0; OpTranslate (5 * PAGE_SIZE) true] MMU.init).

(** The page-table manager after one page was mapped at virtual address
    [0x1000] onto physical address [0x5000]. *)
Definition one_page_mapped : PageTableManager.t :=
  from_option snd PageTableManager.init
    (PageTableManager.mappages PageTableManager.init 4096 4096 20480 6).

(** ** More state predicates *)

(** The sizes of the six vectors of the system; no operation resizes one. *)
Definition capacities (m : MMU.t) : nat * nat * nat * nat * nat * nat :=
  (length (RAM.memory (MMU.ram m)),
   length (RAM.frame_to_page (MMU.ram m)),
   length (RAM.allocated (MMU.ram m)),
   length (SwapSpace.swap_storage (MMU.swap_space m)),
   length (SwapSpace.allocated_slots (MMU.swap_space m)),
   length (Disk.storage (MMU.disk m))).

(** Every vector has the size its constructor gave it, relative to the
    two bitmaps. *)
Definition well_sized (m : MMU.t) : Prop :=
  N.of_nat (length (RAM.memory (MMU.ram m))) = RAM.size (MMU.ram m) * PAGE_SIZE ∧
  length (RAM.frame_to_page (MMU.ram m)) = length (RAM.allocated (MMU.ram m)) ∧
  RAM.size (MMU.ram m) < 2 ^ 32 ∧
  N.of_nat (length (SwapSpace.swap_storage (MMU.swap_space m)))
    = SwapSpace.size (MMU.swap_space m) * PAGE_SIZE ∧
  SwapSpace.size (MMU.swap_space m) < 2 ^ 32 ∧
  N.of_nat (length (Disk.storage (MMU.disk m))) = DISK_SIZE.

(** What [evict_page] does to the victim's entry after the write-back. *)
Definition evicted (p : PageMetadata) : PageMetadata :=
  set_physical_page 0 (set_dirty false (set_present false p)).

(** What a successful [handle_page_fault] does to the faulting entry once
    the frame [pp] is filled, at clock value [now]. *)
Definition faulted_in (now pp : N) (p : PageMetadata) : PageMetadata :=
  set_last_access now (set_present true (set_physical_page pp p)).

(** The buffer [handle_page_fault] copies into the frame, by the state of
    the entry: the swap slot, the disk page, or zeroes. *)
Definition content_source (uninit : list byte) (m : MMU.t) (pte : PageMetadata)
    : list byte :=
  if swapped pte then SwapSpace.read_page (MMU.swap_space m) (swap_slot pte) uninit
  else if file_backed pte then Disk.read_page (MMU.disk m) (disk_page pte) uninit
  else replicate (N.to_nat PAGE_SIZE) x00.

(** ** More sample inputs *)

(** A file-backed page mapped at virtual page 5 onto disk page 3. *)
Definition file_page_state : MMU.t := (MMU.map_pages MMU.init 5 1 true 3).2.

(** Ten file-backed pages mapped at virtual page 16 onto disk pages 0 to 9,
    the first eight written in order: every frame holds a dirty
    file-backed page. *)
Definition file_lru_ops : list op :=
  OpMap 16 10 true 0
  :: map (λ k, OpTranslate ((16 + N.of_nat k) * PAGE_SIZE) true) (seq 0 8).

Definition file_lru_state : MMU.t :=
  default MMU.init (run sample_page file_lru_ops MMU.init).

(** Whether an eviction was carried out on frame [f]. *)
Definition evicts_frame (f : N) (r : option (N * MMU.t)) : bool :=
  match r with Some (f', _) => f' =? f | None => false end.

(** Forty anonymous pages mapped at virtual page 16 and written in order:
    the eight frames hold the last eight pages and each of the 32 swap
    slots holds one of the others. *)
Definition full_swap_ops : list op :=
  OpMap 16 40 false 0
  :: map (λ k, OpTranslate ((16 + N.of_nat k) * PAGE_SIZE) true) (seq 0 40).

Definition full_swap_state : MMU.t :=
  default MMU.init (run sample_page full_swap_ops MMU.init).

(** The entry [map_pages] stores for the [i]-th page of a mapping: a
    default-constructed [PageMetadata] with [file_backed], [virtual_page]
    and, for a file-backed mapping, [disk_page] set. *)
Definition fresh_entry (start_page : N) (file_backed : bool) (disk_start i : N)
    : PageMetadata :=
  mkPageMetadata false false false file_backed false 0
    (if file_backed then wrap32 (disk_start + i) else 0) 0 0 (start_page + i).

(** One clean and one dirty file-backed page in frames 0 and 1, mapped at
    virtual pages 16 and 17 onto disk pages 2 and 3. *)
Definition file_pages_state : MMU.t :=
  default MMU.init
    (run sample_page
       [OpMap 16 2 true 2; OpTranslate (16 * PAGE_SIZE) false;
        OpTranslate (17 * PAGE_SIZE) true] MMU.init).

(** "Hello World!" *)
Definition hello : list byte :=
  [x48; x65; x6c; x6c; x6f; x20; x57; x6f; x72; x6c; x64; x21].

(** The system after [mmap] of one anonymous page; the mapping starts at
    address [0x10000000]. *)
Definition one_page_system : VirtualMemorySystem.t :=
  (VirtualMemorySystem.mmap VirtualMemorySystem.init 4096 (-1) 0).2.

(** Whether a translation returned the pointer [pa]. *)
Definition translates_to (pa : N) (r : option (option N * MMU.t)) : bool :=
  match r with Some (Some pa', _) => pa' =? pa | _ => false end.

(** A file written to the disk of [mmap.cpp], mapped, and overwritten
    through the mapping before it is unmapped. *)
Definition mmap_file_ops : list MmapMMU.op :=
  [MmapMMU.OpCreateFile hello; MmapMMU.OpMap 16 1 true 0;
   MmapMMU.OpWrite (16 * PAGE_SIZE) sample_page; MmapMMU.OpUnmap 16 1].

(** What the [create_file] operations of a run make of a disk. *)
Definition files_written (ops : list MmapMMU.op) (d : Disk.t) : Disk.t :=
  foldl (λ d o, match o with
                | MmapMMU.OpCreateFile content => Disk.write_file d content
                | _ => d
                end) d ops.

(** The RAM of [mmap.cpp] with all 16 frames handed out. *)
Definition mmap_full_state : MmapMMU.t :=
  default MmapMMU.init
    (MmapMMU.run sample_page
       (MmapMMU.OpMap 0 16 false 0
        :: map (λ k, MmapMMU.OpTranslate (N.of_nat k * PAGE_SIZE)) (seq 0 16))
       MmapMMU.init).

(** No entry of the page table of [mmap.cpp] is marked dirty. *)
Definition all_clean (m : MmapMMU.t) : Prop :=
  ∀ v pte, MmapMMU.page_table m !! v = Some pte → MmapMMU.dirty pte = false.

(** ** Well-formed physical memory and page tables of
    [allocvm_and_loadvm_sim.cpp] *)

(** Every stored page is keyed by a page-aligned 32-bit address and holds
    [PAGE_SIZE] bytes, as [kalloc] creates them. *)
Definition pm_wf (pm : PhysicalMemory.t) : Prop :=
  ∀ a pg, PhysicalMemory.pages pm !! a = Some pg →
    length pg = N.to_nat PAGE_SIZE ∧ PhysicalMemory.page_base a = a.


(** A physical memory with one allocated page, at [0x100000]. *)
Definition one_page_memory : PhysicalMemory.t :=
  (PhysicalMemory.kalloc PhysicalMemory.init).2.


(** Whether an entry has [PTE_PRESENT] set. *)
Definition is_present (e : N) : bool :=
  negb (N.land e PageTableManager.PTE_PRESENT =? 0).

(** The page-directory entry with index [d]. *)
Definition pde_at (s : PageTableManager.t) (d : N) : N :=
  PhysicalMemory.read_uint32 (PageTableManager.phys_mem s)
    (PageTableManager.page_directory_phys s + d * 4).

(** The entry a virtual address translates through: the page-table entry
    the two-level walk reaches when both levels are present, as [loaduvm]
    reads it. *)
Definition translation (s : PageTableManager.t) (va : N) : option N :=
  match PageTableManager.lookup_pte s va with
  | Some pte => if is_present pte then Some pte else None
  | None => None
  end.

(** Well-formed page tables: the directory is an allocated page; the
    allocation cursor is page aligned and above every allocated page; and
    the present directory entries point to allocated pages, all different
    and none the directory itself. *)
Definition pt_wf (s : PageTableManager.t) : Prop :=
  let pm := PageTableManager.phys_mem s in
  let pd := PageTableManager.page_directory_phys s in
  pm_wf pm ∧
  is_Some (PhysicalMemory.pages pm !! pd) ∧
  PhysicalMemory.page_base (PhysicalMemory.next_free_page pm)
    = PhysicalMemory.next_free_page pm ∧
  (∀ a, is_Some (PhysicalMemory.pages pm !! a) → a < PhysicalMemory.next_free_page pm) ∧
  (∀ d, d < 1024 → is_present (pde_at s d) = true →
     is_Some (PhysicalMemory.pages pm !! PageTableManager.PTE_ADDR (pde_at s d)) ∧
     PageTableManager.PTE_ADDR (pde_at s d) ≠ pd ∧
     ∀ d', d' < 1024 → d' ≠ d → is_present (pde_at s d') = true →
           PageTableManager.PTE_ADDR (pde_at s d')
           ≠ PageTableManager.PTE_ADDR (pde_at s d)).

(** Every translation leads to an address at or above [KERNBASE]. *)
Definition off_ram (s : PageTableManager.t) : Prop :=
  ∀ va pte, va < 2 ^ 32 → translation s va = Some pte →
    PageTableManager.KERNBASE ≤ PageTableManager.PTE_ADDR pte.

(** * Verified properties *)

(** ** Vectors, [memcpy] and the first-fit scan *)

Lemma length_memcpy_into (v : list byte) (offset : nat) (data : list byte) :
  length (memcpy_into v offset data) = length v.
Proof.
  unfold memcpy_into.
  rewrite !length_app, !length_take, length_drop. lia.
Qed.

Lemma length_page_of (buffer : list byte) :
  (N.to_nat PAGE_SIZE ≤ length buffer)%nat →
  length (page_of buffer) = N.to_nat PAGE_SIZE.
Proof. intros H. unfold page_of. rewrite length_take. lia. Qed.

(** Reading back the page that was just stored. *)
Lemma load_store_page (v : list byte) (offset : N) (buffer : list byte) :
  (N.to_nat offset + N.to_nat PAGE_SIZE ≤ length v)%nat →
  (N.to_nat PAGE_SIZE ≤ length buffer)%nat →
  load_page (store_page v offset buffer) offset = page_of buffer.
Proof.
  intros Hv Hb. unfold load_page, store_page, memcpy_into.
  pose proof (length_page_of buffer Hb) as Hp.
  assert (Hl : length (take (N.to_nat offset) v) = N.to_nat offset)
    by (rewrite length_take; lia).
  rewrite drop_app_length' by done.
  rewrite (take_ge (page_of buffer)) by lia.
  by apply take_app_length'.
Qed.

Lemma first_free_Some (v : list bool) (i : nat) :
  first_free v = Some i →
  v !! i = Some false ∧ ∀ j, (j < i)%nat → v !! j = Some true.
Proof.
  unfold first_free. intros H.
  destruct (list_find _ v) as [[i' b]|] eqn:Hf; simplify_eq/=.
  apply list_find_Some in Hf as (Hi & -> & Hlt). split; [done|].
  intros j Hj.
  destruct (v !! j) as [[]|] eqn:Hvj; [done| |].
  - exfalso. by eapply Hlt.
  - apply lookup_ge_None in Hvj. apply lookup_lt_Some in Hi. lia.
Qed.

Lemma first_free_None (v : list bool) (i : nat) :
  first_free v = None → (i < length v)%nat → v !! i = Some true.
Proof.
  unfold first_free. intros H Hi.
  destruct (list_find _ v) as [[i' b]|] eqn:Hf; simplify_eq/=.
  destruct (lookup_lt_is_Some_2 v i Hi) as [b Hb].
  destruct b; [done|].
  eapply list_find_None, Forall_lookup in Hf; [|exact Hb]. done.
Qed.

Lemma first_free_is_Some (v : list bool) (i : nat) :
  v !! i = Some false → is_Some (first_free v).
Proof.
  intros Hi. unfold first_free.
  destruct (list_find _ v) as [[i' b]|] eqn:Hf; [by eexists|].
  eapply list_find_None, Forall_lookup in Hf; [|exact Hi]. done.
Qed.

(** ** C10: freeing at the allocator interfaces *)

Lemma RAM_free_page_twice (r : RAM.t) (n : N) :
  RAM.free_page (RAM.free_page r n) n = RAM.free_page r n.
Proof.
  unfold RAM.free_page, RAM.size.
  destruct (n <? N.of_nat (length (RAM.allocated r))) eqn:Hn; simpl; [|by rewrite Hn].
  rewrite length_insert, Hn. by rewrite !list_insert_insert_eq.
Qed.

Lemma SwapSpace_free_slot_twice (s : SwapSpace.t) (n : N) :
  SwapSpace.free_slot (SwapSpace.free_slot s n) n = SwapSpace.free_slot s n.
Proof.
  unfold SwapSpace.free_slot, SwapSpace.size.
  destruct (n <? N.of_nat (length (SwapSpace.allocated_slots s))) eqn:Hn; simpl;
    [|by rewrite Hn].
  rewrite length_insert, Hn. by rewrite list_insert_insert_eq.
Qed.

Lemma Mmap_free_page_twice (r : MmapSim.RAM) (n : N) :
  MmapSim.free_page (MmapSim.free_page r n) n = MmapSim.free_page r n.
Proof.
  unfold MmapSim.free_page.
  destruct (n <? N.of_nat (length (MmapSim.allocated r))) eqn:Hn; simpl;
    [|by rewrite Hn].
  rewrite length_insert, Hn. by rewrite list_insert_insert_eq.
Qed.

(** C10.  [RAM::free_page] (both simulators) and [SwapSpace::free_slot] are
    total functions of the state and the index (no error result exists);
    with an out-of-range index they return the state unchanged; freeing
    what is already free changes nothing; freeing twice equals freeing
    once; and apart from the allocation bit and the back reference of the
    one frame or slot named, every bit, every back reference and all
    stored bytes are left as they were. *)
Theorem free_is_idempotent_and_local :
  (∀ (r : RAM.t) (n : N),
      (RAM.size r ≤ n → RAM.free_page r n = r) ∧
      (RAM.allocated r !! N.to_nat n = Some false →
       RAM.get_page_metadata r n = None → RAM.free_page r n = r) ∧
      RAM.free_page (RAM.free_page r n) n = RAM.free_page r n ∧
      RAM.memory (RAM.free_page r n) = RAM.memory r ∧
      (∀ j, j ≠ N.to_nat n →
         RAM.allocated (RAM.free_page r n) !! j = RAM.allocated r !! j ∧
         RAM.frame_to_page (RAM.free_page r n) !! j = RAM.frame_to_page r !! j)) ∧
  (∀ (s : SwapSpace.t) (n : N),
      (SwapSpace.size s ≤ n → SwapSpace.free_slot s n = s) ∧
      (SwapSpace.allocated_slots s !! N.to_nat n = Some false →
       SwapSpace.free_slot s n = s) ∧
      SwapSpace.free_slot (SwapSpace.free_slot s n) n = SwapSpace.free_slot s n ∧
      SwapSpace.swap_storage (SwapSpace.free_slot s n) = SwapSpace.swap_storage s ∧
      (∀ j, j ≠ N.to_nat n →
         SwapSpace.allocated_slots (SwapSpace.free_slot s n) !! j
         = SwapSpace.allocated_slots s !! j)) ∧
  (∀ (r : MmapSim.RAM) (n : N),
      (N.of_nat (length (MmapSim.allocated r)) ≤ n → MmapSim.free_page r n = r) ∧
      (MmapSim.allocated r !! N.to_nat n = Some false → MmapSim.free_page r n = r) ∧
      MmapSim.free_page (MmapSim.free_page r n) n = MmapSim.free_page r n ∧
      MmapSim.memory (MmapSim.free_page r n) = MmapSim.memory r ∧
      (∀ j, j ≠ N.to_nat n →
         MmapSim.allocated (MmapSim.free_page r n) !! j = MmapSim.allocated r !! j)).
Proof.
  split; [|split].
  - intros [mem ftp al] n. unfold RAM.free_page, RAM.size, RAM.get_page_metadata. simpl.
    repeat split.
    + intros H. by apply N.ltb_ge in H as ->.
    + intros Hal Hmeta. destruct (n <? N.of_nat (length al)); [|done].
      rewrite (list_insert_id al) by done. f_equal.
      destruct (n <? N.of_nat (length ftp)) eqn:Hn.
      * apply N.ltb_lt in Hn.
        destruct (lookup_lt_is_Some_2 ftp (N.to_nat n)) as [x Hx]; [lia|].
        rewrite Hx in Hmeta. simpl in Hmeta. subst x. by apply list_insert_id.
      * apply N.ltb_ge in Hn. apply list_insert_ge. lia.
    + apply (RAM_free_page_twice (RAM.mk mem ftp al)).
    + by destruct (n <? _).
    + destruct (n <? _); simpl; [|done]. by rewrite list_lookup_insert_ne.
    + destruct (n <? _); simpl; [|done]. by rewrite list_lookup_insert_ne.
  - intros [st al] n. unfold SwapSpace.free_slot, SwapSpace.size. simpl.
    repeat split.
    + intros H. by apply N.ltb_ge in H as ->.
    + intros Hal. destruct (n <? _); [|done]. by rewrite list_insert_id.
    + apply (SwapSpace_free_slot_twice (SwapSpace.mk st al)).
    + by destruct (n <? _).
    + intros j Hj. destruct (n <? _); simpl; [|done]. by rewrite list_lookup_insert_ne.
  - intros [mem al] n. unfold MmapSim.free_page. simpl.
    repeat split.
    + intros H. by apply N.ltb_ge in H as ->.
    + intros Hal. destruct (n <? _); [|done]. by rewrite list_insert_id.
    + apply (Mmap_free_page_twice (MmapSim.mkRAM mem al)).
    + by destruct (n <? _).
    + intros j Hj. destruct (n <? _); simpl; [|done]. by rewrite list_lookup_insert_ne.
Qed.

(** ** C9: page ids outside the store *)

Lemma Disk_out_of_range (d : Disk.t) (p : N) (buf : list byte) :
  DISK_SIZE < (p + 1) * PAGE_SIZE →
  Disk.write_page d p buf = d ∧ Disk.read_page d p buf = buf.
Proof.
  intros H. unfold Disk.write_page, Disk.read_page. simpl.
  destruct (N.leb_spec (p * PAGE_SIZE + PAGE_SIZE) DISK_SIZE); [|done].
  unfold DISK_SIZE, PAGE_SIZE in *. lia.
Qed.

Lemma SwapSpace_out_of_range (s : SwapSpace.t) (slot : N) (buf : list byte) :
  SwapSpace.size s ≤ slot →
  SwapSpace.write_page s slot buf = s ∧ SwapSpace.read_page s slot buf = buf.
Proof.
  intros H. unfold SwapSpace.write_page, SwapSpace.read_page.
  by destruct (N.ltb_spec slot (SwapSpace.size s)); [lia|].
Qed.

(** Page 64 is the first page past the 64-page disk and slot 32 the first
    slot past the 32-slot swap space.  The contract of the specification
    asks for [StoreBoundsError] there; the code returns normally from all
    four calls, leaving the store and the caller's buffer as they were. *)
Lemma out_of_range_access_is_silent :
  StoreContract.write_page (Disk.storage Disk.init) 64 sample_page
    = inl StoreContract.StoreBoundsError ∧
  Disk.write_page Disk.init 64 sample_page = Disk.init ∧
  StoreContract.read_page (Disk.storage Disk.init) 64
    = inl StoreContract.StoreBoundsError ∧
  Disk.read_page Disk.init 64 sample_page = sample_page ∧
  StoreContract.write_page (SwapSpace.swap_storage SwapSpace.init) 32 sample_page
    = inl StoreContract.StoreBoundsError ∧
  SwapSpace.write_page SwapSpace.init 32 sample_page = SwapSpace.init ∧
  StoreContract.read_page (SwapSpace.swap_storage SwapSpace.init) 32
    = inl StoreContract.StoreBoundsError ∧
  SwapSpace.read_page SwapSpace.init 32 sample_page = sample_page.
Proof.
  assert (Hd : DISK_SIZE < (64 + 1) * PAGE_SIZE) by (vm_compute; reflexivity).
  assert (Hs : SwapSpace.size SwapSpace.init ≤ 32) by (vm_compute; discriminate).
  destruct (Disk_out_of_range Disk.init 64 sample_page Hd) as [Hdw Hdr].
  destruct (SwapSpace_out_of_range SwapSpace.init 32 sample_page Hs) as [Hsw Hsr].
  repeat split; try assumption; vm_compute; reflexivity.
Qed.

(** C9, as the code has it.  An out-of-range [read_page] or [write_page] on
    the disk or the swap space is a silent no-op: the store and the buffer
    are returned unchanged and nothing is reported.  An in-range access of
    a store of full size does what the contract asks: it reads or replaces
    exactly that page, and a page read back after a write is the page
    written. *)
Theorem store_access_bounds :
  (∀ (d : Disk.t) (p : N) (buf : list byte),
     (DISK_SIZE < (p + 1) * PAGE_SIZE →
        Disk.write_page d p buf = d ∧ Disk.read_page d p buf = buf) ∧
     ((p + 1) * PAGE_SIZE ≤ DISK_SIZE →
      N.of_nat (length (Disk.storage d)) = DISK_SIZE →
        StoreContract.write_page (Disk.storage d) p buf
          = inr (Disk.storage (Disk.write_page d p buf)) ∧
        StoreContract.read_page (Disk.storage d) p = inr (Disk.read_page d p buf) ∧
        (PAGE_SIZE ≤ N.of_nat (length buf) →
           ∀ buf', Disk.read_page (Disk.write_page d p buf) p buf' = page_of buf))) ∧
  (∀ (s : SwapSpace.t) (slot : N) (buf : list byte),
     (SwapSpace.size s ≤ slot →
        SwapSpace.write_page s slot buf = s ∧ SwapSpace.read_page s slot buf = buf) ∧
     (slot < SwapSpace.size s →
      N.of_nat (length (SwapSpace.swap_storage s)) = SwapSpace.size s * PAGE_SIZE →
        StoreContract.write_page (SwapSpace.swap_storage s) slot buf
          = inr (SwapSpace.swap_storage (SwapSpace.write_page s slot buf)) ∧
        StoreContract.read_page (SwapSpace.swap_storage s) slot
          = inr (SwapSpace.read_page s slot buf) ∧
        (PAGE_SIZE ≤ N.of_nat (length buf) →
           ∀ buf', SwapSpace.read_page (SwapSpace.write_page s slot buf) slot buf'
                   = page_of buf))).
Proof.
  split.
  - intros [st] p buf.
    unfold Disk.write_page, Disk.read_page, StoreContract.write_page,
      StoreContract.read_page. simpl. split.
    + intros H. destruct (N.leb_spec (p * PAGE_SIZE + PAGE_SIZE) DISK_SIZE); [|done].
      unfold DISK_SIZE, PAGE_SIZE in *. lia.
    + intros H Hlen.
      destruct (N.leb_spec (p * PAGE_SIZE + PAGE_SIZE) DISK_SIZE);
        [|unfold DISK_SIZE, PAGE_SIZE in *; lia].
      rewrite Hlen.
      destruct (N.leb_spec ((p + 1) * PAGE_SIZE) DISK_SIZE); [|lia].
      simpl. split; [done|]. split; [done|]. intros Hbuf buf'.
      apply load_store_page; unfold DISK_SIZE, PAGE_SIZE in *; lia.
  - intros [st al] slot buf.
    unfold SwapSpace.write_page, SwapSpace.read_page, StoreContract.write_page,
      StoreContract.read_page, SwapSpace.size. simpl. split.
    + intros H. by destruct (N.ltb_spec slot (N.of_nat (length al))); [lia|].
    + intros H Hlen.
      destruct (N.ltb_spec slot (N.of_nat (length al))); [|lia].
      rewrite Hlen.
      destruct (N.leb_spec ((slot + 1) * PAGE_SIZE) (N.of_nat (length al) * PAGE_SIZE));
        [|unfold PAGE_SIZE in *; lia].
      simpl.
      destruct (N.ltb_spec slot (N.of_nat (length al))); [|lia].
      split; [done|]. split; [done|]. intros Hbuf buf'.
      apply load_store_page; unfold PAGE_SIZE in *; lia.
Qed.

(** ** Record plumbing *)

Lemma with_ram_same (m : MMU.t) : MMU.with_ram (MMU.ram m) m = m.
Proof. by destruct m. Qed.

(** ** C8: unmapping a range that holds no mapped page *)

Lemma unmap_page_unmapped (uninit : list byte) (m : MMU.t) (v : N) :
  MMU.page_table m !! v = None → MMU.unmap_page uninit m v = m.
Proof. intros H. unfold MMU.unmap_page. by rewrite H. Qed.

Lemma unmap_page_other (uninit : list byte) (m : MMU.t) (v w : N) :
  w ≠ v →
  MMU.page_table (MMU.unmap_page uninit m v) !! w = MMU.page_table m !! w.
Proof.
  intros Hne. unfold MMU.unmap_page.
  destruct (MMU.page_table m !! v) as [pte|]; [|done]. simpl.
  rewrite lookup_delete_ne by done.
  by destruct (present pte), (dirty pte && file_backed pte), (swapped pte).
Qed.

Lemma unmap_pages_loop_unmapped (uninit : list byte) (n : nat) (i start : N) (m : MMU.t) :
  (∀ k, k < N.of_nat n → MMU.page_table m !! wrap32 (start + (i + k)) = None) →
  MMU.unmap_pages_loop uninit n i start m = m.
Proof.
  revert i. induction n as [|n IH]; intros i H; [done|]. simpl.
  rewrite unmap_page_unmapped.
  - apply IH. intros k Hk. replace (i + 1 + k) with (i + (k + 1)) by lia.
    apply H. lia.
  - specialize (H 0). rewrite N.add_0_r in H. apply H. lia.
Qed.

Lemma unmap_pages_loop_other (uninit : list byte) (n : nat) (i start : N) (m : MMU.t) (w : N) :
  (∀ k, k < N.of_nat n → w ≠ wrap32 (start + (i + k))) →
  MMU.page_table (MMU.unmap_pages_loop uninit n i start m) !! w
  = MMU.page_table m !! w.
Proof.
  revert i m. induction n as [|n IH]; intros i m H; [done|]. simpl.
  rewrite IH.
  - apply unmap_page_other. specialize (H 0). rewrite N.add_0_r in H. apply H. lia.
  - intros k Hk. replace (i + 1 + k) with (i + (k + 1)) by lia. apply H. lia.
Qed.

Lemma munmap_status (uninit : list byte) (s : VirtualMemorySystem.t) (addr length : N) :
  (VirtualMemorySystem.munmap uninit s addr length).1 = 0%Z.
Proof. reflexivity. Qed.

(** On the freshly constructed system nothing is mapped, yet [munmap] of
    one page at the first mapping address reports success (status 0, not
    the failure status -1). *)
Lemma munmap_of_unmapped_reports_success :
  VirtualMemorySystem.munmap sample_page VirtualMemorySystem.init 268435456 4096
    = (0%Z, VirtualMemorySystem.init) ∧
  (VirtualMemorySystem.munmap sample_page VirtualMemorySystem.init 268435456 4096).1
    ≠ (-1)%Z.
Proof.
  split; [|by rewrite munmap_status].
  unfold VirtualMemorySystem.munmap, MMU.unmap_pages.
  by rewrite unmap_pages_loop_unmapped.
Qed.

(** C8, as the code has it.  [munmap] (and [MMU::unmap_pages] under it)
    always reports success.  When no page of the range is mapped the whole
    state is returned unchanged; in every case the entries of the pages
    outside the range are the ones that were there before. *)
Theorem munmap_of_unmapped_range (uninit : list byte) (s : VirtualMemorySystem.t)
    (addr length : N) :
  (VirtualMemorySystem.munmap uninit s addr length).1 = 0%Z ∧
  ((∀ k, k < VirtualMemorySystem.pages_needed length →
      MMU.page_table (VirtualMemorySystem.mmu s) !! wrap32 (wrap32 (addr / PAGE_SIZE) + k)
      = None) →
   VirtualMemorySystem.munmap uninit s addr length = (0%Z, s) ∧
   MMU.unmap_pages uninit (VirtualMemorySystem.mmu s) (wrap32 (addr / PAGE_SIZE))
     (VirtualMemorySystem.pages_needed length)
   = (true, VirtualMemorySystem.mmu s)) ∧
  (∀ w, (∀ k, k < VirtualMemorySystem.pages_needed length →
           w ≠ wrap32 (wrap32 (addr / PAGE_SIZE) + k)) →
     MMU.page_table (VirtualMemorySystem.mmu
                       (VirtualMemorySystem.munmap uninit s addr length).2) !! w
     = MMU.page_table (VirtualMemorySystem.mmu s) !! w).
Proof.
  unfold VirtualMemorySystem.munmap, MMU.unmap_pages. simpl.
  split; [done|]. split.
  - intros H. rewrite unmap_pages_loop_unmapped.
    + by destruct s.
    + intros k Hk. rewrite N.add_0_l. apply H. lia.
  - intros w H. apply unmap_pages_loop_other.
    intros k Hk. rewrite N.add_0_l. apply H. lia.
Qed.

(** ** C7: a failed fault *)

Lemma allocate_page_fails (r : RAM.t) (pm : option N) (r' : RAM.t) :
  RAM.size r < 2 ^ 32 →
  RAM.allocate_page r pm = (NO_PAGE, r') →
  r' = r ∧ first_free (RAM.allocated r) = None.
Proof.
  unfold RAM.allocate_page, RAM.size. intros Hsz H.
  destruct (first_free (RAM.allocated r)) as [i|] eqn:Hf; [|by simplify_eq].
  apply first_free_Some in Hf as [Hi _]. apply lookup_lt_Some in Hi.
  exfalso. injection H as H _. unfold wrap32, NO_PAGE in H.
  rewrite N.mod_small in H by lia. lia.
Qed.

Lemma evict_page_fails (uninit : list byte) (m m' : MMU.t) :
  MMU.evict_page uninit m = Some (NO_PAGE, m') → m' = m.
Proof.
  unfold MMU.evict_page. intros H.
  destruct (RAM.find_lru_page _ _) as [f|]; simplify_eq/=.
  destruct (N.eqb_spec f NO_PAGE); [by simplify_eq|].
  destruct (RAM.get_page_metadata _ f) as [victim|]; [|by simplify_eq].
  destruct (MMU.page_table m !! victim); simplify_eq/=.
Qed.

Lemma acquire_frame_fails (uninit : list byte) (m m' : MMU.t) (v : N) :
  RAM.size (MMU.ram m) < 2 ^ 32 →
  MMU.acquire_frame uninit m v = Some (None, m') → m' = m.
Proof.
  unfold MMU.acquire_frame. intros Hsz H.
  destruct (RAM.allocate_page _ _) as [pp r1] eqn:Ha.
  destruct (N.eqb_spec pp NO_PAGE) as [->|]; [|by simplify_eq].
  apply allocate_page_fails in Ha as [-> _]; [|done].
  rewrite with_ram_same in H.
  destruct (MMU.evict_page uninit m) as [[f m2]|] eqn:He; simplify_eq/=.
  destruct (N.eqb_spec f NO_PAGE) as [->|].
  - simplify_eq. by apply evict_page_fails in He.
  - by destruct (RAM.allocate_page _ _).
Qed.

(** C7.  When [handle_page_fault] reports failure (the page is not mapped,
    or no frame is free and there is nothing to evict) the state it leaves
    is the state it was given: the faulting entry, every other entry, the
    frame bitmap, the back references, the swap bitmap, the stored bytes
    and the clock are all untouched.  The same holds for [evict_page] when
    it finds no victim. *)
Theorem failed_fault_leaves_state (uninit : list byte) (m m' : MMU.t) (v : N) :
  RAM.size (MMU.ram m) < 2 ^ 32 →
  MMU.handle_page_fault uninit m v = Some (false, m') →
  m' = m ∧
  (∀ m'', MMU.evict_page uninit m = Some (NO_PAGE, m'') → m'' = m).
Proof.
  intros Hsz H. split; [|intros m''; apply evict_page_fails].
  unfold MMU.handle_page_fault in H.
  destruct (MMU.page_table m !! v) as [pte|]; [|by simplify_eq].
  destruct (MMU.acquire_frame uninit m v) as [[[pp|] m2]|] eqn:Ha; simplify_eq/=.
  - destruct (MMU.page_table m2 !! v); simplify_eq/=.
    by destruct (MMU.load_content _ _ _ _).
  - by apply acquire_frame_fails in Ha.
Qed.

Lemma failed_fault_leaves_state_witness :
  ∃ m', MMU.handle_page_fault sample_page out_of_memory_state 7 = Some (false, m') ∧
        (m' = out_of_memory_state ∧
         ∀ m'', MMU.evict_page sample_page out_of_memory_state = Some (NO_PAGE, m'') →
                m'' = out_of_memory_state).
Proof.
  assert (Hobs : fault_failed (MMU.handle_page_fault sample_page out_of_memory_state 7)
                 = true) by (vm_compute; reflexivity).
  destruct (MMU.handle_page_fault sample_page out_of_memory_state 7)
    as [[[] m']|] eqn:Hfault; try discriminate Hobs.
  exists m'. split; [reflexivity|].
  apply (failed_fault_leaves_state sample_page out_of_memory_state m' 7).
  - vm_compute. reflexivity.
  - exact Hfault.
Defined.

(** ** The LRU scan *)

Lemma resident_at_fun heap r i t1 t2 :
  resident_at heap r i t1 → resident_at heap r i t2 → t1 = t2.
Proof.
  intros (_ & p1 & m1 & Hp1 & Hm1 & <-) (_ & p2 & m2 & Hp2 & Hm2 & <-).
  by simplify_eq.
Qed.

Lemma lru_step_scanned heap r a acc acc' :
  N.of_nat a < 2 ^ 32 →
  lru_scanned heap r a acc →
  RAM.lru_step heap r a acc = Some acc' →
  lru_scanned heap r (S a) acc'.
Proof.
  intros Ha Hinv Hstep. unfold RAM.lru_step in Hstep.
  destruct (RAM.allocated r !! a) as [al|] eqn:Hal; [|done].
  destruct (RAM.frame_to_page r !! a) as [owner|] eqn:Hown; [|by destruct al].
  assert (Hskip : (∀ tj, ¬ resident_at heap r a tj) → acc' = acc →
                  lru_scanned heap r (S a) acc').
  { intros Hno ->. destruct Hinv as [(H2 & H1 & Hall)|(i & H2 & Hi & H1 & Hres & Hall)].
    - left. split_and!; [done|done|]. intros j tj Hj Hr.
      destruct (decide (j = a)) as [->|]; [by destruct (Hno tj)|].
      apply (Hall j); [lia|done].
    - right. exists i. split_and!; [done|lia|done|done|]. intros j tj Hj Hr.
      destruct (decide (j = a)) as [->|]; [by destruct (Hno tj)|].
      apply (Hall j); [lia|done]. }
  destruct al; cycle 1.
  { apply Hskip; [|by simplify_eq].
    intros tj (Hal' & _). congruence. }
  destruct owner as [p|]; cycle 1.
  { apply Hskip; [|by simplify_eq].
    intros tj (_ & p & meta & Hp & _). congruence. }
  destruct (heap !! p) as [meta|] eqn:Hp; [|done]. simpl in Hstep.
  assert (Hres : resident_at heap r a (last_access meta)).
  { split; [done|]. by exists p, meta. }
  assert (Hold : ∀ j tj, (j < a)%nat → resident_at heap r j tj → acc.1 ≤ tj).
  { intros j tj Hj Hr.
    destruct Hinv as [(_ & -> & Hall)|(i & _ & _ & _ & _ & Hall)].
    - by apply (Hall j).
    - by apply (Hall j). }
  destruct (N.ltb_spec (last_access meta) acc.1) as [Hlt|Hge]; simplify_eq.
  - right. exists a. simpl. unfold wrap32. rewrite N.mod_small by done.
    split_and!; [done|lia| |done|].
    + destruct Hinv as [(_ & H1 & _)|(i & _ & _ & H1 & _)]; lia.
    + intros j tj Hj Hr. destruct (decide (j = a)) as [->|].
      * rewrite (resident_at_fun _ _ _ _ _ Hr Hres). split; lia.
      * assert (acc.1 ≤ tj) by (apply (Hold j); [lia|done]). split; lia.
  - destruct Hinv as [(H2 & H1 & Hall)|(i & H2 & Hi & H1 & Hr & Hall)].
    + left. split_and!; [done|done|]. intros j tj Hj Hrj.
      destruct (decide (j = a)) as [->|].
      * rewrite (resident_at_fun _ _ _ _ _ Hrj Hres). lia.
      * apply (Hall j); [lia|done].
    + right. exists i. split_and!; [done|lia|done|done|]. intros j tj Hj Hrj.
      destruct (decide (j = a)) as [->|].
      * rewrite (resident_at_fun _ _ _ _ _ Hrj Hres). split; [done|lia].
      * apply (Hall j); [lia|done].
Qed.

Lemma lru_loop_scanned heap r n a acc res :
  N.of_nat (a + n) ≤ 2 ^ 32 →
  lru_scanned heap r a acc →
  RAM.lru_loop heap r (seq a n) acc = Some res →
  lru_scanned heap r (a + n) res.
Proof.
  revert a acc. induction n as [|n IH]; intros a acc Hb Hinv Hloop.
  - simpl in Hloop. simplify_eq. by rewrite Nat.add_0_r.
  - simpl in Hloop.
    destruct (RAM.lru_step heap r a acc) as [acc'|] eqn:Hstep; [|done].
    simpl in Hloop. replace (a + S n)%nat with (S a + n)%nat by lia.
    apply (IH (S a) acc'); [lia| |done].
    eapply lru_step_scanned; [lia|done|done].
Qed.

(** What [find_lru_page] returns: the sentinel only when no allocated
    frame has an entry with a timestamp below [UINT64_MAX]; otherwise the
    lowest-numbered frame among those whose entry has the least
    timestamp. *)
Lemma find_lru_page_spec heap r f :
  N.of_nat (length (RAM.frame_to_page r)) < 2 ^ 32 →
  RAM.find_lru_page heap r = Some f →
  (f = NO_PAGE ∧ ∀ j tj, resident_at heap r j tj → UINT64_MAX ≤ tj) ∨
  (∃ i ts, f = N.of_nat i ∧ f ≠ NO_PAGE ∧ ts < UINT64_MAX ∧
           resident_at heap r i ts ∧
           ∀ j tj, resident_at heap r j tj → ts ≤ tj ∧ ((j < i)%nat → ts < tj)).
Proof.
  intros Hlen H. unfold RAM.find_lru_page in H.
  destruct (RAM.lru_loop _ _ _ _) as [[oldest lru]|] eqn:Hloop; simplify_eq/=.
  assert (Hin : ∀ j tj, resident_at heap r j tj →
                  (j < 0 + length (RAM.frame_to_page r))%nat).
  { intros j tj (_ & p & meta & Hp & _). apply lookup_lt_Some in Hp. lia. }
  apply lru_loop_scanned in Hloop; [|lia|].
  - destruct Hloop as [(H2 & H1 & Hall)|(i & H2 & Hi & H1 & Hr & Hall)]; simpl in *.
    + left. split; [done|]. intros j tj Hj. apply (Hall j); [|done]. by eapply Hin.
    + right. exists i, oldest. split_and!; [done| |done|done|].
      * unfold NO_PAGE. lia.
      * intros j tj Hj. apply (Hall j); [|done]. by eapply Hin.
  - left. split_and!; [done|done|]. intros j tj Hj. lia.
Qed.

(** ** Effect of the MMU operations on frame ownership *)

Lemma update_meta_lookup (p : N) (f : PageMetadata → PageMetadata) (m : MMU.t) (w : N) :
  MMU.page_table (MMU.update_meta p f m) !! w
  = if decide (p = w) then f <$> MMU.page_table m !! p else MMU.page_table m !! w.
Proof. apply lookup_alter. Qed.

Lemma update_meta_core (p : N) (f : PageMetadata → PageMetadata) (m : MMU.t) (w : N) :
  (∀ x, core (f x) = core x) →
  core <$> MMU.page_table (MMU.update_meta p f m) !! w = core <$> MMU.page_table m !! w.
Proof.
  intros Hf. rewrite update_meta_lookup. case_decide as Hd; [|done]. subst w.
  destruct (MMU.page_table m !! p); simpl; [|done]. by rewrite Hf.
Qed.

Lemma assign_swap_slot_frames (victim : N) (m : MMU.t) :
  MMU.ram (MMU.assign_swap_slot victim m).2 = MMU.ram m ∧
  MMU.current_time (MMU.assign_swap_slot victim m).2 = MMU.current_time m ∧
  ∀ w, core <$> MMU.page_table (MMU.assign_swap_slot victim m).2 !! w
       = core <$> MMU.page_table m !! w.
Proof.
  unfold MMU.assign_swap_slot.
  destruct (SwapSpace.allocate_slot _) as [slot sw]. cbn [snd].
  split_and!; [done|done|]. intros w.
  by apply (update_meta_core victim _ (MMU.with_swap_space sw m) w).
Qed.

Lemma write_back_frames (uninit : list byte) (m : MMU.t) (victim vf : N)
    (meta : PageMetadata) :
  MMU.ram (MMU.write_back uninit m victim vf meta) = MMU.ram m ∧
  MMU.current_time (MMU.write_back uninit m victim vf meta) = MMU.current_time m ∧
  ∀ w, core <$> MMU.page_table (MMU.write_back uninit m victim vf meta) !! w
       = core <$> MMU.page_table m !! w.
Proof.
  unfold MMU.write_back.
  pose proof (assign_swap_slot_frames victim m) as (Hr & Ht & Hc).
  destruct (MMU.assign_swap_slot victim m) as [slot m'].
  by destruct (dirty meta), (file_backed meta), (swapped meta).
Qed.

Lemma get_page_metadata_owner (r : RAM.t) (i : nat) (p : N) :
  RAM.frame_to_page r !! i = Some (Some p) →
  RAM.get_page_metadata r (N.of_nat i) = Some p.
Proof.
  intros H. unfold RAM.get_page_metadata.
  pose proof (lookup_lt_Some _ _ _ H).
  destruct (N.ltb_spec (N.of_nat i) (N.of_nat (length (RAM.frame_to_page r)))); [|lia].
  by rewrite Nat2N.id, H.
Qed.

Lemma free_page_in_range (r : RAM.t) (i : nat) :
  (i < length (RAM.allocated r))%nat →
  RAM.free_page r (N.of_nat i)
  = RAM.mk (RAM.memory r) (<[i := None]> (RAM.frame_to_page r))
           (<[i := false]> (RAM.allocated r)).
Proof.
  intros H. unfold RAM.free_page, RAM.size.
  destruct (N.ltb_spec (N.of_nat i) (N.of_nat (length (RAM.allocated r)))); [|lia].
  by rewrite Nat2N.id.
Qed.

(** What a successful [evict_page] does to the bookkeeping. *)
Lemma evict_page_spec (uninit : list byte) (m m' : MMU.t) (f : N) :
  N.of_nat (length (RAM.frame_to_page (MMU.ram m))) < 2 ^ 32 →
  MMU.evict_page uninit m = Some (f, m') → f ≠ NO_PAGE →
  ∃ i p meta,
    f = N.of_nat i ∧
    RAM.find_lru_page (MMU.page_table m) (MMU.ram m) = Some f ∧
    RAM.allocated (MMU.ram m) !! i = Some true ∧
    RAM.frame_to_page (MMU.ram m) !! i = Some (Some p) ∧
    MMU.page_table m !! p = Some meta ∧
    (∀ w, w ≠ p → core <$> MMU.page_table m' !! w = core <$> MMU.page_table m !! w) ∧
    (∃ meta', MMU.page_table m' !! p = Some meta' ∧ present meta' = false) ∧
    RAM.allocated (MMU.ram m') = <[i := false]> (RAM.allocated (MMU.ram m)) ∧
    RAM.frame_to_page (MMU.ram m') = <[i := None]> (RAM.frame_to_page (MMU.ram m)) ∧
    MMU.current_time m' = MMU.current_time m.
Proof.
  intros Hlen H Hf. unfold MMU.evict_page in H.
  destruct (RAM.find_lru_page _ _) as [vf|] eqn:Hlru; simplify_eq/=.
  destruct (N.eqb_spec vf NO_PAGE) as [->|Hne]; [by simplify_eq|].
  apply find_lru_page_spec in Hlru as Hspec; [|done].
  destruct Hspec as [[-> _]|(i & ts & -> & _ & _ & (Hal & p & meta & Hp & Hmeta & _) & _)];
    [done|].
  rewrite (get_page_metadata_owner _ _ _ Hp) in H. rewrite Hmeta in H. simpl in H.
  simplify_eq.
  pose proof (write_back_frames uninit m p (N.of_nat i) meta) as (Hr & Ht & Hc).
  set (m1 := MMU.write_back uninit m p (N.of_nat i) meta) in *.
  exists i, p, meta. split_and!; try done.
  - intros w Hw. simpl. rewrite lookup_alter_ne by done. apply Hc.
  - specialize (Hc p). rewrite Hmeta in Hc. simpl.
    rewrite lookup_alter_eq.
    destruct (MMU.page_table m1 !! p) as [meta1|]; [|done]. by eexists.
  - simpl. rewrite free_page_in_range; [by rewrite Hr|].
    rewrite Hr. by eapply lookup_lt_Some.
  - simpl. rewrite free_page_in_range; [by rewrite Hr|].
    rewrite Hr. by eapply lookup_lt_Some.
Qed.

Lemma allocate_page_Some (r r' : RAM.t) (pm : option N) (pp : N) :
  RAM.size r < 2 ^ 32 →
  RAM.allocate_page r pm = (pp, r') → pp ≠ NO_PAGE →
  ∃ i, pp = N.of_nat i ∧ RAM.allocated r !! i = Some false ∧
       (∀ j, (j < i)%nat → RAM.allocated r !! j = Some true) ∧
       r' = RAM.mk (RAM.memory r) (<[i := pm]> (RAM.frame_to_page r))
                   (<[i := true]> (RAM.allocated r)).
Proof.
  unfold RAM.allocate_page, RAM.size. intros Hsz H Hpp.
  destruct (first_free (RAM.allocated r)) as [i|] eqn:Hfree; [|by simplify_eq].
  apply first_free_Some in Hfree as [Hi Hlt].
  pose proof (lookup_lt_Some _ _ _ Hi).
  simplify_eq. exists i. unfold wrap32. rewrite N.mod_small by lia. done.
Qed.

Lemma core_frame_of (x y : option PageMetadata) :
  core <$> x = core <$> y → frame_of <$> x = frame_of <$> y.
Proof.
  destruct x, y; simpl; try done. unfold core, frame_of.
  intros [= H1 H2 _]. by rewrite H1, H2.
Qed.

Lemma update_meta_frame_of (p : N) (f : PageMetadata → PageMetadata) (m : MMU.t) (w : N) :
  (∀ x, frame_of (f x) = frame_of x) →
  frame_of <$> MMU.page_table (MMU.update_meta p f m) !! w
  = frame_of <$> MMU.page_table m !! w.
Proof.
  intros Hf. rewrite update_meta_lookup. case_decide as Hd; [|done]. subst w.
  destruct (MMU.page_table m !! p); simpl; [|done]. by rewrite Hf.
Qed.

Lemma owns_frame_of (pt pt' : gmap N PageMetadata) (r : RAM.t) :
  (∀ w, frame_of <$> pt' !! w = frame_of <$> pt !! w) → owns pt r → owns pt' r.
Proof.
  intros Hc Ho v pte Hv Hp. specialize (Hc v). rewrite Hv in Hc.
  destruct (pt !! v) as [pte0|] eqn:Hv0; [|done]. simpl in Hc.
  injection Hc as Hpres Hpp. rewrite Hpp. apply (Ho v pte0); congruence.
Qed.

Lemma owns_bitmaps (pt : gmap N PageMetadata) (r r' : RAM.t) :
  RAM.allocated r' = RAM.allocated r →
  RAM.frame_to_page r' = RAM.frame_to_page r →
  owns pt r → owns pt r'.
Proof. intros Ha Hf Ho v pte Hv Hp. rewrite Ha, Hf. by apply Ho. Qed.

(** Handing a free frame to anybody keeps every present entry's frame. *)
Lemma owns_allocate (pt : gmap N PageMetadata) (r : RAM.t) (i : nat) (pm : option N) :
  RAM.allocated r !! i = Some false →
  owns pt r →
  owns pt (RAM.mk (RAM.memory r) (<[i := pm]> (RAM.frame_to_page r))
                  (<[i := true]> (RAM.allocated r))).
Proof.
  intros Hi Ho v pte Hv Hp. destruct (Ho v pte Hv Hp) as [Hal Hft]. simpl.
  assert (i ≠ N.to_nat (physical_page pte)) by congruence.
  by rewrite !list_lookup_insert_ne.
Qed.

(** Releasing frame [i] after its owner [p] stopped being present (or was
    erased). *)
Lemma owns_release (pt pt' : gmap N PageMetadata) (r : RAM.t) (i : nat) (p : N) :
  RAM.frame_to_page r !! i = Some (Some p) →
  (∀ w, w ≠ p → frame_of <$> pt' !! w = frame_of <$> pt !! w) →
  (∀ pte, pt' !! p = Some pte → present pte = false) →
  owns pt r →
  owns pt' (RAM.mk (RAM.memory r) (<[i := None]> (RAM.frame_to_page r))
                   (<[i := false]> (RAM.allocated r))).
Proof.
  intros Hi Hc Hp Ho v pte Hv Hpres.
  destruct (decide (v = p)) as [->|Hne].
  { rewrite (Hp pte Hv) in Hpres. done. }
  specialize (Hc v Hne). rewrite Hv in Hc.
  destruct (pt !! v) as [pte0|] eqn:Hv0; [|done]. simpl in Hc.
  injection Hc as Hpres' Hpp.
  destruct (Ho v pte0 Hv0) as [Hal Hft]; [congruence|]. rewrite Hpp. simpl.
  assert (i ≠ N.to_nat (physical_page pte0)) by congruence.
  by rewrite !list_lookup_insert_ne.
Qed.

Lemma frames_owned_allocate (m : MMU.t) (v pp : N) (r' : RAM.t) :
  frames_owned m →
  RAM.allocate_page (MMU.ram m) (Some v) = (pp, r') → pp ≠ NO_PAGE →
  frames_owned (MMU.with_ram r' m) ∧
  RAM.allocated r' !! N.to_nat pp = Some true ∧
  RAM.frame_to_page r' !! N.to_nat pp = Some (Some v).
Proof.
  intros (Hlen & Hsz & Ho) Ha Hpp.
  apply allocate_page_Some in Ha as (i & -> & Hi & _ & ->); [|done|done].
  pose proof (lookup_lt_Some _ _ _ Hi) as Hlt.
  rewrite Nat2N.id. simpl. split_and!.
  - unfold frames_owned, RAM.size in *. simpl. rewrite !length_insert.
    split_and!; [done|done|]. by apply owns_allocate.
  - by apply list_lookup_insert_eq.
  - apply list_lookup_insert_eq. lia.
Qed.

Lemma frames_owned_evict (uninit : list byte) (m m' : MMU.t) (f : N) :
  frames_owned m →
  MMU.evict_page uninit m = Some (f, m') → f ≠ NO_PAGE →
  frames_owned m' ∧
  (∃ i, f = N.of_nat i ∧ RAM.allocated (MMU.ram m') !! i = Some false ∧
        RAM.frame_to_page (MMU.ram m') !! i = Some None) ∧
  (∀ w, is_Some (MMU.page_table m !! w) → is_Some (MMU.page_table m' !! w)).
Proof.
  intros (Hlen & Hsz & Ho) He Hf. unfold RAM.size in Hsz.
  apply evict_page_spec in He
    as (i & p & meta & -> & _ & Hal & Hft & Hp & Hc & (meta' & Hp' & Hpres) & Ha' & Hf' & _);
    [|lia|done].
  pose proof (lookup_lt_Some _ _ _ Hal) as Hlt.
  split_and!.
  - unfold frames_owned, RAM.size. rewrite Ha', Hf', !length_insert.
    split_and!; [done|done|].
    eapply owns_bitmaps; [| |eapply (owns_release _ _ _ i p Hft _ _ Ho)]; try done.
    Unshelve.
    + intros w Hw. apply core_frame_of. by apply Hc.
    + intros pte Hpte. congruence.
  - exists i. rewrite Ha', Hf'. split_and!; [done| |].
    + by apply list_lookup_insert_eq.
    + apply list_lookup_insert_eq. lia.
  - intros w [x Hx]. destruct (decide (w = p)) as [->|Hne]; [by eexists|].
    specialize (Hc w Hne). rewrite Hx in Hc.
    destruct (MMU.page_table m' !! w); [by eexists|done].
Qed.

Lemma acquire_frame_owned (uninit : list byte) (m m2 : MMU.t) (v : N) (got : option N) :
  frames_owned m →
  MMU.acquire_frame uninit m v = Some (got, m2) →
  frames_owned m2 ∧
  (∀ w, is_Some (MMU.page_table m !! w) → is_Some (MMU.page_table m2 !! w)) ∧
  (∀ pp, got = Some pp →
     RAM.allocated (MMU.ram m2) !! N.to_nat pp = Some true ∧
     RAM.frame_to_page (MMU.ram m2) !! N.to_nat pp = Some (Some v)).
Proof.
  intros Hown H. unfold MMU.acquire_frame in H.
  destruct (RAM.allocate_page _ _) as [pp r1] eqn:Ha.
  destruct (N.eqb_spec pp NO_PAGE) as [->|Hpp].
  - apply allocate_page_fails in Ha as [-> _]; [|apply Hown].
    rewrite with_ram_same in H.
    destruct (MMU.evict_page uninit m) as [[f m1]|] eqn:He; simplify_eq/=.
    destruct (N.eqb_spec f NO_PAGE) as [->|Hf].
    { simplify_eq. apply evict_page_fails in He as ->. by split_and!. }
    destruct (frames_owned_evict _ _ _ _ Hown He Hf)
      as (Hown1 & (i & -> & Hal1 & Hft1) & Hdom).
    pose proof (lookup_lt_Some _ _ _ Hal1) as Hlt.
    destruct (RAM.allocate_page _ _) as [pp' r4] eqn:Ha'. simplify_eq.
    rewrite free_page_in_range in Ha' by done.
    rewrite (list_insert_id _ _ _ Hal1), (list_insert_id _ _ _ Hft1) in Ha'.
    assert (Hpp' : pp' ≠ NO_PAGE).
    { intros ->. destruct Hown1 as (_ & Hsz & _).
      apply allocate_page_fails in Ha' as [_ Hnone]; [|done]. simpl in Hnone.
      by destruct (first_free_is_Some _ _ Hal1) as [? ?]; simplify_eq. }
    assert (Heta : RAM.mk (RAM.memory (MMU.ram m1)) (RAM.frame_to_page (MMU.ram m1))
                     (RAM.allocated (MMU.ram m1)) = MMU.ram m1) by by destruct (MMU.ram m1).
    rewrite Heta in Ha'.
    destruct (frames_owned_allocate _ _ _ _ Hown1 Ha' Hpp') as (Hown2 & Hal2 & Hft2).
    split_and!; [done|done|]. intros ? [= <-]. done.
  - simplify_eq.
    destruct (frames_owned_allocate _ _ _ _ Hown Ha Hpp) as (Hown2 & Hal2 & Hft2).
    split_and!; [done|done|]. intros ? [= <-]. done.
Qed.

Lemma RAM_write_page_bitmaps (r : RAM.t) (n : N) (buf : list byte) :
  RAM.allocated (RAM.write_page r n buf) = RAM.allocated r ∧
  RAM.frame_to_page (RAM.write_page r n buf) = RAM.frame_to_page r.
Proof. unfold RAM.write_page. by destruct (RAM.get_page_ptr r n). Qed.

Lemma load_content_frames (uninit : list byte) (m : MMU.t) (v : N) (pte : PageMetadata) :
  MMU.ram (MMU.load_content uninit m v pte).2 = MMU.ram m ∧
  MMU.current_time (MMU.load_content uninit m v pte).2 = MMU.current_time m ∧
  ∀ w, core <$> MMU.page_table (MMU.load_content uninit m v pte).2 !! w
       = core <$> MMU.page_table m !! w.
Proof.
  unfold MMU.load_content.
  destruct (swapped pte); [|by destruct (file_backed pte)].
  cbn [snd]. split_and!; [done|done|]. intros w.
  by apply (update_meta_core v _ (MMU.with_swap_space _ m) w).
Qed.

Lemma handle_page_fault_owned (uninit : list byte) (m m' : MMU.t) (v : N) (ok : bool) :
  frames_owned m →
  MMU.handle_page_fault uninit m v = Some (ok, m') →
  frames_owned m' ∧
  (∀ w, is_Some (MMU.page_table m !! w) → is_Some (MMU.page_table m' !! w)) ∧
  (ok = true → ∃ pte, MMU.page_table m' !! v = Some pte ∧ present pte = true).
Proof.
  intros Hown H. unfold MMU.handle_page_fault in H.
  destruct (MMU.page_table m !! v) as [pte0|] eqn:Hv; [|by simplify_eq].
  destruct (MMU.acquire_frame uninit m v) as [[got m2]|] eqn:Ha; simplify_eq/=.
  destruct (acquire_frame_owned _ _ _ _ _ Hown Ha) as (Hown2 & Hdom2 & Hgot).
  destruct got as [pp|]; [|by simplify_eq].
  destruct (Hgot pp eq_refl) as [Hal Hft].
  destruct (MMU.page_table m2 !! v) as [pte|] eqn:Hv2; simplify_eq/=.
  pose proof (load_content_frames uninit m2 v pte) as (Hr3 & _ & Hc3).
  destruct (MMU.load_content uninit m2 v pte) as [buffer m3]. simpl in *.
  simplify_eq.
  pose proof (RAM_write_page_bitmaps (MMU.ram m3) pp buffer) as [Hwa Hwf].
  destruct Hown2 as (Hlen & Hsz & Ho).
  assert (Hv3 : is_Some (MMU.page_table m3 !! v)).
  { specialize (Hc3 v). rewrite Hv2 in Hc3.
    destruct (MMU.page_table m3 !! v); [by eexists|done]. }
  split_and!.
  - rewrite Hr3 in Hwa, Hwf.
    unfold frames_owned, RAM.size in *. mmu_proj. rewrite Hr3, Hwa, Hwf.
    split_and!; [done|done|].
    intros w ptew Hw Hpres. rewrite Hwa, Hwf.
    rewrite lookup_alter in Hw. case_decide as Hd.
    + subst w. destruct Hv3 as [pte3 Hpte3]. rewrite Hpte3 in Hw.
      simpl in Hw. simplify_eq. simpl. done.
    + apply (owns_frame_of _ _ _ (λ w, core_frame_of _ _ (Hc3 w)) Ho w ptew); done.
  - intros w Hw. mmu_proj. apply Hdom2 in Hw as [x Hx].
    rewrite lookup_alter. case_decide as Hd.
    + subst w. destruct Hv3 as [pte3 ->]. by eexists.
    + specialize (Hc3 w). rewrite Hx in Hc3.
      destruct (MMU.page_table m3 !! w); [by eexists|done].
  - intros _. mmu_proj. rewrite lookup_alter_eq.
    destruct Hv3 as [pte3 ->]. by eexists.
Qed.

Lemma translate_address_owned (uninit : list byte) (m m' : MMU.t) (a : N) (wr : bool)
    (res : option N) :
  frames_owned m →
  MMU.translate_address uninit m a wr = Some (res, m') →
  frames_owned m'.
Proof.
  intros Hown H. unfold MMU.translate_address in H.
  destruct (MMU.page_table m !! wrap32 (a / PAGE_SIZE)) as [pte|] eqn:Hv;
    [|by simplify_eq].
  assert (∃ ok m1, (if present pte then Some (true, m)
                    else MMU.handle_page_fault uninit m (wrap32 (a / PAGE_SIZE)))
                   = Some (ok, m1) ∧ frames_owned m1) as (ok & m1 & Heq & Hown1).
  { destruct (present pte).
    - by exists true, m.
    - destruct (MMU.handle_page_fault _ _ _) as [[ok m1]|] eqn:Hf; [|done].
      exists ok, m1. split; [done|]. by eapply handle_page_fault_owned. }
  rewrite Heq in H. cbn -[MMU.update_meta] in H.
  destruct ok; cbn -[MMU.update_meta] in H; [|by simplify_eq].
  set (m2 := MMU.update_meta _ _ _) in H.
  assert (Hown2 : frames_owned m2).
  { destruct Hown1 as (Hlen & Hsz & Ho). split_and!; [done|done|].
    eapply owns_frame_of; [|exact Ho]. intros w.
    apply (update_meta_frame_of _ _ (MMU.with_current_time _ m1) w).
    intros x. by destruct wr. }
  destruct (MMU.page_table m2 !! _) as [pte2|]; simplify_eq/=.
  destruct (RAM.get_page_ptr _ _); simplify_eq; [done|].
  by destruct (_ =? 0); simplify_eq.
Qed.

Lemma map_pages_loop_owned (n : nat) (i start : N) (fb : bool) (ds : N) (m : MMU.t) :
  frames_owned m → frames_owned (MMU.map_pages_loop n i start fb ds m).
Proof.
  revert i m. induction n as [|n IH]; intros i m Hown; [done|]. simpl.
  apply IH. destruct Hown as (Hlen & Hsz & Ho). split_and!; [done|done|].
  intros v pte Hv Hp. unfold MMU.map_page in Hv. simpl in Hv.
  rewrite lookup_insert in Hv. case_decide.
  - simplify_eq. by destruct fb.
  - by apply Ho.
Qed.

Lemma unmap_page_owned (uninit : list byte) (m : MMU.t) (v : N) :
  frames_owned m → frames_owned (MMU.unmap_page uninit m v).
Proof.
  intros (Hlen & Hsz & Ho). unfold MMU.unmap_page.
  destruct (MMU.page_table m !! v) as [pte|] eqn:Hv; [|done].
  destruct (present pte) eqn:Hpres.
  - destruct (Ho v pte Hv Hpres) as [Hal Hft].
    pose proof (lookup_lt_Some _ _ _ Hal) as Hlt.
    assert (Hfree : ∀ m0, MMU.ram m0 = MMU.ram m →
              RAM.free_page (MMU.ram m0) (physical_page pte)
              = RAM.mk (RAM.memory (MMU.ram m))
                  (<[N.to_nat (physical_page pte) := None]> (RAM.frame_to_page (MMU.ram m)))
                  (<[N.to_nat (physical_page pte) := false]> (RAM.allocated (MMU.ram m)))).
    { intros m0 ->. rewrite <- (N2Nat.id (physical_page pte)) at 1.
      by rewrite free_page_in_range. }
    assert (Hrel : owns (delete v (MMU.page_table m))
              (RAM.mk (RAM.memory (MMU.ram m))
                 (<[N.to_nat (physical_page pte) := None]> (RAM.frame_to_page (MMU.ram m)))
                 (<[N.to_nat (physical_page pte) := false]> (RAM.allocated (MMU.ram m))))).
    { eapply owns_release; [exact Hft| | |exact Ho].
      - intros w Hw. by rewrite lookup_delete_ne.
      - intros pte'. by rewrite lookup_delete_eq. }
    unfold frames_owned, RAM.size in *.
    destruct (dirty pte && file_backed pte), (swapped pte); simpl;
      rewrite Hfree by done; simpl; rewrite !length_insert; done.
  - assert (Hdel : owns (delete v (MMU.page_table m)) (MMU.ram m)).
    { intros w ptew Hw Hp. apply lookup_delete_Some in Hw as [_ Hw]. by apply (Ho w). }
    by destruct (swapped pte).
Qed.

Lemma unmap_pages_loop_owned (uninit : list byte) (n : nat) (i start : N) (m : MMU.t) :
  frames_owned m → frames_owned (MMU.unmap_pages_loop uninit n i start m).
Proof.
  revert i m. induction n as [|n IH]; intros i m Hown; [done|]. simpl.
  apply IH. by apply unmap_page_owned.
Qed.

Lemma step_owned (uninit : list byte) (m m' : MMU.t) (o : op) :
  frames_owned m → step uninit m o = Some m' → frames_owned m'.
Proof.
  intros Hown H. destruct o; simpl in H.
  - simplify_eq. by apply map_pages_loop_owned.
  - simplify_eq. by apply unmap_pages_loop_owned.
  - destruct (MMU.translate_address _ _ _ _) as [[res m1]|] eqn:Ht; simplify_eq/=.
    by eapply translate_address_owned.
  - destruct (MMU.handle_page_fault _ _ _) as [[ok m1]|] eqn:Hf; simplify_eq/=.
    by eapply handle_page_fault_owned.
  - destruct (MMU.evict_page _ _) as [[f m1]|] eqn:He; simplify_eq/=.
    destruct (decide (f = NO_PAGE)) as [->|Hf].
    + by apply evict_page_fails in He as ->.
    + by eapply frames_owned_evict.
  - unfold poke in H. destruct (_ <=? _); simplify_eq. done.
  - simplify_eq. done.
Qed.

Lemma init_owned : frames_owned MMU.init.
Proof.
  split_and!.
  - reflexivity.
  - vm_compute. reflexivity.
  - intros v pte Hv.
    change (MMU.page_table MMU.init) with (∅ : gmap N PageMetadata) in Hv.
    by rewrite lookup_empty in Hv.
Qed.

Lemma run_owned (uninit : list byte) (ops : list op) (m m' : MMU.t) :
  frames_owned m → run uninit ops m = Some m' → frames_owned m'.
Proof.
  revert m. induction ops as [|o ops IH]; intros m Hown H; simpl in H.
  - by simplify_eq.
  - destruct (step uninit m o) as [m1|] eqn:Hs; [|done]. simpl in H.
    eapply IH; [|done]. by eapply step_owned.
Qed.

Lemma owned_unique (m : MMU.t) : frames_owned m → frames_unique m.
Proof.
  intros (_ & _ & Ho) v1 v2 p1 p2 H1 H2 Hp1 Hp2 Heq.
  destruct (Ho v1 p1 H1 Hp1) as [_ Hf1]. destruct (Ho v2 p2 H2 Hp2) as [_ Hf2].
  rewrite Heq in Hf1. congruence.
Qed.

(** ** C2: frame uniqueness *)

Lemma reachable_owned (uninit : list byte) (m : MMU.t) :
  reachable uninit m → frames_owned m.
Proof. intros [ops Hrun]. eapply run_owned; [apply init_owned|done]. Qed.

(** C2.  After any sequence of map, unmap, translate, fault, evict, poke and
    file-creation operations on the fresh system (every sequence whose
    behaviour is defined), no two distinct present entries hold the same
    frame number.  A frame [allocate_page] hands out had its allocation bit
    clear, and has it set afterwards.  A successful [evict_page] leaves the
    entry the victim frame pointed to not present and the frame free, and the
    state it leaves again has no frame shared by two present entries: the
    frame is only handed out again from that state. *)
Theorem frame_uniqueness (uninit : list byte) (ops : list op) (m : MMU.t) :
  run uninit ops MMU.init = Some m →
  frames_unique m ∧
  (∀ (r r' : RAM.t) (pm : option N) (pp : N),
     RAM.size r < 2 ^ 32 → RAM.allocate_page r pm = (pp, r') → pp ≠ NO_PAGE →
     RAM.allocated r !! N.to_nat pp = Some false ∧
     RAM.allocated r' !! N.to_nat pp = Some true) ∧
  (∀ (f : N) (m' : MMU.t),
     MMU.evict_page uninit m = Some (f, m') → f ≠ NO_PAGE →
     ∃ p meta',
       RAM.get_page_metadata (MMU.ram m) f = Some p ∧
       MMU.page_table m' !! p = Some meta' ∧ present meta' = false ∧
       RAM.allocated (MMU.ram m') !! N.to_nat f = Some false ∧
       RAM.get_page_metadata (MMU.ram m') f = None ∧
       frames_unique m').
Proof.
  intros Hrun.
  assert (Hown : frames_owned m) by (apply (reachable_owned uninit); by exists ops).
  split_and!.
  - by apply owned_unique.
  - intros r r' pm pp Hsz Ha Hpp.
    apply allocate_page_Some in Ha as (i & -> & Hi & _ & ->); [|done|done].
    rewrite Nat2N.id. split; [done|]. simpl.
    apply list_lookup_insert_eq. by eapply lookup_lt_Some.
  - intros f m' He Hf.
    destruct (frames_owned_evict _ _ _ _ Hown He Hf) as (Hown' & (i & -> & Hal & Hft) & _).
    destruct Hown as (Hlen & Hsz & _). unfold RAM.size in Hsz.
    apply evict_page_spec in He
      as (i' & p & meta & Hi' & _ & _ & Hp & _ & _ & (meta' & Hp' & Hpres) & _);
      [|lia|done].
    apply Nat2N.inj in Hi' as <-.
    exists p, meta'. split_and!; try done.
    + by apply get_page_metadata_owner.
    + by rewrite Nat2N.id.
    + unfold RAM.get_page_metadata. rewrite Nat2N.id, Hft. by destruct (_ <? _).
    + by apply owned_unique.
Qed.

Lemma frame_uniqueness_witness :
  ∃ m, run sample_page pressure_ops MMU.init = Some m ∧
       (frames_unique m ∧
        (∀ (r r' : RAM.t) (pm : option N) (pp : N),
           RAM.size r < 2 ^ 32 → RAM.allocate_page r pm = (pp, r') → pp ≠ NO_PAGE →
           RAM.allocated r !! N.to_nat pp = Some false ∧
           RAM.allocated r' !! N.to_nat pp = Some true) ∧
        (∀ (f : N) (m' : MMU.t),
           MMU.evict_page sample_page m = Some (f, m') → f ≠ NO_PAGE →
           ∃ p meta',
             RAM.get_page_metadata (MMU.ram m) f = Some p ∧
             MMU.page_table m' !! p = Some meta' ∧ present meta' = false ∧
             RAM.allocated (MMU.ram m') !! N.to_nat f = Some false ∧
             RAM.get_page_metadata (MMU.ram m') f = None ∧
             frames_unique m')).
Proof.
  assert (Hobs : defined (run sample_page pressure_ops MMU.init) = true)
    by (vm_compute; reflexivity).
  destruct (run sample_page pressure_ops MMU.init) as [m|] eqn:Hrun;
    [|discriminate Hobs].
  exists m. split; [reflexivity|].
  exact (frame_uniqueness sample_page pressure_ops m Hrun).
Defined.

(** ** C3: the LRU victim *)





Lemma handle_page_fault_frame (uninit : list byte) (m m' : MMU.t) (v : N) :
  MMU.handle_page_fault uninit m v = Some (true, m') →
  ∃ pp m2 pte,
    MMU.acquire_frame uninit m v = Some (Some pp, m2) ∧
    MMU.page_table m' !! v = Some pte ∧ present pte = true ∧ physical_page pte = pp.
Proof.
  intros H. unfold MMU.handle_page_fault in H.
  destruct (MMU.page_table m !! v) as [pte0|] eqn:Hv; [|by simplify_eq].
  destruct (MMU.acquire_frame uninit m v) as [[[pp|] m2]|] eqn:Ha; simplify_eq/=.
  destruct (MMU.page_table m2 !! v) as [pte|] eqn:Hv2; simplify_eq/=.
  pose proof (load_content_frames uninit m2 v pte) as (_ & _ & Hc3).
  destruct (MMU.load_content uninit m2 v pte) as [buffer m3]. simpl in *.
  simplify_eq. specialize (Hc3 v). rewrite Hv2 in Hc3.
  destruct (MMU.page_table m3 !! v) as [pte3|] eqn:Hv3; [|done].
  exists pp, m2. eexists. split; [done|]. simpl.
  rewrite lookup_alter_eq, Hv3. done.
Qed.



Lemma lru_state_owned : frames_owned lru_state.
Proof.
  unfold lru_state.
  destruct (run sample_page lru_ops MMU.init) as [m|] eqn:Hrun; simpl.
  - eapply run_owned; [apply init_owned|done].
  - apply init_owned.
Qed.

(** The concrete run: frame 0 (page 16, written first) is the victim; after
    page 16 is read again the victim is frame 1. *)
Example lru_state_victim :
  RAM.find_lru_page (MMU.page_table lru_state) (MMU.ram lru_state) = Some 0 ∧
  (m' ← snd <$> MMU.translate_address sample_page lru_state (16 * PAGE_SIZE) false;
   RAM.find_lru_page (MMU.page_table m') (MMU.ram m')) = Some 1.
Proof. split; vm_compute; reflexivity. Qed.


(** ** C5: mapping a page that is already mapped *)

Lemma testbit_page_mask (n : N) :
  N.testbit 4294963200 n = (12 <=? n) && (n <? 32).
Proof.
  change 4294963200 with (N.shiftl (N.ones 20) 12).
  destruct (N.leb_spec 12 n) as [Hle|Hlt]; cbn [andb].
  - rewrite N.shiftl_spec_high' by done.
    destruct (N.ltb_spec n 32).
    + apply N.ones_spec_iff. lia.
    + apply N.ones_spec_high. lia.
  - by apply N.shiftl_spec_low.
Qed.

Lemma PDX_PGROUNDDOWN (va : N) :
  PageTableManager.PDX (PageTableManager.PGROUNDDOWN va) = PageTableManager.PDX va.
Proof.
  unfold PageTableManager.PDX, PageTableManager.PGROUNDDOWN.
  apply N.bits_inj. intros n.
  rewrite !N.land_spec, !N.shiftr_spec', N.land_spec, testbit_page_mask.
  change 1023 with (N.ones 10).
  destruct (N.ltb_spec n 10) as [Hn|Hn].
  - destruct (N.leb_spec 12 (n + 22)); [|lia].
    destruct (N.ltb_spec (n + 22) 32); [|lia]. by rewrite andb_true_r.
  - rewrite N.ones_spec_high by done. by rewrite !andb_false_r.
Qed.

Lemma PTX_PGROUNDDOWN (va : N) :
  PageTableManager.PTX (PageTableManager.PGROUNDDOWN va) = PageTableManager.PTX va.
Proof.
  unfold PageTableManager.PTX, PageTableManager.PGROUNDDOWN.
  apply N.bits_inj. intros n.
  rewrite !N.land_spec, !N.shiftr_spec', N.land_spec, testbit_page_mask.
  change 1023 with (N.ones 10).
  destruct (N.ltb_spec n 10) as [Hn|Hn].
  - destruct (N.leb_spec 12 (n + 12)); [|lia].
    destruct (N.ltb_spec (n + 12) 32); [|lia]. by rewrite andb_true_r.
  - rewrite N.ones_spec_high by done. by rewrite !andb_false_r.
Qed.

(** The remap check of [mappages]: a live entry stops the call at once. *)
Lemma mappages_body_live (s : PageTableManager.t) (a pa perm pte : N) :
  PageTableManager.lookup_pte s a = Some pte →
  N.land pte PageTableManager.PTE_PRESENT ≠ 0 →
  PageTableManager.mappages_body s a pa perm = inl s.
Proof.
  unfold PageTableManager.lookup_pte, PageTableManager.mappages_body.
  intros Hl Hp.
  destruct (N.land (PhysicalMemory.read_uint32 _ _) PageTableManager.PTE_PRESENT =? 0);
    [done|].
  injection Hl as Hl. rewrite Hl.
  destruct (N.eqb_spec (N.land pte PageTableManager.PTE_PRESENT) 0); [done|].
  simpl. by destruct s.
Qed.

Lemma map_pages_single (m : MMU.t) (v : N) (fb : bool) (ds : N) :
  v < 2 ^ 32 →
  ∃ pte, MMU.page_table (MMU.map_pages m v 1 fb ds).2 !! v = Some pte ∧
         present pte = false ∧ dirty pte = false ∧ swapped pte = false ∧
         physical_page pte = 0 ∧ last_access pte = 0 ∧ file_backed pte = fb.
Proof.
  intros Hv. unfold MMU.map_pages. simpl. unfold MMU.map_page. simpl.
  assert (wrap32 (v + 0) = v) as ->.
  { unfold wrap32. rewrite N.add_0_r. by apply N.mod_small. }
  rewrite lookup_insert_eq. eexists. split; [done|]. by destruct fb.
Qed.

(** Page 5 of [mapped_state] is present and dirty in frame 0; mapping it
    again is accepted ([true]) and replaces the entry by a fresh one that
    is not present. *)
Lemma map_pages_overwrites_live_entry :
  MMU.page_table mapped_state !! 5
    = Some (mkPageMetadata true true true false false 0 0 0 2 5) ∧
  (MMU.map_pages mapped_state 5 1 false 0).1 = true ∧
  MMU.page_table (MMU.map_pages mapped_state 5 1 false 0).2 !! 5
    = Some (mkPageMetadata false false false false false 0 0 0 0 5) ∧
  MMU.page_table (MMU.map_pages mapped_state 5 1 false 0).2 !! 5
    ≠ MMU.page_table mapped_state !! 5.
Proof.
  split_and!; [vm_compute; reflexivity|reflexivity|vm_compute; reflexivity|].
  vm_compute. discriminate.
Qed.

(** C5, as the code has it.  [PageTableManager::mappages] rejects a call
    whose first page already has a present entry: it returns -1 and leaves
    physical memory, hence that entry, as it was.  [MMU::map_pages] has no
    such check: it always returns [true], and the entry of a page it maps is
    a fresh one that is not present, whatever was there before. *)
Theorem remap_rejection :
  (∀ (s : PageTableManager.t) (va size pa perm pte : N),
     PageTableManager.lookup_pte s va = Some pte →
     N.land pte PageTableManager.PTE_PRESENT ≠ 0 →
     PageTableManager.mappages s va size pa perm = Some ((-1)%Z, s)) ∧
  (∀ (m : MMU.t) (start_page num_pages : N) (fb : bool) (ds : N),
     (MMU.map_pages m start_page num_pages fb ds).1 = true) ∧
  (∀ (m : MMU.t) (v : N) (fb : bool) (ds : N),
     v < 2 ^ 32 →
     ∃ pte, MMU.page_table (MMU.map_pages m v 1 fb ds).2 !! v = Some pte ∧
            present pte = false ∧ dirty pte = false ∧ swapped pte = false ∧
            physical_page pte = 0 ∧ last_access pte = 0 ∧ file_backed pte = fb).
Proof.
  split_and!.
  - intros s va size pa perm pte Hl Hp.
    unfold PageTableManager.mappages. cbn [PageTableManager.mappages_loop].
    rewrite (mappages_body_live s _ pa perm pte); [done| |done].
    unfold PageTableManager.lookup_pte in *.
    by rewrite PDX_PGROUNDDOWN, PTX_PGROUNDDOWN.
  - done.
  - apply map_pages_single.
Qed.

(** The page-table manager on its own run: the first [mappages] of virtual
    page [0x1000] succeeds, the second is rejected and changes nothing. *)
Example mappages_twice :
  (fst <$> PageTableManager.mappages PageTableManager.init 4096 4096 20480 6)
    = Some 0%Z ∧
  PageTableManager.lookup_pte one_page_mapped 4096 = Some 20487 ∧
  PageTableManager.mappages one_page_mapped 4096 4096 36864 6
    = Some ((-1)%Z, one_page_mapped).
Proof.
  split_and!; [vm_compute; reflexivity|vm_compute; reflexivity|].
  unfold PageTableManager.mappages. cbn [PageTableManager.mappages_loop].
  rewrite (mappages_body_live one_page_mapped _ 36864 6 20487); [done| |done].
  unfold PageTableManager.lookup_pte.
  rewrite PDX_PGROUNDDOWN, PTX_PGROUNDDOWN. vm_compute. reflexivity.
Qed.

(** * Further properties of the swapping simulator *)

(** ** No operation resizes a vector *)

Lemma length_store_page (v : list byte) (offset : N) (buffer : list byte) :
  length (store_page v offset buffer) = length v.
Proof. apply length_memcpy_into. Qed.

Lemma SwapSpace_allocate_slot_lengths (s : SwapSpace.t) :
  length (SwapSpace.swap_storage (SwapSpace.allocate_slot s).2)
    = length (SwapSpace.swap_storage s) ∧
  length (SwapSpace.allocated_slots (SwapSpace.allocate_slot s).2)
    = length (SwapSpace.allocated_slots s).
Proof.
  unfold SwapSpace.allocate_slot. destruct (first_free _); simpl; [|done].
  by rewrite length_insert.
Qed.

Lemma SwapSpace_write_page_lengths (s : SwapSpace.t) (slot : N) (buf : list byte) :
  length (SwapSpace.swap_storage (SwapSpace.write_page s slot buf))
    = length (SwapSpace.swap_storage s) ∧
  SwapSpace.allocated_slots (SwapSpace.write_page s slot buf)
    = SwapSpace.allocated_slots s.
Proof.
  unfold SwapSpace.write_page. destruct (_ <? _); simpl; [|done].
  by rewrite length_store_page.
Qed.

Lemma SwapSpace_free_slot_lengths (s : SwapSpace.t) (slot : N) :
  SwapSpace.swap_storage (SwapSpace.free_slot s slot) = SwapSpace.swap_storage s ∧
  length (SwapSpace.allocated_slots (SwapSpace.free_slot s slot))
    = length (SwapSpace.allocated_slots s).
Proof.
  unfold SwapSpace.free_slot. destruct (_ <? _); simpl; [|done].
  by rewrite length_insert.
Qed.

Lemma Disk_write_page_length (d : Disk.t) (p : N) (buf : list byte) :
  length (Disk.storage (Disk.write_page d p buf)) = length (Disk.storage d).
Proof.
  unfold Disk.write_page. simpl. destruct (_ <=? _); simpl; [|done].
  by rewrite length_store_page.
Qed.

Lemma Disk_write_file_loop_length (n : nat) (i : N) (st data : list byte) :
  length (Disk.write_file_loop n i st data) = length st.
Proof.
  revert i st. induction n as [|n IH]; intros i st; simpl; [done|].
  destruct (_ <? _); [|done]. by rewrite IH, length_memcpy_into.
Qed.

Lemma RAM_free_page_lengths (r : RAM.t) (n : N) :
  RAM.memory (RAM.free_page r n) = RAM.memory r ∧
  length (RAM.frame_to_page (RAM.free_page r n)) = length (RAM.frame_to_page r) ∧
  length (RAM.allocated (RAM.free_page r n)) = length (RAM.allocated r).
Proof.
  unfold RAM.free_page. destruct (_ <? _); simpl; [|done].
  by rewrite !length_insert.
Qed.

Lemma RAM_allocate_page_lengths (r : RAM.t) (pm : option N) :
  RAM.memory (RAM.allocate_page r pm).2 = RAM.memory r ∧
  length (RAM.frame_to_page (RAM.allocate_page r pm).2) = length (RAM.frame_to_page r) ∧
  length (RAM.allocated (RAM.allocate_page r pm).2) = length (RAM.allocated r).
Proof.
  unfold RAM.allocate_page. destruct (first_free _); simpl; [|done].
  by rewrite !length_insert.
Qed.

Lemma RAM_write_page_length (r : RAM.t) (n : N) (buf : list byte) :
  length (RAM.memory (RAM.write_page r n buf)) = length (RAM.memory r).
Proof.
  unfold RAM.write_page. destruct (RAM.get_page_ptr r n); simpl; [|done].
  by rewrite length_store_page.
Qed.

Lemma write_back_capacities (uninit : list byte) (m : MMU.t) (victim vf : N)
    (meta : PageMetadata) :
  capacities (MMU.write_back uninit m victim vf meta) = capacities m.
Proof.
  unfold MMU.write_back, MMU.assign_swap_slot, capacities.
  pose proof (SwapSpace_allocate_slot_lengths (MMU.swap_space m)) as [Hs Ha].
  destruct (SwapSpace.allocate_slot (MMU.swap_space m)) as [slot sw]. simpl in Hs, Ha.
  destruct (dirty meta), (file_backed meta), (swapped meta); cbn [negb andb]; mmu_proj;
    repeat match goal with
    | |- context [SwapSpace.write_page ?s ?n ?b] =>
        destruct (SwapSpace_write_page_lengths s n b) as (-> & ->)
    | |- context [Disk.write_page ?d ?p ?b] => rewrite (Disk_write_page_length d p b)
    end; rewrite ?Hs, ?Ha; done.
Qed.

Lemma evict_page_capacities (uninit : list byte) (m m' : MMU.t) (f : N) :
  MMU.evict_page uninit m = Some (f, m') → capacities m' = capacities m.
Proof.
  unfold MMU.evict_page. intros H.
  destruct (RAM.find_lru_page _ _) as [vf|]; simplify_eq/=.
  destruct (vf =? NO_PAGE); [by simplify_eq|].
  destruct (RAM.get_page_metadata _ vf) as [victim|]; [|by simplify_eq].
  destruct (MMU.page_table m !! victim) as [meta|]; simplify_eq/=.
  rewrite <- (write_back_capacities uninit m victim f meta).
  set (m1 := MMU.write_back uninit m victim f meta).
  unfold capacities. mmu_proj.
  by destruct (RAM_free_page_lengths (MMU.ram m1) f) as (-> & -> & ->).
Qed.

Lemma acquire_frame_capacities (uninit : list byte) (m m2 : MMU.t) (v : N)
    (got : option N) :
  MMU.acquire_frame uninit m v = Some (got, m2) → capacities m2 = capacities m.
Proof.
  unfold MMU.acquire_frame. intros H.
  pose proof (RAM_allocate_page_lengths (MMU.ram m) (Some v)) as (Hm & Hf & Ha).
  destruct (RAM.allocate_page (MMU.ram m) (Some v)) as [pp r1]. simpl in Hm, Hf, Ha.
  cbv beta iota zeta in H.
  assert (H1 : capacities (MMU.with_ram r1 m) = capacities m).
  { unfold capacities. mmu_proj. by rewrite Hm, Hf, Ha. }
  destruct (pp =? NO_PAGE); [|by injection H as <- <-].
  destruct (MMU.evict_page uninit _) as [[f m1]|] eqn:He; [|done].
  cbn -[capacities] in H.
  apply evict_page_capacities in He. rewrite H1 in He.
  destruct (f =? NO_PAGE); [by injection H as <- <-|].
  pose proof (RAM_free_page_lengths (MMU.ram m1) f) as (Hm3 & Hf3 & Ha3).
  pose proof (RAM_allocate_page_lengths (RAM.free_page (MMU.ram m1) f) (Some v))
    as (Hm4 & Hf4 & Ha4).
  destruct (RAM.allocate_page (RAM.free_page (MMU.ram m1) f) (Some v)) as [pp' r4].
  simpl in Hm4, Hf4, Ha4. cbv beta iota zeta in H. injection H as <- <-. rewrite <- He.
  unfold capacities. mmu_proj. by rewrite Hm4, Hf4, Ha4, Hm3, Hf3, Ha3.
Qed.

Lemma load_content_capacities (uninit : list byte) (m : MMU.t) (v : N) (pte : PageMetadata) :
  capacities (MMU.load_content uninit m v pte).2 = capacities m.
Proof.
  unfold MMU.load_content.
  destruct (swapped pte); [|by destruct (file_backed pte)].
  cbn [snd]. unfold capacities. mmu_proj.
  by destruct (SwapSpace_free_slot_lengths (MMU.swap_space m) (swap_slot pte)) as [-> ->].
Qed.

Lemma handle_page_fault_capacities (uninit : list byte) (m m' : MMU.t) (v : N) (ok : bool) :
  MMU.handle_page_fault uninit m v = Some (ok, m') → capacities m' = capacities m.
Proof.
  unfold MMU.handle_page_fault. intros H.
  destruct (MMU.page_table m !! v); [|by simplify_eq].
  destruct (MMU.acquire_frame uninit m v) as [[got m2]|] eqn:Ha; simplify_eq/=.
  destruct got as [pp|]; [|simplify_eq; by eapply acquire_frame_capacities].
  destruct (MMU.page_table m2 !! v) as [pte|]; simplify_eq/=.
  pose proof (load_content_capacities uninit m2 v pte) as Hl.
  destruct (MMU.load_content uninit m2 v pte) as [buffer m3]. cbn [snd] in Hl.
  injection H as <- <-.
  rewrite <- (acquire_frame_capacities _ _ _ _ _ Ha), <- Hl. unfold capacities. mmu_proj.
  rewrite RAM_write_page_length.
  by destruct (RAM_write_page_bitmaps (MMU.ram m3) pp buffer) as [-> ->].
Qed.

Lemma translate_address_capacities (uninit : list byte) (m m' : MMU.t) (a : N)
    (wr : bool) (res : option N) :
  MMU.translate_address uninit m a wr = Some (res, m') → capacities m' = capacities m.
Proof.
  unfold MMU.translate_address. intros H.
  destruct (MMU.page_table m !! _) as [pte|]; [|by simplify_eq].
  assert (∃ ok m1, (if present pte then Some (true, m)
                    else MMU.handle_page_fault uninit m (wrap32 (a / PAGE_SIZE)))
                   = Some (ok, m1) ∧ capacities m1 = capacities m) as (ok & m1 & Heq & Hc).
  { destruct (present pte).
    - by exists true, m.
    - destruct (MMU.handle_page_fault _ _ _) as [[ok m1]|] eqn:Hf; [|done].
      exists ok, m1. split; [done|]. by eapply handle_page_fault_capacities. }
  rewrite Heq in H. cbn -[MMU.update_meta] in H. rewrite <- Hc. clear Hc Heq.
  destruct ok; cbn -[MMU.update_meta] in H; [|by simplify_eq].
  destruct (MMU.page_table _ !! _) as [pte2|]; simplify_eq/=.
  destruct (RAM.get_page_ptr _ _); simplify_eq; [done|].
  by destruct (_ =? 0); simplify_eq.
Qed.

Lemma map_pages_loop_capacities (n : nat) (i start : N) (fb : bool) (ds : N) (m : MMU.t) :
  capacities (MMU.map_pages_loop n i start fb ds m) = capacities m.
Proof. revert i m. induction n as [|n IH]; intros i m; simpl; [done|]. by rewrite IH. Qed.

Lemma unmap_page_capacities (uninit : list byte) (m : MMU.t) (v : N) :
  capacities (MMU.unmap_page uninit m v) = capacities m.
Proof.
  unfold MMU.unmap_page. destruct (MMU.page_table m !! v) as [pte|]; [|done].
  unfold capacities.
  destruct (present pte), (dirty pte && file_backed pte), (swapped pte); mmu_proj;
    repeat match goal with
    | |- context [RAM.free_page ?r ?n] =>
        destruct (RAM_free_page_lengths r n) as (-> & -> & ->)
    | |- context [SwapSpace.free_slot ?s ?n] =>
        destruct (SwapSpace_free_slot_lengths s n) as (-> & ->)
    | |- context [Disk.write_page ?d ?p ?b] => rewrite (Disk_write_page_length d p b)
    end; done.
Qed.

Lemma unmap_pages_loop_capacities (uninit : list byte) (n : nat) (i start : N) (m : MMU.t) :
  capacities (MMU.unmap_pages_loop uninit n i start m) = capacities m.
Proof.
  revert i m. induction n as [|n IH]; intros i m; simpl; [done|].
  by rewrite IH, unmap_page_capacities.
Qed.

Lemma step_capacities (uninit : list byte) (m m' : MMU.t) (o : op) :
  step uninit m o = Some m' → capacities m' = capacities m.
Proof.
  intros H. destruct o; simpl in H.
  - simplify_eq. apply map_pages_loop_capacities.
  - simplify_eq. apply unmap_pages_loop_capacities.
  - destruct (MMU.translate_address _ _ _ _) as [[res m1]|] eqn:Ht; simplify_eq/=.
    by eapply translate_address_capacities.
  - destruct (MMU.handle_page_fault _ _ _) as [[ok m1]|] eqn:Hf; simplify_eq/=.
    by eapply handle_page_fault_capacities.
  - destruct (MMU.evict_page _ _) as [[f m1]|] eqn:He; simplify_eq/=.
    by eapply evict_page_capacities.
  - unfold poke in H. destruct (_ <=? _); simplify_eq.
    unfold capacities. mmu_proj. simpl. by rewrite length_memcpy_into.
  - simplify_eq. unfold capacities, Disk.write_file. mmu_proj. simpl.
    by rewrite Disk_write_file_loop_length.
Qed.

Lemma run_capacities (uninit : list byte) (ops : list op) (m m' : MMU.t) :
  run uninit ops m = Some m' → capacities m' = capacities m.
Proof.
  revert m. induction ops as [|o ops IH]; intros m H; simpl in H; [by simplify_eq|].
  destruct (step uninit m o) as [m1|] eqn:Hs; [|done]. simpl in H.
  rewrite (IH m1 H). by eapply step_capacities.
Qed.

Lemma well_sized_capacities (m m' : MMU.t) :
  capacities m' = capacities m → well_sized m → well_sized m'.
Proof.
  unfold capacities, well_sized, RAM.size, SwapSpace.size.
  intros [= -> -> -> -> -> ->]. done.
Qed.

Lemma init_well_sized : well_sized MMU.init.
Proof. unfold well_sized. split_and!; vm_compute; reflexivity. Qed.

Lemma capacities_sizes (m m' : MMU.t) :
  capacities m' = capacities m →
  RAM.size (MMU.ram m') = RAM.size (MMU.ram m) ∧
  SwapSpace.size (MMU.swap_space m') = SwapSpace.size (MMU.swap_space m).
Proof.
  unfold capacities, RAM.size, SwapSpace.size. intros [= _ _ -> _ -> _]. done.
Qed.

(** ** Unfolding the fault path *)

Lemma of_nat_lt_wrap32 (l : nat) (i : nat) :
  N.of_nat l < 2 ^ 32 → (i < l)%nat → wrap32 (N.of_nat i) = N.of_nat i.
Proof. intros Hl Hi. unfold wrap32. apply N.mod_small. lia. Qed.

Lemma allocate_page_free (r : RAM.t) (pm : option N) (j : nat) :
  RAM.size r < 2 ^ 32 →
  first_free (RAM.allocated r) = Some j →
  RAM.allocate_page r pm
  = (N.of_nat j, RAM.mk (RAM.memory r) (<[j := pm]> (RAM.frame_to_page r))
                        (<[j := true]> (RAM.allocated r))) ∧
  N.of_nat j ≠ NO_PAGE ∧ N.of_nat j < RAM.size r.
Proof.
  unfold RAM.size. intros Hsz Hfree. unfold RAM.allocate_page. rewrite Hfree.
  apply first_free_Some in Hfree as [Hj _]. pose proof (lookup_lt_Some _ _ _ Hj).
  rewrite (of_nat_lt_wrap32 (length (RAM.allocated r))) by done.
  split_and!; [done| |lia]. unfold NO_PAGE. lia.
Qed.

Lemma allocate_slot_free (s : SwapSpace.t) (k : nat) :
  SwapSpace.size s < 2 ^ 32 →
  first_free (SwapSpace.allocated_slots s) = Some k →
  SwapSpace.allocate_slot s
  = (N.of_nat k, SwapSpace.mk (SwapSpace.swap_storage s)
                   (<[k := true]> (SwapSpace.allocated_slots s))) ∧
  N.of_nat k < SwapSpace.size s.
Proof.
  unfold SwapSpace.size. intros Hsz Hfree. unfold SwapSpace.allocate_slot. rewrite Hfree.
  apply first_free_Some in Hfree as [Hk _]. pose proof (lookup_lt_Some _ _ _ Hk).
  rewrite (of_nat_lt_wrap32 (length (SwapSpace.allocated_slots s))) by done.
  split; [done|lia].
Qed.

(** [acquire_frame] when a frame is free: no eviction. *)
Lemma acquire_frame_free (uninit : list byte) (m : MMU.t) (v : N) (j : nat) :
  RAM.size (MMU.ram m) < 2 ^ 32 →
  first_free (RAM.allocated (MMU.ram m)) = Some j →
  MMU.acquire_frame uninit m v
  = Some (Some (N.of_nat j),
          MMU.with_ram (RAM.mk (RAM.memory (MMU.ram m))
                          (<[j := Some v]> (RAM.frame_to_page (MMU.ram m)))
                          (<[j := true]> (RAM.allocated (MMU.ram m)))) m).
Proof.
  intros Hsz Hfree. unfold MMU.acquire_frame.
  destruct (allocate_page_free _ (Some v) _ Hsz Hfree) as (-> & Hne & _).
  by destruct (N.eqb_spec (N.of_nat j) NO_PAGE).
Qed.

(** [handle_page_fault] once the frame is acquired. *)
Lemma handle_page_fault_unfold (uninit : list byte) (m m2 : MMU.t) (v pp : N)
    (pte0 pte : PageMetadata) :
  MMU.page_table m !! v = Some pte0 →
  MMU.acquire_frame uninit m v = Some (Some pp, m2) →
  MMU.page_table m2 !! v = Some pte →
  MMU.handle_page_fault uninit m v
  = Some (true,
      let m3 := (MMU.load_content uninit m2 v pte).2 in
      let now := wrap64 (MMU.current_time m3 + 1) in
      MMU.update_meta v (faulted_in now pp)
        (MMU.with_current_time now
           (MMU.with_ram (RAM.write_page (MMU.ram m3) pp (content_source uninit m2 pte))
              m3))).
Proof.
  intros Hv Ha Hv2. unfold MMU.handle_page_fault. rewrite Hv, Ha.
  cbn -[MMU.load_content MMU.update_meta]. rewrite Hv2.
  cbn -[MMU.load_content MMU.update_meta].
  assert (Hb : (MMU.load_content uninit m2 v pte).1 = content_source uninit m2 pte).
  { unfold MMU.load_content, content_source.
    by destruct (swapped pte), (file_backed pte). }
  destruct (MMU.load_content uninit m2 v pte) as [buffer m3]. simpl in Hb. subst buffer.
  done.
Qed.

(** Reading a frame back right after [RAM::write_page] filled it. *)
Lemma RAM_read_write_page (r : RAM.t) (n : N) (buf buf' : list byte) :
  N.of_nat (length (RAM.memory r)) = RAM.size r * PAGE_SIZE →
  n < RAM.size r → PAGE_SIZE ≤ N.of_nat (length buf) →
  RAM.read_page (RAM.write_page r n buf) n buf' = page_of buf.
Proof.
  intros Hlen Hn Hbuf. unfold RAM.read_page, RAM.write_page, RAM.get_page_ptr.
  destruct (N.ltb_spec n (RAM.size r)) as [_|]; [|lia]. simpl.
  unfold RAM.size in *. simpl.
  destruct (N.ltb_spec n (N.of_nat (length (RAM.allocated r)))) as [_|]; [|lia].
  apply load_store_page; unfold PAGE_SIZE in *; lia.
Qed.

Lemma length_load_page (v : list byte) (offset : N) :
  offset + PAGE_SIZE ≤ N.of_nat (length v) →
  length (load_page v offset) = N.to_nat PAGE_SIZE.
Proof.
  intros H. unfold load_page. rewrite length_take, length_drop.
  unfold PAGE_SIZE in *. lia.
Qed.

Lemma page_of_load_page (v : list byte) (offset : N) :
  page_of (load_page v offset) = load_page v offset.
Proof. unfold page_of, load_page. by rewrite take_take, Nat.min_id. Qed.

Lemma page_of_zeroes : page_of (replicate (N.to_nat PAGE_SIZE) x00)
                       = replicate (N.to_nat PAGE_SIZE) x00.
Proof. unfold page_of. apply take_ge. by rewrite length_replicate. Qed.

(** ** The write-back of [evict_page], case by case *)

(** [evict_page] in terms of its victim. *)
Lemma evict_page_unfold (uninit : list byte) (m m1 : MMU.t) (f p : N)
    (meta : PageMetadata) :
  MMU.evict_page uninit m = Some (f, m1) → f ≠ NO_PAGE →
  RAM.get_page_metadata (MMU.ram m) f = Some p →
  MMU.page_table m !! p = Some meta →
  m1 = MMU.with_ram (RAM.free_page (MMU.ram m) f)
         (MMU.update_meta p evicted (MMU.write_back uninit m p f meta)).
Proof.
  intros H Hf Hp Hmeta. unfold MMU.evict_page in H.
  destruct (RAM.find_lru_page _ _) as [vf|]; [|done].
  cbn -[MMU.write_back MMU.update_meta] in H.
  destruct (N.eqb_spec vf NO_PAGE) as [Heq|Hne]; [by simplify_eq|].
  destruct (RAM.get_page_metadata (MMU.ram m) vf) as [victim|] eqn:Hv; [|by simplify_eq].
  destruct (MMU.page_table m !! victim) as [vm|] eqn:Hvm; [|done].
  cbn -[MMU.write_back MMU.update_meta] in H. injection H as Hvf Hm1. subst vf m1.
  rewrite Hp in Hv. injection Hv as <-. rewrite Hmeta in Hvm. injection Hvm as <-.
  by destruct (write_back_frames uninit m p f meta) as (-> & _).
Qed.

(** The write-back of an anonymous victim that owns no slot, when slot [k]
    is the first free one: the frame is copied to slot [k]. *)
Lemma write_back_swap_out (uninit : list byte) (m : MMU.t) (victim vf : N)
    (meta : PageMetadata) (k : nat) :
  SwapSpace.size (MMU.swap_space m) < 2 ^ 32 →
  first_free (SwapSpace.allocated_slots (MMU.swap_space m)) = Some k →
  file_backed meta = false → swapped meta = false →
  MMU.write_back uninit m victim vf meta
  = let sw := SwapSpace.mk (SwapSpace.swap_storage (MMU.swap_space m))
                (<[k := true]> (SwapSpace.allocated_slots (MMU.swap_space m))) in
    MMU.with_swap_space
      (SwapSpace.write_page sw (N.of_nat k) (RAM.read_page (MMU.ram m) vf uninit))
      (MMU.update_meta victim (λ p, set_swapped true (set_swap_slot (N.of_nat k) p))
         (MMU.with_swap_space sw m)).
Proof.
  intros Hsz Hfree Hfb Hsw. unfold MMU.write_back, MMU.assign_swap_slot.
  destruct (allocate_slot_free _ _ Hsz Hfree) as [-> _].
  rewrite Hfb, Hsw. by destruct (dirty meta).
Qed.

(** The write-back of a file-backed victim: the disk page is rewritten
    when the entry is dirty, and nothing is written otherwise. *)
Lemma write_back_file_backed (uninit : list byte) (m : MMU.t) (victim vf : N)
    (meta : PageMetadata) :
  file_backed meta = true →
  MMU.write_back uninit m victim vf meta
  = if dirty meta
    then MMU.with_disk (Disk.write_page (MMU.disk m) (disk_page meta)
                          (RAM.read_page (MMU.ram m) vf uninit)) m
    else m.
Proof. intros Hfb. unfold MMU.write_back. rewrite Hfb. by destruct (dirty meta). Qed.

Lemma lookup_update_meta_eq (p : N) (f : PageMetadata → PageMetadata) (m : MMU.t)
    (x : PageMetadata) :
  MMU.page_table m !! p = Some x →
  MMU.page_table (MMU.update_meta p f m) !! p = Some (f x).
Proof. intros H. rewrite update_meta_lookup. case_decide; [|done]. by rewrite H. Qed.

Lemma victim_frame_in_range (m : MMU.t) (f p : N) :
  RAM.get_page_metadata (MMU.ram m) f = Some p →
  f < N.of_nat (length (RAM.frame_to_page (MMU.ram m))).
Proof.
  unfold RAM.get_page_metadata.
  by destruct (N.ltb_spec f (N.of_nat (length (RAM.frame_to_page (MMU.ram m))))).
Qed.

Lemma RAM_read_page_in_range (r : RAM.t) (n : N) (buf : list byte) :
  n < RAM.size r → RAM.read_page r n buf = load_page (RAM.memory r) (n * PAGE_SIZE).
Proof.
  intros H. unfold RAM.read_page, RAM.get_page_ptr.
  by destruct (N.ltb_spec n (RAM.size r)); [|lia].
Qed.

Lemma length_RAM_read_page (r : RAM.t) (n : N) (buf : list byte) :
  N.of_nat (length (RAM.memory r)) = RAM.size r * PAGE_SIZE → n < RAM.size r →
  length (RAM.read_page r n buf) = N.to_nat PAGE_SIZE.
Proof.
  intros Hlen Hn. rewrite RAM_read_page_in_range by done.
  apply length_load_page. unfold PAGE_SIZE in *. lia.
Qed.

Lemma evict_anonymous_lemma (uninit : list byte) (m m1 : MMU.t) (f p : N)
    (meta : PageMetadata) (k : nat) :
  well_sized m →
  MMU.evict_page uninit m = Some (f, m1) → f ≠ NO_PAGE →
  RAM.get_page_metadata (MMU.ram m) f = Some p →
  MMU.page_table m !! p = Some meta →
  file_backed meta = false → swapped meta = false →
  first_free (SwapSpace.allocated_slots (MMU.swap_space m)) = Some k →
  MMU.page_table m1 !! p
    = Some (evicted (set_swapped true (set_swap_slot (N.of_nat k) meta))) ∧
  N.of_nat k < SwapSpace.size (MMU.swap_space m1) ∧
  SwapSpace.read_page (MMU.swap_space m1) (N.of_nat k) uninit
    = RAM.read_page (MMU.ram m) f uninit ∧
  SwapSpace.allocated_slots (MMU.swap_space m1)
    = <[k := true]> (SwapSpace.allocated_slots (MMU.swap_space m)) ∧
  MMU.disk m1 = MMU.disk m ∧
  MMU.ram m1 = RAM.free_page (MMU.ram m) f.
Proof.
  intros (Hmem & Hlen & Hsz & Hsw & Hssz & _) He Hf Hp Hmeta Hfb Hswp Hfree.
  rewrite (evict_page_unfold _ _ _ _ _ _ He Hf Hp Hmeta).
  rewrite (write_back_swap_out _ _ _ _ _ k Hssz Hfree Hfb Hswp).
  destruct (allocate_slot_free _ _ Hssz Hfree) as [_ Hk].
  pose proof (victim_frame_in_range _ _ _ Hp) as Hfr.
  assert (Hfs : f < RAM.size (MMU.ram m)) by (unfold RAM.size; lia).
  cbv zeta. mmu_proj. split_and!; try done.
  - rewrite lookup_alter_eq, lookup_alter_eq, Hmeta. done.
  - unfold SwapSpace.write_page, SwapSpace.size in *. simpl.
    rewrite length_insert.
    destruct (N.ltb_spec (N.of_nat k)
                (N.of_nat (length (SwapSpace.allocated_slots (MMU.swap_space m)))));
      [|lia]. simpl. by rewrite length_insert.
  - unfold SwapSpace.read_page, SwapSpace.write_page, SwapSpace.size in *. simpl.
    rewrite length_insert.
    destruct (N.ltb_spec (N.of_nat k)
                (N.of_nat (length (SwapSpace.allocated_slots (MMU.swap_space m)))));
      [|lia]. simpl. rewrite length_insert.
    destruct (N.ltb_spec (N.of_nat k)
                (N.of_nat (length (SwapSpace.allocated_slots (MMU.swap_space m)))));
      [|lia].
    pose proof (length_RAM_read_page (MMU.ram m) f uninit Hmem Hfs) as Hb.
    rewrite load_store_page.
    + unfold page_of. apply take_ge. lia.
    + unfold PAGE_SIZE in *. lia.
    + lia.
  - unfold SwapSpace.write_page, SwapSpace.size. simpl. by destruct (_ <? _).
Qed.

(** ** The write-back when every swap slot is in use *)

(** With the swap space full, the write-back of a dirty anonymous victim
    stores the sentinel returned by [allocate_slot] in the entry, marks
    the entry swapped and copies the page nowhere. *)
Lemma write_back_swap_full (uninit : list byte) (m : MMU.t) (victim vf : N)
    (meta : PageMetadata) :
  first_free (SwapSpace.allocated_slots (MMU.swap_space m)) = None →
  SwapSpace.size (MMU.swap_space m) ≤ NO_PAGE →
  file_backed meta = false → swapped meta = false →
  MMU.write_back uninit m victim vf meta
  = MMU.update_meta victim (λ p, set_swapped true (set_swap_slot NO_PAGE p)) m.
Proof.
  intros Hfull Hsz Hfb Hsw.
  unfold MMU.write_back, MMU.assign_swap_slot, SwapSpace.allocate_slot.
  rewrite Hfull, Hfb, Hsw. cbn -[MMU.update_meta].
  assert (Hw : ∀ buf, SwapSpace.write_page (MMU.swap_space m) NO_PAGE buf
                      = MMU.swap_space m).
  { intros buf. by apply SwapSpace_out_of_range. }
  destruct (dirty meta); mmu_proj; rewrite Hw; by destruct m.
Qed.

(** ** What a fault copies into the frame *)

Lemma length_content_source (uninit : list byte) (m : MMU.t) (pte : PageMetadata) :
  well_sized m → PAGE_SIZE ≤ N.of_nat (length uninit) →
  PAGE_SIZE ≤ N.of_nat (length (content_source uninit m pte)).
Proof.
  intros (_ & _ & _ & Hsw & _ & Hdisk) Hu. unfold content_source.
  destruct (swapped pte); [|destruct (file_backed pte)].
  - unfold SwapSpace.read_page.
    destruct (N.ltb_spec (swap_slot pte) (SwapSpace.size (MMU.swap_space m))); [|done].
    rewrite length_load_page; [lia|]. unfold PAGE_SIZE in *. lia.
  - unfold Disk.read_page. cbv zeta.
    destruct (N.leb_spec (disk_page pte * PAGE_SIZE + PAGE_SIZE) DISK_SIZE); [|done].
    rewrite length_load_page; [lia|]. lia.
  - rewrite length_replicate. lia.
Qed.

Lemma fault_free_frame_lemma (uninit : list byte) (m : MMU.t) (v : N)
    (pte : PageMetadata) (j : nat) :
  well_sized m → PAGE_SIZE ≤ N.of_nat (length uninit) →
  MMU.page_table m !! v = Some pte →
  first_free (RAM.allocated (MMU.ram m)) = Some j →
  ∃ m', MMU.handle_page_fault uninit m v = Some (true, m') ∧
    MMU.page_table m' !! v
      = Some (faulted_in (wrap64 (MMU.current_time m + 1)) (N.of_nat j)
                (if swapped pte then set_swapped false pte else pte)) ∧
    (∀ w, w ≠ v → MMU.page_table m' !! w = MMU.page_table m !! w) ∧
    N.of_nat j < RAM.size (MMU.ram m') ∧
    RAM.read_page (MMU.ram m') (N.of_nat j) uninit
      = page_of (content_source uninit m pte) ∧
    RAM.allocated (MMU.ram m') = <[j := true]> (RAM.allocated (MMU.ram m)) ∧
    RAM.frame_to_page (MMU.ram m') = <[j := Some v]> (RAM.frame_to_page (MMU.ram m)) ∧
    MMU.disk m' = MMU.disk m ∧
    MMU.swap_space m'
      = (if swapped pte then SwapSpace.free_slot (MMU.swap_space m) (swap_slot pte)
         else MMU.swap_space m) ∧
    MMU.current_time m' = wrap64 (MMU.current_time m + 1).
Proof.
  intros Hws Hu Hv Hfree. pose proof Hws as (Hmem & Hlen & Hsz & _).
  pose proof (acquire_frame_free uninit m v j Hsz Hfree) as Ha.
  destruct (allocate_page_free _ (Some v) _ Hsz Hfree) as (_ & _ & Hj).
  set (r1 := RAM.mk (RAM.memory (MMU.ram m))
               (<[j := Some v]> (RAM.frame_to_page (MMU.ram m)))
               (<[j := true]> (RAM.allocated (MMU.ram m)))) in *.
  eexists. split.
  { eapply (handle_page_fault_unfold uninit m _ v _ pte pte Hv Ha). done. }
  assert (Hsrc : content_source uninit (MMU.with_ram r1 m) pte = content_source uninit m pte)
    by done.
  assert (Hr3 : MMU.ram (MMU.load_content uninit (MMU.with_ram r1 m) v pte).2 = r1).
  { by destruct (load_content_frames uninit (MMU.with_ram r1 m) v pte) as (-> & _). }
  assert (Hsize1 : RAM.size r1 = RAM.size (MMU.ram m)).
  { unfold RAM.size, r1. simpl. by rewrite length_insert. }
  cbv zeta. mmu_proj. rewrite Hr3, Hsrc.
  assert (Hbitmaps := RAM_write_page_bitmaps r1 (N.of_nat j) (content_source uninit m pte)).
  destruct Hbitmaps as [Hwa Hwf].
  split_and!.
  - rewrite lookup_alter_eq. unfold MMU.load_content.
    destruct (swapped pte) eqn:Hsw; [|destruct (file_backed pte)]; cbn [snd]; mmu_proj.
    + by rewrite lookup_alter_eq, Hv.
    + by rewrite Hv.
    + by rewrite Hv.
  - intros w Hw. rewrite lookup_alter_ne by done. unfold MMU.load_content.
    destruct (swapped pte); [|by destruct (file_backed pte)]. cbn [snd]. mmu_proj.
    by rewrite lookup_alter_ne.
  - unfold RAM.size in *. rewrite Hwa. simpl. by rewrite length_insert.
  - apply RAM_read_write_page; [by rewrite Hsize1|by rewrite Hsize1|].
    by apply length_content_source.
  - by rewrite Hwa.
  - by rewrite Hwf.
  - unfold MMU.load_content. by destruct (swapped pte), (file_backed pte).
  - unfold MMU.load_content. by destruct (swapped pte), (file_backed pte).
  - unfold MMU.load_content. by destruct (swapped pte), (file_backed pte).
Qed.

(** ** Faults and evictions, case by case *)

(** Capacity.  No sequence of operations resizes a vector: after any run
    every vector has the size the constructors gave it, so the RAM still
    has 8 frames of 4096 bytes with one back reference each, the swap
    space 32 slots of 4096 bytes, and the disk 64 pages. *)
Theorem run_keeps_capacities (uninit : list byte) (ops : list op) (m : MMU.t) :
  run uninit ops MMU.init = Some m →
  capacities m = capacities MMU.init ∧ well_sized m ∧
  RAM.size (MMU.ram m) = 8 ∧ SwapSpace.size (MMU.swap_space m) = 32.
Proof.
  intros Hrun. apply run_capacities in Hrun. split_and!.
  - done.
  - eapply well_sized_capacities; [exact Hrun|apply init_well_sized].
  - destruct (capacities_sizes _ _ Hrun) as [-> _]. vm_compute. reflexivity.
  - destruct (capacities_sizes _ _ Hrun) as [_ ->]. vm_compute. reflexivity.
Qed.

Lemma run_keeps_capacities_witness :
  ∃ m, run sample_page pressure_ops MMU.init = Some m ∧
       (capacities m = capacities MMU.init ∧ well_sized m ∧
        RAM.size (MMU.ram m) = 8 ∧ SwapSpace.size (MMU.swap_space m) = 32).
Proof.
  assert (Hobs : defined (run sample_page pressure_ops MMU.init) = true)
    by (vm_compute; reflexivity).
  destruct (run sample_page pressure_ops MMU.init) as [m|] eqn:Hrun;
    [|discriminate Hobs].
  exists m. split; [reflexivity|].
  exact (run_keeps_capacities sample_page pressure_ops m Hrun).
Defined.

(** Fault with a free frame.  When the faulting page has an entry and frame
    [j] is the first free one, [handle_page_fault] succeeds without
    evicting: the entry becomes present in frame [j] with a fresh
    timestamp, keeps its dirty flag and is no longer swapped; frame [j]
    is marked allocated and points back at the page; and the frame holds
    - zeroes for an anonymous page that was never swapped out,
    - the disk page for a file-backed page whose disk page is in range,
    - the swap slot's page for a swapped entry with a real slot, which is
      then released,
    - the contents of the uninitialised buffer when the disk page or the
      slot is out of range. *)
Theorem fault_populates_free_frame (uninit : list byte) (m : MMU.t) (v : N)
    (pte : PageMetadata) (j : nat) :
  well_sized m → PAGE_SIZE ≤ N.of_nat (length uninit) →
  MMU.page_table m !! v = Some pte →
  first_free (RAM.allocated (MMU.ram m)) = Some j →
  ∃ m' pte',
    MMU.handle_page_fault uninit m v = Some (true, m') ∧
    MMU.page_table m' !! v = Some pte' ∧
    present pte' = true ∧ swapped pte' = false ∧ dirty pte' = dirty pte ∧
    physical_page pte' = N.of_nat j ∧
    last_access pte' = wrap64 (MMU.current_time m + 1) ∧
    MMU.current_time m' = wrap64 (MMU.current_time m + 1) ∧
    RAM.allocated (MMU.ram m') = <[j := true]> (RAM.allocated (MMU.ram m)) ∧
    RAM.get_page_metadata (MMU.ram m') (N.of_nat j) = Some v ∧
    MMU.disk m' = MMU.disk m ∧
    (swapped pte = false → file_backed pte = false →
       RAM.read_page (MMU.ram m') (N.of_nat j) uninit
       = replicate (N.to_nat PAGE_SIZE) x00) ∧
    (swapped pte = false → file_backed pte = true →
       disk_page pte * PAGE_SIZE + PAGE_SIZE ≤ DISK_SIZE →
       RAM.read_page (MMU.ram m') (N.of_nat j) uninit
       = load_page (Disk.storage (MMU.disk m)) (disk_page pte * PAGE_SIZE)) ∧
    (swapped pte = false → file_backed pte = true →
       DISK_SIZE < disk_page pte * PAGE_SIZE + PAGE_SIZE →
       RAM.read_page (MMU.ram m') (N.of_nat j) uninit = page_of uninit) ∧
    (swapped pte = true → swap_slot pte < SwapSpace.size (MMU.swap_space m) →
       RAM.read_page (MMU.ram m') (N.of_nat j) uninit
       = load_page (SwapSpace.swap_storage (MMU.swap_space m))
           (swap_slot pte * PAGE_SIZE) ∧
       MMU.swap_space m' = SwapSpace.free_slot (MMU.swap_space m) (swap_slot pte)) ∧
    (swapped pte = true → SwapSpace.size (MMU.swap_space m) ≤ swap_slot pte →
       RAM.read_page (MMU.ram m') (N.of_nat j) uninit = page_of uninit ∧
       MMU.swap_space m' = MMU.swap_space m).
Proof.
  intros Hws Hu Hv Hfree.
  destruct (fault_free_frame_lemma uninit m v pte j Hws Hu Hv Hfree)
    as (m' & Hfault & Hv' & _ & Hj & Hread & Hal & Hft & Hdisk & Hswap & Hct).
  exists m'. eexists. split; [exact Hfault|]. split; [exact Hv'|].
  pose proof Hws as (_ & Hlen & _).
  pose proof (first_free_Some _ _ Hfree) as [Hjf _].
  pose proof (lookup_lt_Some _ _ _ Hjf) as Hjlt.
  split_and!; try done.
  - by destruct (swapped pte) eqn:Hsw.
  - by destruct (swapped pte).
  - unfold RAM.get_page_metadata. rewrite Hft, length_insert, Nat2N.id.
    destruct (N.ltb_spec (N.of_nat j) (N.of_nat (length (RAM.frame_to_page (MMU.ram m)))));
      [|lia].
    rewrite list_lookup_insert_eq by lia. done.
  - intros Hsw Hfb. rewrite Hread. unfold content_source. rewrite Hsw, Hfb.
    apply page_of_zeroes.
  - intros Hsw Hfb Hin. rewrite Hread. unfold content_source, Disk.read_page.
    rewrite Hsw, Hfb. cbv zeta.
    destruct (N.leb_spec (disk_page pte * PAGE_SIZE + PAGE_SIZE) DISK_SIZE); [|lia].
    apply page_of_load_page.
  - intros Hsw Hfb Hout. rewrite Hread. unfold content_source, Disk.read_page.
    rewrite Hsw, Hfb. cbv zeta.
    by destruct (N.leb_spec (disk_page pte * PAGE_SIZE + PAGE_SIZE) DISK_SIZE); [lia|].
  - intros Hsw Hin. rewrite Hread, Hswap. unfold content_source, SwapSpace.read_page.
    rewrite Hsw.
    destruct (N.ltb_spec (swap_slot pte) (SwapSpace.size (MMU.swap_space m))); [|lia].
    split; [apply page_of_load_page|done].
  - intros Hsw Hout. rewrite Hread, Hswap. unfold content_source, SwapSpace.read_page.
    rewrite Hsw.
    destruct (N.ltb_spec (swap_slot pte) (SwapSpace.size (MMU.swap_space m))); [lia|].
    split; [done|]. unfold SwapSpace.free_slot.
    by destruct (N.ltb_spec (swap_slot pte) (SwapSpace.size (MMU.swap_space m))); [lia|].
Qed.

Lemma fault_populates_free_frame_witness :
  ∃ m' pte',
    MMU.handle_page_fault sample_page file_page_state 5 = Some (true, m') ∧
    MMU.page_table m' !! 5 = Some pte' ∧ present pte' = true ∧
    RAM.read_page (MMU.ram m') 0 sample_page
    = load_page (Disk.storage (MMU.disk file_page_state)) (3 * PAGE_SIZE).
Proof.
  assert (Hws : well_sized file_page_state).
  { eapply well_sized_capacities; [|apply init_well_sized].
    apply map_pages_loop_capacities. }
  assert (Hu : PAGE_SIZE ≤ N.of_nat (length sample_page)) by (vm_compute; discriminate).
  assert (Hv : MMU.page_table file_page_state !! 5
               = Some (mkPageMetadata false false false true false 0 3 0 0 5))
    by (vm_compute; reflexivity).
  assert (Hfree : first_free (RAM.allocated (MMU.ram file_page_state)) = Some 0%nat)
    by (vm_compute; reflexivity).
  destruct (fault_populates_free_frame sample_page file_page_state 5 _ 0 Hws Hu Hv Hfree)
    as (m' & pte' & Hfault & Hv' & Hpres & _ & _ & _ & _ & _ & _ & _ & _ & _ & Hfile & _).
  exists m', pte'. split_and!; [exact Hfault|exact Hv'|exact Hpres|].
  apply Hfile; [reflexivity|reflexivity|vm_compute; discriminate].
Defined.

(** Eviction of an anonymous page.  When the victim is anonymous, owns no
    slot, and slot [k] is the first free one, [evict_page] copies the
    victim's frame into slot [k], marks the slot allocated, records it in
    the entry (swapped, slot [k], not present, not dirty, frame number 0),
    frees the frame and leaves the disk alone. *)
Theorem evict_anonymous_victim_swaps_out (uninit : list byte) (m m1 : MMU.t) (f p : N)
    (meta : PageMetadata) (k : nat) :
  well_sized m →
  MMU.evict_page uninit m = Some (f, m1) → f ≠ NO_PAGE →
  RAM.get_page_metadata (MMU.ram m) f = Some p →
  MMU.page_table m !! p = Some meta →
  file_backed meta = false → swapped meta = false →
  first_free (SwapSpace.allocated_slots (MMU.swap_space m)) = Some k →
  MMU.page_table m1 !! p
    = Some (evicted (set_swapped true (set_swap_slot (N.of_nat k) meta))) ∧
  N.of_nat k < SwapSpace.size (MMU.swap_space m1) ∧
  SwapSpace.read_page (MMU.swap_space m1) (N.of_nat k) uninit
    = RAM.read_page (MMU.ram m) f uninit ∧
  SwapSpace.allocated_slots (MMU.swap_space m1)
    = <[k := true]> (SwapSpace.allocated_slots (MMU.swap_space m)) ∧
  MMU.disk m1 = MMU.disk m ∧
  MMU.ram m1 = RAM.free_page (MMU.ram m) f.
Proof. apply evict_anonymous_lemma. Qed.

Lemma lru_state_well_sized : well_sized lru_state.
Proof.
  unfold lru_state.
  destruct (run sample_page lru_ops MMU.init) as [m|] eqn:Hrun; simpl.
  - eapply well_sized_capacities; [|apply init_well_sized]. by eapply run_capacities.
  - apply init_well_sized.
Qed.

Lemma evict_anonymous_victim_swaps_out_witness :
  ∃ m1, MMU.evict_page sample_page lru_state = Some (0, m1) ∧
    (MMU.page_table m1 !! 16
       = Some (evicted (set_swapped true (set_swap_slot (N.of_nat 0)
                 (mkPageMetadata true true true false false 0 0 0 2 16)))) ∧
     N.of_nat 0 < SwapSpace.size (MMU.swap_space m1) ∧
     SwapSpace.read_page (MMU.swap_space m1) (N.of_nat 0) sample_page
       = RAM.read_page (MMU.ram lru_state) 0 sample_page ∧
     SwapSpace.allocated_slots (MMU.swap_space m1)
       = <[0%nat := true]> (SwapSpace.allocated_slots (MMU.swap_space lru_state)) ∧
     MMU.disk m1 = MMU.disk lru_state ∧
     MMU.ram m1 = RAM.free_page (MMU.ram lru_state) 0).
Proof.
  assert (Hobs : evicts_frame 0 (MMU.evict_page sample_page lru_state) = true)
    by (vm_compute; reflexivity).
  destruct (MMU.evict_page sample_page lru_state) as [[f m1]|] eqn:He;
    [|discriminate Hobs].
  apply N.eqb_eq in Hobs. subst f.
  exists m1. split; [reflexivity|].
  apply (evict_anonymous_victim_swaps_out sample_page lru_state m1 0 16 _ 0
           lru_state_well_sized He).
  - discriminate.
  - vm_compute. reflexivity.
  - vm_compute. reflexivity.
  - reflexivity.
  - reflexivity.
  - vm_compute. reflexivity.
Defined.

Lemma SwapSpace_free_slot_out_of_range (s : SwapSpace.t) (slot : N) :
  SwapSpace.size s ≤ slot → SwapSpace.free_slot s slot = s.
Proof.
  intros H. unfold SwapSpace.free_slot.
  by destruct (N.ltb_spec slot (SwapSpace.size s)); [lia|].
Qed.

Lemma Disk_read_write_page (d : Disk.t) (n : N) (buf buf' : list byte) :
  N.of_nat (length (Disk.storage d)) = DISK_SIZE →
  n * PAGE_SIZE + PAGE_SIZE ≤ DISK_SIZE → PAGE_SIZE ≤ N.of_nat (length buf) →
  Disk.read_page (Disk.write_page d n buf) n buf' = page_of buf.
Proof.
  intros Hlen Hn Hbuf. unfold Disk.read_page, Disk.write_page. cbv zeta.
  destruct (N.leb_spec (n * PAGE_SIZE + PAGE_SIZE) DISK_SIZE); [|lia]. simpl.
  apply load_store_page; unfold PAGE_SIZE in *; lia.
Qed.

Lemma page_of_RAM_read_page (m : MMU.t) (f : N) (uninit : list byte) :
  well_sized m → f < RAM.size (MMU.ram m) →
  page_of (RAM.read_page (MMU.ram m) f uninit) = RAM.read_page (MMU.ram m) f uninit.
Proof.
  intros _ Hf. rewrite RAM_read_page_in_range by done. apply page_of_load_page.
Qed.

(** Eviction of a file-backed page.  The victim's entry loses its frame
    and its dirty flag and no swap slot is touched.  A dirty victim whose
    disk page lies on the disk is copied to that page and to no other; a
    clean victim is dropped without any write; and a dirty victim whose
    disk page lies past the end of the disk is dropped without any write
    as well. *)
Theorem evict_file_backed_victim_writes_back (uninit : list byte) (m m1 : MMU.t) (f p : N)
    (meta : PageMetadata) :
  well_sized m →
  MMU.evict_page uninit m = Some (f, m1) → f ≠ NO_PAGE →
  RAM.get_page_metadata (MMU.ram m) f = Some p →
  MMU.page_table m !! p = Some meta →
  file_backed meta = true →
  MMU.page_table m1 !! p = Some (evicted meta) ∧
  MMU.swap_space m1 = MMU.swap_space m ∧
  MMU.ram m1 = RAM.free_page (MMU.ram m) f ∧
  (dirty meta = false → MMU.disk m1 = MMU.disk m) ∧
  (dirty meta = true → disk_page meta * PAGE_SIZE + PAGE_SIZE ≤ DISK_SIZE →
     Disk.read_page (MMU.disk m1) (disk_page meta) uninit
       = RAM.read_page (MMU.ram m) f uninit ∧
     ∀ n, n ≠ disk_page meta →
       Disk.read_page (MMU.disk m1) n uninit = Disk.read_page (MMU.disk m) n uninit) ∧
  (dirty meta = true → DISK_SIZE < disk_page meta * PAGE_SIZE + PAGE_SIZE →
     MMU.disk m1 = MMU.disk m).
Proof.
  intros Hws He Hf Hp Hmeta Hfb. pose proof Hws as (Hmem & Hlen & Hsz & Hsw & Hssz & Hdisk).
  rewrite (evict_page_unfold _ _ _ _ _ _ He Hf Hp Hmeta).
  rewrite (write_back_file_backed _ _ _ _ _ Hfb).
  pose proof (victim_frame_in_range _ _ _ Hp) as Hfr.
  assert (Hfs : f < RAM.size (MMU.ram m)) by (unfold RAM.size; lia).
  destruct (dirty meta) eqn:Hd; mmu_proj.
  - split_and!; try done.
    + by rewrite lookup_alter_eq, Hmeta.
    + intros _ Hin. split.
      * rewrite Disk_read_write_page; [by apply page_of_RAM_read_page|done|done|].
        rewrite length_RAM_read_page by done. unfold PAGE_SIZE. lia.
      * intros n Hn. unfold Disk.read_page, Disk.write_page. cbv zeta.
        destruct (N.leb_spec (disk_page meta * PAGE_SIZE + PAGE_SIZE) DISK_SIZE); [|lia].
        destruct (N.leb_spec (n * PAGE_SIZE + PAGE_SIZE) DISK_SIZE); [|done].
        simpl. unfold load_page, store_page, memcpy_into.
        pose proof (length_RAM_read_page (MMU.ram m) f uninit Hmem Hfs) as Hb.
        rewrite (take_ge (page_of _)) by (rewrite length_page_of; lia).
        rewrite length_page_of by lia.
        apply list_eq. intros i. rewrite !lookup_take, !lookup_drop.
        case_decide; [|done].
        assert (n < disk_page meta ∨ disk_page meta < n) as [Hlt|Hgt] by lia.
        -- rewrite lookup_app_l by (rewrite length_take; unfold PAGE_SIZE in *; lia).
           rewrite lookup_take. case_decide; [done|]. unfold PAGE_SIZE in *. lia.
        -- rewrite lookup_app_r by (rewrite length_take; unfold PAGE_SIZE in *; lia).
           rewrite lookup_app_r
             by (rewrite length_take, length_page_of; unfold PAGE_SIZE in *; lia).
           rewrite lookup_drop, length_take, length_page_of by lia.
           f_equal. unfold PAGE_SIZE in *. lia.
    + intros _ Hout. unfold Disk.write_page. cbv zeta.
      by destruct (N.leb_spec (disk_page meta * PAGE_SIZE + PAGE_SIZE) DISK_SIZE); [lia|].
  - split_and!; try done. by rewrite lookup_alter_eq, Hmeta.
Qed.

Lemma file_lru_state_well_sized : well_sized file_lru_state.
Proof.
  unfold file_lru_state.
  destruct (run sample_page file_lru_ops MMU.init) as [m|] eqn:Hrun; simpl.
  - eapply well_sized_capacities; [|apply init_well_sized]. by eapply run_capacities.
  - apply init_well_sized.
Qed.

Lemma evict_file_backed_victim_writes_back_witness :
  ∃ m1, MMU.evict_page sample_page file_lru_state = Some (0, m1) ∧
    Disk.read_page (MMU.disk m1) 0 sample_page
      = RAM.read_page (MMU.ram file_lru_state) 0 sample_page.
Proof.
  assert (Hobs : evicts_frame 0 (MMU.evict_page sample_page file_lru_state) = true)
    by (vm_compute; reflexivity).
  destruct (MMU.evict_page sample_page file_lru_state) as [[f m1]|] eqn:He;
    [|discriminate Hobs].
  apply N.eqb_eq in Hobs. subst f.
  exists m1. split; [reflexivity|].
  assert (Hne : (0 : N) ≠ NO_PAGE) by discriminate.
  assert (Hp : RAM.get_page_metadata (MMU.ram file_lru_state) 0 = Some 16)
    by (vm_compute; reflexivity).
  assert (Hmeta : MMU.page_table file_lru_state !! 16
                  = Some (mkPageMetadata true true true true false 0 0 0 2 16))
    by (vm_compute; reflexivity).
  destruct (evict_file_backed_victim_writes_back sample_page file_lru_state m1 0 16 _
              file_lru_state_well_sized He Hne Hp Hmeta eq_refl)
    as (_ & _ & _ & _ & Hdirty & _).
  assert (Hin : 0 * PAGE_SIZE + PAGE_SIZE ≤ DISK_SIZE) by (vm_compute; discriminate).
  exact (proj1 (Hdirty eq_refl Hin)).
Defined.

(** ** Swap-out followed by swap-in *)

Lemma first_free_after_free (l : list bool) (f : nat) :
  (f < length l)%nat → is_Some (first_free (<[f := false]> l)).
Proof.
  intros Hf. apply (first_free_is_Some _ f). by apply list_lookup_insert_eq.
Qed.

(** Swap round trip.  When an anonymous page is evicted while a swap slot
    is free and is then faulted in again, it is back in a frame with the
    very bytes its frame held at the eviction, the slot it used in between
    is free again, and the disk was not written. *)
Theorem swap_out_then_fault_restores_page (uninit : list byte) (m m1 : MMU.t) (f p : N)
    (meta : PageMetadata) (k : nat) :
  well_sized m → PAGE_SIZE ≤ N.of_nat (length uninit) →
  MMU.evict_page uninit m = Some (f, m1) → f ≠ NO_PAGE →
  RAM.get_page_metadata (MMU.ram m) f = Some p →
  MMU.page_table m !! p = Some meta →
  file_backed meta = false → swapped meta = false →
  first_free (SwapSpace.allocated_slots (MMU.swap_space m)) = Some k →
  ∃ m2 pte2,
    MMU.handle_page_fault uninit m1 p = Some (true, m2) ∧
    MMU.page_table m2 !! p = Some pte2 ∧
    present pte2 = true ∧ swapped pte2 = false ∧ dirty pte2 = false ∧
    physical_page pte2 < RAM.size (MMU.ram m2) ∧
    RAM.read_page (MMU.ram m2) (physical_page pte2) uninit
      = RAM.read_page (MMU.ram m) f uninit ∧
    SwapSpace.allocated_slots (MMU.swap_space m2)
      = SwapSpace.allocated_slots (MMU.swap_space m) ∧
    MMU.disk m2 = MMU.disk m.
Proof.
  intros Hws Hu He Hf Hp Hmeta Hfb Hswp Hfree.
  destruct (evict_anonymous_lemma uninit m m1 f p meta k Hws He Hf Hp Hmeta Hfb Hswp Hfree)
    as (Hp1 & Hk & Hslot & Hslots & Hdisk & Hram).
  assert (Hws1 : well_sized m1).
  { eapply well_sized_capacities; [|exact Hws]. by eapply evict_page_capacities. }
  pose proof Hws as (Hmem & Hlen & Hsz & _).
  pose proof (victim_frame_in_range _ _ _ Hp) as Hfr.
  assert (Hfs : f < RAM.size (MMU.ram m)) by (unfold RAM.size; lia).
  assert (Hfree1 : is_Some (first_free (RAM.allocated (MMU.ram m1)))).
  { rewrite Hram. unfold RAM.free_page.
    destruct (N.ltb_spec f (RAM.size (MMU.ram m))); [|lia]. simpl.
    apply first_free_after_free. unfold RAM.size in *. lia. }
  destruct Hfree1 as [j Hj].
  destruct (fault_free_frame_lemma uninit m1 p _ j Hws1 Hu Hp1 Hj)
    as (m2 & Hfault & Hp2 & _ & Hjs & Hread & _ & _ & Hdisk2 & Hswap2 & _).
  exists m2. eexists. split; [exact Hfault|]. split; [exact Hp2|]. simpl.
  split_and!; try done.
  - rewrite Hread. unfold content_source. simpl. rewrite Hslot.
    by apply page_of_RAM_read_page.
  - rewrite Hswap2. simpl. unfold SwapSpace.free_slot.
    destruct (N.ltb_spec (N.of_nat k) (SwapSpace.size (MMU.swap_space m1))); [|lia].
    simpl. rewrite Hslots, Nat2N.id, list_insert_insert_eq.
    apply list_insert_id. by apply first_free_Some in Hfree as [? _].
  - by rewrite Hdisk2.
Qed.

Lemma swap_out_then_fault_restores_page_witness :
  ∃ m1 m2 pte2,
    MMU.evict_page sample_page lru_state = Some (0, m1) ∧
    MMU.handle_page_fault sample_page m1 16 = Some (true, m2) ∧
    MMU.page_table m2 !! 16 = Some pte2 ∧
    RAM.read_page (MMU.ram m2) (physical_page pte2) sample_page
      = RAM.read_page (MMU.ram lru_state) 0 sample_page.
Proof.
  assert (Hobs : evicts_frame 0 (MMU.evict_page sample_page lru_state) = true)
    by (vm_compute; reflexivity).
  destruct (MMU.evict_page sample_page lru_state) as [[f m1]|] eqn:He;
    [|discriminate Hobs].
  apply N.eqb_eq in Hobs. subst f.
  assert (Hu : PAGE_SIZE ≤ N.of_nat (length sample_page)) by (vm_compute; discriminate).
  assert (Hne : (0 : N) ≠ NO_PAGE) by discriminate.
  assert (Hp : RAM.get_page_metadata (MMU.ram lru_state) 0 = Some 16)
    by (vm_compute; reflexivity).
  assert (Hmeta : MMU.page_table lru_state !! 16
                  = Some (mkPageMetadata true true true false false 0 0 0 2 16))
    by (vm_compute; reflexivity).
  assert (Hk : first_free (SwapSpace.allocated_slots (MMU.swap_space lru_state))
               = Some 0%nat) by (vm_compute; reflexivity).
  destruct (swap_out_then_fault_restores_page sample_page lru_state m1 0 16 _ 0%nat
              lru_state_well_sized Hu He Hne Hp Hmeta eq_refl eq_refl Hk)
    as (m2 & pte2 & Hfault & Hp2 & _ & _ & _ & _ & Hread & _).
  exists m1, m2, pte2.
  split; [reflexivity|]. split; [exact Hfault|]. split; [exact Hp2|exact Hread].
Defined.

(** ** Eviction with every swap slot in use *)

(** Eviction with the swap space exhausted.  When an anonymous page is
    evicted while every swap slot is in use, [allocate_slot] returns the
    sentinel 4294967295 and [evict_page] records it as the page's slot
    without a check: the entry is marked swapped, the frame is freed, and
    neither the swap space nor the disk receives the page.  The next fault
    on the page succeeds and fills its frame with whatever the
    uninitialised buffer of [handle_page_fault] holds. *)
Theorem eviction_with_full_swap_loses_page (uninit : list byte) (m m1 : MMU.t) (f p : N)
    (meta : PageMetadata) :
  well_sized m → PAGE_SIZE ≤ N.of_nat (length uninit) →
  MMU.evict_page uninit m = Some (f, m1) → f ≠ NO_PAGE →
  RAM.get_page_metadata (MMU.ram m) f = Some p →
  MMU.page_table m !! p = Some meta →
  file_backed meta = false → swapped meta = false →
  first_free (SwapSpace.allocated_slots (MMU.swap_space m)) = None →
  (MMU.page_table m1 !! p
     = Some (evicted (set_swapped true (set_swap_slot NO_PAGE meta))) ∧
   MMU.swap_space m1 = MMU.swap_space m ∧ MMU.disk m1 = MMU.disk m ∧
   MMU.ram m1 = RAM.free_page (MMU.ram m) f) ∧
  ∃ m2 pte2,
    MMU.handle_page_fault uninit m1 p = Some (true, m2) ∧
    MMU.page_table m2 !! p = Some pte2 ∧
    present pte2 = true ∧ swapped pte2 = false ∧
    physical_page pte2 < RAM.size (MMU.ram m2) ∧
    RAM.read_page (MMU.ram m2) (physical_page pte2) uninit = page_of uninit ∧
    MMU.swap_space m2 = MMU.swap_space m ∧ MMU.disk m2 = MMU.disk m.
Proof.
  intros Hws Hu He Hf Hp Hmeta Hfb Hswp Hfull.
  pose proof Hws as (Hmem & Hlen & Hsz & Hsw & Hssz & Hdisk).
  assert (Hsn : SwapSpace.size (MMU.swap_space m) ≤ NO_PAGE) by (unfold NO_PAGE; lia).
  assert (Hfacts : MMU.page_table m1 !! p
     = Some (evicted (set_swapped true (set_swap_slot NO_PAGE meta))) ∧
   MMU.swap_space m1 = MMU.swap_space m ∧ MMU.disk m1 = MMU.disk m ∧
   MMU.ram m1 = RAM.free_page (MMU.ram m) f).
  { rewrite (evict_page_unfold _ _ _ _ _ _ He Hf Hp Hmeta).
    rewrite (write_back_swap_full _ _ _ _ _ Hfull Hsn Hfb Hswp). mmu_proj.
    split_and!; try done. by rewrite lookup_alter_eq, lookup_alter_eq, Hmeta. }
  split; [exact Hfacts|]. destruct Hfacts as (Hp1 & Hsw1 & Hd1 & Hram).
  assert (Hws1 : well_sized m1).
  { eapply well_sized_capacities; [|exact Hws]. by eapply evict_page_capacities. }
  pose proof (victim_frame_in_range _ _ _ Hp) as Hfr.
  assert (Hfs : f < RAM.size (MMU.ram m)) by (unfold RAM.size; lia).
  assert (Hfree1 : is_Some (first_free (RAM.allocated (MMU.ram m1)))).
  { rewrite Hram. unfold RAM.free_page.
    destruct (N.ltb_spec f (RAM.size (MMU.ram m))); [|lia]. simpl.
    apply first_free_after_free. unfold RAM.size in *. lia. }
  destruct Hfree1 as [j Hj].
  destruct (fault_free_frame_lemma uninit m1 p _ j Hws1 Hu Hp1 Hj)
    as (m2 & Hfault & Hp2 & _ & Hjs & Hread & _ & _ & Hdisk2 & Hswap2 & _).
  exists m2. eexists. split; [exact Hfault|]. split; [exact Hp2|]. simpl.
  simpl in Hswap2. rewrite Hsw1 in Hswap2.
  rewrite SwapSpace_free_slot_out_of_range in Hswap2 by done.
  split_and!; try done.
  - rewrite Hread. unfold content_source. simpl. rewrite Hsw1.
    unfold SwapSpace.read_page.
    by destruct (N.ltb_spec NO_PAGE (SwapSpace.size (MMU.swap_space m))); [lia|].
  - by rewrite Hdisk2.
Qed.

Lemma full_swap_state_well_sized : well_sized full_swap_state.
Proof.
  unfold full_swap_state.
  destruct (run sample_page full_swap_ops MMU.init) as [m|] eqn:Hrun; simpl.
  - eapply well_sized_capacities; [|apply init_well_sized]. by eapply run_capacities.
  - apply init_well_sized.
Qed.

Lemma eviction_with_full_swap_loses_page_witness :
  ∃ m1 m2 pte2,
    MMU.evict_page sample_page full_swap_state = Some (0, m1) ∧
    MMU.swap_space m1 = MMU.swap_space full_swap_state ∧
    MMU.handle_page_fault sample_page m1 48 = Some (true, m2) ∧
    MMU.page_table m2 !! 48 = Some pte2 ∧
    RAM.read_page (MMU.ram m2) (physical_page pte2) sample_page = page_of sample_page.
Proof.
  assert (Hobs : evicts_frame 0 (MMU.evict_page sample_page full_swap_state) = true)
    by (vm_compute; reflexivity).
  destruct (MMU.evict_page sample_page full_swap_state) as [[f m1]|] eqn:He;
    [|discriminate Hobs].
  apply N.eqb_eq in Hobs. subst f.
  assert (Hu : PAGE_SIZE ≤ N.of_nat (length sample_page)) by (vm_compute; discriminate).
  assert (Hne : (0 : N) ≠ NO_PAGE) by discriminate.
  assert (Hp : RAM.get_page_metadata (MMU.ram full_swap_state) 0 = Some 48)
    by (vm_compute; reflexivity).
  assert (Hmeta : MMU.page_table full_swap_state !! 48
                  = Some (mkPageMetadata true true true false false 0 0 0 66 48))
    by (vm_compute; reflexivity).
  assert (Hk : first_free (SwapSpace.allocated_slots (MMU.swap_space full_swap_state))
               = None) by (vm_compute; reflexivity).
  destruct (eviction_with_full_swap_loses_page sample_page full_swap_state m1 0 48 _
              full_swap_state_well_sized Hu He Hne Hp Hmeta eq_refl eq_refl Hk)
    as ((_ & Hsw & _) & m2 & pte2 & Hfault & Hp2 & _ & _ & _ & Hread & _).
  exists m1, m2, pte2.
  split; [reflexivity|]. split; [exact Hsw|]. split; [exact Hfault|].
  split; [exact Hp2|exact Hread].
Defined.

(** * Mapping and unmapping ranges of pages *)

Lemma map_page_fields (start : N) (fb : bool) (ds i : N) (m : MMU.t) :
  MMU.map_page start fb ds i m
  = MMU.with_page_table (MMU.page_table (MMU.map_page start fb ds i m)) m.
Proof. done. Qed.

Lemma map_pages_loop_fields (n : nat) (i start : N) (fb : bool) (ds : N) (m : MMU.t) :
  MMU.map_pages_loop n i start fb ds m
  = MMU.with_page_table (MMU.page_table (MMU.map_pages_loop n i start fb ds m)) m.
Proof.
  revert i m. induction n as [|n IH]; intros i m; [by destruct m|].
  cbn [MMU.map_pages_loop]. rewrite IH at 1. by destruct m.
Qed.

Lemma map_pages_loop_lookup (n : nat) (i start : N) (fb : bool) (ds : N) (m : MMU.t)
    (w : N) :
  start + i + N.of_nat n ≤ 2 ^ 32 →
  MMU.page_table (MMU.map_pages_loop n i start fb ds m) !! w
  = if decide (start + i ≤ w < start + i + N.of_nat n)
    then Some (fresh_entry start fb ds (w - start))
    else MMU.page_table m !! w.
Proof.
  revert i m. induction n as [|n IH]; intros i m Hb.
  { simpl. case_decide; [lia|done]. }
  cbn [MMU.map_pages_loop]. rewrite IH by lia.
  assert (Hw : wrap32 (start + i) = start + i).
  { unfold wrap32. apply N.mod_small. lia. }
  unfold MMU.map_page. cbv zeta. rewrite Hw. mmu_proj.
  destruct (decide (w = start + i)) as [->|Hne].
  - rewrite lookup_insert_eq.
    case_decide; [lia|]. case_decide; [|lia].
    f_equal. unfold fresh_entry.
    replace (start + i - start) with i by lia. by destruct fb.
  - rewrite lookup_insert_ne by done.
    case_decide; case_decide; try done; lia.
Qed.

(** [map_pages] is lazy: it only writes page-table entries.  It returns
    [true]; every page of the range gets a fresh entry (not present, clean,
    no frame, no slot, timestamp 0, with the page's own number and, for a
    file-backed mapping, its disk page), whatever was there before; the
    entries of the pages outside the range stay as they were; and RAM, disk,
    swap space and the clock are untouched. *)
Theorem map_pages_postcondition (m : MMU.t) (start_page num_pages : N) (fb : bool)
    (ds : N) :
  start_page + num_pages ≤ 2 ^ 32 →
  (MMU.map_pages m start_page num_pages fb ds).1 = true ∧
  (∀ i, i < num_pages →
     MMU.page_table (MMU.map_pages m start_page num_pages fb ds).2 !! (start_page + i)
     = Some (fresh_entry start_page fb ds i)) ∧
  (∀ w, w < start_page ∨ start_page + num_pages ≤ w →
     MMU.page_table (MMU.map_pages m start_page num_pages fb ds).2 !! w
     = MMU.page_table m !! w) ∧
  MMU.ram (MMU.map_pages m start_page num_pages fb ds).2 = MMU.ram m ∧
  MMU.disk (MMU.map_pages m start_page num_pages fb ds).2 = MMU.disk m ∧
  MMU.swap_space (MMU.map_pages m start_page num_pages fb ds).2 = MMU.swap_space m ∧
  MMU.current_time (MMU.map_pages m start_page num_pages fb ds).2 = MMU.current_time m.
Proof.
  intros Hb. unfold MMU.map_pages. cbn [fst snd].
  split; [done|]. split_and!.
  - intros i Hi. rewrite map_pages_loop_lookup by lia.
    case_decide; [|lia]. do 2 f_equal. lia.
  - intros w Hw. rewrite map_pages_loop_lookup by lia. case_decide; [lia|done].
  - by rewrite map_pages_loop_fields.
  - by rewrite map_pages_loop_fields.
  - by rewrite map_pages_loop_fields.
  - by rewrite map_pages_loop_fields.
Qed.

Lemma map_pages_postcondition_witness :
  MMU.page_table (MMU.map_pages mapped_state 5 2 true 7).2 !! (5 + 1)
  = Some (fresh_entry 5 true 7 1) ∧
  MMU.ram (MMU.map_pages mapped_state 5 2 true 7).2 = MMU.ram mapped_state.
Proof.
  assert (Hb : 5 + 2 ≤ 2 ^ 32) by (vm_compute; discriminate).
  destruct (map_pages_postcondition mapped_state 5 2 true 7 Hb)
    as (_ & Hin & _ & Hram & _).
  split; [apply Hin; reflexivity|exact Hram].
Defined.

(** ** [unmap_pages] *)

Lemma unmap_page_self (uninit : list byte) (m : MMU.t) (v : N) :
  MMU.page_table (MMU.unmap_page uninit m v) !! v = None.
Proof.
  unfold MMU.unmap_page.
  destruct (MMU.page_table m !! v) as [pte|] eqn:Hv; [|done]. simpl.
  rewrite lookup_delete_eq. done.
Qed.

Lemma unmap_page_lookup_Some (uninit : list byte) (m : MMU.t) (v w : N)
    (pte : PageMetadata) :
  MMU.page_table (MMU.unmap_page uninit m v) !! w = Some pte →
  MMU.page_table m !! w = Some pte.
Proof.
  destruct (decide (w = v)) as [->|Hne].
  - by rewrite unmap_page_self.
  - by rewrite unmap_page_other.
Qed.

Lemma unmap_page_time (uninit : list byte) (m : MMU.t) (v : N) :
  MMU.current_time (MMU.unmap_page uninit m v) = MMU.current_time m.
Proof.
  unfold MMU.unmap_page. destruct (MMU.page_table m !! v) as [pte|]; [|done].
  by destruct (present pte), (dirty pte && file_backed pte), (swapped pte).
Qed.

(** A frame or slot that is free stays free, and a frame that is freed is
    no longer referred to. *)
Lemma unmap_page_keeps_free (uninit : list byte) (m : MMU.t) (v : N) (f : nat) :
  (RAM.allocated (MMU.ram m) !! f = Some false →
   RAM.allocated (MMU.ram (MMU.unmap_page uninit m v)) !! f = Some false) ∧
  (RAM.frame_to_page (MMU.ram m) !! f = Some None →
   RAM.frame_to_page (MMU.ram (MMU.unmap_page uninit m v)) !! f = Some None) ∧
  (SwapSpace.allocated_slots (MMU.swap_space m) !! f = Some false →
   SwapSpace.allocated_slots (MMU.swap_space (MMU.unmap_page uninit m v)) !! f
   = Some false).
Proof.
  unfold MMU.unmap_page. destruct (MMU.page_table m !! v) as [pte|]; [|done].
  assert (Hfree : ∀ (A : Type) (l : list A) (x : A) (n : nat),
            l !! f = Some x → <[n := x]> l !! f = Some x).
  { intros A l x n Hl. destruct (decide (f = n)) as [->|Hne].
    - apply list_lookup_insert_eq. by eapply lookup_lt_Some.
    - by rewrite list_lookup_insert_ne. }
  split_and!; intros H;
    destruct (present pte), (dirty pte && file_backed pte), (swapped pte);
    mmu_proj; try done;
    unfold RAM.free_page, SwapSpace.free_slot; mmu_proj;
    repeat (match goal with |- context [if ?b then _ else _] => destruct b end);
    simpl; try done; by apply Hfree.
Qed.

Lemma unmap_pages_loop_keeps_free (uninit : list byte) (n : nat) (i start : N)
    (m : MMU.t) (f : nat) :
  (RAM.allocated (MMU.ram m) !! f = Some false →
   RAM.allocated (MMU.ram (MMU.unmap_pages_loop uninit n i start m)) !! f = Some false) ∧
  (RAM.frame_to_page (MMU.ram m) !! f = Some None →
   RAM.frame_to_page (MMU.ram (MMU.unmap_pages_loop uninit n i start m)) !! f
   = Some None) ∧
  (SwapSpace.allocated_slots (MMU.swap_space m) !! f = Some false →
   SwapSpace.allocated_slots
     (MMU.swap_space (MMU.unmap_pages_loop uninit n i start m)) !! f = Some false).
Proof.
  revert i m. induction n as [|n IH]; intros i m; [done|]. simpl.
  destruct (IH (i + 1) (MMU.unmap_page uninit m (wrap32 (start + i)))) as (Ha & Hf & Hs).
  destruct (unmap_page_keeps_free uninit m (wrap32 (start + i)) f) as (Ha' & Hf' & Hs').
  split_and!; intros H; auto.
Qed.

(** What unmapping one mapped page releases. *)
Lemma unmap_page_releases (uninit : list byte) (m : MMU.t) (v : N) (pte : PageMetadata) :
  MMU.page_table m !! v = Some pte →
  (present pte = true → physical_page pte < RAM.size (MMU.ram m) →
   length (RAM.frame_to_page (MMU.ram m)) = length (RAM.allocated (MMU.ram m)) →
   RAM.allocated (MMU.ram (MMU.unmap_page uninit m v)) !! N.to_nat (physical_page pte)
     = Some false ∧
   RAM.frame_to_page (MMU.ram (MMU.unmap_page uninit m v)) !! N.to_nat (physical_page pte)
     = Some None) ∧
  (swapped pte = true → swap_slot pte < SwapSpace.size (MMU.swap_space m) →
   SwapSpace.allocated_slots (MMU.swap_space (MMU.unmap_page uninit m v))
     !! N.to_nat (swap_slot pte) = Some false).
Proof.
  intros Hv. unfold MMU.unmap_page. rewrite Hv. split.
  - intros -> Hp Hlen. unfold RAM.size in Hp.
    assert (Hfree : ∀ r, RAM.allocated r = RAM.allocated (MMU.ram m) →
                         RAM.frame_to_page r = RAM.frame_to_page (MMU.ram m) →
              RAM.allocated (RAM.free_page r (physical_page pte))
                !! N.to_nat (physical_page pte) = Some false ∧
              RAM.frame_to_page (RAM.free_page r (physical_page pte))
                !! N.to_nat (physical_page pte) = Some None).
    { intros r Ha Hf. unfold RAM.free_page, RAM.size. rewrite Ha, Hf.
      destruct (N.ltb_spec (physical_page pte)
                  (N.of_nat (length (RAM.allocated (MMU.ram m))))); [|lia].
      simpl. split; apply list_lookup_insert_eq; lia. }
    destruct (dirty pte && file_backed pte), (swapped pte); mmu_proj;
      by apply Hfree.
  - intros -> Hs.
    assert (Hsw : ∀ m1, MMU.swap_space m1 = MMU.swap_space m →
              SwapSpace.allocated_slots
                (SwapSpace.free_slot (MMU.swap_space m1) (swap_slot pte))
                !! N.to_nat (swap_slot pte) = Some false).
    { intros m1 ->. unfold SwapSpace.free_slot.
      destruct (N.ltb_spec (swap_slot pte) (SwapSpace.size (MMU.swap_space m))); [|lia].
      simpl. apply list_lookup_insert_eq. unfold SwapSpace.size in *. lia. }
    destruct (present pte), (dirty pte && file_backed pte); mmu_proj; by apply Hsw.
Qed.

Lemma unmap_pages_loop_range (uninit : list byte) (n : nat) (i start : N) (m : MMU.t) :
  start + i + N.of_nat n ≤ 2 ^ 32 →
  ∀ k, i ≤ k < i + N.of_nat n →
    MMU.page_table (MMU.unmap_pages_loop uninit n i start m) !! (start + k) = None.
Proof.
  revert i m. induction n as [|n IH]; intros i m Hb k Hk; [lia|]. simpl.
  assert (Hw : wrap32 (start + i) = start + i).
  { unfold wrap32. apply N.mod_small. lia. }
  rewrite Hw.
  destruct (decide (k = i)) as [->|Hne].
  - rewrite unmap_pages_loop_other.
    + apply unmap_page_self.
    + intros j Hj. unfold wrap32. rewrite N.mod_small by lia. lia.
  - apply IH; lia.
Qed.

Lemma unmap_pages_loop_releases (uninit : list byte) (n : nat) (i start : N) (m : MMU.t) :
  start + i + N.of_nat n ≤ 2 ^ 32 → frames_owned m →
  ∀ k pte, i ≤ k < i + N.of_nat n →
    MMU.page_table m !! (start + k) = Some pte →
    (present pte = true →
     RAM.allocated (MMU.ram (MMU.unmap_pages_loop uninit n i start m))
       !! N.to_nat (physical_page pte) = Some false ∧
     RAM.frame_to_page (MMU.ram (MMU.unmap_pages_loop uninit n i start m))
       !! N.to_nat (physical_page pte) = Some None) ∧
    (swapped pte = true → swap_slot pte < SwapSpace.size (MMU.swap_space m) →
     SwapSpace.allocated_slots
       (MMU.swap_space (MMU.unmap_pages_loop uninit n i start m))
       !! N.to_nat (swap_slot pte) = Some false).
Proof.
  revert i m. induction n as [|n IH]; intros i m Hb Hown k pte Hk Hv; [lia|]. simpl.
  assert (Hw : wrap32 (start + i) = start + i).
  { unfold wrap32. apply N.mod_small. lia. }
  rewrite Hw.
  pose proof (unmap_page_owned uninit m (start + i) Hown) as Hown1.
  destruct (decide (k = i)) as [->|Hne].
  - destruct (unmap_page_releases uninit m (start + i) pte Hv) as [Hfr Hsl].
    split.
    + intros Hp. destruct Hown as (Hlen & Hsz & Ho).
      destruct (Ho _ _ Hv Hp) as [Ha _].
      apply lookup_lt_Some in Ha.
      destruct Hfr as [H1 H2]; [done|unfold RAM.size; lia|done|].
      split; by apply unmap_pages_loop_keeps_free.
    + intros Hs Hlt. by apply unmap_pages_loop_keeps_free, Hsl.
  - assert (Hv1 : MMU.page_table (MMU.unmap_page uninit m (start + i)) !! (start + k)
                  = Some pte).
    { rewrite unmap_page_other by lia. done. }
    destruct (IH (i + 1) _ ltac:(lia) Hown1 k pte ltac:(lia) Hv1) as [Hfr Hsl].
    split; [done|]. intros Hs Hlt. apply Hsl; [done|].
    assert (Heq : SwapSpace.size (MMU.swap_space (MMU.unmap_page uninit m (start + i)))
                  = SwapSpace.size (MMU.swap_space m)).
    { pose proof (unmap_page_capacities uninit m (start + i)) as Hc.
      by destruct (capacities_sizes _ _ Hc) as [_ ->]. }
    by rewrite Heq.
Qed.

(** [unmap_pages] always returns [true] and erases the entry of every page
    of the range; entries outside the range and the clock stay as they
    were.  In a state where present entries own their frames, the frame of
    every present page of the range ends up free with its back reference
    cleared, the slot of every swapped page of the range ends up free, and
    ownership still holds afterwards. *)
Theorem unmap_pages_postcondition (uninit : list byte) (m : MMU.t)
    (start_page num_pages : N) :
  start_page + num_pages ≤ 2 ^ 32 →
  (MMU.unmap_pages uninit m start_page num_pages).1 = true ∧
  (∀ i, i < num_pages →
     MMU.page_table (MMU.unmap_pages uninit m start_page num_pages).2 !! (start_page + i)
     = None) ∧
  (∀ w, w < start_page ∨ start_page + num_pages ≤ w →
     MMU.page_table (MMU.unmap_pages uninit m start_page num_pages).2 !! w
     = MMU.page_table m !! w) ∧
  (frames_owned m →
   frames_owned (MMU.unmap_pages uninit m start_page num_pages).2 ∧
   ∀ i pte, i < num_pages → MMU.page_table m !! (start_page + i) = Some pte →
     (present pte = true →
      RAM.allocated (MMU.ram (MMU.unmap_pages uninit m start_page num_pages).2)
        !! N.to_nat (physical_page pte) = Some false ∧
      RAM.frame_to_page (MMU.ram (MMU.unmap_pages uninit m start_page num_pages).2)
        !! N.to_nat (physical_page pte) = Some None) ∧
     (swapped pte = true → swap_slot pte < SwapSpace.size (MMU.swap_space m) →
      SwapSpace.allocated_slots
        (MMU.swap_space (MMU.unmap_pages uninit m start_page num_pages).2)
        !! N.to_nat (swap_slot pte) = Some false)).
Proof.
  intros Hb. unfold MMU.unmap_pages. cbn [fst snd]. split; [done|]. split_and!.
  - intros i Hi. apply unmap_pages_loop_range; lia.
  - intros w Hw. apply unmap_pages_loop_other. intros k Hk.
    unfold wrap32. rewrite N.mod_small by lia. lia.
  - intros Hown. split; [by apply unmap_pages_loop_owned|].
    intros i pte Hi Hv.
    apply (unmap_pages_loop_releases uninit (N.to_nat num_pages) 0 start_page m
             ltac:(lia) Hown i pte);
      [lia|done].
Qed.

Lemma unmap_pages_postcondition_witness :
  MMU.page_table (MMU.unmap_pages sample_page lru_state 16 3).2 !! (16 + 1) = None ∧
  RAM.allocated (MMU.ram (MMU.unmap_pages sample_page lru_state 16 3).2)
    !! N.to_nat (physical_page (mkPageMetadata true true true false false 1 0 0 4 17))
  = Some false.
Proof.
  assert (Hb : 16 + 3 ≤ 2 ^ 32) by (vm_compute; discriminate).
  destruct (unmap_pages_postcondition sample_page lru_state 16 3 Hb)
    as (_ & Hin & _ & Hfr).
  split; [apply Hin; reflexivity|].
  destruct (Hfr lru_state_owned) as [_ Hrel].
  assert (Hv : MMU.page_table lru_state !! (16 + 1)
               = Some (mkPageMetadata true true true false false 1 0 0 4 17))
    by (vm_compute; reflexivity).
  destruct (Hrel 1 _ eq_refl Hv) as [Hp _].
  exact (proj1 (Hp eq_refl)).
Defined.

Lemma file_pages_state_well_sized : well_sized file_pages_state.
Proof.
  unfold file_pages_state.
  destruct (run sample_page _ MMU.init) as [m|] eqn:Hrun; simpl.
  - eapply well_sized_capacities; [|apply init_well_sized]. by eapply run_capacities.
  - apply init_well_sized.
Qed.

Lemma unmap_pages_one (uninit : list byte) (m : MMU.t) (v : N) :
  v < 2 ^ 32 → (MMU.unmap_pages uninit m v 1).2 = MMU.unmap_page uninit m v.
Proof.
  intros Hv. unfold MMU.unmap_pages. simpl.
  unfold wrap32. by rewrite N.add_0_r, N.mod_small.
Qed.

(** Unmapping a present page writes it back only when it is dirty and
    file-backed: the disk page then reads as the frame did (provided the
    disk page lies on the disk) and every other disk page reads as before.
    In every other case (a clean page, or an anonymous page however
    dirty) the disk is left as it was and the frame's contents are simply
    given up. *)
Theorem unmap_writes_back_dirty_file_page (uninit : list byte) (m : MMU.t) (v : N)
    (pte : PageMetadata) :
  well_sized m → v < 2 ^ 32 →
  MMU.page_table m !! v = Some pte → present pte = true →
  physical_page pte < RAM.size (MMU.ram m) →
  (dirty pte = true → file_backed pte = true →
   disk_page pte * PAGE_SIZE + PAGE_SIZE ≤ DISK_SIZE →
   Disk.read_page (MMU.disk (MMU.unmap_pages uninit m v 1).2) (disk_page pte) uninit
     = RAM.read_page (MMU.ram m) (physical_page pte) uninit) ∧
  (dirty pte = false ∨ file_backed pte = false →
   MMU.disk (MMU.unmap_pages uninit m v 1).2 = MMU.disk m) ∧
  MMU.page_table (MMU.unmap_pages uninit m v 1).2 !! v = None.
Proof.
  intros Hws Hv Hpte Hp Hpp. rewrite unmap_pages_one by done.
  pose proof Hws as (Hmem & Hlen & Hsz & Hsw & Hssz & Hdisk).
  split_and!.
  - intros Hd Hfb Hin. unfold MMU.unmap_page. rewrite Hpte, Hp, Hd, Hfb.
    cbn [andb]. destruct (swapped pte); mmu_proj.
    + rewrite Disk_read_write_page; [by apply page_of_RAM_read_page|done|done|].
      rewrite length_RAM_read_page by done. unfold PAGE_SIZE. lia.
    + rewrite Disk_read_write_page; [by apply page_of_RAM_read_page|done|done|].
      rewrite length_RAM_read_page by done. unfold PAGE_SIZE. lia.
  - intros Hcase. unfold MMU.unmap_page. rewrite Hpte, Hp.
    assert (dirty pte && file_backed pte = false) as ->.
    { destruct Hcase as [-> | ->]; [done|by destruct (dirty pte)]. }
    by destruct (swapped pte).
  - apply unmap_page_self.
Qed.

Lemma unmap_writes_back_dirty_file_page_witness :
  Disk.read_page (MMU.disk (MMU.unmap_pages sample_page file_pages_state 17 1).2)
    (disk_page (mkPageMetadata true true true true false 1 3 0 4 17)) sample_page
  = RAM.read_page (MMU.ram file_pages_state)
      (physical_page (mkPageMetadata true true true true false 1 3 0 4 17)) sample_page.
Proof.
  assert (Hv : (17 : N) < 2 ^ 32) by reflexivity.
  assert (Hpte : MMU.page_table file_pages_state !! 17
                 = Some (mkPageMetadata true true true true false 1 3 0 4 17))
    by (vm_compute; reflexivity).
  assert (Hpp : physical_page (mkPageMetadata true true true true false 1 3 0 4 17)
                < RAM.size (MMU.ram file_pages_state)) by (vm_compute; reflexivity).
  destruct (unmap_writes_back_dirty_file_page sample_page file_pages_state 17 _
              file_pages_state_well_sized Hv Hpte eq_refl Hpp) as (Hflush & _).
  apply Hflush; [reflexivity|reflexivity|vm_compute; discriminate].
Defined.

(** ** Mapping and unmapping the same range *)

Lemma unmap_page_inert (uninit : list byte) (m : MMU.t) (v : N) :
  (∀ pte, MMU.page_table m !! v = Some pte → present pte = false ∧ swapped pte = false) →
  MMU.unmap_page uninit m v
  = MMU.with_page_table (MMU.page_table (MMU.unmap_page uninit m v)) m.
Proof.
  intros H. unfold MMU.unmap_page.
  destruct (MMU.page_table m !! v) as [pte|] eqn:Hv; [|by destruct m].
  destruct (H pte eq_refl) as [-> ->]. done.
Qed.

Lemma unmap_pages_loop_inert (uninit : list byte) (n : nat) (i start : N) (m : MMU.t) :
  (∀ w pte, MMU.page_table m !! w = Some pte →
            (∃ k, k < N.of_nat n ∧ w = wrap32 (start + (i + k))) →
            present pte = false ∧ swapped pte = false) →
  MMU.unmap_pages_loop uninit n i start m
  = MMU.with_page_table (MMU.page_table (MMU.unmap_pages_loop uninit n i start m)) m.
Proof.
  revert i m. induction n as [|n IH]; intros i m H; [by destruct m|]. simpl.
  assert (Hi : MMU.unmap_page uninit m (wrap32 (start + i))
               = MMU.with_page_table
                   (MMU.page_table (MMU.unmap_page uninit m (wrap32 (start + i)))) m).
  { apply unmap_page_inert. intros pte Hv. apply (H _ _ Hv).
    exists 0. split; [lia|]. by rewrite N.add_0_r. }
  etrans.
  - apply IH. intros w pte Hw (k & Hk & ->). apply unmap_page_lookup_Some in Hw.
    apply (H _ _ Hw). exists (k + 1). split; [lia|]. f_equal. lia.
  - generalize (MMU.page_table
                  (MMU.unmap_pages_loop uninit n (i + 1) start
                     (MMU.unmap_page uninit m (wrap32 (start + i))))).
    intros X. rewrite Hi. by destruct m.
Qed.

(** Mapping a range of unmapped pages and unmapping it again, with no
    access in between, gives back the state the system was in: the whole
    page table, RAM, disk, swap space and clock. *)
Theorem map_then_unmap_is_identity (uninit : list byte) (m : MMU.t)
    (start_page num_pages : N) (fb : bool) (ds : N) :
  start_page + num_pages ≤ 2 ^ 32 →
  (∀ i, i < num_pages → MMU.page_table m !! (start_page + i) = None) →
  (MMU.unmap_pages uninit (MMU.map_pages m start_page num_pages fb ds).2
     start_page num_pages).2 = m.
Proof.
  intros Hb Hfresh.
  destruct (map_pages_postcondition m start_page num_pages fb ds Hb)
    as (_ & Hin & Hout & Hram & Hdisk & Hswap & Htime).
  set (m1 := (MMU.map_pages m start_page num_pages fb ds).2) in *.
  destruct (unmap_pages_postcondition uninit m1 start_page num_pages Hb)
    as (_ & Hin2 & Hout2 & _).
  assert (Hfields : (MMU.unmap_pages uninit m1 start_page num_pages).2
            = MMU.with_page_table
                (MMU.page_table (MMU.unmap_pages uninit m1 start_page num_pages).2) m1).
  { unfold MMU.unmap_pages. cbn [snd]. apply unmap_pages_loop_inert.
    intros w pte Hw (k & Hk & ->). revert Hw.
    unfold wrap32. rewrite N.mod_small by lia. rewrite N.add_0_l.
    rewrite Hin by lia. by intros [= <-]. }
  rewrite Hfields.
  assert (Hpt : MMU.page_table (MMU.unmap_pages uninit m1 start_page num_pages).2
                = MMU.page_table m).
  { apply map_eq. intros w.
    destruct (decide (start_page ≤ w < start_page + num_pages)) as [Hw|Hw].
    - replace w with (start_page + (w - start_page)) by lia.
      rewrite Hin2, Hfresh by lia. done.
    - rewrite Hout2, Hout by lia. done. }
  rewrite Hpt.
  assert (Hm1 : m1 = MMU.with_page_table (MMU.page_table m1) m).
  { unfold m1, MMU.map_pages. cbn [snd]. apply map_pages_loop_fields. }
  rewrite Hm1. by destruct m.
Qed.

Lemma map_then_unmap_is_identity_witness :
  (MMU.unmap_pages sample_page (MMU.map_pages lru_state 100 3 true 7).2 100 3).2
  = lru_state.
Proof.
  apply (map_then_unmap_is_identity sample_page lru_state 100 3 true 7).
  - vm_compute. discriminate.
  - intros i Hi.
    assert (i = 0 ∨ i = 1 ∨ i = 2) as [->|[->| ->]] by lia; vm_compute; reflexivity.
Defined.

(** * Access through [write_memory] and [read_memory] *)

Lemma memcpy_into_read (v : list byte) (offset : nat) (data : list byte) :
  (offset + length data ≤ length v)%nat →
  take (length data) (drop offset (memcpy_into v offset data)) = data.
Proof.
  intros H. unfold memcpy_into.
  rewrite drop_app_length' by (rewrite length_take; lia).
  rewrite (take_ge data) by lia. by rewrite take_app_length.
Qed.

Lemma memcpy_into_outside (v : list byte) (offset : nat) (data : list byte) (i : nat) :
  (offset + length data ≤ length v)%nat →
  (i < offset ∨ offset + length data ≤ i)%nat →
  memcpy_into v offset data !! i = v !! i.
Proof.
  intros H Hi. unfold memcpy_into. rewrite (take_ge data) by lia.
  destruct Hi as [Hi|Hi].
  - rewrite lookup_app_l by (rewrite length_take; lia).
    rewrite lookup_take. case_decide; [done|lia].
  - rewrite lookup_app_r by (rewrite length_take; lia).
    rewrite lookup_app_r by (rewrite length_take; lia).
    rewrite lookup_drop, length_take. f_equal. lia.
Qed.

(** What a successful translation returns: the entry of the page is
    present, in a frame of the RAM, and the pointer is the frame's base
    plus the offset of the address in its page. *)
Lemma translate_address_success (uninit : list byte) (m m' : MMU.t) (addr pa : N)
    (wr : bool) :
  MMU.translate_address uninit m addr wr = Some (Some pa, m') →
  ∃ pte, MMU.page_table m' !! wrap32 (addr / PAGE_SIZE) = Some pte ∧
         present pte = true ∧ (wr = true → dirty pte = true) ∧
         physical_page pte < RAM.size (MMU.ram m') ∧
         pa = physical_page pte * PAGE_SIZE + addr mod PAGE_SIZE.
Proof.
  unfold MMU.translate_address. cbv zeta. intros H.
  destruct (MMU.page_table m !! wrap32 (addr / PAGE_SIZE)) as [pte|] eqn:Hv;
    [|by simplify_eq].
  assert (∃ ok m1, (if present pte then Some (true, m)
                    else MMU.handle_page_fault uninit m (wrap32 (addr / PAGE_SIZE)))
                   = Some (ok, m1)) as (ok & m1 & Hf).
  { destruct (if present pte then _ else _) as [[ok m1]|]; [by eauto|done]. }
  rewrite Hf in H. cbn -[MMU.update_meta] in H.
  destruct ok; cbn -[MMU.update_meta] in H; [|by simplify_eq].
  assert (∃ pte1, MMU.page_table m1 !! wrap32 (addr / PAGE_SIZE) = Some pte1
                  ∧ present pte1 = true) as (pte1 & Hv1 & Hp1).
  { destruct (present pte) eqn:Hp.
    - simplify_eq. by exists pte.
    - apply handle_page_fault_frame in Hf as (pp & m2 & pte1 & _ & Hv1 & Hp1 & _).
      by exists pte1. }
  set (f := λ p : PageMetadata,
         let p' := set_accessed true
                     (set_last_access (wrap64 (MMU.current_time m1 + 1)) p) in
         if wr then set_dirty true p' else p') in *.
  assert (Hv2 : MMU.page_table
                  (MMU.update_meta (wrap32 (addr / PAGE_SIZE)) f
                     (MMU.with_current_time (wrap64 (MMU.current_time m1 + 1)) m1))
                  !! wrap32 (addr / PAGE_SIZE) = Some (f pte1)).
  { mmu_proj. by rewrite lookup_alter_eq, Hv1. }
  rewrite Hv2 in H. cbn -[MMU.update_meta] in H.
  destruct (RAM.get_page_ptr _ _) as [phys|] eqn:Hptr.
  - injection H as <- <-. exists (f pte1). split; [done|].
    unfold RAM.get_page_ptr in Hptr.
    destruct (N.ltb_spec (physical_page (f pte1))
                (RAM.size (MMU.ram (MMU.update_meta (wrap32 (addr / PAGE_SIZE)) f
                   (MMU.with_current_time (wrap64 (MMU.current_time m1 + 1)) m1)))));
      [|done].
    injection Hptr as <-. unfold f in *. destruct wr; simpl in *; by split_and!.
  - by destruct (_ =? 0).
Qed.

(** Translating an address whose page is present needs no fault: the
    pointer is computed from the entry and RAM, disk and swap space are
    not touched. *)
Lemma translate_address_present (uninit : list byte) (m : MMU.t) (addr : N) (wr : bool)
    (pte : PageMetadata) :
  MMU.page_table m !! wrap32 (addr / PAGE_SIZE) = Some pte →
  present pte = true → physical_page pte < RAM.size (MMU.ram m) →
  ∃ m', MMU.translate_address uninit m addr wr
        = Some (Some (physical_page pte * PAGE_SIZE + addr mod PAGE_SIZE), m') ∧
        MMU.ram m' = MMU.ram m ∧ MMU.disk m' = MMU.disk m ∧
        MMU.swap_space m' = MMU.swap_space m.
Proof.
  intros Hv Hp Hpp. unfold MMU.translate_address. cbv zeta. rewrite Hv, Hp.
  cbn -[MMU.update_meta].
  set (f := λ p : PageMetadata,
         let p' := set_accessed true
                     (set_last_access (wrap64 (MMU.current_time m + 1)) p) in
         if wr then set_dirty true p' else p').
  assert (Hv2 : MMU.page_table
                  (MMU.update_meta (wrap32 (addr / PAGE_SIZE)) f
                     (MMU.with_current_time (wrap64 (MMU.current_time m + 1)) m))
                  !! wrap32 (addr / PAGE_SIZE) = Some (f pte)).
  { mmu_proj. by rewrite lookup_alter_eq, Hv. }
  rewrite Hv2. cbn -[MMU.update_meta].
  assert (Hpf : physical_page (f pte) = physical_page pte) by (unfold f; by destruct wr).
  rewrite Hpf. unfold RAM.get_page_ptr. mmu_proj.
  destruct (N.ltb_spec (physical_page pte) (RAM.size (MMU.ram m))); [|lia].
  eexists. split; [done|]. by mmu_proj.
Qed.

(** Write then read.  When the translation of a write succeeds and the data
    fits into the RAM at the translated address, [write_memory] stores the
    data and a [read_memory] of the same length at the same address
    returns exactly the bytes written; the read translates without a fault
    and leaves RAM, disk and swap space as the write left them. *)
Theorem write_then_read_memory (uninit : list byte) (s : VirtualMemorySystem.t)
    (addr pa : N) (data : list byte) (m : MMU.t) :
  MMU.translate_address uninit (VirtualMemorySystem.mmu s) addr true = Some (Some pa, m) →
  pa + N.of_nat (length data) ≤ N.of_nat (length (RAM.memory (MMU.ram m))) →
  ∃ s1 s2,
    VirtualMemorySystem.write_memory uninit s addr data = Some s1 ∧
    VirtualMemorySystem.read_memory uninit s1 addr (N.of_nat (length data))
      = Some (Some data, s2) ∧
    MMU.ram (VirtualMemorySystem.mmu s2) = MMU.ram (VirtualMemorySystem.mmu s1) ∧
    MMU.disk (VirtualMemorySystem.mmu s2) = MMU.disk m ∧
    MMU.swap_space (VirtualMemorySystem.mmu s2) = MMU.swap_space m.
Proof.
  intros Ht Hfit.
  destruct (translate_address_success _ _ _ _ _ _ Ht) as (pte & Hv & Hp & _ & Hpp & Hpa).
  unfold VirtualMemorySystem.write_memory. rewrite Ht. cbn -[memcpy_into].
  destruct (N.leb_spec (pa + N.of_nat (length data))
              (N.of_nat (length (RAM.memory (MMU.ram m))))); [|lia].
  set (m1 := MMU.with_ram
               (RAM.mk (memcpy_into (RAM.memory (MMU.ram m)) (N.to_nat pa) data)
                  (RAM.frame_to_page (MMU.ram m)) (RAM.allocated (MMU.ram m))) m).
  destruct (translate_address_present uninit m1 addr false pte Hv Hp Hpp)
    as (m2 & Ht2 & Hram2 & Hdisk2 & Hswap2).
  exists (VirtualMemorySystem.mk m1 (VirtualMemorySystem.next_virtual_addr s)),
         (VirtualMemorySystem.mk m2 (VirtualMemorySystem.next_virtual_addr s)).
  split; [done|].
  unfold VirtualMemorySystem.read_memory. cbn [VirtualMemorySystem.mmu].
  rewrite Ht2, <- Hpa. cbn -[memcpy_into]. rewrite Hram2. unfold m1. mmu_proj.
  cbn [RAM.memory]. rewrite length_memcpy_into.
  destruct (N.leb_spec (pa + N.of_nat (length data))
              (N.of_nat (length (RAM.memory (MMU.ram m))))); [|lia].
  rewrite Nat2N.id, memcpy_into_read by lia. done.
Qed.

Lemma capacities_memory (m m' : MMU.t) :
  capacities m' = capacities m →
  length (RAM.memory (MMU.ram m')) = length (RAM.memory (MMU.ram m)).
Proof. unfold capacities. by intros [= -> _ _ _ _ _]. Qed.

Lemma write_then_read_memory_witness :
  ∃ s1 s2,
    VirtualMemorySystem.write_memory sample_page one_page_system 268435456 hello
      = Some s1 ∧
    VirtualMemorySystem.read_memory sample_page s1 268435456 (N.of_nat (length hello))
      = Some (Some hello, s2).
Proof.
  assert (Hobs : translates_to 0
            (MMU.translate_address sample_page (VirtualMemorySystem.mmu one_page_system)
               268435456 true) = true) by (vm_compute; reflexivity).
  destruct (MMU.translate_address sample_page (VirtualMemorySystem.mmu one_page_system)
              268435456 true) as [[[pa|] m]|] eqn:Ht; try discriminate Hobs.
  apply N.eqb_eq in Hobs. subst pa.
  assert (Hfit : 0 + N.of_nat (length hello) ≤ N.of_nat (length (RAM.memory (MMU.ram m)))).
  { rewrite (capacities_memory _ _ (translate_address_capacities _ _ _ _ _ _ Ht)).
    vm_compute. discriminate. }
  destruct (write_then_read_memory sample_page one_page_system 268435456 0 hello m Ht Hfit)
    as (s1 & s2 & Hw & Hr & _).
  exists s1, s2. split; [exact Hw|exact Hr].
Defined.

(** A write that stays inside its page stays inside its frame.  When the
    data does not run past the end of the page, [write_memory] succeeds
    and changes nothing but the bytes of the page's own frame: every other
    frame reads as before, and page table, disk and swap space are the ones
    the translation left. *)
Theorem write_memory_stays_in_frame (uninit : list byte) (s : VirtualMemorySystem.t)
    (addr pa : N) (data : list byte) (m : MMU.t) :
  MMU.translate_address uninit (VirtualMemorySystem.mmu s) addr true = Some (Some pa, m) →
  well_sized m →
  addr mod PAGE_SIZE + N.of_nat (length data) ≤ PAGE_SIZE →
  ∃ s1,
    VirtualMemorySystem.write_memory uninit s addr data = Some s1 ∧
    MMU.page_table (VirtualMemorySystem.mmu s1) = MMU.page_table m ∧
    MMU.disk (VirtualMemorySystem.mmu s1) = MMU.disk m ∧
    MMU.swap_space (VirtualMemorySystem.mmu s1) = MMU.swap_space m ∧
    RAM.allocated (MMU.ram (VirtualMemorySystem.mmu s1)) = RAM.allocated (MMU.ram m) ∧
    ∀ f, f < RAM.size (MMU.ram m) → f ≠ pa / PAGE_SIZE →
      RAM.read_page (MMU.ram (VirtualMemorySystem.mmu s1)) f uninit
      = RAM.read_page (MMU.ram m) f uninit.
Proof.
  intros Ht Hws Hin. pose proof Hws as (Hmem & _).
  destruct (translate_address_success _ _ _ _ _ _ Ht) as (pte & Hv & Hp & _ & Hpp & Hpa).
  assert (Hoff : addr mod PAGE_SIZE < PAGE_SIZE) by (apply N.mod_lt; discriminate).
  assert (Hdiv : pa / PAGE_SIZE = physical_page pte).
  { rewrite Hpa. rewrite N.div_add_l by discriminate.
    rewrite N.div_small by done. lia. }
  unfold VirtualMemorySystem.write_memory. rewrite Ht. cbn -[memcpy_into].
  assert (Hfit : pa + N.of_nat (length data) ≤ N.of_nat (length (RAM.memory (MMU.ram m)))).
  { rewrite Hmem, Hpa. unfold PAGE_SIZE in *. lia. }
  destruct (N.leb_spec (pa + N.of_nat (length data))
              (N.of_nat (length (RAM.memory (MMU.ram m))))); [|lia].
  eexists. split; [done|]. cbn [VirtualMemorySystem.mmu]. mmu_proj.
  split_and!; try done.
  intros f Hf Hne. rewrite Hdiv in Hne.
  unfold RAM.read_page, RAM.get_page_ptr, RAM.size in *. cbn [RAM.allocated RAM.memory].
  destruct (N.ltb_spec f (N.of_nat (length (RAM.allocated (MMU.ram m))))); [|lia].
  unfold load_page. apply list_eq. intros i.
  rewrite !lookup_take. case_decide; [|done]. rewrite !lookup_drop.
  apply memcpy_into_outside; unfold PAGE_SIZE in *.
  - lia.
  - clear Hdiv Hv Ht. generalize dependent (addr `mod` 4096). intros off Hin Hpa Hoff.
    subst pa. assert (f < physical_page pte ∨ physical_page pte < f) as [Hlt|Hgt] by lia.
    + left. lia.
    + right. lia.
Qed.

Lemma write_memory_stays_in_frame_witness :
  ∃ m s1,
    MMU.translate_address sample_page (VirtualMemorySystem.mmu one_page_system)
      268435456 true = Some (Some 0, m) ∧
    VirtualMemorySystem.write_memory sample_page one_page_system 268435456 hello
      = Some s1 ∧
    RAM.read_page (MMU.ram (VirtualMemorySystem.mmu s1)) 1 sample_page
    = RAM.read_page (MMU.ram m) 1 sample_page.
Proof.
  assert (Hobs : translates_to 0
            (MMU.translate_address sample_page (VirtualMemorySystem.mmu one_page_system)
               268435456 true) = true) by (vm_compute; reflexivity).
  destruct (MMU.translate_address sample_page (VirtualMemorySystem.mmu one_page_system)
              268435456 true) as [[[pa|] m]|] eqn:Ht; try discriminate Hobs.
  apply N.eqb_eq in Hobs. subst pa.
  pose proof (translate_address_capacities _ _ _ _ _ _ Ht) as Hcap.
  assert (Hws0 : well_sized (VirtualMemorySystem.mmu one_page_system)).
  { eapply well_sized_capacities; [|apply init_well_sized].
    apply map_pages_loop_capacities. }
  assert (Hws : well_sized m) by (by eapply well_sized_capacities).
  assert (Hin : 268435456 mod PAGE_SIZE + N.of_nat (length hello) ≤ PAGE_SIZE)
    by (vm_compute; discriminate).
  destruct (write_memory_stays_in_frame sample_page one_page_system 268435456 0 hello m
              Ht Hws Hin) as (s1 & Hw & _ & _ & _ & _ & Hother).
  exists m, s1. split; [reflexivity|]. split; [exact Hw|].
  apply Hother.
  - destruct (capacities_sizes _ _ Hcap) as [-> _]. vm_compute. reflexivity.
  - vm_compute. discriminate.
Defined.

(** * [Disk::write_file] *)

Lemma memcpy_into_lookup (v : list byte) (offset : nat) (data : list byte) (j : nat) :
  (offset + length data ≤ length v)%nat →
  memcpy_into v offset data !! j
  = if decide (offset ≤ j < offset + length data)%nat then data !! (j - offset)%nat
    else v !! j.
Proof.
  intros H. case_decide as Hj.
  - unfold memcpy_into. rewrite (take_ge data) by lia.
    rewrite lookup_app_r by (rewrite length_take; lia).
    rewrite length_take, lookup_app_l by lia. f_equal. lia.
  - apply memcpy_into_outside; lia.
Qed.

(** The loop of [write_file], byte by byte: started at page [i] for at
    most [n] pages, it replaces the bytes from [i * PAGE_SIZE] up to the end
    of page [i + n - 1], of the data or of the disk, whichever comes
    first. *)
Lemma write_file_loop_lookup (n : nat) (i : N) (st data : list byte) (j : nat) :
  N.of_nat (length st) = DISK_SIZE →
  Disk.write_file_loop n i st data !! j
  = if decide (N.to_nat (i * PAGE_SIZE) ≤ j
               ∧ j < N.to_nat ((i + N.of_nat n) * PAGE_SIZE)
               ∧ j < length data ∧ j < length st)%nat
    then data !! j else st !! j.
Proof.
  revert i st. induction n as [|n IH]; intros i st Hlen.
  { simpl. repeat case_decide; try done; unfold PAGE_SIZE in *; lia. }
  cbn [Disk.write_file_loop].
  destruct (N.ltb_spec (i * PAGE_SIZE) DISK_SIZE) as [Hi|Hi].
  - rewrite IH by (rewrite length_memcpy_into; done).
    rewrite length_memcpy_into.
    set (chunk := take (N.to_nat PAGE_SIZE) (drop (N.to_nat (i * PAGE_SIZE)) data)).
    assert (Hchunk : length chunk
                     = Nat.min (N.to_nat PAGE_SIZE) (length data - N.to_nat (i * PAGE_SIZE))).
    { unfold chunk. rewrite length_take, length_drop. lia. }
    assert (Hfit : (N.to_nat (i * PAGE_SIZE) + length chunk ≤ length st)%nat).
    { rewrite Hchunk. unfold DISK_SIZE, PAGE_SIZE in *. lia. }
    rewrite memcpy_into_lookup by done. rewrite Hchunk.
    repeat case_decide; try done; try (unfold DISK_SIZE, PAGE_SIZE in *; lia).
    unfold chunk. rewrite lookup_take, lookup_drop.
    case_decide; [|unfold PAGE_SIZE in *; lia]. f_equal. lia.
  - repeat case_decide; try done; unfold DISK_SIZE, PAGE_SIZE in *; lia.
Qed.

Lemma write_file_lookup (d : Disk.t) (data : list byte) (j : nat) :
  N.of_nat (length (Disk.storage d)) = DISK_SIZE →
  N.of_nat (length data) + PAGE_SIZE - 1 < 2 ^ 64 →
  Disk.storage (Disk.write_file d data) !! j
  = if decide (j < length data ∧ j < length (Disk.storage d))%nat
    then data !! j else Disk.storage d !! j.
Proof.
  intros Hlen Hsz. unfold Disk.write_file. cbv zeta. cbn [Disk.storage].
  rewrite write_file_loop_lookup by done.
  unfold wrap64. rewrite N.mod_small by done.
  assert (Hpages : N.of_nat (length data)
                   ≤ ((N.of_nat (length data) + PAGE_SIZE - 1) / PAGE_SIZE) * PAGE_SIZE).
  { pose proof (N.Div0.mod_le (N.of_nat (length data) + PAGE_SIZE - 1) PAGE_SIZE).
    pose proof (N.mod_lt (N.of_nat (length data) + PAGE_SIZE - 1) PAGE_SIZE
                  ltac:(discriminate)).
    pose proof (N.div_mod (N.of_nat (length data) + PAGE_SIZE - 1) PAGE_SIZE
                  ltac:(discriminate)).
    unfold PAGE_SIZE in *. lia. }
  rewrite N2Nat.id, N.add_0_l.
  repeat case_decide; try done; lia.
Qed.

(** [write_file] lays the file out from the first byte of the disk: a
    file that fits occupies the first [size] bytes and the rest of the disk
    is untouched; a file larger than the disk is cut off at the end of the
    disk.  The disk keeps its size. *)
Theorem write_file_layout (d : Disk.t) (data : list byte) :
  N.of_nat (length (Disk.storage d)) = DISK_SIZE →
  N.of_nat (length data) + PAGE_SIZE - 1 < 2 ^ 64 →
  length (Disk.storage (Disk.write_file d data)) = length (Disk.storage d) ∧
  (N.of_nat (length data) ≤ DISK_SIZE →
   take (length data) (Disk.storage (Disk.write_file d data)) = data ∧
   drop (length data) (Disk.storage (Disk.write_file d data))
   = drop (length data) (Disk.storage d)) ∧
  (DISK_SIZE ≤ N.of_nat (length data) →
   Disk.storage (Disk.write_file d data) = take (N.to_nat DISK_SIZE) data).
Proof.
  intros Hlen Hsz.
  assert (Hl : length (Disk.storage (Disk.write_file d data)) = length (Disk.storage d)).
  { unfold Disk.write_file. cbv zeta. cbn [Disk.storage].
    apply Disk_write_file_loop_length. }
  split; [done|]. split.
  - intros Hfit. split; apply list_eq; intros j.
    + rewrite lookup_take. case_decide.
      * rewrite write_file_lookup by done. case_decide; [done|lia].
      * symmetry. apply lookup_ge_None. lia.
    + rewrite !lookup_drop, write_file_lookup by done. case_decide; [lia|done].
  - intros Hbig. apply list_eq. intros j.
    rewrite write_file_lookup by done. rewrite lookup_take.
    repeat case_decide; try done; try lia.
    apply lookup_ge_None. lia.
Qed.

Lemma write_file_layout_witness :
  take (length hello) (Disk.storage (Disk.write_file Disk.init hello)) = hello.
Proof.
  assert (Hlen : N.of_nat (length (Disk.storage Disk.init)) = DISK_SIZE)
    by (vm_compute; reflexivity).
  assert (Hsz : N.of_nat (length hello) + PAGE_SIZE - 1 < 2 ^ 64) by reflexivity.
  destruct (write_file_layout Disk.init hello Hlen Hsz) as (_ & Hfit & _).
  apply Hfit. vm_compute. discriminate.
Defined.

(** * Free-frame accounting *)

Lemma count_free_insert (l : list bool) (i : nat) (old new : bool) :
  l !! i = Some old →
  (length (filter (λ b : bool, b = false) (<[i := new]> l))
   + (if old then 0 else 1)
   = length (filter (λ b : bool, b = false) l) + (if new then 0 else 1))%nat.
Proof.
  revert i. induction l as [|b l IH]; intros i Hi; [done|].
  destruct i as [|i]; simpl in *.
  - simplify_eq. rewrite !filter_cons.
    destruct old, new; repeat case_decide; simpl; try done; lia.
  - rewrite !filter_cons. specialize (IH i Hi).
    case_decide; simpl; lia.
Qed.

Lemma count_free_zero (l : list bool) :
  first_free l = None ↔ length (filter (λ b : bool, b = false) l) = 0%nat.
Proof.
  split.
  - intros H. destruct (filter _ l) as [|b l'] eqn:Hf; [done|]. exfalso.
    assert (Hin : b ∈ filter (λ b : bool, b = false) l) by (rewrite Hf; left).
    apply list_elem_of_filter in Hin as [-> Hin].
    apply list_elem_of_lookup in Hin as [i Hi].
    apply lookup_lt_Some in Hi as Hlt.
    by rewrite (first_free_None l i H Hlt) in Hi.
  - intros H. destruct (first_free l) as [i|] eqn:Hf; [|done]. exfalso.
    apply first_free_Some in Hf as [Hi _].
    assert (Hin : false ∈ filter (λ b : bool, b = false) l).
    { apply list_elem_of_filter. split; [done|]. by eapply list_elem_of_lookup_2. }
    apply length_zero_iff_nil in H. rewrite H in Hin. by apply not_elem_of_nil in Hin.
Qed.

(** [get_free_frames] counts what the allocator can still hand out:
    [allocate_page] fails exactly when the count is zero, a successful
    allocation lowers it by one, freeing an allocated frame raises it by
    one, freeing a frame that is already free (or out of range) leaves it,
    and it never exceeds the number of frames. *)
Theorem free_frame_accounting (r : RAM.t) :
  RAM.size r < 2 ^ 32 →
  ((RAM.allocate_page r None).1 = NO_PAGE ↔ RAM.get_free_frames r = 0) ∧
  (∀ pm, (RAM.allocate_page r pm).1 ≠ NO_PAGE →
     RAM.get_free_frames (RAM.allocate_page r pm).2 + 1 = RAM.get_free_frames r) ∧
  (∀ n, RAM.allocated r !! N.to_nat n = Some true →
     RAM.get_free_frames (RAM.free_page r n) = RAM.get_free_frames r + 1) ∧
  (∀ n, RAM.allocated r !! N.to_nat n ≠ Some true →
     RAM.get_free_frames (RAM.free_page r n) = RAM.get_free_frames r) ∧
  RAM.get_free_frames r ≤ RAM.size r.
Proof.
  intros Hsz. unfold RAM.get_free_frames. split_and!.
  - unfold RAM.allocate_page.
    destruct (first_free (RAM.allocated r)) as [j|] eqn:Hf; simpl.
    + destruct (allocate_page_free r None j Hsz Hf) as (_ & Hne & _).
      pose proof (first_free_Some _ _ Hf) as [Hj _]. apply lookup_lt_Some in Hj.
      unfold RAM.size in Hsz. rewrite of_nat_lt_wrap32 with (l := length (RAM.allocated r));
        [|done|done].
      split; [done|]. intros H0. exfalso.
      assert (Hz : length (filter (λ b : bool, b = false) (RAM.allocated r)) = 0%nat) by lia.
      apply count_free_zero in Hz. by rewrite Hz in Hf.
    + split; [|done]. intros _. apply count_free_zero in Hf. by rewrite Hf.
  - intros pm Hne. unfold RAM.allocate_page in *.
    destruct (first_free (RAM.allocated r)) as [j|] eqn:Hf;
      cbn [fst snd RAM.allocated] in *; [|done].
    apply first_free_Some in Hf as [Hj _].
    pose proof (count_free_insert _ _ _ true Hj) as Hc. cbv iota in Hc. lia.
  - intros n Hn. unfold RAM.free_page, RAM.size.
    apply lookup_lt_Some in Hn as Hlt.
    destruct (N.ltb_spec n (N.of_nat (length (RAM.allocated r)))); [|lia].
    cbn [RAM.allocated].
    pose proof (count_free_insert _ _ _ false Hn) as Hc. cbv iota in Hc. lia.
  - intros n Hn. unfold RAM.free_page, RAM.size.
    destruct (N.ltb_spec n (N.of_nat (length (RAM.allocated r)))); [|done].
    cbn [RAM.allocated].
    destruct (RAM.allocated r !! N.to_nat n) as [[]|] eqn:Hl; [done| |].
    + by rewrite list_insert_id.
    + apply lookup_ge_None in Hl. lia.
  - unfold RAM.size. pose proof (length_filter (λ b : bool, b = false) (RAM.allocated r)).
    lia.
Qed.

Lemma free_frame_accounting_witness :
  (RAM.allocate_page exhausted_ram None).1 = NO_PAGE ↔ RAM.get_free_frames exhausted_ram = 0.
Proof.
  assert (Hsz : RAM.size exhausted_ram < 2 ^ 32) by (vm_compute; reflexivity).
  exact (proj1 (free_frame_accounting exhausted_ram Hsz)).
Defined.

(** * [mmap]: the address cursor *)

Lemma pages_cover (a k : N) :
  a mod PAGE_SIZE = 0 → (a + k) / PAGE_SIZE = a / PAGE_SIZE + k / PAGE_SIZE.
Proof.
  intros Ha.
  pose proof (N.div_mod a PAGE_SIZE ltac:(discriminate)) as Hd. rewrite Ha in Hd.
  rewrite Hd at 1. rewrite N.add_0_r, (N.mul_comm PAGE_SIZE), N.div_add_l by discriminate.
  done.
Qed.

(** [mmap] hands out address space from a cursor that only moves forward.
    It returns the cursor, advances it by the length rounded up to whole
    pages, and gives every page of the returned region a fresh entry that
    is not present (nothing is allocated yet), file-backed exactly when
    [fd] is not -1; RAM, disk and swap space are untouched.  A zero-length
    request maps nothing and leaves the cursor where it was, so the next
    request gets the same address. *)
Theorem mmap_returns_fresh_region (s : VirtualMemorySystem.t) (length : N) (fd offset : Z) :
  VirtualMemorySystem.next_virtual_addr s mod PAGE_SIZE = 0 →
  VirtualMemorySystem.next_virtual_addr s / PAGE_SIZE
    + VirtualMemorySystem.pages_needed length < 2 ^ 32 →
  length + PAGE_SIZE - 1 < 2 ^ 64 →
  (VirtualMemorySystem.mmap s length fd offset).1 = VirtualMemorySystem.next_virtual_addr s ∧
  VirtualMemorySystem.next_virtual_addr (VirtualMemorySystem.mmap s length fd offset).2
    = VirtualMemorySystem.next_virtual_addr s
      + VirtualMemorySystem.pages_needed length * PAGE_SIZE ∧
  VirtualMemorySystem.next_virtual_addr s + length
    ≤ VirtualMemorySystem.next_virtual_addr (VirtualMemorySystem.mmap s length fd offset).2 ∧
  VirtualMemorySystem.next_virtual_addr (VirtualMemorySystem.mmap s length fd offset).2
    mod PAGE_SIZE = 0 ∧
  (∀ k, k < length →
     ∃ pte,
       MMU.page_table (VirtualMemorySystem.mmu (VirtualMemorySystem.mmap s length fd offset).2)
         !! wrap32 ((VirtualMemorySystem.next_virtual_addr s + k) / PAGE_SIZE) = Some pte ∧
       present pte = false ∧ swapped pte = false ∧ dirty pte = false ∧
       file_backed pte = negb (fd =? -1)%Z) ∧
  MMU.ram (VirtualMemorySystem.mmu (VirtualMemorySystem.mmap s length fd offset).2)
    = MMU.ram (VirtualMemorySystem.mmu s) ∧
  (length = 0 → (VirtualMemorySystem.mmap s length fd offset).2 = s).
Proof.
  intros Hal Hpages Hlen. destruct s as [m a].
  cbn [VirtualMemorySystem.next_virtual_addr VirtualMemorySystem.mmu] in *.
  remember (VirtualMemorySystem.pages_needed length) as n eqn:Hn0.
  assert (Hn : length ≤ n * PAGE_SIZE ∧ n * PAGE_SIZE < length + PAGE_SIZE).
  { subst n. unfold VirtualMemorySystem.pages_needed, wrap64.
    rewrite N.mod_small by done.
    pose proof (N.mod_lt (length + PAGE_SIZE - 1) PAGE_SIZE ltac:(discriminate)).
    pose proof (N.div_mod (length + PAGE_SIZE - 1) PAGE_SIZE ltac:(discriminate)).
    unfold PAGE_SIZE in *.
    set (q := (length + 4096 - 1) / 4096) in *.
    set (r := (length + 4096 - 1) mod 4096) in *. clearbody q r. lia. }
  remember (a / PAGE_SIZE) as ap eqn:Hap.
  assert (Ha : a = ap * PAGE_SIZE).
  { pose proof (N.div_mod a PAGE_SIZE ltac:(discriminate)) as Hd.
    rewrite Hal, <- Hap in Hd. lia. }
  assert (Hcur : wrap64 (a + n * PAGE_SIZE) = a + n * PAGE_SIZE).
  { unfold wrap64. apply N.mod_small. unfold PAGE_SIZE in *.
    change (2 ^ 32) with 4294967296 in Hpages.
    change (2 ^ 64) with 18446744073709551616. clear Hal Hap Hlen. lia. }
  assert (Hsp : wrap32 ap = ap).
  { unfold wrap32. apply N.mod_small. clear Hal Hap Hlen. lia. }
  unfold VirtualMemorySystem.mmap. cbv zeta.
  cbn [VirtualMemorySystem.next_virtual_addr VirtualMemorySystem.mmu].
  rewrite <- Hn0, <- Hap. unfold MMU.map_pages.
  cbn [fst snd VirtualMemorySystem.mmu VirtualMemorySystem.next_virtual_addr].
  rewrite Hcur, Hsp.
  split; [done|]. split; [done|]. split; [lia|]. split.
  { rewrite Ha, <- N.mul_add_distr_r. apply N.Div0.mod_mul. }
  split_and!.
  - intros k Hk. rewrite pages_cover by done. rewrite <- Hap.
    assert (Hkp : k / PAGE_SIZE < n).
    { apply N.Div0.div_lt_upper_bound. unfold PAGE_SIZE in *. lia. }
    remember (k / PAGE_SIZE) as kp.
    assert (Hw : wrap32 (ap + kp) = ap + kp).
    { unfold wrap32. apply N.mod_small. lia. }
    rewrite Hw, map_pages_loop_lookup by lia.
    case_decide; [|lia]. eexists. split; [done|]. done.
  - by rewrite map_pages_loop_fields.
  - intros ->. assert (n = 0) as -> by (unfold PAGE_SIZE in *; lia).
    simpl. by rewrite N.add_0_r.
Qed.

Lemma mmap_returns_fresh_region_witness :
  (VirtualMemorySystem.mmap VirtualMemorySystem.init 8192 (-1) 0).1
    = VirtualMemorySystem.next_virtual_addr VirtualMemorySystem.init ∧
  VirtualMemorySystem.next_virtual_addr
    (VirtualMemorySystem.mmap VirtualMemorySystem.init 8192 (-1) 0).2
  = VirtualMemorySystem.next_virtual_addr VirtualMemorySystem.init
    + VirtualMemorySystem.pages_needed 8192 * PAGE_SIZE.
Proof.
  assert (H1 : VirtualMemorySystem.next_virtual_addr VirtualMemorySystem.init
               mod PAGE_SIZE = 0) by reflexivity.
  assert (H2 : VirtualMemorySystem.next_virtual_addr VirtualMemorySystem.init / PAGE_SIZE
               + VirtualMemorySystem.pages_needed 8192 < 2 ^ 32)
    by (vm_compute; reflexivity).
  assert (H3 : 8192 + PAGE_SIZE - 1 < 2 ^ 64) by reflexivity.
  destruct (mmap_returns_fresh_region VirtualMemorySystem.init 8192 (-1) 0 H1 H2 H3)
    as (Ha & Hb & _).
  split; [exact Ha|exact Hb].
Defined.

(** * The simulator of [mmap.cpp] *)

Lemma Mmap_allocate_page_free (r : MmapSim.RAM) (j : nat) :
  N.of_nat (length (MmapSim.allocated r)) < 2 ^ 32 →
  first_free (MmapSim.allocated r) = Some j →
  MmapSim.allocate_page r
  = (N.of_nat j, MmapSim.mkRAM (MmapSim.memory r) (<[j := true]> (MmapSim.allocated r))) ∧
  N.of_nat j ≠ NO_PAGE ∧ (j < length (MmapSim.allocated r))%nat.
Proof.
  intros Hsz Hfree. unfold MmapSim.allocate_page. rewrite Hfree.
  apply first_free_Some in Hfree as [Hj _]. apply lookup_lt_Some in Hj.
  rewrite (of_nat_lt_wrap32 (length (MmapSim.allocated r))) by done.
  split_and!; [done| |done]. unfold NO_PAGE. change (2 ^ 32) with 4294967296 in Hsz. lia.
Qed.

Lemma Mmap_read_write_page (r : MmapSim.RAM) (n : N) (buf buf' : list byte) :
  N.of_nat (length (MmapSim.memory r))
    = N.of_nat (length (MmapSim.allocated r)) * PAGE_SIZE →
  n < N.of_nat (length (MmapSim.allocated r)) → PAGE_SIZE ≤ N.of_nat (length buf) →
  MmapMMU.read_page (MmapMMU.write_page r n buf) n buf' = page_of buf.
Proof.
  intros Hlen Hn Hbuf.
  unfold MmapMMU.read_page, MmapMMU.write_page, MmapMMU.get_page_ptr.
  destruct (N.ltb_spec n (N.of_nat (length (MmapSim.allocated r)))) as [_|]; [|lia].
  cbn [MmapSim.allocated MmapSim.memory].
  destruct (N.ltb_spec n (N.of_nat (length (MmapSim.allocated r)))) as [_|]; [|lia].
  apply load_store_page; unfold PAGE_SIZE in *; lia.
Qed.

(** A fault on a page that has no entry.  [handle_page_fault] of
    [mmap.cpp] does not reject the page: [page_table[virtual_page]] gives
    it a default entry.  With a free frame the fault then succeeds, and the
    page is present and anonymous in the first free frame, filled with
    zeroes.  Without a free frame the fault reports failure, RAM and disk
    are unchanged, but the default entry stays in the table, so the page is
    from then on a mapped page that is not present. *)
Theorem fault_on_unmapped_page_creates_entry (uninit : list byte) (m : MmapMMU.t) (v : N) :
  MmapMMU.page_table m !! v = None →
  N.of_nat (length (MmapSim.memory (MmapMMU.ram m)))
    = N.of_nat (length (MmapSim.allocated (MmapMMU.ram m))) * PAGE_SIZE →
  N.of_nat (length (MmapSim.allocated (MmapMMU.ram m))) < 2 ^ 32 →
  (∀ j, first_free (MmapSim.allocated (MmapMMU.ram m)) = Some j →
     (MmapMMU.handle_page_fault uninit m v).1 = true ∧
     MmapMMU.page_table (MmapMMU.handle_page_fault uninit m v).2 !! v
       = Some (MmapMMU.mkPageTableEntry (N.of_nat j) true false false 0) ∧
     MmapSim.allocated (MmapMMU.ram (MmapMMU.handle_page_fault uninit m v).2)
       = <[j := true]> (MmapSim.allocated (MmapMMU.ram m)) ∧
     MmapMMU.read_page (MmapMMU.ram (MmapMMU.handle_page_fault uninit m v).2)
       (N.of_nat j) uninit = replicate (N.to_nat PAGE_SIZE) x00) ∧
  (first_free (MmapSim.allocated (MmapMMU.ram m)) = None →
     (MmapMMU.handle_page_fault uninit m v).1 = false ∧
     MmapMMU.page_table (MmapMMU.handle_page_fault uninit m v).2
       = <[v := MmapMMU.PageTableEntry_new]> (MmapMMU.page_table m) ∧
     MmapMMU.ram (MmapMMU.handle_page_fault uninit m v).2 = MmapMMU.ram m ∧
     MmapMMU.disk (MmapMMU.handle_page_fault uninit m v).2 = MmapMMU.disk m) ∧
  MmapMMU.page_table (MmapMMU.handle_page_fault uninit m v).2 !! v ≠ None.
Proof.
  intros Hv Hmem Hsz. unfold MmapMMU.handle_page_fault. rewrite Hv. cbn [default].
  split_and!.
  - intros j Hj. destruct (Mmap_allocate_page_free _ j Hsz Hj) as (-> & Hne & Hlt).
    destruct (N.eqb_spec (N.of_nat j) NO_PAGE) as [|_]; [done|].
    cbn [fst snd MmapMMU.page_table MmapMMU.ram MmapMMU.file_backed
         MmapMMU.PageTableEntry_new MmapMMU.dirty MmapMMU.disk_page].
    split_and!.
    + done.
    + by rewrite lookup_insert_eq.
    + unfold MmapMMU.write_page, MmapMMU.get_page_ptr. by destruct (_ <? _).
    + rewrite Mmap_read_write_page.
      * apply page_of_zeroes.
      * cbn [MmapSim.memory MmapSim.allocated]. by rewrite length_insert.
      * cbn [MmapSim.allocated]. rewrite length_insert. lia.
      * rewrite length_replicate. lia.
  - intros Hfull. unfold MmapSim.allocate_page. rewrite Hfull. simpl.
    by split_and!.
  - destruct (MmapSim.allocate_page (MmapMMU.ram m)) as [pp r1].
    destruct (pp =? NO_PAGE); cbn [snd MmapMMU.page_table]; by rewrite lookup_insert_eq.
Qed.

Lemma mmap_full_state_sizes :
  N.of_nat (length (MmapSim.memory (MmapMMU.ram mmap_full_state)))
    = N.of_nat (length (MmapSim.allocated (MmapMMU.ram mmap_full_state))) * PAGE_SIZE ∧
  N.of_nat (length (MmapSim.allocated (MmapMMU.ram mmap_full_state))) < 2 ^ 32.
Proof. split; vm_compute; reflexivity. Qed.

Lemma fault_on_unmapped_page_creates_entry_witness :
  (MmapMMU.handle_page_fault sample_page mmap_full_state 99).1 = false ∧
  MmapMMU.page_table (MmapMMU.handle_page_fault sample_page mmap_full_state 99).2
    = <[99 := MmapMMU.PageTableEntry_new]> (MmapMMU.page_table mmap_full_state).
Proof.
  assert (Hv : MmapMMU.page_table mmap_full_state !! 99 = None) by (vm_compute; reflexivity).
  assert (Hfull : first_free (MmapSim.allocated (MmapMMU.ram mmap_full_state)) = None)
    by (vm_compute; reflexivity).
  destruct (fault_on_unmapped_page_creates_entry sample_page mmap_full_state 99 Hv
              (proj1 mmap_full_state_sizes) (proj2 mmap_full_state_sizes))
    as (_ & Hfail & _).
  destruct (Hfail Hfull) as (H1 & H2 & _). split; [exact H1|exact H2].
Defined.

(** ** Nothing is ever written back in [mmap.cpp] *)

Lemma Mmap_handle_page_fault_clean (uninit : list byte) (m : MmapMMU.t) (v : N) :
  all_clean m →
  all_clean (MmapMMU.handle_page_fault uninit m v).2 ∧
  MmapMMU.disk (MmapMMU.handle_page_fault uninit m v).2 = MmapMMU.disk m.
Proof.
  intros Hc. unfold MmapMMU.handle_page_fault.
  assert (Hd : MmapMMU.dirty (default MmapMMU.PageTableEntry_new (MmapMMU.page_table m !! v))
               = false).
  { destruct (MmapMMU.page_table m !! v) as [pte|] eqn:Hv; [by eapply Hc|done]. }
  destruct (MmapSim.allocate_page (MmapMMU.ram m)) as [pp r1].
  destruct (pp =? NO_PAGE); cbn [snd MmapMMU.disk]; (split; [|done]);
    intros w pte; cbn [MmapMMU.page_table].
  - destruct (decide (w = v)) as [->|Hne].
    + rewrite lookup_insert_eq. by intros [= <-].
    + rewrite lookup_insert_ne by done. apply Hc.
  - destruct (decide (w = v)) as [->|Hne].
    + rewrite lookup_insert_eq. by intros [= <-].
    + rewrite !lookup_insert_ne by done. apply Hc.
Qed.

Lemma Mmap_translate_address_clean (uninit : list byte) (m m' : MmapMMU.t) (a : N)
    (res : option N) :
  all_clean m → MmapMMU.translate_address uninit m a = Some (res, m') →
  all_clean m' ∧ MmapMMU.disk m' = MmapMMU.disk m.
Proof.
  intros Hc. unfold MmapMMU.translate_address. cbv zeta.
  destruct (MmapMMU.page_table m !! _) as [pte|]; [|by intros [= <- <-]].
  destruct (Mmap_handle_page_fault_clean uninit m (wrap32 (a / PAGE_SIZE)) Hc) as [Hc1 Hd1].
  assert (∃ ok m1, (if MmapMMU.present pte then (true, m)
                    else MmapMMU.handle_page_fault uninit m (wrap32 (a / PAGE_SIZE)))
                   = (ok, m1) ∧ all_clean m1 ∧ MmapMMU.disk m1 = MmapMMU.disk m)
    as (ok & m1 & -> & Hc2 & Hd2).
  { destruct (MmapMMU.present pte); [by exists true, m|].
    destruct (MmapMMU.handle_page_fault _ _ _) as [ok m1]. by exists ok, m1. }
  destruct ok; cbn [negb]; [|by intros [= <- <-]].
  destruct (MmapMMU.page_table m1 !! _) as [pte1|]; [|done]. cbn.
  destruct (MmapMMU.get_page_ptr _ _); [by intros [= <- <-]|].
  destruct (_ =? 0); [by intros [= <- <-]|done].
Qed.

Lemma Mmap_map_pages_loop_clean (n : nat) (i start : N) (fb : bool) (ds : N)
    (m : MmapMMU.t) :
  all_clean m →
  all_clean (MmapMMU.map_pages_loop n i start fb ds m) ∧
  MmapMMU.disk (MmapMMU.map_pages_loop n i start fb ds m) = MmapMMU.disk m.
Proof.
  revert i m. induction n as [|n IH]; intros i m Hc; [done|].
  cbn [MmapMMU.map_pages_loop].
  destruct (IH (i + 1) (MmapMMU.map_page start fb ds i m)) as [Hc' Hd'].
  - intros w pte. unfold MmapMMU.map_page. cbn [MmapMMU.page_table].
    destruct (decide (w = wrap32 (start + i))) as [->|Hne].
    + rewrite lookup_insert_eq. by intros [= <-].
    + rewrite lookup_insert_ne by done. apply Hc.
  - split; [done|]. by rewrite Hd'.
Qed.

Lemma Mmap_unmap_page_clean (uninit : list byte) (m : MmapMMU.t) (v : N) :
  all_clean m →
  all_clean (MmapMMU.unmap_page uninit m v) ∧
  MmapMMU.disk (MmapMMU.unmap_page uninit m v) = MmapMMU.disk m.
Proof.
  intros Hc. unfold MmapMMU.unmap_page.
  destruct (MmapMMU.page_table m !! v) as [pte|] eqn:Hv; [|done].
  rewrite (Hc _ _ Hv). cbn [andb].
  destruct (MmapMMU.present pte); cbn [MmapMMU.disk]; (split; [|done]);
    intros w pte'; cbn [MmapMMU.page_table]; intros Hw;
    apply lookup_delete_Some in Hw as [_ Hw]; by eapply Hc.
Qed.

Lemma Mmap_unmap_pages_loop_clean (uninit : list byte) (n : nat) (i start : N)
    (m : MmapMMU.t) :
  all_clean m →
  all_clean (MmapMMU.unmap_pages_loop uninit n i start m) ∧
  MmapMMU.disk (MmapMMU.unmap_pages_loop uninit n i start m) = MmapMMU.disk m.
Proof.
  revert i m. induction n as [|n IH]; intros i m Hc; [done|].
  cbn [MmapMMU.unmap_pages_loop].
  destruct (Mmap_unmap_page_clean uninit m (wrap32 (start + i)) Hc) as [Hc1 Hd1].
  destruct (IH (i + 1) _ Hc1) as [Hc2 Hd2]. split; [done|]. by rewrite Hd2.
Qed.

Lemma Mmap_step_clean (uninit : list byte) (m m' : MmapMMU.t) (o : MmapMMU.op) :
  all_clean m → MmapMMU.step uninit m o = Some m' →
  all_clean m' ∧ MmapMMU.disk m' = files_written [o] (MmapMMU.disk m).
Proof.
  intros Hc. destruct o; cbn [MmapMMU.step files_written foldl].
  - intros [= <-]. by apply Mmap_map_pages_loop_clean.
  - intros [= <-]. by apply Mmap_unmap_pages_loop_clean.
  - destruct (MmapMMU.translate_address _ _ _) as [[res m1]|] eqn:Ht; [|done].
    intros [= <-]. by eapply Mmap_translate_address_clean.
  - intros [= <-]. by apply Mmap_handle_page_fault_clean.
  - unfold MmapMMU.write_memory.
    destruct (MmapMMU.translate_address _ _ _) as [[res m1]|] eqn:Ht; [|done].
    destruct (Mmap_translate_address_clean _ _ _ _ _ Hc Ht) as [Hc1 Hd1].
    cbn. destruct res as [pa|]; [|by intros [= <-]].
    destruct (_ <=? _); [|done]. by intros [= <-].
  - by intros [= <-].
Qed.

Lemma files_written_app (ops1 ops2 : list MmapMMU.op) (d : Disk.t) :
  files_written (ops1 ++ ops2) d = files_written ops2 (files_written ops1 d).
Proof. apply foldl_app. Qed.

Lemma Mmap_run_clean (uninit : list byte) (ops : list MmapMMU.op) (m m' : MmapMMU.t) :
  all_clean m → MmapMMU.run uninit ops m = Some m' →
  all_clean m' ∧ MmapMMU.disk m' = files_written ops (MmapMMU.disk m).
Proof.
  revert m. induction ops as [|o ops IH]; intros m Hc; cbn [MmapMMU.run].
  { by intros [= <-]. }
  destruct (MmapMMU.step uninit m o) as [m1|] eqn:Hs; [|done]. cbn.
  destruct (Mmap_step_clean _ _ _ _ Hc Hs) as [Hc1 Hd1]. intros Hrun.
  destruct (IH m1 Hc1 Hrun) as [Hc2 Hd2]. split; [done|].
  rewrite Hd2, Hd1. symmetry. apply (files_written_app [o] ops).
Qed.

(** In [mmap.cpp] no operation ever sets the dirty bit of an entry
    ([translate_address] takes no write flag), so the write-back branch of
    [unmap_pages] is never taken: after any sequence of operations from the
    initial state every entry is clean, and the disk holds exactly what the
    [create_file] calls of the sequence wrote.  Data written through a
    file-backed mapping never reaches the disk, not even at [munmap]. *)
Theorem mmap_sim_never_writes_back (uninit : list byte) (ops : list MmapMMU.op)
    (m : MmapMMU.t) :
  MmapMMU.run uninit ops MmapMMU.init = Some m →
  all_clean m ∧ MmapMMU.disk m = files_written ops Disk.init.
Proof.
  intros Hrun. apply (Mmap_run_clean uninit ops MmapMMU.init m); [|done].
  intros v pte Hv. done.
Qed.

Lemma mmap_sim_never_writes_back_witness :
  ∃ m, MmapMMU.run sample_page mmap_file_ops MmapMMU.init = Some m ∧
       (all_clean m ∧ MmapMMU.disk m = files_written mmap_file_ops Disk.init).
Proof.
  assert (Hobs : defined (MmapMMU.run sample_page mmap_file_ops MmapMMU.init) = true)
    by (vm_compute; reflexivity).
  destruct (MmapMMU.run sample_page mmap_file_ops MmapMMU.init) as [m|] eqn:Hrun;
    [|discriminate Hobs].
  exists m. split; [reflexivity|].
  exact (mmap_sim_never_writes_back sample_page mmap_file_ops m Hrun).
Defined.

(** Once every frame is taken the simulator of [mmap.cpp] is stuck: it
    has no eviction, so every fault fails, and translating an address
    whose page is mapped but not present returns a null pointer and leaves
    the state exactly as it was.  Only [unmap_pages] makes frames
    available again. *)
Theorem mmap_sim_out_of_frames (uninit : list byte) (m : MmapMMU.t) :
  first_free (MmapSim.allocated (MmapMMU.ram m)) = None →
  (∀ v, (MmapMMU.handle_page_fault uninit m v).1 = false ∧
        MmapMMU.ram (MmapMMU.handle_page_fault uninit m v).2 = MmapMMU.ram m) ∧
  (∀ a pte, MmapMMU.page_table m !! wrap32 (a / PAGE_SIZE) = Some pte →
            MmapMMU.present pte = false →
            MmapMMU.translate_address uninit m a = Some (None, m)).
Proof.
  intros Hfull.
  assert (Hf : ∀ v, MmapMMU.handle_page_fault uninit m v
             = (false, MmapMMU.mk
                  (<[v := default MmapMMU.PageTableEntry_new (MmapMMU.page_table m !! v)]>
                     (MmapMMU.page_table m))
                  (MmapMMU.ram m) (MmapMMU.disk m) (MmapMMU.next_disk_page m))).
  { intros v. unfold MmapMMU.handle_page_fault, MmapSim.allocate_page.
    by rewrite Hfull. }
  split.
  - intros v. by rewrite Hf.
  - intros a pte Hv Hp. unfold MmapMMU.translate_address. cbv zeta.
    rewrite Hv, Hp, Hf, Hv. cbn. rewrite insert_id by done. by destruct m.
Qed.

Lemma mmap_sim_out_of_frames_witness :
  (MmapMMU.handle_page_fault sample_page mmap_full_state 3).1 = false ∧
  MmapMMU.ram (MmapMMU.handle_page_fault sample_page mmap_full_state 3).2
  = MmapMMU.ram mmap_full_state.
Proof.
  assert (Hfull : first_free (MmapSim.allocated (MmapMMU.ram mmap_full_state)) = None)
    by (vm_compute; reflexivity).
  exact (proj1 (mmap_sim_out_of_frames sample_page mmap_full_state Hfull) 3).
Defined.

(** * Physical memory and page tables of [allocvm_and_loadvm_sim.cpp] *)

(** ** Addresses *)

Lemma page_off_mod (a : N) : PhysicalMemory.page_off a = a mod PAGE_SIZE.
Proof. unfold PhysicalMemory.page_off. change 4095 with (N.ones 12). apply N.land_ones. Qed.

Lemma page_base_div (a : N) :
  a < 2 ^ 32 → PhysicalMemory.page_base a = a / PAGE_SIZE * PAGE_SIZE.
Proof.
  intros Ha. unfold PhysicalMemory.page_base.
  change PAGE_SIZE with (2 ^ 12).
  rewrite <- N.shiftr_div_pow2, <- N.shiftl_mul_pow2.
  apply N.bits_inj. intros n. rewrite N.land_spec, testbit_page_mask.
  destruct (N.leb_spec 12 n) as [Hle|Hlt]; cbn [andb].
  - rewrite N.shiftl_spec_high' by done. rewrite N.shiftr_spec'.
    replace (n - 12 + 12) with n by lia.
    destruct (N.ltb_spec n 32) as [Hn|Hn]; [by rewrite andb_true_r|].
    rewrite andb_false_r. symmetry.
    destruct (N.eq_dec a 0) as [->|Hne]; [apply N.bits_0|].
    apply N.bits_above_log2. apply N.log2_lt_pow2; [lia|].
    eapply N.lt_le_trans; [exact Ha|]. apply N.pow_le_mono_r; lia.
  - rewrite andb_false_r. symmetry. by apply N.shiftl_spec_low.
Qed.

Lemma page_base_aligned (p : N) :
  PhysicalMemory.page_base p = p → p < 2 ^ 32 ∧ p mod PAGE_SIZE = 0.
Proof.
  intros Hp.
  assert (Hlt : p < 2 ^ 32).
  { rewrite <- Hp. unfold PhysicalMemory.page_base.
    eapply N.le_lt_trans; [apply N.land_le_r|]. reflexivity. }
  split; [done|]. rewrite page_base_div in Hp by done.
  rewrite <- Hp. apply N.Div0.mod_mul.
Qed.

(** The byte at offset [o] of the page at [p]. *)
Lemma page_split (p o : N) :
  PhysicalMemory.page_base p = p → o < PAGE_SIZE →
  wrap32 (p + o) = p + o ∧
  PhysicalMemory.page_base (p + o) = p ∧ PhysicalMemory.page_off (p + o) = o.
Proof.
  intros Hp Ho. destruct (page_base_aligned p Hp) as [Hlt Hal].
  pose proof (N.div_mod p PAGE_SIZE ltac:(discriminate)) as Hd. rewrite Hal in Hd.
  remember (p / PAGE_SIZE) as q eqn:Hq.
  assert (Hq32 : q < 2 ^ 20).
  { change (2 ^ 32) with 4294967296 in Hlt. change (2 ^ 20) with 1048576.
    unfold PAGE_SIZE in *. clear Hal Hq Hp. lia. }
  assert (Hpo : p + o < 2 ^ 32).
  { change (2 ^ 20) with 1048576 in Hq32. change (2 ^ 32) with 4294967296.
    unfold PAGE_SIZE in *. clear Hal Hq Hp. lia. }
  split_and!.
  - unfold wrap32. by apply N.mod_small.
  - rewrite page_base_div by done.
    replace (p + o) with (q * PAGE_SIZE + o) by (clear Hal Hq Hp; lia).
    rewrite N.div_add_l by discriminate. rewrite (N.div_small o) by done.
    clear Hal Hq Hp. lia.
  - rewrite page_off_mod.
    replace (p + o) with (o + q * PAGE_SIZE) by (clear Hal Hq Hp; lia).
    rewrite N.Div0.mod_add. by apply N.mod_small.
Qed.

(** ** Bytes *)

Lemma read_byte_at (pm : PhysicalMemory.t) (p o : N) :
  PhysicalMemory.page_base p = p → o < PAGE_SIZE →
  PhysicalMemory.read_byte pm (p + o)
  = match PhysicalMemory.pages pm !! p with
    | Some pg => default 0 (pg !! N.to_nat o)
    | None => 0
    end.
Proof.
  intros Hp Ho. destruct (page_split p o Hp Ho) as (_ & Hb & Hoff).
  unfold PhysicalMemory.read_byte. by rewrite Hb, Hoff.
Qed.

Lemma write_byte_at (pm : PhysicalMemory.t) (p o v : N) :
  PhysicalMemory.page_base p = p → o < PAGE_SIZE →
  PhysicalMemory.write_byte pm (p + o) v
  = match PhysicalMemory.pages pm !! p with
    | Some pg => PhysicalMemory.mk (<[p := <[N.to_nat o := v]> pg]> (PhysicalMemory.pages pm))
                   (PhysicalMemory.next_free_page pm)
    | None => pm
    end.
Proof.
  intros Hp Ho. destruct (page_split p o Hp Ho) as (_ & Hb & Hoff).
  unfold PhysicalMemory.write_byte. by rewrite Hb, Hoff.
Qed.

Lemma write_byte_allocated (pm : PhysicalMemory.t) (p o v : N) (pg : list N) :
  PhysicalMemory.page_base p = p → o < PAGE_SIZE →
  PhysicalMemory.pages pm !! p = Some pg →
  PhysicalMemory.write_byte pm (p + o) v
  = PhysicalMemory.mk (<[p := <[N.to_nat o := v]> pg]> (PhysicalMemory.pages pm))
      (PhysicalMemory.next_free_page pm).
Proof. intros Hp Ho Hpg. rewrite write_byte_at by done. by rewrite Hpg. Qed.

(** ** 32-bit cells *)

Lemma le_bytes_value (v : N) :
  v < 2 ^ 32 →
  N.lor (N.lor (N.lor (N.lor 0 (wrap32 (N.shiftl (N.land (N.shiftr v 0) 255) 0)))
                  (wrap32 (N.shiftl (N.land (N.shiftr v 8) 255) 8)))
           (wrap32 (N.shiftl (N.land (N.shiftr v 16) 255) 16)))
    (wrap32 (N.shiftl (N.land (N.shiftr v 24) 255) 24)) = v.
Proof.
  intros Hv.
  assert (Hw : ∀ k, k ≤ 24 →
            wrap32 (N.shiftl (N.land (N.shiftr v k) 255) k)
            = N.shiftl (N.land (N.shiftr v k) 255) k).
  { intros k Hk. unfold wrap32. apply N.mod_small.
    rewrite N.shiftl_mul_pow2.
    assert (N.land (N.shiftr v k) 255 < 2 ^ 8).
    { change 255 with (N.ones 8). rewrite N.land_ones. apply N.mod_lt. discriminate. }
    assert (2 ^ k ≤ 2 ^ 24) by (apply N.pow_le_mono_r; lia).
    change (2 ^ 32) with (2 ^ 8 * 2 ^ 24).
    eapply N.le_lt_trans; [apply N.mul_le_mono_l; eassumption|].
    apply N.mul_lt_mono_pos_r; [reflexivity|done]. }
  rewrite !Hw by lia. apply N.bits_inj. intros n.
  rewrite !N.lor_spec, N.bits_0. cbn [orb].
  change 255 with (N.ones 8).
  assert (Hbit : ∀ k, N.testbit (N.shiftl (N.land (N.shiftr v k) (N.ones 8)) k) n
                      = N.testbit v n && (k <=? n) && (n <? k + 8)).
  { intros k. destruct (N.leb_spec k n) as [Hle|Hlt].
    - rewrite N.shiftl_spec_high' by done. rewrite N.land_spec, N.shiftr_spec'.
      replace (n - k + k) with n by lia.
      destruct (N.ltb_spec n (k + 8)) as [Hn|Hn].
      + rewrite N.ones_spec_low by lia. by rewrite !andb_true_r.
      + rewrite N.ones_spec_high by lia. by rewrite !andb_false_r.
    - rewrite N.shiftl_spec_low by done. by rewrite andb_false_r. }
  rewrite !Hbit.
  destruct (N.ltb_spec n 32) as [Hn|Hn].
  - destruct (N.testbit v n); cbn [andb orb]; [|done].
    destruct (N.leb_spec 0 n), (N.ltb_spec n (0 + 8)), (N.leb_spec 8 n),
      (N.ltb_spec n (8 + 8)), (N.leb_spec 16 n), (N.ltb_spec n (16 + 8)),
      (N.leb_spec 24 n), (N.ltb_spec n (24 + 8)); cbn [andb orb]; try done; lia.
  - assert (N.testbit v n = false) as ->.
    { destruct (N.eq_dec v 0) as [->|Hne]; [apply N.bits_0|].
      apply N.bits_above_log2. apply N.log2_lt_pow2; [lia|].
      eapply N.lt_le_trans; [exact Hv|]. apply N.pow_le_mono_r; lia. }
    done.
Qed.

(** [write_uint32] on a cell of an allocated page, as one update of the
    page. *)
Lemma write_uint32_at (pm : PhysicalMemory.t) (p k v : N) (pg : list N) :
  PhysicalMemory.page_base p = p → k < 1024 →
  PhysicalMemory.pages pm !! p = Some pg →
  PhysicalMemory.write_uint32 pm (p + k * 4) v
  = PhysicalMemory.mk
      (<[p := <[N.to_nat (k * 4 + 3) := N.land (N.shiftr v 24) 255]>
                (<[N.to_nat (k * 4 + 2) := N.land (N.shiftr v 16) 255]>
                   (<[N.to_nat (k * 4 + 1) := N.land (N.shiftr v 8) 255]>
                      (<[N.to_nat (k * 4) := N.land (N.shiftr v 0) 255]> pg)))]>
         (PhysicalMemory.pages pm))
      (PhysicalMemory.next_free_page pm).
Proof.
  intros Hp Hk Hpg. unfold PhysicalMemory.write_uint32. cbn [foldl].
  assert (Ho : ∀ i, i < 4 → k * 4 + i < PAGE_SIZE) by (intros; unfold PAGE_SIZE; lia).
  assert (Ha : ∀ i, i < 4 → wrap32 (p + k * 4 + i) = p + (k * 4 + i)).
  { intros i Hi. rewrite <- N.add_assoc. by apply page_split, Ho. }
  rewrite !Ha by lia. rewrite N.mul_0_l, N.mul_1_l.
  change (2 * 8) with 16. change (3 * 8) with 24.
  rewrite (write_byte_allocated pm p (k * 4 + 0) _ pg) by (try done; apply Ho; lia).
  erewrite (write_byte_allocated _ p (k * 4 + 1))
    by (try done; try (apply Ho; lia); cbn; apply lookup_insert_eq).
  erewrite (write_byte_allocated _ p (k * 4 + 2))
    by (try done; try (apply Ho; lia); cbn; apply lookup_insert_eq).
  erewrite (write_byte_allocated _ p (k * 4 + 3))
    by (try done; try (apply Ho; lia); cbn; apply lookup_insert_eq).
  cbn [PhysicalMemory.pages PhysicalMemory.next_free_page].
  rewrite !insert_insert_eq. by rewrite N.add_0_r.
Qed.

Lemma write_uint32_unallocated (pm : PhysicalMemory.t) (p k v : N) :
  PhysicalMemory.page_base p = p → k < 1024 →
  PhysicalMemory.pages pm !! p = None →
  PhysicalMemory.write_uint32 pm (p + k * 4) v = pm.
Proof.
  intros Hp Hk Hpg. unfold PhysicalMemory.write_uint32. cbn [foldl].
  assert (Ho : ∀ i, i < 4 → k * 4 + i < PAGE_SIZE) by (intros; unfold PAGE_SIZE; lia).
  assert (Ha : ∀ i, i < 4 → wrap32 (p + k * 4 + i) = p + (k * 4 + i)).
  { intros i Hi. rewrite <- N.add_assoc. by apply page_split, Ho. }
  rewrite !Ha by lia.
  rewrite (write_byte_at pm p (k * 4 + 0)) by (try done; apply Ho; lia). rewrite Hpg.
  rewrite (write_byte_at pm p (k * 4 + 1)) by (try done; apply Ho; lia). rewrite Hpg.
  rewrite (write_byte_at pm p (k * 4 + 2)) by (try done; apply Ho; lia). rewrite Hpg.
  rewrite (write_byte_at pm p (k * 4 + 3)) by (try done; apply Ho; lia). by rewrite Hpg.
Qed.

(** [read_uint32] of a cell, from the page that holds it. *)
Lemma read_uint32_at (pm : PhysicalMemory.t) (p k : N) :
  PhysicalMemory.page_base p = p → k < 1024 →
  PhysicalMemory.read_uint32 pm (p + k * 4)
  = match PhysicalMemory.pages pm !! p with
    | Some pg =>
        N.lor (N.lor (N.lor (N.lor 0
          (wrap32 (N.shiftl (default 0 (pg !! N.to_nat (k * 4))) 0)))
          (wrap32 (N.shiftl (default 0 (pg !! N.to_nat (k * 4 + 1))) 8)))
          (wrap32 (N.shiftl (default 0 (pg !! N.to_nat (k * 4 + 2))) 16)))
          (wrap32 (N.shiftl (default 0 (pg !! N.to_nat (k * 4 + 3))) 24))
    | None => 0
    end.
Proof.
  intros Hp Hk. unfold PhysicalMemory.read_uint32. cbn [foldl].
  assert (Ho : ∀ i, i < 4 → k * 4 + i < PAGE_SIZE) by (intros; unfold PAGE_SIZE; lia).
  assert (Ha : ∀ i, i < 4 → wrap32 (p + k * 4 + i) = p + (k * 4 + i)).
  { intros i Hi. rewrite <- N.add_assoc. by apply page_split, Ho. }
  rewrite !Ha by lia. rewrite N.mul_0_l, N.mul_1_l.
  change (2 * 8) with 16. change (3 * 8) with 24.
  rewrite !read_byte_at by (try done; apply Ho; lia).
  rewrite N.add_0_r. by destruct (PhysicalMemory.pages pm !! p).
Qed.

(** Reading a cell after a cell of an allocated page was written. *)
Lemma read_write_cell (pm : PhysicalMemory.t) (p k v p' k' : N) (pg : list N) :
  PhysicalMemory.page_base p = p → k < 1024 →
  PhysicalMemory.pages pm !! p = Some pg → length pg = N.to_nat PAGE_SIZE →
  PhysicalMemory.page_base p' = p' → k' < 1024 → v < 2 ^ 32 →
  PhysicalMemory.read_uint32 (PhysicalMemory.write_uint32 pm (p + k * 4) v) (p' + k' * 4)
  = if decide (p' = p ∧ k' = k) then v
    else PhysicalMemory.read_uint32 pm (p' + k' * 4).
Proof.
  intros Hp Hk Hpg Hlen Hp' Hk' Hv.
  rewrite (write_uint32_at pm p k v pg) by done.
  rewrite !read_uint32_at by done. cbn [PhysicalMemory.pages].
  destruct (decide (p' = p)) as [->|Hne].
  - rewrite lookup_insert_eq, Hpg.
    destruct (decide (k' = k)) as [->|Hnk].
    + rewrite decide_True by done.
      rewrite list_lookup_insert_eq
        by (rewrite !length_insert; unfold PAGE_SIZE in *; lia).
      rewrite (list_lookup_insert_ne _ _ (N.to_nat (k * 4 + 2))) by lia.
      rewrite list_lookup_insert_eq
        by (rewrite !length_insert; unfold PAGE_SIZE in *; lia).
      rewrite (list_lookup_insert_ne _ _ (N.to_nat (k * 4 + 1))) by lia.
      rewrite (list_lookup_insert_ne _ _ (N.to_nat (k * 4 + 1))) by lia.
      rewrite list_lookup_insert_eq
        by (rewrite !length_insert; unfold PAGE_SIZE in *; lia).
      rewrite (list_lookup_insert_ne _ _ (N.to_nat (k * 4))) by lia.
      rewrite (list_lookup_insert_ne _ _ (N.to_nat (k * 4))) by lia.
      rewrite (list_lookup_insert_ne _ _ (N.to_nat (k * 4))) by lia.
      rewrite list_lookup_insert_eq by (unfold PAGE_SIZE in *; lia).
      cbn [default]. by apply le_bytes_value.
    + rewrite decide_False by (intros [_ ?]; done).
      rewrite !list_lookup_insert_ne by lia. done.
  - rewrite decide_False by (intros [? _]; done).
    by rewrite lookup_insert_ne.
Qed.

Lemma cell_of_address (a : N) :
  a < 2 ^ 32 → a mod 4 = 0 →
  ∃ k, k < 1024 ∧ a = PhysicalMemory.page_base a + k * 4 ∧
       PhysicalMemory.page_base (PhysicalMemory.page_base a) = PhysicalMemory.page_base a.
Proof.
  intros Ha Hal.
  assert (Hidem : PhysicalMemory.page_base (PhysicalMemory.page_base a)
                  = PhysicalMemory.page_base a).
  { unfold PhysicalMemory.page_base. by rewrite <- N.land_assoc, N.land_diag. }
  pose proof (N.div_mod a PAGE_SIZE ltac:(discriminate)) as Hd.
  pose proof (N.mod_lt a PAGE_SIZE ltac:(discriminate)) as Hlt.
  pose proof (N.div_mod a 4 ltac:(discriminate)) as Hd4. rewrite Hal in Hd4.
  exists (a / 4 - a / PAGE_SIZE * 1024).
  split; [|split; [|exact Hidem]].
  - remember (a / PAGE_SIZE) as q. remember (a mod PAGE_SIZE) as r. remember (a / 4) as c.
    unfold PAGE_SIZE in *. clear Heqq Heqr Heqc Hal Hidem. lia.
  - rewrite page_base_div by done.
    remember (a / PAGE_SIZE) as q. remember (a mod PAGE_SIZE) as r. remember (a / 4) as c.
    unfold PAGE_SIZE in *. clear Heqq Heqr Heqc Hal Hidem. lia.
Qed.

(** 32-bit store and load.  For 4-byte aligned addresses: a value stored
    with [write_uint32] in an allocated page is what [read_uint32] returns
    at that address, and every other aligned cell reads as before; a store
    to an address whose page is not allocated is dropped without a trace,
    and such an address reads as 0. *)
Theorem uint32_store_load (pm : PhysicalMemory.t) (a b v : N) :
  pm_wf pm → a < 2 ^ 32 → b < 2 ^ 32 → a mod 4 = 0 → b mod 4 = 0 → v < 2 ^ 32 →
  (is_Some (PhysicalMemory.pages pm !! PhysicalMemory.page_base a) →
   PhysicalMemory.read_uint32 (PhysicalMemory.write_uint32 pm a v) b
   = if decide (b = a) then v else PhysicalMemory.read_uint32 pm b) ∧
  (PhysicalMemory.pages pm !! PhysicalMemory.page_base a = None →
   PhysicalMemory.write_uint32 pm a v = pm ∧ PhysicalMemory.read_uint32 pm a = 0).
Proof.
  intros Hwf Ha Hb Hal Hbl Hv.
  destruct (cell_of_address a Ha Hal) as (ka & Hka & Hea & Hpa).
  destruct (cell_of_address b Hb Hbl) as (kb & Hkb & Heb & Hpb).
  remember (PhysicalMemory.page_base a) as p eqn:Hp.
  remember (PhysicalMemory.page_base b) as p' eqn:Hp'.
  split.
  - intros [pg Hpg]. destruct (Hwf _ _ Hpg) as [Hlen _].
    rewrite Hea, Heb. rewrite (read_write_cell pm p ka v p' kb pg) by done.
    destruct (decide (p' = p ∧ kb = ka)) as [[-> ->]|Hne].
    + by rewrite decide_True.
    + rewrite decide_False; [done|]. intros Heq. apply Hne.
      assert (p' = p) as -> by (rewrite Hp, Hp'; by rewrite Heb, Hea, Heq).
      split; [done|]. lia.
  - intros Hnone. rewrite Hea. split.
    + by apply write_uint32_unallocated.
    + rewrite read_uint32_at by done. by rewrite Hnone.
Qed.

Lemma one_page_memory_wf : pm_wf one_page_memory.
Proof.
  intros a pg. unfold one_page_memory, PhysicalMemory.kalloc, PhysicalMemory.init.
  cbn [snd PhysicalMemory.pages PhysicalMemory.next_free_page].
  intros H. apply lookup_insert_Some in H as [[<- <-]|[_ H]]; [|done].
  split; [by rewrite length_replicate|reflexivity].
Qed.

Lemma uint32_store_load_witness :
  PhysicalMemory.read_uint32 (PhysicalMemory.write_uint32 one_page_memory 1048580 20487)
    1048580
  = (if decide (1048580 = 1048580) then 20487
     else PhysicalMemory.read_uint32 one_page_memory 1048580).
Proof.
  assert (Ha : (1048580 : N) < 2 ^ 32) by reflexivity.
  assert (Hal : 1048580 mod 4 = 0) by reflexivity.
  assert (Hv : (20487 : N) < 2 ^ 32) by reflexivity.
  destruct (uint32_store_load one_page_memory 1048580 1048580 20487
              one_page_memory_wf Ha Ha Hal Hal Hv) as [Hstore _].
  apply Hstore. vm_compute. by eexists.
Defined.

(** ** [kalloc] and [kfree] *)

Lemma kalloc_wf (pm : PhysicalMemory.t) :
  pm_wf pm →
  PhysicalMemory.page_base (PhysicalMemory.next_free_page pm)
    = PhysicalMemory.next_free_page pm →
  pm_wf (PhysicalMemory.kalloc pm).2.
Proof.
  intros Hwf Hal a pg. unfold PhysicalMemory.kalloc. cbn [snd PhysicalMemory.pages].
  intros H. apply lookup_insert_Some in H as [[<- <-]|[_ H]]; [|by apply Hwf].
  split; [by rewrite length_replicate|done].
Qed.

(** [kalloc] is a bump allocator.  With a page-aligned cursor it returns
    the cursor, moves it one page up, and the page it returns reads as
    zeroes while every byte outside that page reads as before.  [kfree]
    removes a page (its bytes then read as 0 and stores to it are dropped)
    but never moves the cursor back: a freed page is not handed out
    again. *)
Theorem kalloc_gives_zeroed_page (pm : PhysicalMemory.t) :
  pm_wf pm →
  PhysicalMemory.page_base (PhysicalMemory.next_free_page pm)
    = PhysicalMemory.next_free_page pm →
  (PhysicalMemory.kalloc pm).1 = PhysicalMemory.next_free_page pm ∧
  PhysicalMemory.next_free_page (PhysicalMemory.kalloc pm).2
    = wrap32 (PhysicalMemory.next_free_page pm + PAGE_SIZE) ∧
  pm_wf (PhysicalMemory.kalloc pm).2 ∧
  (∀ o, o < PAGE_SIZE →
     PhysicalMemory.read_byte (PhysicalMemory.kalloc pm).2
       (PhysicalMemory.next_free_page pm + o) = 0) ∧
  (∀ b, PhysicalMemory.page_base b ≠ PhysicalMemory.next_free_page pm →
     PhysicalMemory.read_byte (PhysicalMemory.kalloc pm).2 b
     = PhysicalMemory.read_byte pm b) ∧
  (∀ o v, o < PAGE_SIZE →
     PhysicalMemory.read_byte
       (PhysicalMemory.kfree (PhysicalMemory.kalloc pm).2 (PhysicalMemory.kalloc pm).1)
       (PhysicalMemory.next_free_page pm + o) = 0 ∧
     PhysicalMemory.write_byte
       (PhysicalMemory.kfree (PhysicalMemory.kalloc pm).2 (PhysicalMemory.kalloc pm).1)
       (PhysicalMemory.next_free_page pm + o) v
     = PhysicalMemory.kfree (PhysicalMemory.kalloc pm).2 (PhysicalMemory.kalloc pm).1) ∧
  PhysicalMemory.next_free_page
    (PhysicalMemory.kfree (PhysicalMemory.kalloc pm).2 (PhysicalMemory.kalloc pm).1)
  = wrap32 (PhysicalMemory.next_free_page pm + PAGE_SIZE).
Proof.
  intros Hwf Hal. split; [done|]. split; [done|]. split; [by apply kalloc_wf|].
  assert (Hk : PhysicalMemory.kfree (PhysicalMemory.kalloc pm).2 (PhysicalMemory.kalloc pm).1
               = PhysicalMemory.mk
                   (delete (PhysicalMemory.next_free_page pm) (PhysicalMemory.pages pm))
                   (wrap32 (PhysicalMemory.next_free_page pm + PAGE_SIZE))).
  { unfold PhysicalMemory.kfree, PhysicalMemory.kalloc.
    cbn [fst snd PhysicalMemory.pages PhysicalMemory.next_free_page].
    rewrite lookup_insert_eq. by rewrite delete_insert_eq. }
  split_and!.
  - intros o Ho. rewrite read_byte_at by done.
    unfold PhysicalMemory.kalloc. cbn [snd PhysicalMemory.pages].
    rewrite lookup_insert_eq. rewrite lookup_replicate_2; [done|]. lia.
  - intros b Hb. unfold PhysicalMemory.read_byte, PhysicalMemory.kalloc.
    cbn [snd PhysicalMemory.pages]. by rewrite lookup_insert_ne.
  - intros o v Ho. rewrite Hk. split.
    + rewrite read_byte_at by done. cbn [PhysicalMemory.pages].
      by rewrite lookup_delete_eq.
    + rewrite write_byte_at by done. cbn [PhysicalMemory.pages].
      by rewrite lookup_delete_eq.
  - by rewrite Hk.
Qed.

Lemma kalloc_gives_zeroed_page_witness :
  (PhysicalMemory.kalloc PhysicalMemory.init).1
    = PhysicalMemory.next_free_page PhysicalMemory.init ∧
  PhysicalMemory.next_free_page (PhysicalMemory.kalloc PhysicalMemory.init).2
    = wrap32 (PhysicalMemory.next_free_page PhysicalMemory.init + PAGE_SIZE).
Proof.
  assert (Hwf : pm_wf PhysicalMemory.init) by (intros a pg H; done).
  assert (Hal : PhysicalMemory.page_base (PhysicalMemory.next_free_page PhysicalMemory.init)
                = PhysicalMemory.next_free_page PhysicalMemory.init) by reflexivity.
  destruct (kalloc_gives_zeroed_page PhysicalMemory.init Hwf Hal) as (H1 & H2 & _).
  split; [exact H1|exact H2].
Defined.

(** ** Page-table walks *)

Lemma index_lt (x : N) : N.land x 1023 < 1024.
Proof.
  change 1023 with (N.ones 10). rewrite N.land_ones. apply N.mod_lt. discriminate.
Qed.

Lemma PDX_lt (va : N) : PageTableManager.PDX va < 1024.
Proof. apply index_lt. Qed.

Lemma PTX_lt (va : N) : PageTableManager.PTX va < 1024.
Proof. apply index_lt. Qed.

Lemma PTE_ADDR_aligned (e : N) :
  PhysicalMemory.page_base (PageTableManager.PTE_ADDR e) = PageTableManager.PTE_ADDR e.
Proof.
  unfold PhysicalMemory.page_base, PageTableManager.PTE_ADDR.
  by rewrite <- N.land_assoc, N.land_diag.
Qed.

Lemma cell_addr (p k : N) :
  PhysicalMemory.page_base p = p → k < 1024 → wrap32 (p + k * 4) = p + k * 4.
Proof. intros Hp Hk. apply page_split; [done|]. unfold PAGE_SIZE. lia. Qed.

Lemma lor_lt_pow2 (a b n : N) : a < 2 ^ n → b < 2 ^ n → N.lor a b < 2 ^ n.
Proof.
  intros Ha Hb.
  destruct (N.eq_dec (N.lor a b) 0) as [->|Hne]; [lia|].
  apply N.log2_lt_pow2; [lia|]. rewrite N.log2_lor.
  destruct (N.eq_dec a 0) as [->|Ha0], (N.eq_dec b 0) as [->|Hb0].
  - done.
  - rewrite N.max_r by (simpl; lia). apply N.log2_lt_pow2; lia.
  - rewrite N.max_l by (simpl; lia). apply N.log2_lt_pow2; lia.
  - apply N.max_lub_lt; apply N.log2_lt_pow2; lia.
Qed.

Lemma PTE_ADDR_flags (p f : N) :
  PhysicalMemory.page_base p = p → f < PAGE_SIZE →
  PageTableManager.PTE_ADDR (N.lor p f) = p.
Proof.
  intros Hp Hf. unfold PageTableManager.PTE_ADDR. rewrite N.land_lor_distr_l.
  unfold PhysicalMemory.page_base in Hp. rewrite Hp.
  assert (N.land f 4294963200 = 0) as ->; [|apply N.lor_0_r].
  apply N.bits_inj. intros n. rewrite N.land_spec, testbit_page_mask, N.bits_0.
  destruct (N.leb_spec 12 n) as [Hn|Hn]; [|by rewrite andb_false_r].
  assert (N.testbit f n = false) as ->; [|done].
  destruct (N.eq_dec f 0) as [->|Hne]; [apply N.bits_0|].
  apply N.bits_above_log2. apply N.log2_lt_pow2; [lia|].
  eapply N.lt_le_trans; [exact Hf|]. change PAGE_SIZE with (2 ^ 12).
  apply N.pow_le_mono_r; lia.
Qed.

Lemma is_present_lor (e : N) : is_present (N.lor e PageTableManager.PTE_PRESENT) = true.
Proof.
  unfold is_present, PageTableManager.PTE_PRESENT.
  destruct (N.eqb_spec (N.land (N.lor e 1) 1) 0) as [H0|]; [|done]. exfalso.
  assert (Hb : N.testbit (N.land (N.lor e 1) 1) 0 = true).
  { rewrite N.land_spec, N.lor_spec. cbn. by rewrite orb_true_r. }
  rewrite H0 in Hb. done.
Qed.

Lemma is_present_0 : is_present 0 = false.
Proof. done. Qed.

(** The walk in terms of cells. *)
Lemma lookup_pte_cells (s : PageTableManager.t) (va : N) :
  PhysicalMemory.page_base (PageTableManager.page_directory_phys s)
    = PageTableManager.page_directory_phys s →
  PageTableManager.lookup_pte s va
  = if is_present (pde_at s (PageTableManager.PDX va))
    then Some (PhysicalMemory.read_uint32 (PageTableManager.phys_mem s)
                 (PageTableManager.PTE_ADDR (pde_at s (PageTableManager.PDX va))
                  + PageTableManager.PTX va * 4))
    else None.
Proof.
  intros Hpd. unfold PageTableManager.lookup_pte, pde_at, is_present. cbv zeta.
  rewrite (cell_addr _ _ Hpd (PDX_lt va)).
  destruct (_ =? 0); [done|]. cbn [negb].
  by rewrite (cell_addr _ _ (PTE_ADDR_aligned _) (PTX_lt va)).
Qed.

Lemma is_present_testbit (e : N) : is_present e = N.testbit e 0.
Proof.
  unfold is_present, PageTableManager.PTE_PRESENT.
  assert (H : N.land e 1 = N.b2n (N.testbit e 0)).
  { change 1 with (N.ones 1) at 1. rewrite N.land_ones. change (2 ^ 1) with 2.
    symmetry. apply N.bit0_mod. }
  rewrite H. by destruct (N.testbit e 0).
Qed.

Lemma write_cell_frame (pm : PhysicalMemory.t) (p k v : N) :
  PhysicalMemory.page_base p = p → k < 1024 → pm_wf pm →
  pm_wf (PhysicalMemory.write_uint32 pm (p + k * 4) v) ∧
  PhysicalMemory.next_free_page (PhysicalMemory.write_uint32 pm (p + k * 4) v)
    = PhysicalMemory.next_free_page pm ∧
  (∀ a, is_Some (PhysicalMemory.pages (PhysicalMemory.write_uint32 pm (p + k * 4) v) !! a)
        ↔ is_Some (PhysicalMemory.pages pm !! a)).
Proof.
  intros Hp Hk Hwf.
  destruct (PhysicalMemory.pages pm !! p) as [pg|] eqn:Hpg.
  - rewrite (write_uint32_at pm p k v pg) by done.
    cbn [PhysicalMemory.pages PhysicalMemory.next_free_page]. split_and!.
    + intros a pg' H. cbn [PhysicalMemory.pages] in H.
      apply lookup_insert_Some in H as [[<- <-]|[_ H]]; [|by apply Hwf].
      destruct (Hwf _ _ Hpg) as [Hlen Hb]. split; [|done]. by rewrite !length_insert.
    + done.
    + intros a. destruct (decide (a = p)) as [->|Hne].
      * rewrite lookup_insert_eq, Hpg. split; by eauto.
      * by rewrite lookup_insert_ne.
  - by rewrite write_uint32_unallocated.
Qed.

Lemma read_cell_kalloc (pm : PhysicalMemory.t) (p k : N) :
  PhysicalMemory.page_base p = p → k < 1024 →
  PhysicalMemory.read_uint32 (PhysicalMemory.kalloc pm).2 (p + k * 4)
  = if decide (p = PhysicalMemory.next_free_page pm) then 0
    else PhysicalMemory.read_uint32 pm (p + k * 4).
Proof.
  intros Hp Hk. rewrite !read_uint32_at by done.
  unfold PhysicalMemory.kalloc. cbn [snd PhysicalMemory.pages].
  destruct (decide (p = PhysicalMemory.next_free_page pm)) as [->|Hne].
  - rewrite lookup_insert_eq.
    rewrite !lookup_replicate_2 by (unfold PAGE_SIZE; lia). done.
  - by rewrite lookup_insert_ne.
Qed.

Lemma aligned_next_page (p : N) :
  PhysicalMemory.page_base p = p → p + PAGE_SIZE < 2 ^ 32 →
  wrap32 (p + PAGE_SIZE) = p + PAGE_SIZE ∧
  PhysicalMemory.page_base (p + PAGE_SIZE) = p + PAGE_SIZE.
Proof.
  intros Hp Hlt. split; [unfold wrap32; by apply N.mod_small|].
  destruct (page_base_aligned p Hp) as [_ Hal].
  rewrite page_base_div by done.
  pose proof (N.div_mod p PAGE_SIZE ltac:(discriminate)) as Hd. rewrite Hal in Hd.
  remember (p / PAGE_SIZE) as q.
  replace (p + PAGE_SIZE) with ((q + 1) * PAGE_SIZE) by (clear Heqq Hal Hp; lia).
  by rewrite N.div_mul.
Qed.

Lemma pd_aligned (s : PageTableManager.t) :
  pt_wf s →
  PhysicalMemory.page_base (PageTableManager.page_directory_phys s)
    = PageTableManager.page_directory_phys s.
Proof. intros (Hpm & [pg Hpd] & _). by destruct (Hpm _ _ Hpd). Qed.

Lemma translation_cells (s : PageTableManager.t) (va : N) :
  PhysicalMemory.page_base (PageTableManager.page_directory_phys s)
    = PageTableManager.page_directory_phys s →
  translation s va
  = if is_present (pde_at s (PageTableManager.PDX va))
    then (let pte := PhysicalMemory.read_uint32 (PageTableManager.phys_mem s)
                       (PageTableManager.PTE_ADDR (pde_at s (PageTableManager.PDX va))
                        + PageTableManager.PTX va * 4) in
          if is_present pte then Some pte else None)
    else None.
Proof.
  intros Hpd. unfold translation. rewrite lookup_pte_cells by done.
  by destruct (is_present (pde_at s _)).
Qed.

(** ** One iteration of [mappages] *)

Lemma new_pte_lt (pa perm : N) :
  pa < 2 ^ 32 → perm < 2 ^ 32 →
  N.lor (N.lor pa perm) PageTableManager.PTE_PRESENT < 2 ^ 32.
Proof. intros Hpa Hperm. apply lor_lt_pow2; [by apply lor_lt_pow2|reflexivity]. Qed.

(** The directory entry is present: the entry is stored in the table it
    points to. *)
Lemma mappages_body_existing_table (s : PageTableManager.t) (a pa perm : N) :
  pt_wf s → pa < 2 ^ 32 → perm < 2 ^ 32 →
  is_present (pde_at s (PageTableManager.PDX a)) = true →
  translation s a = None →
  ∃ s', PageTableManager.mappages_body s a pa perm = inr s' ∧ pt_wf s' ∧
    PageTableManager.page_directory_phys s' = PageTableManager.page_directory_phys s ∧
    PhysicalMemory.next_free_page (PageTableManager.phys_mem s')
      = PhysicalMemory.next_free_page (PageTableManager.phys_mem s) ∧
    (∀ x, is_Some (PhysicalMemory.pages (PageTableManager.phys_mem s') !! x)
          ↔ is_Some (PhysicalMemory.pages (PageTableManager.phys_mem s) !! x)) ∧
    (∀ va', translation s' va'
            = if decide (PageTableManager.PDX va' = PageTableManager.PDX a
                         ∧ PageTableManager.PTX va' = PageTableManager.PTX a)
              then Some (N.lor (N.lor pa perm) PageTableManager.PTE_PRESENT)
              else translation s va').
Proof.
  intros Hwf Hpa Hperm Hpde Htr. pose proof (pd_aligned s Hwf) as Hpd.
  destruct Hwf as (Hpm & Hpdin & Hal & Hfresh & Htab).
  set (d := PageTableManager.PDX a) in *. set (t := PageTableManager.PTX a) in *.
  set (T := PageTableManager.PTE_ADDR (pde_at s d)).
  set (new := N.lor (N.lor pa perm) PageTableManager.PTE_PRESENT).
  pose proof (PDX_lt a) as Hd. pose proof (PTX_lt a) as Ht. fold d in Hd. fold t in Ht.
  destruct (Htab d Hd Hpde) as ([pgT HT] & HTpd & Hinj). fold T in HT, HTpd, Hinj.
  pose proof (PTE_ADDR_aligned (pde_at s d)) as HTal. fold T in HTal.
  destruct (Hpm _ _ HT) as [HlenT _].
  pose proof (new_pte_lt pa perm Hpa Hperm) as Hnew. fold new in Hnew.
  set (pm' := PhysicalMemory.write_uint32 (PageTableManager.phys_mem s) (T + t * 4) new).
  exists (PageTableManager.mk pm' (PageTableManager.page_directory_phys s)).
  destruct (write_cell_frame (PageTableManager.phys_mem s) T t new HTal Ht Hpm)
    as (Hpm' & Hnfp' & Hdom'). fold pm' in Hpm', Hnfp', Hdom'.
  assert (Hcell : ∀ p k, PhysicalMemory.page_base p = p → k < 1024 →
            PhysicalMemory.read_uint32 pm' (p + k * 4)
            = if decide (p = T ∧ k = t) then new
              else PhysicalMemory.read_uint32 (PageTableManager.phys_mem s) (p + k * 4)).
  { intros p k Hp Hk. unfold pm'. by rewrite (read_write_cell _ T t new p k pgT). }
  assert (Hpde' : ∀ d', d' < 1024 →
            pde_at (PageTableManager.mk pm' (PageTableManager.page_directory_phys s)) d'
            = pde_at s d').
  { intros d' Hd'. unfold pde_at. cbn [PageTableManager.phys_mem
      PageTableManager.page_directory_phys]. rewrite Hcell by done.
    rewrite decide_False; [done|]. intros [HpdT _]. by apply HTpd. }
  split_and!.
  - unfold PageTableManager.mappages_body. cbv zeta. fold d t.
    rewrite (cell_addr _ _ Hpd Hd). fold (pde_at s d).
    unfold is_present in Hpde.
    destruct (N.land (pde_at s d) PageTableManager.PTE_PRESENT =? 0) eqn:Hp0; [done|].
    fold T. rewrite (cell_addr _ _ HTal Ht).
    rewrite translation_cells in Htr by done. fold d t in Htr.
    unfold is_present at 1 in Htr. rewrite Hp0 in Htr. cbn [negb] in Htr. fold T in Htr.
    cbv zeta in Htr.
    destruct (is_present (PhysicalMemory.read_uint32 (PageTableManager.phys_mem s)
                (T + t * 4))) eqn:Hpte; [done|].
    unfold is_present in Hpte. rewrite Hpte. cbn [negb]. done.
  - split_and!.
    + done.
    + cbn [PageTableManager.phys_mem PageTableManager.page_directory_phys].
      by apply Hdom'.
    + cbn [PageTableManager.phys_mem]. by rewrite Hnfp'.
    + cbn [PageTableManager.phys_mem]. intros x Hx. rewrite Hnfp'.
      by apply Hfresh, Hdom'.
    + intros d1 Hd1. rewrite Hpde' by done. intros Hp1.
      destruct (Htab d1 Hd1 Hp1) as (Hin1 & Hne1 & Hinj1).
      cbn [PageTableManager.phys_mem PageTableManager.page_directory_phys].
      split_and!; [by apply Hdom'|done|].
      intros d2 Hd2 Hne2. rewrite Hpde' by done. by apply Hinj1.
  - done.
  - done.
  - done.
  - intros va'. rewrite !translation_cells by done.
    pose proof (PDX_lt va') as Hd'. pose proof (PTX_lt va') as Ht'.
    set (d' := PageTableManager.PDX va') in *. set (t' := PageTableManager.PTX va') in *.
    rewrite Hpde' by done. cbn [PageTableManager.phys_mem]. cbv zeta.
    destruct (is_present (pde_at s d')) eqn:Hp'.
    + rewrite Hcell by (try done; apply PTE_ADDR_aligned).
      destruct (decide (d' = d)) as [Hdd|Hdd].
      * rewrite Hdd. fold T.
        destruct (decide (t' = t)) as [Htt|Htt].
        -- rewrite !decide_True by done. unfold new. by rewrite is_present_lor.
        -- rewrite !decide_False by (intros [_ ?]; done). done.
      * rewrite (decide_False (P := d' = d ∧ t' = t)) by (intros [? _]; done).
        rewrite decide_False; [done|]. intros [HTT _].
        by apply (Hinj d' Hd' Hdd Hp').
    + rewrite decide_False; [done|]. intros [Hdd _]. rewrite Hdd in Hp'. congruence.
Qed.

Lemma table_flags (T : N) :
  PhysicalMemory.page_base T = T →
  let pde := N.lor (N.lor (N.lor T PageTableManager.PTE_PRESENT) PageTableManager.PTE_WRITE)
               PageTableManager.PTE_USER in
  pde < 2 ^ 32 ∧ is_present pde = true ∧ PageTableManager.PTE_ADDR pde = T.
Proof.
  intros HT pde. destruct (page_base_aligned T HT) as [Hlt _].
  split_and!.
  - unfold pde. repeat apply lor_lt_pow2; done.
  - unfold pde. rewrite is_present_testbit, !N.lor_spec.
    unfold PageTableManager.PTE_PRESENT. cbn. by rewrite !orb_true_r.
  - unfold pde. rewrite <- !N.lor_assoc. apply PTE_ADDR_flags; [done|]. reflexivity.
Qed.

(** The directory entry is absent: a table is allocated, entered in the
    directory, and the entry is stored in it. *)
Lemma mappages_body_new_table (s : PageTableManager.t) (a pa perm : N) :
  pt_wf s → pa < 2 ^ 32 → perm < 2 ^ 32 →
  PhysicalMemory.next_free_page (PageTableManager.phys_mem s) + PAGE_SIZE < 2 ^ 32 →
  is_present (pde_at s (PageTableManager.PDX a)) = false →
  ∃ s', PageTableManager.mappages_body s a pa perm = inr s' ∧ pt_wf s' ∧
    PageTableManager.page_directory_phys s' = PageTableManager.page_directory_phys s ∧
    PhysicalMemory.next_free_page (PageTableManager.phys_mem s')
      = PhysicalMemory.next_free_page (PageTableManager.phys_mem s) + PAGE_SIZE ∧
    (∀ x, is_Some (PhysicalMemory.pages (PageTableManager.phys_mem s') !! x)
          ↔ is_Some (PhysicalMemory.pages (PageTableManager.phys_mem s) !! x)
            ∨ x = PhysicalMemory.next_free_page (PageTableManager.phys_mem s)) ∧
    (∀ va', translation s' va'
            = if decide (PageTableManager.PDX va' = PageTableManager.PDX a
                         ∧ PageTableManager.PTX va' = PageTableManager.PTX a)
              then Some (N.lor (N.lor pa perm) PageTableManager.PTE_PRESENT)
              else translation s va').
Proof.
  intros Hwf Hpa Hperm Hroom Hpde. pose proof (pd_aligned s Hwf) as Hpd.
  destruct Hwf as (Hpm & Hpdin & Hal & Hfresh & Htab).
  set (pm := PageTableManager.phys_mem s) in *.
  set (pd := PageTableManager.page_directory_phys s) in *.
  set (d := PageTableManager.PDX a) in *. set (t := PageTableManager.PTX a) in *.
  set (T := PhysicalMemory.next_free_page pm) in *.
  set (new := N.lor (N.lor pa perm) PageTableManager.PTE_PRESENT).
  set (pde := N.lor (N.lor (N.lor T PageTableManager.PTE_PRESENT) PageTableManager.PTE_WRITE)
                PageTableManager.PTE_USER).
  pose proof (PDX_lt a) as Hd. pose proof (PTX_lt a) as Ht. fold d in Hd. fold t in Ht.
  destruct (table_flags T Hal) as (Hpdelt & Hpdep & HpdeT). fold pde in Hpdelt, Hpdep, HpdeT.
  pose proof (new_pte_lt pa perm Hpa Hperm) as Hnew. fold new in Hnew.
  assert (HTpd : T ≠ pd).
  { intros Heq. specialize (Hfresh pd Hpdin). lia. }
  set (pm1 := (PhysicalMemory.kalloc pm).2).
  set (pm2 := PhysicalMemory.write_uint32 pm1 (pd + d * 4) pde).
  set (pm3 := PhysicalMemory.write_uint32 pm2 (T + t * 4) new).
  pose proof (kalloc_wf pm Hpm Hal) as Hpm1. fold pm1 in Hpm1.
  assert (Hdom1 : ∀ x, PhysicalMemory.pages pm1 !! x
                       = if decide (x = T) then Some (replicate (N.to_nat PAGE_SIZE) 0)
                         else PhysicalMemory.pages pm !! x).
  { intros x. unfold pm1, PhysicalMemory.kalloc. cbn [snd PhysicalMemory.pages]. fold T.
    destruct (decide (x = T)) as [->|Hne];
      [by rewrite lookup_insert_eq|by rewrite lookup_insert_ne]. }
  destruct (write_cell_frame pm1 pd d pde Hpd Hd Hpm1) as (Hpm2 & Hnfp2 & Hdom2).
  fold pm2 in Hpm2, Hnfp2, Hdom2.
  destruct (write_cell_frame pm2 T t new Hal Ht Hpm2) as (Hpm3 & Hnfp3 & Hdom3).
  fold pm3 in Hpm3, Hnfp3, Hdom3.
  destruct Hpdin as [pgd Hpgd].
  assert (Hpd1 : PhysicalMemory.pages pm1 !! pd = Some pgd).
  { rewrite Hdom1. by rewrite decide_False. }
  destruct (Hpm1 _ _ Hpd1) as [Hlend _].
  assert (HT2 : is_Some (PhysicalMemory.pages pm2 !! T)).
  { apply Hdom2. rewrite Hdom1. rewrite decide_True by done. by eexists. }
  destruct HT2 as [pgT HT2]. destruct (Hpm2 _ _ HT2) as [HlenT _].
  assert (Hcell1 : ∀ p k, PhysicalMemory.page_base p = p → k < 1024 →
            PhysicalMemory.read_uint32 pm1 (p + k * 4)
            = if decide (p = T) then 0 else PhysicalMemory.read_uint32 pm (p + k * 4)).
  { intros p k Hp Hk. unfold pm1. by rewrite read_cell_kalloc. }
  assert (Hcell2 : ∀ p k, PhysicalMemory.page_base p = p → k < 1024 →
            PhysicalMemory.read_uint32 pm2 (p + k * 4)
            = if decide (p = pd ∧ k = d) then pde
              else PhysicalMemory.read_uint32 pm1 (p + k * 4)).
  { intros p k Hp Hk. unfold pm2. by rewrite (read_write_cell _ pd d pde p k pgd). }
  assert (Hcell3 : ∀ p k, PhysicalMemory.page_base p = p → k < 1024 →
            PhysicalMemory.read_uint32 pm3 (p + k * 4)
            = if decide (p = T ∧ k = t) then new
              else PhysicalMemory.read_uint32 pm2 (p + k * 4)).
  { intros p k Hp Hk. unfold pm3. by rewrite (read_write_cell _ T t new p k pgT). }
  assert (Hnfp1 : PhysicalMemory.next_free_page pm1 = T + PAGE_SIZE).
  { unfold pm1, PhysicalMemory.kalloc. cbn [snd PhysicalMemory.next_free_page]. fold T.
    by apply aligned_next_page. }
  exists (PageTableManager.mk pm3 pd).
  assert (Hpde' : ∀ d', d' < 1024 →
            pde_at (PageTableManager.mk pm3 pd) d'
            = if decide (d' = d) then pde else pde_at s d').
  { intros d' Hd'. unfold pde_at. cbn [PageTableManager.phys_mem
      PageTableManager.page_directory_phys]. fold pm pd.
    rewrite Hcell3 by done. rewrite decide_False by (intros [? _]; by apply HTpd).
    rewrite Hcell2 by done.
    destruct (decide (d' = d)) as [->|Hne].
    - by rewrite decide_True.
    - rewrite decide_False by (intros [_ ?]; done).
      rewrite Hcell1 by done. rewrite decide_False; [done|]. intros ?. by apply HTpd. }
  assert (Hold : ∀ d', d' < 1024 → is_present (pde_at s d') = true →
            PageTableManager.PTE_ADDR (pde_at s d') ≠ T ∧
            PageTableManager.PTE_ADDR (pde_at s d') ≠ pd ∧
            is_Some (PhysicalMemory.pages pm !! PageTableManager.PTE_ADDR (pde_at s d'))).
  { intros d' Hd' Hp'. destruct (Htab d' Hd' Hp') as (Hin & Hne & _).
    split_and!; [|done|done]. specialize (Hfresh _ Hin). fold T in Hfresh. lia. }
  assert (Hdom : ∀ x, is_Some (PhysicalMemory.pages pm3 !! x)
                      ↔ is_Some (PhysicalMemory.pages pm !! x) ∨ x = T).
  { intros x. rewrite Hdom3, Hdom2, Hdom1.
    destruct (decide (x = T)) as [->|Hne]; [split; [by right|by eexists]|].
    split; [by left|]. by intros [?|?]. }
  split_and!.
  - unfold PageTableManager.mappages_body. cbv zeta. fold pm pd d t.
    rewrite (cell_addr _ _ Hpd Hd).
    assert (Hp0 : (N.land (PhysicalMemory.read_uint32 pm (pd + d * 4))
                     PageTableManager.PTE_PRESENT =? 0) = true).
    { pose proof Hpde as Hp0. unfold is_present, pde_at in Hp0. fold pm pd in Hp0.
      by destruct (_ =? 0). }
    rewrite Hp0.
    unfold PhysicalMemory.kalloc at 1. cbn [fst snd]. fold T. fold pde.
    change (PhysicalMemory.mk _ _) with pm1. fold pm2.
    rewrite (cell_addr _ _ Hal Ht).
    rewrite Hcell2 by done. rewrite decide_False by (intros [? _]; by apply HTpd).
    rewrite Hcell1 by done. rewrite decide_True by done. cbn. done.
  - split_and!.
    + done.
    + cbn [PageTableManager.phys_mem PageTableManager.page_directory_phys].
      apply Hdom. left. by eexists.
    + cbn [PageTableManager.phys_mem]. rewrite Hnfp3, Hnfp2, Hnfp1.
      by apply aligned_next_page.
    + cbn [PageTableManager.phys_mem]. intros x Hx. rewrite Hnfp3, Hnfp2, Hnfp1.
      apply Hdom in Hx as [Hx| ->]; [|unfold PAGE_SIZE; lia].
      specialize (Hfresh x Hx). fold T in Hfresh. lia.
    + intros d1 Hd1.
      cbn [PageTableManager.phys_mem PageTableManager.page_directory_phys].
      destruct (decide (d1 = d)) as [Heq1|Hne1].
      * rewrite Hpde', decide_True by done. intros _. rewrite HpdeT.
        split_and!; [apply Hdom; by right|done|].
        intros d2 Hd2 Hne2. rewrite Hpde' by done.
        rewrite decide_False by (by rewrite <- Heq1).
        intros Hp2. by apply Hold.
      * rewrite Hpde', decide_False by done.
        intros Hp1. destruct (Hold d1 Hd1 Hp1) as (HneT & Hnepd & Hin1).
        destruct (Htab d1 Hd1 Hp1) as (_ & _ & Hinj1).
        split_and!; [apply Hdom; by left|done|].
        intros d2 Hd2 Hne2. rewrite Hpde' by done.
        destruct (decide (d2 = d)) as [Heq2|Hne2d].
        -- intros _. rewrite HpdeT. intros Heq. by apply HneT.
        -- by apply Hinj1.
  - done.
  - cbn [PageTableManager.phys_mem]. by rewrite Hnfp3, Hnfp2, Hnfp1.
  - apply Hdom.
  - intros va'. rewrite !translation_cells by done.
    pose proof (PDX_lt va') as Hd'. pose proof (PTX_lt va') as Ht'.
    set (d' := PageTableManager.PDX va') in *. set (t' := PageTableManager.PTX va') in *.
    rewrite Hpde' by done. cbn [PageTableManager.phys_mem]. cbv zeta. fold pm.
    destruct (decide (d' = d)) as [Hdd|Hdd].
    + rewrite Hpdep, HpdeT. rewrite Hcell3 by done. rewrite Hdd, Hpde.
      destruct (decide (t' = t)) as [Htt|Htt].
      * rewrite !decide_True by done. unfold new. by rewrite is_present_lor.
      * rewrite !decide_False by (intros [_ ?]; done).
        rewrite Hcell2 by done. rewrite decide_False by (intros [? _]; by apply HTpd).
        rewrite Hcell1 by done. rewrite decide_True by done. done.
    + rewrite (decide_False (P := d' = d ∧ t' = t)) by (intros [? _]; done).
      destruct (is_present (pde_at s d')) eqn:Hp'; [|done].
      destruct (Hold d' Hd' Hp') as (HneT & Hnepd & Hin').
      rewrite Hcell3 by (try done; apply PTE_ADDR_aligned).
      rewrite decide_False by (intros [? _]; done).
      rewrite Hcell2 by (try done; apply PTE_ADDR_aligned).
      rewrite decide_False by (intros [? _]; done).
      rewrite Hcell1 by (try done; apply PTE_ADDR_aligned).
      by rewrite decide_False.
Qed.

Lemma testbit_index (x m : N) (sh : N) :
  N.testbit (N.land (N.shiftr x sh) 1023) m = N.testbit x (m + sh) && (m <? 10).
Proof.
  rewrite N.land_spec, N.shiftr_spec'. change 1023 with (N.ones 10).
  destruct (N.ltb_spec m 10).
  - by rewrite N.ones_spec_low.
  - by rewrite N.ones_spec_high.
Qed.

(** Two addresses have the same directory and table index exactly when
    they lie in the same page. *)
Lemma same_page (x y : N) :
  PageTableManager.PDX x = PageTableManager.PDX y
  ∧ PageTableManager.PTX x = PageTableManager.PTX y
  ↔ PageTableManager.PGROUNDDOWN x = PageTableManager.PGROUNDDOWN y.
Proof.
  split.
  - intros [Hd Ht]. unfold PageTableManager.PGROUNDDOWN.
    apply N.bits_inj. intros n. rewrite !N.land_spec, testbit_page_mask.
    destruct (N.leb_spec 12 n) as [H12|]; [|by rewrite !andb_false_r].
    destruct (N.ltb_spec n 32) as [H32|]; [|by rewrite !andb_false_r].
    cbn [andb]. rewrite !andb_true_r.
    destruct (N.ltb_spec n 22) as [H22|H22].
    + assert (Hb : N.testbit (PageTableManager.PTX x) (n - 12)
                   = N.testbit (PageTableManager.PTX y) (n - 12)) by (by rewrite Ht).
      unfold PageTableManager.PTX in Hb. rewrite !testbit_index in Hb.
      replace (n - 12 + 12) with n in Hb by lia.
      destruct (N.ltb_spec (n - 12) 10); [|lia]. by rewrite !andb_true_r in Hb.
    + assert (Hb : N.testbit (PageTableManager.PDX x) (n - 22)
                   = N.testbit (PageTableManager.PDX y) (n - 22)) by (by rewrite Hd).
      unfold PageTableManager.PDX in Hb. rewrite !testbit_index in Hb.
      replace (n - 22 + 22) with n in Hb by lia.
      destruct (N.ltb_spec (n - 22) 10); [|lia]. by rewrite !andb_true_r in Hb.
  - intros H. rewrite <- (PDX_PGROUNDDOWN x), <- (PDX_PGROUNDDOWN y).
    rewrite <- (PTX_PGROUNDDOWN x), <- (PTX_PGROUNDDOWN y). by rewrite H.
Qed.

(** One iteration of [mappages] on a page that has no translation. *)
Lemma mappages_body_spec (s : PageTableManager.t) (a pa perm : N) :
  pt_wf s → pa < 2 ^ 32 → perm < 2 ^ 32 →
  PhysicalMemory.next_free_page (PageTableManager.phys_mem s) + PAGE_SIZE < 2 ^ 32 →
  translation s a = None →
  ∃ s', PageTableManager.mappages_body s a pa perm = inr s' ∧ pt_wf s' ∧
    PageTableManager.page_directory_phys s' = PageTableManager.page_directory_phys s ∧
    PhysicalMemory.next_free_page (PageTableManager.phys_mem s)
      ≤ PhysicalMemory.next_free_page (PageTableManager.phys_mem s') ∧
    PhysicalMemory.next_free_page (PageTableManager.phys_mem s')
      ≤ PhysicalMemory.next_free_page (PageTableManager.phys_mem s) + PAGE_SIZE ∧
    (∀ x, is_Some (PhysicalMemory.pages (PageTableManager.phys_mem s) !! x) →
          is_Some (PhysicalMemory.pages (PageTableManager.phys_mem s') !! x)) ∧
    (∀ x, is_Some (PhysicalMemory.pages (PageTableManager.phys_mem s') !! x) →
          x < PhysicalMemory.next_free_page (PageTableManager.phys_mem s')) ∧
    (∀ va', translation s' va'
            = if decide (PageTableManager.PGROUNDDOWN va' = PageTableManager.PGROUNDDOWN a)
              then Some (N.lor (N.lor pa perm) PageTableManager.PTE_PRESENT)
              else translation s va').
Proof.
  intros Hwf Hpa Hperm Hroom Htr.
  assert (Hsame : ∀ (va' : N) (A : Type) (u v : A),
            (if decide (PageTableManager.PDX va' = PageTableManager.PDX a
                        ∧ PageTableManager.PTX va' = PageTableManager.PTX a)
             then u else v)
            = if decide (PageTableManager.PGROUNDDOWN va' = PageTableManager.PGROUNDDOWN a)
              then u else v).
  { intros va' A u v. pose proof (same_page va' a) as Hs.
    destruct (decide (_ ∧ _)) as [H1|H1], (decide (_ = _)) as [H2|H2]; try done.
    - by apply Hs in H1.
    - by apply Hs in H2. }
  destruct (is_present (pde_at s (PageTableManager.PDX a))) eqn:Hpde.
  - destruct (mappages_body_existing_table s a pa perm Hwf Hpa Hperm Hpde Htr)
      as (s' & Hb & Hwf' & Hpd' & Hnfp' & Hdom' & Htr').
    exists s'. split_and!; try done.
    + rewrite Hnfp'. lia.
    + rewrite Hnfp'. lia.
    + intros x Hx. by apply Hdom'.
    + by destruct Hwf' as (_ & _ & _ & Hfresh & _).
    + intros va'. by rewrite Htr', Hsame.
  - destruct (mappages_body_new_table s a pa perm Hwf Hpa Hperm Hroom Hpde)
      as (s' & Hb & Hwf' & Hpd' & Hnfp' & Hdom' & Htr').
    exists s'. split_and!; try done.
    + rewrite Hnfp'. lia.
    + rewrite Hnfp'. lia.
    + intros x Hx. apply Hdom'. by left.
    + by destruct Hwf' as (_ & _ & _ & Hfresh & _).
    + intros va'. by rewrite Htr', Hsame.
Qed.

(** ** [mappages] on a range of unmapped pages *)

Lemma aligned_add_pages (a k : N) :
  PhysicalMemory.page_base a = a → a + k * PAGE_SIZE < 2 ^ 32 →
  PageTableManager.PGROUNDDOWN (a + k * PAGE_SIZE) = a + k * PAGE_SIZE.
Proof.
  intros Ha Hlt. change (PageTableManager.PGROUNDDOWN (a + k * PAGE_SIZE))
    with (PhysicalMemory.page_base (a + k * PAGE_SIZE)).
  destruct (page_base_aligned a Ha) as [_ Hal].
  rewrite page_base_div by done.
  pose proof (N.div_mod a PAGE_SIZE ltac:(discriminate)) as Hd. rewrite Hal in Hd.
  remember (a / PAGE_SIZE) as q.
  replace (a + k * PAGE_SIZE) with ((q + k) * PAGE_SIZE) by (clear Heqq Hal Ha; lia).
  by rewrite N.div_mul.
Qed.

Lemma mappages_loop_spec (n : nat) (s : PageTableManager.t) (a pa perm : N) :
  pt_wf s → PhysicalMemory.page_base a = a →
  a + N.of_nat n * PAGE_SIZE < 2 ^ 32 → pa + N.of_nat n * PAGE_SIZE < 2 ^ 32 →
  perm < 2 ^ 32 →
  PhysicalMemory.next_free_page (PageTableManager.phys_mem s)
    + (N.of_nat n + 1) * PAGE_SIZE < 2 ^ 32 →
  (∀ i, i ≤ N.of_nat n → translation s (a + i * PAGE_SIZE) = None) →
  ∃ s', PageTableManager.mappages_loop (S n) s a (a + N.of_nat n * PAGE_SIZE) pa perm
        = Some (0%Z, s') ∧
    pt_wf s' ∧
    PageTableManager.page_directory_phys s' = PageTableManager.page_directory_phys s ∧
    PhysicalMemory.next_free_page (PageTableManager.phys_mem s)
      ≤ PhysicalMemory.next_free_page (PageTableManager.phys_mem s') ∧
    PhysicalMemory.next_free_page (PageTableManager.phys_mem s')
      ≤ PhysicalMemory.next_free_page (PageTableManager.phys_mem s)
        + (N.of_nat n + 1) * PAGE_SIZE ∧
    (∀ x, is_Some (PhysicalMemory.pages (PageTableManager.phys_mem s) !! x) →
          is_Some (PhysicalMemory.pages (PageTableManager.phys_mem s') !! x)) ∧
    (∀ x, is_Some (PhysicalMemory.pages (PageTableManager.phys_mem s') !! x) →
          x < PhysicalMemory.next_free_page (PageTableManager.phys_mem s')) ∧
    (∀ i va', i ≤ N.of_nat n →
       PageTableManager.PGROUNDDOWN va' = a + i * PAGE_SIZE →
       translation s' va'
       = Some (N.lor (N.lor (pa + i * PAGE_SIZE) perm) PageTableManager.PTE_PRESENT)) ∧
    (∀ va', (∀ i, i ≤ N.of_nat n →
               PageTableManager.PGROUNDDOWN va' ≠ a + i * PAGE_SIZE) →
       translation s' va' = translation s va').
Proof.
  revert s a pa. induction n as [|n IH]; intros s a pa Hwf Ha Hlast Hpa Hperm Hroom Hun.
  - assert (Hpa0 : pa < 2 ^ 32) by (unfold PAGE_SIZE in *; lia).
    assert (Hroom0 : PhysicalMemory.next_free_page (PageTableManager.phys_mem s)
                     + PAGE_SIZE < 2 ^ 32) by (unfold PAGE_SIZE in *; lia).
    assert (Htr0 : translation s a = None).
    { specialize (Hun 0). rewrite N.mul_0_l, N.add_0_r in Hun. apply Hun. (unfold PAGE_SIZE in *; lia). }
    destruct (mappages_body_spec s a pa perm Hwf Hpa0 Hperm Hroom0 Htr0)
      as (s' & Hb & Hwf' & Hpd' & Hlo & Hhi & Hdom & Hfresh & Htr').
    assert (HPa : PageTableManager.PGROUNDDOWN a = a) by exact Ha.
    exists s'. cbn [PageTableManager.mappages_loop]. rewrite Hb.
    change (N.of_nat 0) with 0. rewrite N.mul_0_l, N.add_0_r, N.eqb_refl.
    split_and!; try done.
    + intros i va' Hi Hva'. assert (i = 0) as -> by lia.
      rewrite N.mul_0_l, !N.add_0_r in *. rewrite Htr'.
      rewrite decide_True; [done|]. by rewrite Hva', HPa.
    + intros va' Hne. rewrite Htr'. rewrite decide_False; [done|].
      specialize (Hne 0 ltac:(lia)). rewrite N.mul_0_l, N.add_0_r in Hne.
      by rewrite HPa.
  - assert (Hpa0 : pa < 2 ^ 32) by (unfold PAGE_SIZE in *; lia).
    assert (Hroom0 : PhysicalMemory.next_free_page (PageTableManager.phys_mem s)
                     + PAGE_SIZE < 2 ^ 32) by (unfold PAGE_SIZE in *; lia).
    assert (Htr0 : translation s a = None).
    { specialize (Hun 0). rewrite N.mul_0_l, N.add_0_r in Hun. apply Hun. (unfold PAGE_SIZE in *; lia). }
    assert (HPa : PageTableManager.PGROUNDDOWN a = a) by exact Ha.
    destruct (mappages_body_spec s a pa perm Hwf Hpa0 Hperm Hroom0 Htr0)
      as (s1 & Hb & Hwf1 & Hpd1 & Hlo1 & Hhi1 & Hdom1 & Hfresh1 & Htr1).
    assert (Hnext : a + PAGE_SIZE < 2 ^ 32) by ((unfold PAGE_SIZE in *; lia)).
    destruct (aligned_next_page a Ha Hnext) as [Hw Ha1].
    assert (Hwpa : wrap32 (pa + PAGE_SIZE) = pa + PAGE_SIZE).
    { unfold wrap32. apply N.mod_small. (unfold PAGE_SIZE in *; lia). }
    assert (Hlast1 : a + N.of_nat (S n) * PAGE_SIZE
                     = a + PAGE_SIZE + N.of_nat n * PAGE_SIZE) by (unfold PAGE_SIZE in *; lia).
    destruct (IH s1 (a + PAGE_SIZE) (pa + PAGE_SIZE)) as
      (s' & Hloop & Hwf' & Hpd' & Hlo & Hhi & Hdom & Hfresh & Hin & Hout);
      try done.
    + (unfold PAGE_SIZE in *; lia).
    + (unfold PAGE_SIZE in *; lia).
    + (unfold PAGE_SIZE in *; lia).
    + intros i Hi. rewrite Htr1. rewrite decide_False.
      * replace (a + PAGE_SIZE + i * PAGE_SIZE) with (a + (i + 1) * PAGE_SIZE) by (unfold PAGE_SIZE in *; lia).
        apply Hun. (unfold PAGE_SIZE in *; lia).
      * replace (a + PAGE_SIZE + i * PAGE_SIZE) with (a + (i + 1) * PAGE_SIZE) by (unfold PAGE_SIZE in *; lia).
        rewrite aligned_add_pages by (try done; unfold PAGE_SIZE in *; lia).
        rewrite HPa. (unfold PAGE_SIZE in *; lia).
    + exists s'. cbn [PageTableManager.mappages_loop]. rewrite Hb.
      destruct (N.eqb_spec a (a + N.of_nat (S n) * PAGE_SIZE)) as [Heq|_];
        [(unfold PAGE_SIZE in *; lia)|].
      rewrite Hw, Hwpa, Hlast1. split; [exact Hloop|].
      split_and!; try done.
      * congruence.
      * (unfold PAGE_SIZE in *; lia).
      * (unfold PAGE_SIZE in *; lia).
      * intros x Hx. by apply Hdom, Hdom1.
      * intros i va' Hi Hva'. destruct (N.eq_dec i 0) as [->|Hi0].
        -- rewrite N.mul_0_l, !N.add_0_r in *. rewrite Hout.
           ++ rewrite Htr1. rewrite decide_True; [done|]. by rewrite Hva', HPa.
           ++ intros j Hj. rewrite Hva'. (unfold PAGE_SIZE in *; lia).
        -- rewrite (Hin (i - 1) va').
           ++ do 3 f_equal. (unfold PAGE_SIZE in *; lia).
           ++ (unfold PAGE_SIZE in *; lia).
           ++ rewrite Hva'. (unfold PAGE_SIZE in *; lia).
      * intros va' Hne. rewrite Hout.
        -- rewrite Htr1. rewrite decide_False; [done|]. rewrite HPa.
           specialize (Hne 0 ltac:(lia)). by rewrite N.mul_0_l, N.add_0_r in Hne.
        -- intros j Hj. specialize (Hne (j + 1) ltac:(lia)).
           intros Heq. apply Hne. rewrite Heq. (unfold PAGE_SIZE in *; lia).
Qed.

Lemma PGROUNDDOWN_above (va x : N) :
  PageTableManager.PGROUNDDOWN va = va → va ≤ x → x < 2 ^ 32 →
  PageTableManager.PGROUNDDOWN x = va + (x - va) / PAGE_SIZE * PAGE_SIZE.
Proof.
  intros Hva Hle Hx.
  change (PageTableManager.PGROUNDDOWN x) with (PhysicalMemory.page_base x).
  destruct (page_base_aligned va Hva) as [_ Hal].
  rewrite page_base_div by done.
  pose proof (N.div_mod va PAGE_SIZE ltac:(discriminate)) as Hd. rewrite Hal in Hd.
  remember (va / PAGE_SIZE) as q.
  replace x with (q * PAGE_SIZE + (x - va)) at 1 by (clear Heqq Hal Hva; lia).
  rewrite N.div_add_l by discriminate.
  clear Heqq Hal Hva. remember ((x - va) / PAGE_SIZE) as r. lia.
Qed.

Lemma mappages_range_lemma (s : PageTableManager.t) (va size pa perm : N) :
  pt_wf s → PageTableManager.PGROUNDDOWN va = va →
  0 < size → va + size ≤ 2 ^ 32 → pa + size ≤ 2 ^ 32 → perm < 2 ^ 32 →
  PhysicalMemory.next_free_page (PageTableManager.phys_mem s)
    + ((size - 1) / PAGE_SIZE + 1) * PAGE_SIZE < 2 ^ 32 →
  (∀ va', va ≤ va' < va + size → translation s va' = None) →
  ∃ s', PageTableManager.mappages s va size pa perm = Some (0%Z, s') ∧
    pt_wf s' ∧
    PageTableManager.page_directory_phys s' = PageTableManager.page_directory_phys s ∧
    (∀ va', va ≤ va' < va + size →
       translation s' va'
       = Some (N.lor (N.lor (pa + (PageTableManager.PGROUNDDOWN va' - va)) perm)
                 PageTableManager.PTE_PRESENT)) ∧
    (∀ va', va' < 2 ^ 32 →
       va' < va ∨ va + ((size - 1) / PAGE_SIZE + 1) * PAGE_SIZE ≤ va' →
       translation s' va' = translation s va') ∧
    PhysicalMemory.next_free_page (PageTableManager.phys_mem s)
      ≤ PhysicalMemory.next_free_page (PageTableManager.phys_mem s') ∧
    PhysicalMemory.next_free_page (PageTableManager.phys_mem s')
      ≤ PhysicalMemory.next_free_page (PageTableManager.phys_mem s)
        + ((size - 1) / PAGE_SIZE + 1) * PAGE_SIZE ∧
    (∀ x, is_Some (PhysicalMemory.pages (PageTableManager.phys_mem s) !! x) →
          is_Some (PhysicalMemory.pages (PageTableManager.phys_mem s') !! x)).
Proof.
  intros Hwf Hva Hsize Hend Hpa Hperm Hroom Hun.
  remember ((size - 1) / PAGE_SIZE) as n eqn:Hn.
  assert (Hnb : n * PAGE_SIZE ≤ size - 1 ∧ size - 1 < (n + 1) * PAGE_SIZE).
  { pose proof (N.div_mod (size - 1) PAGE_SIZE ltac:(discriminate)) as Hd.
    pose proof (N.mod_lt (size - 1) PAGE_SIZE ltac:(discriminate)) as Hm.
    rewrite <- Hn in Hd. remember ((size - 1) mod PAGE_SIZE) as r.
    clear Heqr Hn. unfold PAGE_SIZE in *. lia. }
  assert (Hlast : PageTableManager.PGROUNDDOWN (wrap32 (va + size + 4294967295))
                  = va + n * PAGE_SIZE).
  { assert (wrap32 (va + size + 4294967295) = va + size - 1) as ->.
    { unfold wrap32. replace (va + size + 4294967295) with (va + size - 1 + 1 * 2 ^ 32)
        by (change (2 ^ 32) with 4294967296; lia).
      rewrite N.Div0.mod_add. apply N.mod_small. lia. }
    rewrite (PGROUNDDOWN_above va) by (try done; lia).
    replace (va + size - 1 - va) with (size - 1) by lia. by rewrite <- Hn. }
  assert (Hfuel : N.to_nat (wrap32 (va + n * PAGE_SIZE + 4294967296 - va) / PAGE_SIZE)
                  = N.to_nat n).
  { f_equal. unfold wrap32.
    replace (va + n * PAGE_SIZE + 4294967296 - va) with (n * PAGE_SIZE + 1 * 2 ^ 32)
      by (change (2 ^ 32) with 4294967296; lia).
    rewrite N.Div0.mod_add, N.mod_small by (clear Hn; unfold PAGE_SIZE in *; lia).
    by rewrite N.div_mul. }
  assert (Hpages : ∀ va', va ≤ va' → va' < 2 ^ 32 →
            PageTableManager.PGROUNDDOWN va' = va + (va' - va) / PAGE_SIZE * PAGE_SIZE)
    by (intros; by apply PGROUNDDOWN_above).
  destruct (mappages_loop_spec (N.to_nat n) s va pa perm) as
    (s' & Hloop & Hwf' & Hpd' & Hnlo & Hnhi & Hdom & _ & Hin & Hout); try done.
  - rewrite N2Nat.id. clear Hn. unfold PAGE_SIZE in *. lia.
  - rewrite N2Nat.id. clear Hn. unfold PAGE_SIZE in *. lia.
  - by rewrite N2Nat.id.
  - rewrite N2Nat.id. intros i Hi. apply Hun. clear Hn. unfold PAGE_SIZE in *. lia.
  - rewrite N2Nat.id in *. exists s'.
    split; [|split; [done|split; [done|split; [|split; [|by split_and!]]]]].
    + unfold PageTableManager.mappages. cbv zeta. by rewrite Hlast, Hva, Hfuel.
    + intros va' [Hlo Hhi]. assert (Hva' : va' < 2 ^ 32) by lia.
      specialize (Hpages va' Hlo Hva').
      assert (Hq : (va' - va) / PAGE_SIZE ≤ n).
      { apply N.lt_succ_r. apply N.Div0.div_lt_upper_bound.
        clear Hn Hpages. unfold PAGE_SIZE in *. lia. }
      rewrite (Hin ((va' - va) / PAGE_SIZE) va') by done.
      do 3 f_equal. rewrite Hpages. remember ((va' - va) / PAGE_SIZE) as q. lia.
    + intros va' Hva' Hcase. apply Hout. intros i Hi Heq.
      destruct Hcase as [Hlt|Hge].
      * assert (PageTableManager.PGROUNDDOWN va' ≤ va'); [|lia].
        apply N.land_le_l.
      * specialize (Hpages va' ltac:(clear Hn; unfold PAGE_SIZE in *; lia) Hva').
        rewrite Hpages in Heq.
        assert (Hq : n + 1 ≤ (va' - va) / PAGE_SIZE).
        { apply N.div_le_lower_bound; [discriminate|].
          clear Hn Hpages Heq. unfold PAGE_SIZE in *. lia. }
        remember ((va' - va) / PAGE_SIZE) as q. clear Heqq Hn.
        unfold PAGE_SIZE in *. lia.
Qed.

Lemma init_pt_wf : pt_wf PageTableManager.init.
Proof.
  unfold pt_wf. cbv zeta.
  assert (Hpm : PageTableManager.phys_mem PageTableManager.init = one_page_memory)
    by reflexivity.
  assert (Hpd : PageTableManager.page_directory_phys PageTableManager.init = 1048576)
    by reflexivity.
  rewrite Hpm, Hpd. split_and!.
  - apply one_page_memory_wf.
  - by eexists.
  - reflexivity.
  - intros a [pg Ha]. unfold one_page_memory, PhysicalMemory.kalloc in *.
    cbn [snd PhysicalMemory.pages PhysicalMemory.next_free_page] in *.
    apply lookup_insert_Some in Ha as [[<- _]|[_ Ha]]; [reflexivity|done].
  - intros d Hd Hp. exfalso. unfold pde_at in Hp. rewrite Hpm, Hpd in Hp.
    unfold one_page_memory in Hp.
    rewrite (read_cell_kalloc PhysicalMemory.init 1048576 d) in Hp by done.
    by rewrite decide_True in Hp.
Qed.

Lemma init_unmapped (va : N) : translation PageTableManager.init va = None.
Proof.
  rewrite translation_cells by reflexivity.
  assert (Hp : pde_at PageTableManager.init (PageTableManager.PDX va) = 0).
  { unfold pde_at.
    change (PageTableManager.phys_mem PageTableManager.init)
      with (PhysicalMemory.kalloc PhysicalMemory.init).2.
    change (PageTableManager.page_directory_phys PageTableManager.init) with 1048576.
    rewrite (read_cell_kalloc PhysicalMemory.init 1048576) by (try done; apply PDX_lt).
    by rewrite decide_True. }
  by rewrite Hp.
Qed.

(** [mappages] on a page-aligned range none of whose pages has a
    translation: the call succeeds (status 0), and afterwards every
    address of the range translates through the entry
    [pa + offset of its page | perm | PTE_PRESENT], while addresses below
    the range or above its last page translate as before.  The page tables
    stay well formed. *)
Theorem mappages_maps_range (s : PageTableManager.t) (va size pa perm : N) :
  pt_wf s → PageTableManager.PGROUNDDOWN va = va →
  0 < size → va + size ≤ 2 ^ 32 → pa + size ≤ 2 ^ 32 → perm < 2 ^ 32 →
  PhysicalMemory.next_free_page (PageTableManager.phys_mem s)
    + ((size - 1) / PAGE_SIZE + 1) * PAGE_SIZE < 2 ^ 32 →
  (∀ va', va ≤ va' < va + size → translation s va' = None) →
  ∃ s', PageTableManager.mappages s va size pa perm = Some (0%Z, s') ∧
    pt_wf s' ∧
    PageTableManager.page_directory_phys s' = PageTableManager.page_directory_phys s ∧
    (∀ va', va ≤ va' < va + size →
       translation s' va'
       = Some (N.lor (N.lor (pa + (PageTableManager.PGROUNDDOWN va' - va)) perm)
                 PageTableManager.PTE_PRESENT)) ∧
    (∀ va', va' < 2 ^ 32 →
       va' < va ∨ va + ((size - 1) / PAGE_SIZE + 1) * PAGE_SIZE ≤ va' →
       translation s' va' = translation s va').
Proof.
  intros Hwf Hva Hsize Hend Hpa Hperm Hroom Hun.
  destruct (mappages_range_lemma s va size pa perm Hwf Hva Hsize Hend Hpa Hperm Hroom Hun)
    as (s' & Hmap & Hwf' & Hpd & Hin & Hout & _).
  by exists s'.
Qed.

Lemma mappages_maps_range_witness :
  ∃ s', PageTableManager.mappages PageTableManager.init 4096 8192 20480 6 = Some (0%Z, s') ∧
    translation s' 8192
    = Some (N.lor (N.lor (20480 + (PageTableManager.PGROUNDDOWN 8192 - 4096)) 6)
              PageTableManager.PTE_PRESENT).
Proof.
  assert (Hroom : PhysicalMemory.next_free_page
                    (PageTableManager.phys_mem PageTableManager.init)
                  + ((8192 - 1) / PAGE_SIZE + 1) * PAGE_SIZE < 2 ^ 32) by reflexivity.
  destruct (mappages_maps_range PageTableManager.init 4096 8192 20480 6 init_pt_wf
              eq_refl eq_refl) as (s' & Hmap & _ & _ & Hin & _).
  - vm_compute. discriminate.
  - vm_compute. discriminate.
  - reflexivity.
  - exact Hroom.
  - intros va' _. apply init_unmapped.
  - exists s'. split; [exact Hmap|]. apply Hin. split; [vm_compute; discriminate|reflexivity].
Defined.

(** ** [allocuvm] *)

Lemma translation_page (s : PageTableManager.t) (x y : N) :
  PageTableManager.PGROUNDDOWN x = PageTableManager.PGROUNDDOWN y →
  translation s x = translation s y.
Proof.
  intros H. apply same_page in H as [Hd Ht].
  unfold translation, PageTableManager.lookup_pte. by rewrite Hd, Ht.
Qed.

(** Allocating a page changes no translation. *)
Lemma kalloc_pt_wf (s : PageTableManager.t) :
  pt_wf s →
  PhysicalMemory.next_free_page (PageTableManager.phys_mem s) + PAGE_SIZE < 2 ^ 32 →
  pt_wf (PageTableManager.mk (PhysicalMemory.kalloc (PageTableManager.phys_mem s)).2
           (PageTableManager.page_directory_phys s)) ∧
  ∀ va, translation (PageTableManager.mk
                       (PhysicalMemory.kalloc (PageTableManager.phys_mem s)).2
                       (PageTableManager.page_directory_phys s)) va
        = translation s va.
Proof.
  intros Hwf Hroom. pose proof (pd_aligned s Hwf) as Hpd.
  destruct Hwf as (Hpm & Hpdin & Hal & Hfresh & Htab).
  set (pm := PageTableManager.phys_mem s) in *.
  set (pd := PageTableManager.page_directory_phys s) in *.
  set (T := PhysicalMemory.next_free_page pm) in *.
  set (s1 := PageTableManager.mk (PhysicalMemory.kalloc pm).2 pd).
  assert (HTpd : pd ≠ T) by (specialize (Hfresh pd Hpdin); lia).
  assert (Hdom : ∀ x, is_Some (PhysicalMemory.pages (PhysicalMemory.kalloc pm).2 !! x)
                      ↔ is_Some (PhysicalMemory.pages pm !! x) ∨ x = T).
  { intros x. unfold PhysicalMemory.kalloc. cbn [snd PhysicalMemory.pages]. fold T.
    destruct (decide (x = T)) as [->|Hne].
    - rewrite lookup_insert_eq. split; [by right|by eexists].
    - rewrite lookup_insert_ne by done. split; [by left|]. by intros [?|?]. }
  assert (Hpde : ∀ d, d < 1024 → pde_at s1 d = pde_at s d).
  { intros d Hd. unfold pde_at, s1.
    cbn [PageTableManager.phys_mem PageTableManager.page_directory_phys]. fold pm pd.
    rewrite read_cell_kalloc by done. by rewrite decide_False. }
  assert (Hold : ∀ d, d < 1024 → is_present (pde_at s d) = true →
            PageTableManager.PTE_ADDR (pde_at s d) ≠ T).
  { intros d Hd Hp. destruct (Htab d Hd Hp) as (Hin & _ & _).
    specialize (Hfresh _ Hin). fold T in Hfresh. lia. }
  split.
  - unfold pt_wf. cbv zeta. unfold s1 at 1 2 3 4 5 6.
    cbn [PageTableManager.phys_mem PageTableManager.page_directory_phys].
    split_and!.
    + by apply kalloc_wf.
    + apply Hdom. by left.
    + unfold PhysicalMemory.kalloc. cbn [snd PhysicalMemory.next_free_page]. fold T.
      destruct (aligned_next_page T Hal Hroom) as [Hw Hp']. by rewrite Hw.
    + intros x Hx. unfold s1. cbn [PageTableManager.phys_mem].
      unfold PhysicalMemory.kalloc. cbn [snd PhysicalMemory.next_free_page].
      fold T. destruct (aligned_next_page T Hal Hroom) as [Hw _]. rewrite Hw.
      apply Hdom in Hx as [Hx| ->]; [|unfold PAGE_SIZE; lia].
      specialize (Hfresh x Hx). fold T in Hfresh. lia.
    + intros d Hd. rewrite Hpde by done. intros Hp.
      destruct (Htab d Hd Hp) as (Hin & Hne & Hinj).
      split_and!; [apply Hdom; by left|done|].
      intros d' Hd' Hne'. rewrite Hpde by done. by apply Hinj.
  - intros va. rewrite !translation_cells by done.
    rewrite Hpde by apply PDX_lt.
    destruct (is_present (pde_at s (PageTableManager.PDX va))) eqn:Hp; [|done].
    unfold s1. cbn [PageTableManager.phys_mem]. fold pm.
    rewrite read_cell_kalloc by (try apply PTE_ADDR_aligned; apply PTX_lt).
    rewrite decide_False; [done|]. apply Hold; [apply PDX_lt|done].
Qed.

Lemma V2P_low (mem : N) :
  PhysicalMemory.page_base mem = mem → mem < PageTableManager.KERNBASE →
  PageTableManager.V2P mem = mem + PageTableManager.KERNBASE ∧
  PageTableManager.PTE_ADDR
    (N.lor (N.lor (PageTableManager.V2P mem)
              (N.lor PageTableManager.PTE_WRITE PageTableManager.PTE_USER))
       PageTableManager.PTE_PRESENT)
  = mem + PageTableManager.KERNBASE.
Proof.
  intros Hal Hlt. unfold PageTableManager.KERNBASE in *.
  assert (Hv : PageTableManager.V2P mem = mem + 2147483648).
  { unfold PageTableManager.V2P, PageTableManager.KERNBASE, wrap32.
    replace (mem + 4294967296 - 2147483648) with (mem + 2147483648) by lia.
    apply N.mod_small. change (2 ^ 32) with 4294967296. lia. }
  split; [done|]. rewrite Hv, <- N.lor_assoc.
  apply PTE_ADDR_flags; [|reflexivity].
  destruct (page_base_aligned mem Hal) as [_ Hm].
  assert (Hlt32 : mem + 2147483648 < 2 ^ 32) by (change (2 ^ 32) with 4294967296; lia).
  rewrite page_base_div by done.
  pose proof (N.div_mod mem PAGE_SIZE ltac:(discriminate)) as Hd. rewrite Hm in Hd.
  remember (mem / PAGE_SIZE) as q.
  replace (mem + 2147483648) with ((q + 524288) * PAGE_SIZE)
    by (clear Heqq Hm Hal; unfold PAGE_SIZE in *; lia).
  by rewrite N.div_mul.
Qed.

Lemma PGROUNDUP_div (sz : N) :
  sz + PAGE_SIZE - 1 < 2 ^ 32 →
  PageTableManager.PGROUNDUP sz = (sz + PAGE_SIZE - 1) / PAGE_SIZE * PAGE_SIZE ∧
  PhysicalMemory.page_base (PageTableManager.PGROUNDUP sz) = PageTableManager.PGROUNDUP sz.
Proof.
  intros H. unfold PageTableManager.PGROUNDUP, wrap32. rewrite N.mod_small by done.
  split.
  - change (N.land (sz + PAGE_SIZE - 1) 4294963200)
      with (PhysicalMemory.page_base (sz + PAGE_SIZE - 1)).
    by apply page_base_div.
  - unfold PhysicalMemory.page_base. by rewrite <- N.land_assoc, N.land_diag.
Qed.

Lemma page_of_range (a va' : N) :
  PhysicalMemory.page_base a = a → a ≤ va' → va' < a + PAGE_SIZE → va' < 2 ^ 32 →
  PageTableManager.PGROUNDDOWN va' = a.
Proof.
  intros Ha Hlo Hhi Hlt. rewrite (PGROUNDDOWN_above a) by done.
  rewrite N.div_small by lia. lia.
Qed.

Lemma allocuvm_loop_spec (k : nat) (fuel : nat) (s : PageTableManager.t) (a newsz : N) :
  (k < fuel)%nat → pt_wf s → PhysicalMemory.page_base a = a →
  newsz ≤ a + N.of_nat k * PAGE_SIZE →
  a + N.of_nat k * PAGE_SIZE < newsz + PAGE_SIZE →
  a + N.of_nat k * PAGE_SIZE < 2 ^ 32 →
  PhysicalMemory.next_free_page (PageTableManager.phys_mem s)
    + 2 * N.of_nat k * PAGE_SIZE ≤ PageTableManager.KERNBASE →
  (∀ va', a ≤ va' < a + N.of_nat k * PAGE_SIZE → translation s va' = None) →
  ∃ s', PageTableManager.allocuvm_loop fuel s a newsz = Some (newsz, s') ∧
    pt_wf s' ∧
    PageTableManager.page_directory_phys s' = PageTableManager.page_directory_phys s ∧
    PhysicalMemory.next_free_page (PageTableManager.phys_mem s)
      ≤ PhysicalMemory.next_free_page (PageTableManager.phys_mem s') ∧
    PhysicalMemory.next_free_page (PageTableManager.phys_mem s')
      ≤ PhysicalMemory.next_free_page (PageTableManager.phys_mem s)
        + 2 * N.of_nat k * PAGE_SIZE ∧
    (∀ x, is_Some (PhysicalMemory.pages (PageTableManager.phys_mem s) !! x) →
          is_Some (PhysicalMemory.pages (PageTableManager.phys_mem s') !! x)) ∧
    (∀ va', a ≤ va' < a + N.of_nat k * PAGE_SIZE →
       ∃ mem, PhysicalMemory.next_free_page (PageTableManager.phys_mem s) ≤ mem ∧
              mem < PhysicalMemory.next_free_page (PageTableManager.phys_mem s') ∧
              PhysicalMemory.page_base mem = mem ∧
              is_Some (PhysicalMemory.pages (PageTableManager.phys_mem s') !! mem) ∧
              translation s' va'
              = Some (N.lor (N.lor (PageTableManager.V2P mem)
                               (N.lor PageTableManager.PTE_WRITE PageTableManager.PTE_USER))
                        PageTableManager.PTE_PRESENT)) ∧
    (∀ va', va' < 2 ^ 32 → va' < a ∨ a + N.of_nat k * PAGE_SIZE ≤ va' →
       translation s' va' = translation s va').
Proof.
  revert fuel s a. induction k as [|k IH];
    intros fuel s a Hfuel Hwf Ha Htop1 Htop2 Htop3 Hroom Hun.
  - destruct fuel as [|fuel]; [lia|]. cbn [PageTableManager.allocuvm_loop].
    destruct (N.ltb_spec a newsz) as [Hlt|_]; [lia|].
    exists s. split_and!; try done; try lia; intros va' Hva'; lia.
  - destruct fuel as [|fuel]; [lia|]. cbn [PageTableManager.allocuvm_loop].
    unfold PageTableManager.KERNBASE in Hroom.
    destruct (N.ltb_spec a newsz) as [_|Hge]; [|unfold PAGE_SIZE in *; lia].
    pose proof Hwf as (Hpm & Hpdin & Hal & Hfresh & Htab).
    set (mem := PhysicalMemory.next_free_page (PageTableManager.phys_mem s)) in *.
    assert (Hmem0 : mem ≠ 0) by (specialize (Hfresh _ Hpdin); lia).
    assert (Hroom1 : mem + PAGE_SIZE < 2 ^ 32).
    { change (2 ^ 32) with 4294967296. unfold PAGE_SIZE in *. lia. }
    destruct (kalloc_pt_wf s Hwf Hroom1) as [Hwfk Htrk].
    set (sk := PageTableManager.mk (PhysicalMemory.kalloc (PageTableManager.phys_mem s)).2
                 (PageTableManager.page_directory_phys s)) in *.
    assert (Hnfpk : PhysicalMemory.next_free_page (PageTableManager.phys_mem sk)
                    = mem + PAGE_SIZE).
    { unfold sk, PhysicalMemory.kalloc.
      cbn [PageTableManager.phys_mem snd PhysicalMemory.next_free_page]. fold mem.
      by apply aligned_next_page. }
    assert (Hmemk : is_Some (PhysicalMemory.pages (PageTableManager.phys_mem sk) !! mem)).
    { unfold sk, PhysicalMemory.kalloc.
      cbn [PageTableManager.phys_mem snd PhysicalMemory.pages]. fold mem.
      rewrite lookup_insert_eq. by eexists. }
    assert (Hdomk : ∀ x, is_Some (PhysicalMemory.pages (PageTableManager.phys_mem s) !! x) →
                         is_Some (PhysicalMemory.pages (PageTableManager.phys_mem sk) !! x)).
    { intros x Hx. unfold sk, PhysicalMemory.kalloc.
      cbn [PageTableManager.phys_mem snd PhysicalMemory.pages]. fold mem.
      destruct (decide (x = mem)) as [->|Hne];
        [rewrite lookup_insert_eq; by eexists|by rewrite lookup_insert_ne]. }
    assert (HmemK : mem < PageTableManager.KERNBASE).
    { unfold PageTableManager.KERNBASE, PAGE_SIZE in *. lia. }
    destruct (V2P_low mem Hal HmemK) as [Hv2p Hpteaddr].
    destruct (mappages_range_lemma sk a PAGE_SIZE (PageTableManager.V2P mem)
                (N.lor PageTableManager.PTE_WRITE PageTableManager.PTE_USER))
      as (s1 & Hmap & Hwf1 & Hpd1 & Hin1 & Hout1 & Hlo1 & Hhi1 & Hdom1); try done.
    + unfold PAGE_SIZE in *. change (2 ^ 32) with 4294967296 in *. lia.
    + rewrite Hv2p. unfold PageTableManager.KERNBASE, PAGE_SIZE in *.
      change (2 ^ 32) with 4294967296. lia.
    + rewrite Hnfpk. change ((PAGE_SIZE - 1) / PAGE_SIZE) with 0.
      unfold PAGE_SIZE in *. change (2 ^ 32) with 4294967296. lia.
    + intros va' Hva'. rewrite Htrk. apply Hun. unfold PAGE_SIZE in *. lia.
    + change ((PAGE_SIZE - 1) / PAGE_SIZE) with 0 in *. rewrite N.add_0_l, N.mul_1_l in *.
      rewrite Hnfpk in *.
      assert (Hnext : a + PAGE_SIZE < 2 ^ 32) by (unfold PAGE_SIZE in *; lia).
      destruct (aligned_next_page a Ha Hnext) as [Hw Ha1].
      destruct (IH fuel s1 (a + PAGE_SIZE)) as
        (s' & Hloop & Hwf' & Hpd' & Hlo & Hhi & Hdom & Hin & Hout); try done.
      * lia.
      * unfold PAGE_SIZE in *. lia.
      * unfold PAGE_SIZE in *. lia.
      * unfold PAGE_SIZE in *. lia.
      * unfold PageTableManager.KERNBASE, PAGE_SIZE in *. lia.
      * intros va' Hva'. rewrite Hout1, Htrk.
        -- apply Hun. unfold PAGE_SIZE in *. lia.
        -- unfold PAGE_SIZE in *. lia.
        -- right. lia.
      * exists s'.
        assert (Hk : PhysicalMemory.kalloc (PageTableManager.phys_mem s)
                     = (mem, (PhysicalMemory.kalloc (PageTableManager.phys_mem s)).2))
          by reflexivity.
        rewrite Hk. cbv beta iota zeta.
        destruct (N.eqb_spec mem 0) as [|_]; [done|].
        fold sk. rewrite Hmap. cbn [mbind option_bind].
        cbv beta iota zeta. change (0 <? 0)%Z with false. cbv iota.
        rewrite Hw. split; [exact Hloop|].
        split; [exact Hwf'|].
        split; [by rewrite Hpd', Hpd1|].
        split; [lia|].
        split; [unfold PAGE_SIZE in *; lia|].
        split; [intros x Hx; by apply Hdom, Hdom1, Hdomk|].
        split.
        -- intros va' Hva'.
           destruct (N.lt_ge_cases va' (a + PAGE_SIZE)) as [Hfirst|Hlater].
           ++ exists mem.
              split; [lia|]. split; [unfold PAGE_SIZE in *; lia|].
              split; [exact Hal|]. split; [by apply Hdom, Hdom1|].
              rewrite Hout; [|unfold PAGE_SIZE in *; lia|left; lia].
              rewrite Hin1 by lia.
              rewrite (page_of_range a va'); [|done|lia|lia|unfold PAGE_SIZE in *; lia].
              by rewrite N.sub_diag, N.add_0_r.
           ++ destruct (Hin va') as (mem' & H1 & H2 & H3 & H4 & H5);
                [unfold PAGE_SIZE in *; lia|].
              exists mem'.
              split; [unfold PAGE_SIZE in *; lia|]. by split_and!.
        -- intros va' Hva' Hcase. rewrite Hout, Hout1, Htrk; try done.
           ++ destruct Hcase; [by left|right; unfold PAGE_SIZE in *; lia].
           ++ destruct Hcase; [left|right]; unfold PAGE_SIZE in *; lia.
Qed.

Lemma round_up_bounds (sz : N) :
  sz ≤ (sz + PAGE_SIZE - 1) / PAGE_SIZE * PAGE_SIZE ∧
  (sz + PAGE_SIZE - 1) / PAGE_SIZE * PAGE_SIZE < sz + PAGE_SIZE ∧
  (sz + PAGE_SIZE - 1) / PAGE_SIZE ≤ sz / PAGE_SIZE + 1.
Proof.
  pose proof (N.div_mod (sz + PAGE_SIZE - 1) PAGE_SIZE ltac:(discriminate)) as Hd.
  pose proof (N.mod_lt (sz + PAGE_SIZE - 1) PAGE_SIZE ltac:(discriminate)) as Hm.
  pose proof (N.div_mod sz PAGE_SIZE ltac:(discriminate)) as Hd'.
  pose proof (N.mod_lt sz PAGE_SIZE ltac:(discriminate)) as Hm'.
  remember ((sz + PAGE_SIZE - 1) / PAGE_SIZE) as q.
  remember ((sz + PAGE_SIZE - 1) mod PAGE_SIZE) as r.
  remember (sz / PAGE_SIZE) as q'. remember (sz mod PAGE_SIZE) as r'.
  clear Heqq Heqr Heqq' Heqr'. unfold PAGE_SIZE in *. lia.
Qed.

Lemma allocuvm_lemma (s : PageTableManager.t) (oldsz newsz : N) :
  pt_wf s → oldsz ≤ newsz → newsz + PAGE_SIZE ≤ 2 ^ 32 →
  PhysicalMemory.next_free_page (PageTableManager.phys_mem s)
    + 2 * (newsz / PAGE_SIZE + 1) * PAGE_SIZE ≤ PageTableManager.KERNBASE →
  (∀ va', PageTableManager.PGROUNDUP oldsz ≤ va' < PageTableManager.PGROUNDUP newsz →
          translation s va' = None) →
  ∃ s', PageTableManager.allocuvm s oldsz newsz = Some (newsz, s') ∧
    pt_wf s' ∧
    PageTableManager.page_directory_phys s' = PageTableManager.page_directory_phys s ∧
    PhysicalMemory.next_free_page (PageTableManager.phys_mem s')
      ≤ PageTableManager.KERNBASE ∧
    (∀ x, is_Some (PhysicalMemory.pages (PageTableManager.phys_mem s) !! x) →
          is_Some (PhysicalMemory.pages (PageTableManager.phys_mem s') !! x)) ∧
    (∀ va', PageTableManager.PGROUNDUP oldsz ≤ va' < PageTableManager.PGROUNDUP newsz →
       ∃ mem, PhysicalMemory.next_free_page (PageTableManager.phys_mem s) ≤ mem ∧
              mem < PhysicalMemory.next_free_page (PageTableManager.phys_mem s') ∧
              PhysicalMemory.page_base mem = mem ∧
              is_Some (PhysicalMemory.pages (PageTableManager.phys_mem s') !! mem) ∧
              translation s' va'
              = Some (N.lor (N.lor (PageTableManager.V2P mem)
                               (N.lor PageTableManager.PTE_WRITE PageTableManager.PTE_USER))
                        PageTableManager.PTE_PRESENT)) ∧
    (∀ va', va' < 2 ^ 32 →
       va' < PageTableManager.PGROUNDUP oldsz ∨ PageTableManager.PGROUNDUP newsz ≤ va' →
       translation s' va' = translation s va').
Proof.
  intros Hwf Hle Htop Hroom Hun. unfold PageTableManager.allocuvm.
  destruct (N.ltb_spec newsz oldsz) as [|_]; [lia|].
  assert (Ho32 : oldsz + PAGE_SIZE - 1 < 2 ^ 32) by (unfold PAGE_SIZE in *; lia).
  assert (Hn32 : newsz + PAGE_SIZE - 1 < 2 ^ 32) by (unfold PAGE_SIZE in *; lia).
  destruct (PGROUNDUP_div oldsz Ho32) as [Hao Halo].
  destruct (PGROUNDUP_div newsz Hn32) as [Han _].
  destruct (round_up_bounds oldsz) as (Ho1 & Ho2 & _).
  destruct (round_up_bounds newsz) as (Hn1 & Hn2 & Hn3).
  assert (Hq : (oldsz + PAGE_SIZE - 1) / PAGE_SIZE ≤ (newsz + PAGE_SIZE - 1) / PAGE_SIZE).
  { apply N.Div0.div_le_mono. lia. }
  rewrite Han in *. rewrite Hao in Hun |- *.
  remember ((oldsz + PAGE_SIZE - 1) / PAGE_SIZE) as qo eqn:Eqo.
  remember ((newsz + PAGE_SIZE - 1) / PAGE_SIZE) as qn eqn:Eqn.
  remember (newsz / PAGE_SIZE) as q eqn:Eq.
  assert (Hk : qo * PAGE_SIZE + N.of_nat (N.to_nat (qn - qo)) * PAGE_SIZE = qn * PAGE_SIZE).
  { rewrite N2Nat.id. unfold PAGE_SIZE. lia. }
  destruct (allocuvm_loop_spec (N.to_nat (qn - qo)) (S (S (N.to_nat q))) s
              (qo * PAGE_SIZE) newsz) as
    (s' & Hloop & Hwf' & Hpd' & Hlo & Hhi & Hdom & Hin & Hout); try done.
  - clear -Hn3 Hq. lia.
  - by rewrite <- Hao.
  - rewrite Hk. lia.
  - rewrite Hk. lia.
  - rewrite Hk. unfold PAGE_SIZE in *. lia.
  - rewrite N2Nat.id. clear -Hroom Hn3 Hq. unfold PAGE_SIZE in *. lia.
  - intros va' Hva'. apply Hun. rewrite Hk in Hva'. lia.
  - rewrite Hk in *. rewrite N2Nat.id in Hhi. exists s'.
    split; [exact Hloop|]. split; [exact Hwf'|]. split; [exact Hpd'|].
    split; [clear -Hroom Hn3 Hq Hhi; unfold PAGE_SIZE in *; lia|].
    by split_and!.
Qed.

(** From well-formed page tables, [allocuvm (oldsz, newsz)] with
    [oldsz <= newsz], room for the pages below [KERNBASE] and no page of
    the new range mapped returns [newsz]: every address of the pages from
    [PGROUNDUP (oldsz)] up to [PGROUNDUP (newsz)] then translates through
    an entry [V2P (mem) | PTE_WRITE | PTE_USER | PTE_PRESENT] for a page
    [mem] that the call allocated, other addresses translate as before,
    and the page tables stay well formed.  The frame of that entry is
    [mem + KERNBASE], which is not a page of the physical memory. *)
Theorem allocuvm_maps_fresh_pages (s : PageTableManager.t) (oldsz newsz : N) :
  pt_wf s → oldsz ≤ newsz → newsz + PAGE_SIZE ≤ 2 ^ 32 →
  PhysicalMemory.next_free_page (PageTableManager.phys_mem s)
    + 2 * (newsz / PAGE_SIZE + 1) * PAGE_SIZE ≤ PageTableManager.KERNBASE →
  (∀ va', PageTableManager.PGROUNDUP oldsz ≤ va' < PageTableManager.PGROUNDUP newsz →
          translation s va' = None) →
  ∃ s', PageTableManager.allocuvm s oldsz newsz = Some (newsz, s') ∧
    pt_wf s' ∧
    (∀ va', PageTableManager.PGROUNDUP oldsz ≤ va' < PageTableManager.PGROUNDUP newsz →
       ∃ mem pte,
         translation s' va' = Some pte ∧
         pte = N.lor (N.lor (PageTableManager.V2P mem)
                        (N.lor PageTableManager.PTE_WRITE PageTableManager.PTE_USER))
                 PageTableManager.PTE_PRESENT ∧
         PhysicalMemory.pages (PageTableManager.phys_mem s) !! mem = None ∧
         is_Some (PhysicalMemory.pages (PageTableManager.phys_mem s') !! mem) ∧
         PageTableManager.PTE_ADDR pte = mem + PageTableManager.KERNBASE ∧
         PhysicalMemory.pages (PageTableManager.phys_mem s') !! PageTableManager.PTE_ADDR pte
         = None) ∧
    (∀ va', va' < 2 ^ 32 →
       va' < PageTableManager.PGROUNDUP oldsz ∨ PageTableManager.PGROUNDUP newsz ≤ va' →
       translation s' va' = translation s va').
Proof.
  intros Hwf Hle Htop Hroom Hun.
  destruct (allocuvm_lemma s oldsz newsz Hwf Hle Htop Hroom Hun)
    as (s' & Hret & Hwf' & Hpd & Hcur & Hdom & Hin & Hout).
  exists s'. split; [exact Hret|]. split; [exact Hwf'|]. split; [|exact Hout].
  intros va' Hva'. destruct (Hin va' Hva') as (mem & Hlo & Hhi & Hal & Hmem & Htr).
  destruct (V2P_low mem Hal ltac:(lia)) as [_ Haddr].
  exists mem, (N.lor (N.lor (PageTableManager.V2P mem)
                        (N.lor PageTableManager.PTE_WRITE PageTableManager.PTE_USER))
                 PageTableManager.PTE_PRESENT).
  split; [exact Htr|]. split; [reflexivity|].
  split.
  { destruct (PhysicalMemory.pages (PageTableManager.phys_mem s) !! mem) eqn:E; [|done].
    destruct Hwf as (_ & _ & _ & Hfresh & _).
    specialize (Hfresh mem ltac:(by eexists)). lia. }
  split; [exact Hmem|]. split; [exact Haddr|].
  rewrite Haddr.
  destruct (PhysicalMemory.pages (PageTableManager.phys_mem s') !! (mem + _)) eqn:E; [|done].
  destruct Hwf' as (_ & _ & _ & Hfresh & _).
  specialize (Hfresh _ ltac:(by eexists)). lia.
Qed.

Lemma allocuvm_maps_fresh_pages_witness :
  ∃ s', PageTableManager.allocuvm PageTableManager.init 0 8192 = Some (8192, s') ∧
    ∃ mem, translation s' 4100
           = Some (N.lor (N.lor (PageTableManager.V2P mem)
                            (N.lor PageTableManager.PTE_WRITE PageTableManager.PTE_USER))
                     PageTableManager.PTE_PRESENT) ∧
           PhysicalMemory.pages (PageTableManager.phys_mem s') !! (mem + PageTableManager.KERNBASE)
           = None.
Proof.
  destruct (allocuvm_maps_fresh_pages PageTableManager.init 0 8192 init_pt_wf)
    as (s' & Hret & _ & Hin & _).
  - vm_compute. discriminate.
  - vm_compute. discriminate.
  - vm_compute. discriminate.
  - intros va' _. apply init_unmapped.
  - exists s'. split; [exact Hret|].
    destruct (Hin 4100) as (mem & pte & Htr & Hpte & _ & _ & Haddr & Hnone).
    + split; [vm_compute; discriminate|reflexivity].
    + exists mem. split; [by rewrite Htr, Hpte|]. by rewrite <- Haddr.
Defined.

Lemma write_block_loop_unallocated (data : list N) (pm : PhysicalMemory.t) (p i : N) :
  PhysicalMemory.page_base p = p → i + N.of_nat (length data) ≤ PAGE_SIZE →
  PhysicalMemory.pages pm !! p = None →
  PhysicalMemory.write_block_loop pm p i data = pm.
Proof.
  revert i. induction data as [|b data IH]; intros i Hp Hlen Hnone; [done|].
  cbn [PhysicalMemory.write_block_loop length] in *.
  assert (Hi : i < PAGE_SIZE) by lia.
  destruct (page_split p i Hp Hi) as (Hw & _ & _).
  rewrite Hw, write_byte_at, Hnone by done. apply IH; [done|lia|done].
Qed.

Lemma write_block_loop_allocated (data : list N) (pm : PhysicalMemory.t) (p : N)
    (i : nat) (pg : list N) :
  PhysicalMemory.page_base p = p →
  PhysicalMemory.pages pm !! p = Some pg → length pg = N.to_nat PAGE_SIZE →
  (i + length data ≤ N.to_nat PAGE_SIZE)%nat →
  PhysicalMemory.write_block_loop pm p (N.of_nat i) data
  = PhysicalMemory.mk
      (<[p := take i pg ++ data ++ drop (i + length data) pg]> (PhysicalMemory.pages pm))
      (PhysicalMemory.next_free_page pm).
Proof.
  revert pm i pg. induction data as [|b data IH]; intros pm i pg Hp Hpg Hlen Hi.
  - cbn [PhysicalMemory.write_block_loop length app].
    rewrite Nat.add_0_r, take_drop, insert_id by done. by destruct pm.
  - cbn [PhysicalMemory.write_block_loop length] in *.
    assert (Hi' : N.of_nat i < PAGE_SIZE) by lia.
    destruct (page_split p (N.of_nat i) Hp Hi') as (Hw & _ & _).
    rewrite Hw, write_byte_at, Hpg by done. rewrite Nat2N.id.
    replace (N.of_nat i + 1) with (N.of_nat (S i)) by lia.
    rewrite (IH _ (S i) (<[i := b]> pg)); try done.
    + cbn [PhysicalMemory.pages PhysicalMemory.next_free_page].
      rewrite insert_insert_eq. f_equal. f_equal.
      assert (Hlt : (i < length pg)%nat) by lia.
      rewrite (take_S_r _ _ b) by (by rewrite list_lookup_insert_eq).
      rewrite take_insert_ge by done. rewrite drop_insert_lt by lia.
      rewrite <- app_assoc. cbn [app length]. by rewrite Nat.add_succ_r.
    + cbn [PhysicalMemory.pages]. by rewrite lookup_insert_eq.
    + by rewrite length_insert.
    + lia.
Qed.

Lemma read_block_page (pm : PhysicalMemory.t) (p : N) (pg : list N) (n : nat) :
  PhysicalMemory.page_base p = p →
  PhysicalMemory.pages pm !! p = Some pg → length pg = N.to_nat PAGE_SIZE →
  (n ≤ N.to_nat PAGE_SIZE)%nat →
  PhysicalMemory.read_block pm p n = take n pg.
Proof.
  intros Hp Hpg Hlen Hn. unfold PhysicalMemory.read_block.
  change (take n pg) with (take n (drop 0 pg)).
  assert (H0 : (0 + n ≤ N.to_nat PAGE_SIZE)%nat) by lia. revert H0.
  generalize 0%nat as a. induction n as [|n IH]; intros a Ha; [done|].
  cbn [seq map].
  assert (Ha' : N.of_nat a < PAGE_SIZE) by lia.
  destruct (page_split p (N.of_nat a) Hp Ha') as (Hw & _ & _).
  rewrite Hw, read_byte_at, Hpg by done. rewrite Nat2N.id.
  destruct (lookup_lt_is_Some_2 pg a ltac:(lia)) as [x Hx].
  rewrite Hx. cbn [default]. rewrite (drop_S _ x) by done. cbn [take].
  f_equal. apply IH; lia.
Qed.

Lemma write_block_allocated (pm : PhysicalMemory.t) (p : N) (pg data : list N) :
  PhysicalMemory.page_base p = p →
  PhysicalMemory.pages pm !! p = Some pg → length pg = N.to_nat PAGE_SIZE →
  (length data ≤ N.to_nat PAGE_SIZE)%nat →
  PhysicalMemory.write_block pm p data
  = PhysicalMemory.mk (<[p := data ++ drop (length data) pg]> (PhysicalMemory.pages pm))
      (PhysicalMemory.next_free_page pm) ∧
  PhysicalMemory.read_block (PhysicalMemory.write_block pm p data) p (length data) = data.
Proof.
  intros Hp Hpg Hpglen Hlen. unfold PhysicalMemory.write_block.
  change 0 with (N.of_nat 0).
  rewrite (write_block_loop_allocated data pm p 0 pg) by done.
  cbn [take app Nat.add]. split; [done|].
  assert (Hnew : length (data ++ drop (length data) pg) = N.to_nat PAGE_SIZE).
  { rewrite length_app, length_drop. lia. }
  erewrite read_block_page; [|done| |exact Hnew|done].
  - by rewrite take_app_length.
  - cbn [PhysicalMemory.pages]. apply lookup_insert_eq.
Qed.

(** A block of at most a page written to the start of an allocated page
    is what [read_block] returns from there; the write changes nothing
    but the first bytes of that page.  Written to a page address that was
    never allocated, the block is dropped and the memory is unchanged. *)
Theorem write_block_then_read_block (pm : PhysicalMemory.t) (p : N) (data : list N) :
  pm_wf pm → PhysicalMemory.page_base p = p →
  (length data ≤ N.to_nat PAGE_SIZE)%nat →
  match PhysicalMemory.pages pm !! p with
  | Some pg =>
      PhysicalMemory.read_block (PhysicalMemory.write_block pm p data) p (length data) = data ∧
      PhysicalMemory.pages (PhysicalMemory.write_block pm p data)
      = <[p := data ++ drop (length data) pg]> (PhysicalMemory.pages pm) ∧
      pm_wf (PhysicalMemory.write_block pm p data)
  | None => PhysicalMemory.write_block pm p data = pm
  end.
Proof.
  intros Hwf Hp Hlen.
  destruct (PhysicalMemory.pages pm !! p) as [pg|] eqn:Hpg.
  - destruct (Hwf p pg Hpg) as [Hpglen _].
    destruct (write_block_allocated pm p pg data Hp Hpg Hpglen Hlen) as [Hw Hr].
    split; [exact Hr|]. rewrite Hw. split; [done|].
    intros a pg' Ha. cbn [PhysicalMemory.pages] in Ha.
    apply lookup_insert_Some in Ha as [[<- <-]|[_ Ha]]; [|by apply Hwf].
    split; [|done]. rewrite length_app, length_drop. lia.
  - apply write_block_loop_unallocated; [done|lia|done].
Qed.

Lemma write_block_then_read_block_witness :
  PhysicalMemory.read_block
    (PhysicalMemory.write_block one_page_memory 1048576 [72; 105]) 1048576 2 = [72; 105].
Proof.
  pose proof (write_block_then_read_block one_page_memory 1048576 [72; 105]
                one_page_memory_wf eq_refl) as H.
  assert (Hpg : PhysicalMemory.pages one_page_memory !! 1048576
                = Some (replicate (N.to_nat PAGE_SIZE) 0)) by apply lookup_insert_eq.
  rewrite Hpg in H. apply H. unfold PAGE_SIZE. cbn [length]. lia.
Defined.

Lemma write_block_unallocated (pm : PhysicalMemory.t) (p : N) (data : list N) :
  PhysicalMemory.page_base p = p → (length data ≤ N.to_nat PAGE_SIZE)%nat →
  PhysicalMemory.pages pm !! p = None →
  PhysicalMemory.write_block pm p data = pm.
Proof.
  intros Hp Hlen Hnone. apply write_block_loop_unallocated; [done|lia|done].
Qed.

Lemma loaduvm_body_translation (s : PageTableManager.t) (disk : FileDisk.t)
    (filename : string) (buffer : list N) (va offset sz i : N) :
  PageTableManager.loaduvm_body s disk filename buffer va offset sz i
  = match translation s (wrap32 (va + i)) with
    | None => Some (inl (-1)%Z)
    | Some pte =>
        let n := if sz - i <? PAGE_SIZE then sz - i else PAGE_SIZE in
        '(r, buffer') ← FileDisk.read_file disk filename buffer (wrap32 (offset + i)) n;
        if negb (r =? FileDisk.to_int n)%Z then Some (inl (-1)%Z)
        else Some (inr (PageTableManager.mk
                          (PhysicalMemory.write_block (PageTableManager.phys_mem s)
                             (PageTableManager.PTE_ADDR pte) (take (N.to_nat n) buffer'))
                          (PageTableManager.page_directory_phys s),
                        buffer'))
    end.
Proof.
  unfold PageTableManager.loaduvm_body, translation, PageTableManager.lookup_pte, is_present.
  cbv zeta.
  destruct (N.land (PhysicalMemory.read_uint32 _ (wrap32 (PageTableManager.page_directory_phys s + _))) _ =? 0);
    [done|].
  by destruct (N.land (PhysicalMemory.read_uint32 _ _) _ =? 0).
Qed.

Lemma to_int_small (n : N) : n ≤ PAGE_SIZE → (0 ≤ FileDisk.to_int n)%Z.
Proof.
  intros Hn. unfold FileDisk.to_int.
  destruct (N.ltb_spec n (2 ^ 31)) as [_|Hge]; [lia|].
  change (2 ^ 31) with 2147483648 in Hge. unfold PAGE_SIZE in Hn. lia.
Qed.

Lemma read_file_in_range (disk : FileDisk.t) (filename : string) (file buffer : list N)
    (offset size : N) :
  disk !! filename = Some file → offset + size ≤ N.of_nat (length file) →
  FileDisk.read_file disk filename buffer offset size
  = Some (FileDisk.to_int size,
          take (N.to_nat size) (drop (N.to_nat offset) file) ++ drop (N.to_nat size) buffer).
Proof.
  intros Hf Hle. unfold FileDisk.read_file. rewrite Hf.
  pose proof (N.Div0.mod_le (offset + size) (2 ^ 32)) as Hw. fold (wrap32 (offset + size)) in Hw.
  destruct (N.ltb_spec (N.of_nat (length file)) (wrap32 (offset + size))) as [|_]; [lia|].
  by destruct (N.leb_spec (offset + size) (N.of_nat (length file))) as [_|]; [|lia].
Qed.

Lemma chunk_bounds (sz i : N) :
  i < sz →
  (if sz - i <? PAGE_SIZE then sz - i else PAGE_SIZE) ≤ PAGE_SIZE ∧
  i + (if sz - i <? PAGE_SIZE then sz - i else PAGE_SIZE) ≤ sz.
Proof. intros Hi. destruct (N.ltb_spec (sz - i) PAGE_SIZE); lia. Qed.

Lemma loaduvm_body_off_ram (s : PageTableManager.t) (disk : FileDisk.t)
    (filename : string) (file buffer : list N) (va offset sz i : N) :
  (∀ a, is_Some (PhysicalMemory.pages (PageTableManager.phys_mem s) !! a) →
        a < PageTableManager.KERNBASE) →
  off_ram s →
  disk !! filename = Some file → offset + sz ≤ N.of_nat (length file) →
  i < sz → is_Some (translation s (wrap32 (va + i))) →
  ∃ buffer', PageTableManager.loaduvm_body s disk filename buffer va offset sz i
             = Some (inr (s, buffer')).
Proof.
  intros Hkeys Hoff Hf Hlen Hi [pte Htr].
  rewrite loaduvm_body_translation, Htr. cbv zeta.
  destruct (chunk_bounds sz i Hi) as [Hn1 Hn2].
  set (n := if sz - i <? PAGE_SIZE then sz - i else PAGE_SIZE) in *.
  pose proof (N.Div0.mod_le (offset + i) (2 ^ 32)) as Hw. fold (wrap32 (offset + i)) in Hw.
  rewrite (read_file_in_range disk filename file) by (try done; lia).
  cbn [mbind option_bind]. cbv beta iota. rewrite Z.eqb_refl. cbn [negb].
  eexists. do 2 f_equal. f_equal.
  assert (Haddr : PageTableManager.KERNBASE ≤ PageTableManager.PTE_ADDR pte).
  { apply (Hoff (wrap32 (va + i))); [|done]. apply N.mod_lt. done. }
  rewrite write_block_unallocated; [by destruct s|apply PTE_ADDR_aligned| |].
  - rewrite length_take. lia.
  - destruct (PhysicalMemory.pages _ !! PageTableManager.PTE_ADDR pte) eqn:E; [|done].
    specialize (Hkeys _ ltac:(by eexists)). lia.
Qed.

Lemma loaduvm_loop_off_ram (k : nat) (fuel : nat) (s : PageTableManager.t)
    (disk : FileDisk.t) (filename : string) (file buffer : list N) (va offset sz i : N) :
  (k < fuel)%nat → sz ≤ i + N.of_nat k * PAGE_SIZE → sz + PAGE_SIZE ≤ 2 ^ 32 →
  (∀ a, is_Some (PhysicalMemory.pages (PageTableManager.phys_mem s) !! a) →
        a < PageTableManager.KERNBASE) →
  off_ram s →
  disk !! filename = Some file → offset + sz ≤ N.of_nat (length file) →
  (∀ j, j < sz → is_Some (translation s (wrap32 (va + j)))) →
  PageTableManager.loaduvm_loop fuel s disk filename buffer va offset sz i = Some (0%Z, s).
Proof.
  revert fuel buffer i. induction k as [|k IH];
    intros fuel buffer i Hfuel Hend Htop Hkeys Hoff Hf Hlen Hmapped;
    (destruct fuel as [|fuel]; [lia|]); cbn [PageTableManager.loaduvm_loop].
  - by destruct (N.ltb_spec i sz) as [|_]; [lia|].
  - destruct (N.ltb_spec i sz) as [Hi|_]; [|done].
    destruct (loaduvm_body_off_ram s disk filename file buffer va offset sz i)
      as [buffer' ->]; try done; [by apply Hmapped|].
    cbn [mbind option_bind].
    assert (Hw : wrap32 (i + PAGE_SIZE) = i + PAGE_SIZE).
    { apply N.mod_small. lia. }
    rewrite Hw. apply IH; try done; lia.
Qed.

(** With page tables whose translations all lead to addresses at or above
    [KERNBASE], where no page is stored, [loaduvm] of a mapped range from
    a file that holds the bytes reads every chunk, returns 0 and leaves
    the physical memory as it was: nothing is loaded. *)
Theorem loaduvm_off_ram_loads_nothing (s : PageTableManager.t) (disk : FileDisk.t)
    (filename : string) (file buffer : list N) (va offset sz : N) :
  (∀ a, is_Some (PhysicalMemory.pages (PageTableManager.phys_mem s) !! a) →
        a < PageTableManager.KERNBASE) →
  off_ram s →
  disk !! filename = Some file → offset + sz ≤ N.of_nat (length file) →
  sz + PAGE_SIZE ≤ 2 ^ 32 →
  (∀ j, j < sz → is_Some (translation s (wrap32 (va + j)))) →
  PageTableManager.loaduvm s disk filename buffer va offset sz = Some (0%Z, s).
Proof.
  intros Hkeys Hoff Hf Hlen Htop Hmapped. unfold PageTableManager.loaduvm.
  apply (loaduvm_loop_off_ram (S (N.to_nat (sz / PAGE_SIZE))) _ s disk filename file);
    try done; [lia|].
  pose proof (N.div_mod sz PAGE_SIZE ltac:(discriminate)) as Hd.
  pose proof (N.mod_lt sz PAGE_SIZE ltac:(discriminate)) as Hm.
  remember (sz / PAGE_SIZE) as q. remember (sz mod PAGE_SIZE) as r.
  clear Heqq Heqr Hlen Htop Hmapped. unfold PAGE_SIZE in *. lia.
Qed.

Lemma allocuvm_off_ram (s : PageTableManager.t) (oldsz newsz : N) :
  pt_wf s → oldsz ≤ newsz → newsz + PAGE_SIZE ≤ 2 ^ 32 →
  PhysicalMemory.next_free_page (PageTableManager.phys_mem s)
    + 2 * (newsz / PAGE_SIZE + 1) * PAGE_SIZE ≤ PageTableManager.KERNBASE →
  (∀ va', PageTableManager.PGROUNDUP oldsz ≤ va' < PageTableManager.PGROUNDUP newsz →
          translation s va' = None) →
  off_ram s →
  ∃ s', PageTableManager.allocuvm s oldsz newsz = Some (newsz, s') ∧
    off_ram s' ∧
    (∀ a, is_Some (PhysicalMemory.pages (PageTableManager.phys_mem s') !! a) →
          a < PageTableManager.KERNBASE) ∧
    (∀ va', PageTableManager.PGROUNDUP oldsz ≤ va' < PageTableManager.PGROUNDUP newsz →
            is_Some (translation s' va')).
Proof.
  intros Hwf Hle Htop Hroom Hun Hoff.
  destruct (allocuvm_lemma s oldsz newsz Hwf Hle Htop Hroom Hun)
    as (s' & Hret & Hwf' & Hpd & Hcur & Hdom & Hin & Hout).
  exists s'. split; [exact Hret|]. split; [|split].
  - intros va pte Hva Htr.
    destruct (N.lt_ge_cases va (PageTableManager.PGROUNDUP oldsz)) as [Hlo|Hlo];
      [rewrite Hout in Htr by (try done; by left); by apply (Hoff va)|].
    destruct (N.lt_ge_cases va (PageTableManager.PGROUNDUP newsz)) as [Hhi|Hhi];
      [|rewrite Hout in Htr by (try done; by right); by apply (Hoff va)].
    destruct (Hin va ltac:(done)) as (mem & H1 & H2 & Hal & _ & Htr').
    rewrite Htr' in Htr. injection Htr as <-.
    destruct (V2P_low mem Hal ltac:(lia)) as [_ ->]. lia.
  - intros a Ha. destruct Hwf' as (_ & _ & _ & Hfresh & _).
    specialize (Hfresh a Ha). lia.
  - intros va' Hva'. destruct (Hin va' Hva') as (mem & _ & _ & _ & _ & ->). by eexists.
Qed.

Lemma init_off_ram : off_ram PageTableManager.init.
Proof. intros va pte _ Htr. by rewrite init_unmapped in Htr. Qed.

Lemma loaduvm_off_ram_loads_nothing_witness :
  ∃ s', PageTableManager.allocuvm PageTableManager.init 0 8192 = Some (8192, s') ∧
    PageTableManager.loaduvm s' (FileDisk.create_file ∅ "prog" (replicate 4100 1)) "prog"
      [] 0 0 4100
    = Some (0%Z, s').
Proof.
  destruct (allocuvm_off_ram PageTableManager.init 0 8192 init_pt_wf)
    as (s' & Hret & Hoff & Hkeys & Hmapped).
  - vm_compute. discriminate.
  - vm_compute. discriminate.
  - vm_compute. discriminate.
  - intros va' _. apply init_unmapped.
  - exact init_off_ram.
  - exists s'. split; [exact Hret|].
    apply (loaduvm_off_ram_loads_nothing s' _ "prog" (replicate 4100 1)).
    + exact Hkeys.
    + exact Hoff.
    + apply lookup_insert_eq.
    + rewrite length_replicate. vm_compute. discriminate.
    + vm_compute. discriminate.
    + intros j Hj. apply Hmapped. rewrite N.add_0_l.
      assert (Hw : wrap32 j = j) by (apply N.mod_small; change (2 ^ 32) with 4294967296; lia).
      rewrite Hw. change (PageTableManager.PGROUNDUP 0) with 0.
      change (PageTableManager.PGROUNDUP 8192) with 8192. lia.
Defined.

(** [loaduvm] of at most one page to an address whose entry names an
    allocated page: the call returns 0, and the first [sz] bytes of that
    page are then the [sz] bytes of the file from [offset]; the rest of
    the page, the other pages and the page directory register are
    unchanged.  The bytes land at the start of the frame whatever the
    page offset of [va]. *)
Theorem loaduvm_copies_page (s : PageTableManager.t) (disk : FileDisk.t)
    (filename : string) (file buffer pg : list N) (va offset sz pte : N) :
  pm_wf (PageTableManager.phys_mem s) →
  0 < sz → sz ≤ PAGE_SIZE → va < 2 ^ 32 → offset < 2 ^ 32 →
  translation s va = Some pte →
  PhysicalMemory.pages (PageTableManager.phys_mem s) !! PageTableManager.PTE_ADDR pte
    = Some pg →
  disk !! filename = Some file → offset + sz ≤ N.of_nat (length file) →
  ∃ s', PageTableManager.loaduvm s disk filename buffer va offset sz = Some (0%Z, s') ∧
    PhysicalMemory.read_block (PageTableManager.phys_mem s') (PageTableManager.PTE_ADDR pte)
      (N.to_nat sz)
    = take (N.to_nat sz) (drop (N.to_nat offset) file) ∧
    PhysicalMemory.pages (PageTableManager.phys_mem s')
    = <[PageTableManager.PTE_ADDR pte :=
          take (N.to_nat sz) (drop (N.to_nat offset) file) ++ drop (N.to_nat sz) pg]>
        (PhysicalMemory.pages (PageTableManager.phys_mem s)) ∧
    PageTableManager.page_directory_phys s' = PageTableManager.page_directory_phys s.
Proof.
  intros Hwf Hsz Hsz' Hva Hoffset Htr Hpg Hf Hlen.
  unfold PageTableManager.loaduvm. cbn [PageTableManager.loaduvm_loop].
  destruct (N.ltb_spec 0 sz) as [_|]; [|lia].
  rewrite loaduvm_body_translation.
  assert (Hv : wrap32 (va + 0) = va) by (rewrite N.add_0_r; by apply N.mod_small).
  assert (Ho : wrap32 (offset + 0) = offset) by (rewrite N.add_0_r; by apply N.mod_small).
  assert (Hn : (if sz - 0 <? PAGE_SIZE then sz - 0 else PAGE_SIZE) = sz).
  { rewrite N.sub_0_r. destruct (N.ltb_spec sz PAGE_SIZE); lia. }
  rewrite Hv, Ho, Htr. cbv zeta. rewrite Hn.
  rewrite (read_file_in_range disk filename file) by done.
  cbn [mbind option_bind]. cbv beta iota. rewrite Z.eqb_refl. cbn [negb].
  assert (Hi : (wrap32 (0 + PAGE_SIZE) <? sz) = false).
  { apply N.ltb_ge. change (wrap32 (0 + PAGE_SIZE)) with PAGE_SIZE. done. }
  rewrite Hi.
  set (data := take (N.to_nat sz) (drop (N.to_nat offset) file)).
  assert (Hdata : length data = N.to_nat sz).
  { unfold data. rewrite length_take, length_drop. lia. }
  rewrite take_app_length' by done.
  destruct (Hwf _ _ Hpg) as [Hpglen _].
  destruct (write_block_allocated (PageTableManager.phys_mem s)
              (PageTableManager.PTE_ADDR pte) pg data (PTE_ADDR_aligned pte) Hpg Hpglen)
    as [Hw Hr]; [lia|].
  eexists. split; [reflexivity|]. cbn [PageTableManager.phys_mem PageTableManager.page_directory_phys].
  split; [by rewrite <- Hdata|]. split; [|done].
  rewrite Hw. cbn [PhysicalMemory.pages]. by rewrite Hdata.
Qed.

Lemma loaduvm_copies_page_witness :
  ∃ s1 s2,
    PageTableManager.mappages
      (PageTableManager.mk
         (PhysicalMemory.kalloc (PageTableManager.phys_mem PageTableManager.init)).2
         (PageTableManager.page_directory_phys PageTableManager.init))
      4096 4096 1052672 6 = Some (0%Z, s1) ∧
    PageTableManager.loaduvm s1 (FileDisk.create_file ∅ "prog" [1; 2; 3; 4; 5]) "prog"
      [] 4100 1 3 = Some (0%Z, s2) ∧
    PhysicalMemory.read_block (PageTableManager.phys_mem s2) 1052672 3 = [2; 3; 4].
Proof.
  assert (Hroom : PhysicalMemory.next_free_page
                    (PageTableManager.phys_mem PageTableManager.init) + PAGE_SIZE < 2 ^ 32)
    by reflexivity.
  destruct (kalloc_pt_wf PageTableManager.init init_pt_wf Hroom) as [Hwf0 Htr0].
  destruct (mappages_range_lemma _ 4096 4096 1052672 6 Hwf0 eq_refl eq_refl)
    as (s1 & Hmap & Hwf1 & _ & Hin & _ & _ & _ & Hdom).
  - vm_compute. discriminate.
  - vm_compute. discriminate.
  - reflexivity.
  - reflexivity.
  - intros va' _. rewrite Htr0. apply init_unmapped.
  - assert (Htr : translation s1 4100 = Some 1052679).
    { apply (Hin 4100). split; [vm_compute; discriminate|reflexivity]. }
    destruct (Hdom 1052672) as [pg Hpg].
    { exists (replicate (N.to_nat PAGE_SIZE) 0). apply lookup_insert_eq. }
    destruct (loaduvm_copies_page s1 (FileDisk.create_file ∅ "prog" [1; 2; 3; 4; 5]) "prog"
                [1; 2; 3; 4; 5] [] pg 4100 1 3 1052679 (proj1 Hwf1))
      as (s2 & Hload & Hread & _).
    + reflexivity.
    + vm_compute. discriminate.
    + reflexivity.
    + reflexivity.
    + exact Htr.
    + exact Hpg.
    + apply lookup_insert_eq.
    + vm_compute. discriminate.
    + exists s1, s2. split; [exact Hmap|]. split; [exact Hload|]. exact Hread.
Defined.

(** [loaduvm] of a non-empty range whose first address has no translation,
    or from a file that does not exist, returns -1 and changes nothing. *)
Theorem loaduvm_failure_leaves_memory (s : PageTableManager.t) (disk : FileDisk.t)
    (filename : string) (buffer : list N) (va offset sz : N) :
  0 < sz → va < 2 ^ 32 →
  translation s va = None ∨ disk !! filename = None →
  PageTableManager.loaduvm s disk filename buffer va offset sz = Some ((-1)%Z, s).
Proof.
  intros Hsz Hva Hcase.
  unfold PageTableManager.loaduvm. cbn [PageTableManager.loaduvm_loop].
  destruct (N.ltb_spec 0 sz) as [_|]; [|lia].
  rewrite loaduvm_body_translation.
  assert (Hv : wrap32 (va + 0) = va) by (rewrite N.add_0_r; by apply N.mod_small).
  rewrite Hv. destruct (translation s va) as [pte|] eqn:Htr; [|done].
  destruct Hcase as [|Hf]; [done|]. cbv zeta.
  unfold FileDisk.read_file. rewrite Hf. cbn [mbind option_bind]. cbv beta iota.
  destruct (chunk_bounds sz 0 Hsz) as [Hn _].
  pose proof (to_int_small _ Hn) as Hpos.
  destruct (Z.eqb_spec (-1) (FileDisk.to_int (if sz - 0 <? PAGE_SIZE then sz - 0 else PAGE_SIZE)))
    as [Heq|_]; [lia|done].
Qed.

Lemma loaduvm_failure_leaves_memory_witness :
  PageTableManager.loaduvm PageTableManager.init ∅ "prog" [] 4096 0 10
  = Some ((-1)%Z, PageTableManager.init).
Proof.
  apply loaduvm_failure_leaves_memory; [reflexivity|reflexivity|].
  left. apply init_unmapped.
Defined.

Lemma walkpgdir_translated (s : PageTableManager.t) (va pte : N) (alloc : bool) :
  translation s va = Some pte →
  PageTableManager.walkpgdir s va alloc = (Some pte, s).
Proof.
  unfold translation, PageTableManager.lookup_pte, PageTableManager.walkpgdir. cbv zeta.
  destruct (N.land (PhysicalMemory.read_uint32 _ (wrap32 (PageTableManager.page_directory_phys s + _))) _ =? 0);
    [done|].
  destruct (is_present _); [|done]. by intros [= ->].
Qed.

(** [mappages] followed by [walkpgdir]: after a successful [mappages] of a
    page-aligned, previously unmapped range, [walkpgdir] of any address of
    the range returns the entry [mappages] stored for its page, and
    changes nothing, whether or not it is allowed to allocate. *)
Theorem walkpgdir_after_mappages (s : PageTableManager.t) (va size pa perm : N) :
  pt_wf s → PageTableManager.PGROUNDDOWN va = va →
  0 < size → va + size ≤ 2 ^ 32 → pa + size ≤ 2 ^ 32 → perm < 2 ^ 32 →
  PhysicalMemory.next_free_page (PageTableManager.phys_mem s)
    + ((size - 1) / PAGE_SIZE + 1) * PAGE_SIZE < 2 ^ 32 →
  (∀ va', va ≤ va' < va + size → translation s va' = None) →
  ∃ s', PageTableManager.mappages s va size pa perm = Some (0%Z, s') ∧
    ∀ va' alloc, va ≤ va' < va + size →
      PageTableManager.walkpgdir s' va' alloc
      = (Some (N.lor (N.lor (pa + (PageTableManager.PGROUNDDOWN va' - va)) perm)
                 PageTableManager.PTE_PRESENT), s').
Proof.
  intros Hwf Hva Hsize Hend Hpa Hperm Hroom Hun.
  destruct (mappages_range_lemma s va size pa perm Hwf Hva Hsize Hend Hpa Hperm Hroom Hun)
    as (s' & Hmap & _ & _ & Hin & _).
  exists s'. split; [exact Hmap|].
  intros va' alloc Hva'. apply walkpgdir_translated, Hin, Hva'.
Qed.

Lemma walkpgdir_after_mappages_witness :
  ∃ s', PageTableManager.mappages PageTableManager.init 4096 8192 20480 6 = Some (0%Z, s') ∧
    PageTableManager.walkpgdir s' 9000 true = (Some 24583, s').
Proof.
  assert (Hroom : PhysicalMemory.next_free_page
                    (PageTableManager.phys_mem PageTableManager.init)
                  + ((8192 - 1) / PAGE_SIZE + 1) * PAGE_SIZE < 2 ^ 32) by reflexivity.
  destruct (walkpgdir_after_mappages PageTableManager.init 4096 8192 20480 6 init_pt_wf
              eq_refl eq_refl) as (s' & Hmap & Hwalk).
  - vm_compute. discriminate.
  - vm_compute. discriminate.
  - reflexivity.
  - exact Hroom.
  - intros va' _. apply init_unmapped.
  - exists s'. split; [exact Hmap|].
    apply (Hwalk 9000 true). split; [vm_compute; discriminate|reflexivity].
Defined.
